(* ===== verification/_CoqProject ===== *)
-Q . S2P
Prelude.v
Effects.v
Interleave.v
Rely.v
Conduct.v
GoHeap.v
DeepCopy.v
K8s.v
X509.v
Labels.v
Utils.v
Models.v
Normalize.v
V1alpha1.v
Hardware.v
Calls.v
ApiServer.v
Server.v
Repositories.v
Heartbeat.v
Fmt.v
Concurrent.v
EdgeDeploymentController.v
Convergence.v
EdgeDeviceLabelsController.v
LabelsConvergence.v
Base64.v
Storage.v
EdgeDeviceController.v
Lookups.v
ConfigMaps.v
Secrets.v
Yggdrasil.v
Registration.v
DeviceSide.v
CertUtils.v
Mtls.v
MtlsSpec.v
Main.v
Startup.v
Webhook.v
Watcher.v
Validation.v
Contract.v
Rest.v
Client.v
ManagementApi.v
UrlBuilder.v
DeviceServer.v
EmbeddedSpec.v
Schema.v
Floats.v
Wire.v
Agent.v
Decode.v
Untyped.v
Binary.v
Conforming.v
ApiDocument.v
Decency.v
Goodbye.v
System.v
Workqueue.v
Triggers.v
Settling.v
Operator.v
