(* ===== verification/Prelude.v ===== *)
(** * Flotta operator: verification library (root file)

    The operator (Go, package paths below are under [src/]) manages edge devices
    from a Kubernetes cluster. Three controllers keep custom resources in order:
    which deployments are on which devices, by name or by label selector. An
    HTTP server, over mutual TLS, is what the devices talk to: they register,
    send heartbeats and fetch their configuration. This library is a shallow
    embedding of that code with the theorems that make it correct. This file
    holds what all others share: Go errors, nil dereferences, list lemmas, hint
    databases.

    ** Effects

    A piece of code that calls out is a [prog] ([Effects]): a tree of calls to
    the API server, the clock, the random source and libraries ([Calls] lists
    them all), of internal choices (the scheduler, the order of a map), of
    returns and of crashes (a panic or [os.Exit]). Code that calls nothing is a
    Gallina function; a possible nil dereference is a [deref], an error a
    [result] or an [option error]. There are two readings of a program.

    - By traces: [exec] relates a program to the calls it made, with their
      answers, and to its outcome; the environment may answer anything. [wp] is
      the weakest precondition of that, and the form of most theorems: whatever
      the answers, these calls were made, in this order, and this was returned.
      [within] bounds the calls a program can make. Two programs with the same
      executions may be exchanged ([same_executions], a congruence for setoid
      rewriting).
    - By worlds ([Rely], [ApiServer]): [answers] says what a call does to a
      world, [evolves] extends it to traces, [swp] is the precondition over
      worlds and [rg] the rely-guarantee version that goroutines compose by.
      [ApiServerLaws] is the documented behaviour of the API server that is
      assumed (patches are merges, status is a subresource, a failed call
      changes nothing; the answer of a write is decoded into the object that was
      sent, where labels that the answer does not have stay, [decoded]); [Server]
      is an in-memory world with these laws, against which the witnesses run
      ([run]).
    - By conduct ([Conduct]): [conduct A G p Q] says that as long as the answers
      are as [A] expects, the program makes only calls that [G] allows. A [pool]
      of such programs, started and lost at any time, keeps an invariant of the
      world that the allowed calls and the other users keep ([pool_invariant]);
      reads may be answered from any past world, as by a cache ([recalls]).

    Goroutines are interleavings of calls ([par] of [Interleave]); ranging over a
    map is a free choice of a permutation ([permute]).

    ** Data and libraries

    [K8s] and [X509] hold the parts of Kubernetes objects and of certificates
    that the code reads; [V1alpha1] the custom resources
    ([api/v1alpha1/*_types.go]); [Models] the messages ([models/*.go]). A pointer
    is an [option], a map a [gmap], a fixed-width integer a [Z] whose wrap-around
    is written out where it can happen ([to_int], [splitEdgeDevices], ports).
    [Labels] has [internal/labels] and the vendored label selectors, [Utils] and
    [Normalize] have [internal/utils], [Fmt] the formatting of a message used as
    a format, [Base64] the encoding of secrets.

    ** The controllers

    - [Concurrent]: [splitEdgeDevices], [ExecuteConcurrent] and the merging of
      errors of [controllers/edgedeployment_controller.go].
    - [EdgeDeploymentController]: the rest of that file; [Reconcile] with the
      finalizer, the selector labels, the devices to add and to remove. Its
      theorems speak of traces: what success means, the frame, the order, the
      end of a deployment.
    - [Convergence]: the same controller in a world. Success means that the
      deployment is on exactly the devices it is meant for ([meant_for] is the
      specification), under every interleaving; and that state is a fixpoint.
    - [EdgeDeviceLabelsController], [LabelsConvergence]:
      [controllers/edgedevicelabels_controller.go] in the same two readings, the
      index of selector labels it shares with the other controller, and where
      the index has gaps. Of the workload labels it adds those of the deployments
      that came; what it removes comes back with the answer of its first patch.
    - [EdgeDeviceController]: [controllers/edgedevice_controller.go].
    - [Triggers]: the methods [SetupWithManager] of all three, with the vendored
      builder, predicates and event source: which changes a controller is shown.
      [Workqueue]: the vendored queue between a change and [Reconcile], with its
      workers, as a machine of stages. Every change that is shown is followed by a
      whole, successful reconciliation before the controller has nothing left to
      do; the others do not matter to it. [Settling]: a deployment through the
      rounds that its queue owes it, from a new one to the desired state.
    - [Repositories]: [internal/repository]. The controllers and handlers are
      written against its interfaces ([EdgeDeviceRepository],
      [EdgeDeploymentRepository] and their laws), which the implementations over
      the client satisfy.

    ** The device side

    - [Yggdrasil], [Registration]: [internal/yggdrasil/yggdrasil.go], the four
      handlers, the configuration message and its parts, registration.
    - [DeviceSide]: registrations and heartbeats in a world, composed through
      their retries: the device that is stored after a success ([enrolled],
      [heard]), and what a failure can leave behind.
    - [Heartbeat] ([internal/heartbeat]), [Hardware] ([internal/hardware]),
      [Secrets], [ConfigMaps] ([internal/configmaps]), [Storage]
      ([internal/storage]), [Lookups] ([internal/devicemetrics],
      [internal/images]): what the handlers use, behind interfaces with laws.
    - [Validation]: the [Validate] methods of [models/*.go]; [Contract]: what the
      configuration that the handlers send has to do with them.
    - [EmbeddedSpec]: the document of the API ([restapi/embedded_spec.go]), both
      copies, as JSON. [Schema] reads its schemas and says which values they
      accept; [Wire] writes the messages as JSON, by the tags of their fields,
      and relates the three: [Validate], the schemas, and the configuration sent.
      [ApiDocument] reads its paths: the routes, parameters and statuses of the
      generated server and client are those of the document.
    - [Decode] reads the messages from JSON as [encoding/json] does, with a
      [Codec] for every type: what [Wire] wrote comes back. [Agent] has the types
      of what only devices read, [Untyped] the documents that pass through an
      [interface{}], as the content of a message does, [Floats] the numbers in
      them. [Binary]: the methods [MarshalBinary] and [UnmarshalBinary] of
      [models/*.go], which undo each other type by type ([methods_round_trip]),
      the producer and the consumer, and the way of a heartbeat or a registration
      from a device into its handler, and of a configuration back.
      [Conforming]: a document that the specification accepts is read, valid, and
      safe for the handlers.
    - [Rest]: [restapi] and [client/yggdrasil]. A request is routed, let through
      the middleware, bound, validated and handled, and the client reads the
      response; [serve_spec] says that nothing gets to a handler unchecked.
    - [Client]: [client], the methods of the generated client with their
      parameters; [client_remote_call] says that calling one is calling the
      handler.
    - [CertUtils], [Mtls], [MtlsSpec]: [internal/mtls]. The provider's state is
      its latest authority; operations that change it answer the new provider.
    - [ManagementApi]: the generated API object
      ([restapi/operations/flotta_management_api.go]) and [HandlerAPI]
      ([restapi/configure_flotta_management.go]); configured like this, it is the
      server of [Rest]. [UrlBuilder]: the builders of the operations' URLs.
    - [Startup], [Main], [DeviceServer]: [main.go]. [Startup] has [init] and [main]
      as the calls they make until the manager runs; [Main] the preparation of
      TLS and [InnerMiddleware]; [DeviceServer] the goroutine that puts these and
      the API together, with the handler of the middleware package, and shows
      that what it listens with is the server of [Rest].

    ** The whole

    - [Decency]: what every activity of the operator keeps to when it touches
      devices, as a [conduct]: also which finalizers a patch may leave, told by
      the versions of the device that were ever stored.
    - [System]: all activities together, requests and reconciliations, with any
      interleaving, lagging reads, crashes, and users at work. Devices stay
      decent; the operator takes finalizers only from devices under deletion,
      only its own two and in their order, and so never takes a device away that
      no user deleted.
    - [Goodbye]: the life of a device as a machine of phases; every request of a
      device is a step of it, so a registered device is gone only after it was
      emptied and told so.
    - [Operator]: the implementations behind the interfaces, and runs.

    ** The rest

    [GoHeap] is a memory of pointers, slices and maps, and [DeepCopy] in it the
    copies of [api/v1alpha1/zz_generated.deepcopy.go]: they share nothing with
    their original, so that the resources can be values everywhere else.
    [Webhook] ([api/v1alpha1/edgedeployment_webhook.go]) decides which
    deployments are admitted; [Watcher] ([watchers/configmap_watcher.go]), with
    the retries of the client library, when the operator restarts.

    ** Bounds and fuel

    [split_loop] is called with one more than twice the number of devices, which
    [split_loop_spec] shows to be enough for every length and every positive
    concurrency below 2^63; [doPrintf] with the length of its text, of which
    each step consumes a character. The retry loops are bounded in the source
    (three retries of the label and status updates, four attempts of a
    heartbeat) and structural here. [WatchForChanges] never returns, so it is
    run on the list of the answers of [Watch]; each session uses one up, so
    their number is fuel enough, and one more than the steps of the backoff is
    enough for [OnError], which counts them down. Everything else recurs structurally: every model
    of a Go function that returns is total.

    ** Not modelled, and why

    - What the manager, its cache, listeners and loggers do once [main] has made
      them: libraries. In [Workqueue] the length of a pause is left out (it ends at
      some time), and so are metrics; [System] only needs that a reconciler may be
      called at any time.
    - Texts of JSON, YAML, PEM, X.509, cryptography, HTTP transport, routing and
      content negotiation: libraries. They are calls of the environment or
      parameters; a theorem that needs something of them has it as a named
      hypothesis, and its witness instantiates it. A JSON document is a tree
      ([json]); an integral number of less than 2^53 is an integer in it, any
      other float is itself, and what digits such a float is printed with is
      part of the text, so no integer is read from one.
    - The hooks and loggers of the API object: generated code that forwards.
    - [internal/k8sclient], mocks, [test], [tools]: a forwarder, test doubles,
      suites and build tools.

    Texts of errors of the vendored libraries are abbreviated, those of the
    operator are kept. *)
From stdpp Require Export prelude gmap strings list sorting fin_maps.
#[export] Set Default Goal Selector "!".
#[export] Set Warnings "-clear-no-such-hyp".

(** ** Go errors

    An [error] is either a status error of the Kubernetes API, whose reason the
    program inspects with [errors.IsNotFound], or any other error, of which
    only the message is observable. *)
Inductive StatusReason : Type :=
  | StatusReasonNotFound
  | StatusReasonAlreadyExists
  | StatusReasonConflict
  | StatusReasonUnknown.

Inductive error : Type :=
  | StatusError (reason : StatusReason) (message : string)
  | ErrorString (message : string).

#[export] Instance StatusReason_eq_dec : EqDecision StatusReason.
Proof. solve_decision. Defined.
#[export] Instance error_eq_dec : EqDecision error.
Proof. solve_decision. Defined.

(** [err.Error()] *)
Definition Error (e : error) : string :=
  match e with StatusError _ m => m | ErrorString m => m end.

(** [errors.IsNotFound]: an error built by [fmt.Errorf] with [%v] is never a
    status error, so it is not found again through the wrapping. *)
Definition IsNotFound (e : error) : bool :=
  match e with StatusError StatusReasonNotFound _ => true | _ => false end.

(** A Go call that returns a value and an error. *)
Inductive result (A : Type) : Type :=
  | Ok (a : A)
  | Err (e : error).
Arguments Ok {_} _.
Arguments Err {_} _.

Definition is_ok {A} (r : result A) : bool := match r with Ok _ => true | Err _ => false end.

#[export] Instance result_fmap : FMap result :=
  λ A B f r, match r with Ok a => Ok (f a) | Err e => Err e end.

(** Code without calls that may dereference a nil pointer. *)
Inductive deref (A : Type) : Type :=
  | Val (a : A)
  | NilDeref.
Arguments Val {_} _.
Arguments NilDeref {_}.

#[export] Instance deref_mret : MRet deref := λ A a, Val a.
#[export] Instance deref_mbind : MBind deref :=
  λ A B f x, match x with Val a => f a | NilDeref => NilDeref end.
#[export] Instance deref_fmap : FMap deref :=
  λ A B f x, match x with Val a => Val (f a) | NilDeref => NilDeref end.

(** [*p] *)
Definition deref_ptr {A} (p : option A) : deref A :=
  match p with Some a => Val a | None => NilDeref end.

(** The loop [for _, x := range xs { ys = append(ys, f(x)) }]. *)
Fixpoint deref_map {A B} (f : A → deref B) (xs : list A) : deref (list B) :=
  match xs with
  | [] => Val []
  | x :: xs => match f x with
               | Val y => match deref_map f xs with Val ys => Val (y :: ys) | NilDeref => NilDeref end
               | NilDeref => NilDeref
               end
  end.

(** ** Tactics shared by the development *)

(** Split the innermost [match] or [if] of the goal, keeping the equation. *)
Ltac case_innermost :=
  match goal with
  | |- context [match ?x with _ => _ end] =>
      lazymatch x with context [match _ with _ => _ end] => fail | _ => destruct x eqn:? end
  end.

(** Normalise hypotheses that equate constructors and use their content. *)
Ltac simp := repeat first [progress simplify_eq/= | progress destruct_and? ].

Create HintDb go discriminated.
Create Rewrite HintDb go.

(** ** Lists *)
Lemma ex_cons {A} (P : A → Prop) (x : A) l :
  (∃ y, y ∈ x :: l ∧ P y) ↔ P x ∨ ∃ y, y ∈ l ∧ P y.
Proof. setoid_rewrite elem_of_cons. naive_solver. Qed.

Lemma ex_nil {A} (P : A → Prop) : (∃ y, y ∈ [] ∧ P y) ↔ False.
Proof. setoid_rewrite elem_of_nil. naive_solver. Qed.

Lemma deref_map_Forall2 {A B} (f : A → deref B) xs ys :
  deref_map f xs = Val ys ↔ Forall2 (λ x y, f x = Val y) xs ys.
Proof.
  split.
  - revert ys; induction xs as [|x xs IH]; simpl; intros ys; [intros [=<-]; constructor|].
    destruct (f x) eqn:E; [|done]. destruct (deref_map f xs); [|done].
    intros [=<-]. constructor; eauto.
  - induction 1 as [|x y xs ys Hf _ IH]; simpl; [done|]. by rewrite Hf, IH.
Qed.

Lemma deref_map_NilDeref {A B} (f : A → deref B) xs :
  deref_map f xs = NilDeref ↔ ∃ x, x ∈ xs ∧ f x = NilDeref.
Proof.
  induction xs as [|x xs IH]; simpl; [rewrite ex_nil; done|].
  rewrite ex_cons, <- IH. destruct (f x); [|tauto].
  destruct (deref_map f xs); split; [done|intros [?|?]; done|by right|done].
Qed.

Lemma incl_app_l {A} (l k : list A) : l ⊆ l ++ k.
Proof. intros x Hx. apply elem_of_app. by left. Qed.
Lemma incl_app_r {A} (l k : list A) : k ⊆ l ++ k.
Proof. intros x Hx. apply elem_of_app. by right. Qed.
#[export] Hint Resolve incl_app_l incl_app_r : core.

(** The values of a map whose entries are listed by [xs]. *)
Lemma map_values_perm {A X} (key : X → string) (val : X → A) (m : gmap string A) xs :
  NoDup (key <$> xs) → (∀ n a, m !! n = Some a ↔ ∃ x, x ∈ xs ∧ key x = n ∧ val x = a) →
  (map_to_list m).*2 ≡ₚ val <$> xs.
Proof.
  intros Hnd Hm. set (l := (λ x, (key x, val x)) <$> xs).
  assert (Hl1 : l.*1 = key <$> xs) by (unfold l; by rewrite <- list_fmap_compose).
  assert (Hl2 : l.*2 = val <$> xs) by (unfold l; by rewrite <- list_fmap_compose).
  assert (m = list_to_map l) as ->.
  { apply map_eq. intros n. apply option_eq. intros a.
    rewrite Hm, <- elem_of_list_to_map by (by rewrite Hl1). unfold l. rewrite list_elem_of_fmap.
    split; [intros (x & Hx & <- & <-); eauto|intros (x & [= -> ->] & Hx); eauto]. }
  rewrite map_to_list_to_map by (by rewrite Hl1). by rewrite Hl2.
Qed.

(** ** Strings *)
#[export] Instance string_app_assoc : Assoc (=) String.append.
Proof.
  intros s t u. induction s as [|c s IH]; [done|].
  change (String c (s +:+ (t +:+ u)) = String c ((s +:+ t) +:+ u)). by rewrite IH.
Qed.
