(* ===== verification/Effects.v ===== *)
(** * Effects: programs that call their environment

    Go code that talks to the API server, the clock or a library is a tree of
    calls ([prog]). A call is answered by the environment, which is free to
    answer anything the signature admits. [exec] gives the finished
    executions of a program with their traces; [wp] is the corresponding
    weakest precondition, which is what the proofs compute with; [run]
    executes a program against one concrete environment. [par] is the
    interleaving of goroutines and [permute] the order in which Go ranges
    over a map. *)
From S2P Require Import Prelude.

(** Abnormal ends of a Go program: a run-time panic or [os.Exit]. *)
Inductive crash : Type :=
  | Panic
  | Exit (code : Z).

Inductive outcome (R : Type) : Type :=
  | Returned (r : R)
  | Crashed (c : crash).
Arguments Returned {_} _.
Arguments Crashed {_} _.

Definition is_returned {R} (o : outcome R) : bool :=
  match o with Returned _ => true | Crashed _ => false end.

Structure signature := Signature { op : Type; ans : op → Type }.

(** A program either returns, crashes, calls the environment, or makes an
    internal choice of a number below [n] (the scheduler, map iteration). *)
Inductive prog (S : signature) (R : Type) : Type :=
  | Ret (r : R)
  | Crash (c : crash)
  | Call (o : op S) (k : ans S o → prog S R)
  | Pick (n : nat) (k : nat → prog S R).
Arguments Ret {_ _} _.
Arguments Crash {_ _} _.
Arguments Call {_ _} _ _.
Arguments Pick {_ _} _ _.

Inductive event (S : signature) : Type := Ev (o : op S) (a : ans S o).
Arguments Ev {_} _ _.

Definition ev_op {S} (e : event S) : op S := match e with Ev o _ => o end.

Fixpoint prog_bind {S A B} (f : A → prog S B) (p : prog S A) : prog S B :=
  match p with
  | Ret a => f a
  | Crash c => Crash c
  | Call o k => Call o (λ x, prog_bind f (k x))
  | Pick n k => Pick n (λ i, prog_bind f (k i))
  end.

#[export] Instance prog_mret {S} : MRet (prog S) := λ A a, Ret a.
#[export] Instance prog_mbind {S} : MBind (prog S) := λ A B f p, prog_bind f p.
#[export] Instance prog_fmap {S} : FMap (prog S) := λ A B f p, prog_bind (λ a, Ret (f a)) p.

(** One call, as a program returning its answer. *)
Definition call {S} (o : op S) : prog S (ans S o) := Call o (λ a, Ret a).

(** Code without calls, as a program: a nil dereference is a panic. *)
Definition lift {S A} (x : deref A) : prog S A :=
  match x with Val a => Ret a | NilDeref => Crash Panic end.

(** Sequencing of Go calls that return an error: the error is returned at once. *)
Definition bind_ok {S A B} (p : prog S (result A)) (f : A → prog S (result B)) : prog S (result B) :=
  prog_bind (λ r, match r with Ok a => f a | Err e => Ret (Err e) end) p.

Declare Scope go_scope.
Delimit Scope go_scope with go.
Notation "x ←? p ; k" := (bind_ok p (λ x, k))
  (at level 20, p at level 100, k at level 200, only parsing) : go_scope.
#[export] Set Warnings "-notation-overridden".
Open Scope go_scope.

(** ** Loops *)

(** [for _, x := range xs { acc = body(acc, x) }] *)
Fixpoint foldM {S A X} (f : A → X → prog S A) (a : A) (xs : list X) : prog S A :=
  match xs with
  | [] => Ret a
  | x :: xs => prog_bind (λ a', foldM f a' xs) (f a x)
  end.

(** The same loop when the body may [return err]. *)
Fixpoint foldR {S A X} (f : A → X → prog S (result A)) (a : A) (xs : list X) : prog S (result A) :=
  match xs with
  | [] => Ret (Ok a)
  | x :: xs => bind_ok (f a x) (λ a', foldR f a' xs)
  end.

(** ** Executions *)
Section exec.
Context {S : signature}.

Inductive exec {R} : prog S R → list (event S) → outcome R → Prop :=
    | exec_ret r : exec (Ret r) [] (Returned r)
    | exec_crash c : exec (Crash c) [] (Crashed c)
    | exec_call o k a tr out : exec (k a) tr out → exec (Call o k) (Ev o a :: tr) out
    | exec_pick n k i tr out : i < n → exec (k i) tr out → exec (Pick n k) tr out.

Fixpoint wp {R} (p : prog S R) (Q : list (event S) → outcome R → Prop) : Prop :=
    match p with
    | Ret r => Q [] (Returned r)
    | Crash c => Q [] (Crashed c)
    | Call o k => ∀ a, wp (k a) (λ tr out, Q (Ev o a :: tr) out)
    | Pick n k => ∀ i, i < n → wp (k i) Q
    end.

  (** [wp] speaks about exactly the executions. *)
Lemma wp_exec {R} (p : prog S R) Q :
    wp p Q ↔ ∀ tr out, exec p tr out → Q tr out.
  Proof.
    revert Q; induction p as [r|c|o k IH|n k IH]; intros Q; simpl.
    - split; [intros H tr out He; by inversion He | intros H; apply H; constructor].
    - split; [intros H tr out He; by inversion He | intros H; apply H; constructor].
    - setoid_rewrite IH. split.
      + intros H tr out He.
        refine (match He in exec p tr out return
          match p with Call o k => (∀ a tr out, exec (k a) tr out → Q (Ev o a :: tr) out) → Q tr out
                     | _ => True end with
          | exec_call _ _ _ _ _ H' => λ G, G _ _ _ H' | _ => I end H).
      + intros H a tr out He. apply H. by constructor.
    - setoid_rewrite IH. split.
      + intros H tr out He. inversion He; simplify_eq; eauto.
      + intros H i Hi tr out He. apply H. by econstructor.
  Qed.

Lemma wp_mono {R} (p : prog S R) Q Q' :
    wp p Q → (∀ tr out, Q tr out → Q' tr out) → wp p Q'.
  Proof. rewrite !wp_exec. eauto. Qed.

Lemma wp_and {R} (p : prog S R) Q Q' :
    wp p Q → wp p Q' → wp p (λ tr out, Q tr out ∧ Q' tr out).
  Proof. rewrite !wp_exec. eauto. Qed.

Lemma wp_all {R X} (p : prog S R) (Q : X → _ → _ → Prop) :
    (∀ x, wp p (Q x)) → wp p (λ tr out, ∀ x, Q x tr out).
  Proof. setoid_rewrite wp_exec. eauto. Qed.

Lemma wp_bind {A B} (p : prog S A) (f : A → prog S B) Q :
    wp (prog_bind f p) Q ↔
    wp p (λ tr out, match out with
                    | Returned a => wp (f a) (λ tr' out', Q (tr ++ tr') out')
                    | Crashed c => Q tr (Crashed c)
                    end).
  Proof.
    revert Q; induction p as [r|c|o k IH|n k IH]; intros Q; simpl.
    - done.
    - done.
    - split; intros H a; specialize (H a); by apply IH in H || apply IH.
    - split; intros H a Ha; specialize (H a Ha); by apply IH in H || apply IH.
  Qed.

Lemma wp_bind_ok {A B} (p : prog S (result A)) (f : A → prog S (result B)) Q :
    wp (bind_ok p f) Q ↔
    wp p (λ tr out, match out with
                    | Returned (Ok a) => wp (f a) (λ tr' out', Q (tr ++ tr') out')
                    | Returned (Err e) => Q tr (Returned (Err e))
                    | Crashed c => Q tr (Crashed c)
                    end).
  Proof.
    unfold bind_ok. rewrite wp_bind. split; intros H; eapply wp_mono; eauto; simpl;
      intros tr [[a|e]|c]; simpl; rewrite ?app_nil_r; auto.
  Qed.

Lemma exec_call_inv {R} (o : op S) (k : ans S o → prog S R) tr out :
    exec (Call o k) tr out → ∃ a tr', tr = Ev o a :: tr' ∧ exec (k a) tr' out.
  Proof.
    revert tr out. apply wp_exec. simpl. intros a. apply wp_exec. intros tr out He. by exists a, tr.
  Qed.

Lemma exec_bind_inv {A B} (p : prog S A) (f : A → prog S B) tr out :
    exec (prog_bind f p) tr out →
    (∃ a tr1 tr2, tr = tr1 ++ tr2 ∧ exec p tr1 (Returned a) ∧ exec (f a) tr2 out) ∨
    (∃ c, out = Crashed c ∧ exec p tr (Crashed c)).
  Proof.
    revert tr out.
    apply wp_exec, wp_bind, wp_exec. intros tr [a|c] Hp; [|by eauto].
    apply wp_exec. intros tr' out' Hf. left. eauto 10.
  Qed.

Lemma exec_bind {A B} (p : prog S A) (f : A → prog S B) tr1 tr2 a out :
    exec p tr1 (Returned a) → exec (f a) tr2 out → exec (prog_bind f p) (tr1 ++ tr2) out.
  Proof.
    intros Hp Hf. remember (Returned a) as r eqn:Hr.
    induction Hp; simplify_eq/=; [done|constructor; auto|econstructor; eauto].
  Qed.

  (** Loop rules. [I done acc tr] relates the iterations done, the state they
      leave and the events they made. *)
Lemma wp_foldM {A X} (f : A → X → prog S A)
      (I : list X → A → list (event S) → Prop) (K : crash → list (event S) → Prop) a xs :
    I [] a [] →
    (∀ done x todo acc tr, xs = done ++ x :: todo → I done acc tr →
       wp (f acc x) (λ tr' out, match out with
                                | Returned acc' => I (done ++ [x]) acc' (tr ++ tr')
                                | Crashed c => K c (tr ++ tr')
                                end)) →
    wp (foldM f a xs) (λ tr out, match out with
                                 | Returned acc => I xs acc tr
                                 | Crashed c => K c tr
                                 end).
  Proof.
    intros H0 Hstep.
    enough (∀ todo done acc tr, xs = done ++ todo → I done acc tr →
      wp (foldM f acc todo) (λ tr' out, match out with
        | Returned acc' => I xs acc' (tr ++ tr') | Crashed c => K c (tr ++ tr') end)) as Hgen
      by (apply (Hgen xs [] a []); done).
    intros todo; induction todo as [|x todo IH]; intros dn acc tr Hxs HI; simpl.
    { rewrite app_nil_r in Hxs. subst dn. by rewrite app_nil_r. }
    apply wp_bind. eapply wp_mono; [by eapply Hstep|]. intros tr' [acc'|c]; simpl; [|done].
    intros HI'. eapply wp_mono; [apply (IH (dn ++ [x]) acc' (tr ++ tr'))|].
    - by rewrite <- app_assoc.
    - done.
    - intros tr'' [?|?]; simpl; by rewrite app_assoc.
  Qed.

Lemma wp_foldR {A X} (f : A → X → prog S (result A))
      (I : list X → A → list (event S) → Prop)
      (E : error → list (event S) → Prop) (K : crash → list (event S) → Prop) a xs :
    I [] a [] →
    (∀ done x todo acc tr, xs = done ++ x :: todo → I done acc tr →
       wp (f acc x) (λ tr' out, match out with
                                | Returned (Ok acc') => I (done ++ [x]) acc' (tr ++ tr')
                                | Returned (Err e) => E e (tr ++ tr')
                                | Crashed c => K c (tr ++ tr')
                                end)) →
    wp (foldR f a xs) (λ tr out, match out with
                                 | Returned (Ok acc) => I xs acc tr
                                 | Returned (Err e) => E e tr
                                 | Crashed c => K c tr
                                 end).
  Proof.
    intros H0 Hstep.
    enough (∀ todo done acc tr, xs = done ++ todo → I done acc tr →
      wp (foldR f acc todo) (λ tr' out, match out with
        | Returned (Ok acc') => I xs acc' (tr ++ tr')
        | Returned (Err e) => E e (tr ++ tr')
        | Crashed c => K c (tr ++ tr') end)) as Hgen
      by (apply (Hgen xs [] a []); done).
    intros todo; induction todo as [|x todo IH]; intros dn acc tr Hxs HI; simpl.
    { rewrite app_nil_r in Hxs. subst dn. by rewrite app_nil_r. }
    apply wp_bind_ok. eapply wp_mono; [by eapply Hstep|].
    intros tr' [[acc'|e]|c]; simpl; [|done|done].
    intros HI'. eapply wp_mono; [apply (IH (dn ++ [x]) acc' (tr ++ tr'))|].
    - by rewrite <- app_assoc.
    - done.
    - intros tr'' [[?|?]|?]; simpl; by rewrite app_assoc.
  Qed.
End exec.

(** A loop that appends what each element gives. *)
Lemma wp_collect {S : signature} {X Y} (f : list Y → X → prog S (result (list Y)))
    (Φ : X → list Y → list (event S) → Prop) (K : crash → Prop) xs :
  (∀ x ys tr tr', tr ⊆ tr' → Φ x ys tr → Φ x ys tr') →
  (∀ acc x, wp (f acc x) (λ tr out, match out with
     | Returned (Ok acc') => ∃ ys, acc' = acc ++ ys ∧ Φ x ys tr
     | Returned (Err _) => True
     | Crashed c => K c
     end)) →
  wp (foldR f [] xs) (λ tr out, match out with
    | Returned (Ok l) => ∃ outs, Forall2 (λ x ys, Φ x ys tr) xs outs ∧ l = concat outs
    | Returned (Err _) => True
    | Crashed c => K c
    end).
Proof.
  intros Hmono Hf. apply (wp_foldR f
    (λ dn acc tr, ∃ outs, Forall2 (λ x ys, Φ x ys tr) dn outs ∧ acc = concat outs)
    (λ _ _, True) (λ c _, K c)).
  - exists []. split; [constructor|done].
  - intros dn x todo acc tr _ (outs & H2 & ->). eapply wp_mono; [apply Hf|].
    intros tr' [[acc'|e]|c]; [|done|done]. intros (ys & -> & Hx). exists (outs ++ [ys]). split.
    + apply Forall2_app; [|constructor; [by eapply Hmono; [|exact Hx]|constructor]].
      eapply Forall2_impl; [exact H2|]. intros y zs. apply Hmono. auto.
    + rewrite concat_app. simpl. by rewrite app_nil_r.
Qed.

(** ** Footprints: which calls a program can make *)
Section within.
Context {S : signature} (P : op S → Prop).

Fixpoint within {R} (p : prog S R) : Prop :=
  match p with
  | Ret _ | Crash _ => True
  | Call o k => P o ∧ ∀ a, within (k a)
  | Pick n k => ∀ i, i < n → within (k i)
  end.

Lemma within_wp {R} (p : prog S R) : within p → wp p (λ tr _, Forall P (ev_op <$> tr)).
Proof.
  induction p as [r|c|o k IH|n k IH]; simpl; [done|done| |by eauto].
  intros [HP Hk] a. eapply wp_mono; [by apply IH|]. intros tr out H. by constructor.
Qed.

Lemma within_bind {A B} (p : prog S A) (f : A → prog S B) :
  within p → (∀ a, within (f a)) → within (prog_bind f p).
Proof. induction p as [r|c|o k IH|n k IH]; simpl; naive_solver. Qed.

Lemma within_bind_ok {A B} (p : prog S (result A)) (f : A → prog S (result B)) :
  within p → (∀ a, within (f a)) → within (bind_ok p f).
Proof. intros Hp Hf. apply within_bind; [done|]. by intros [a|e]; simpl. Qed.

Lemma within_call o : P o → within (call o).
Proof. simpl. eauto. Qed.

Lemma within_lift {A} (x : deref A) : within (lift x).
Proof. by destruct x. Qed.

Lemma within_foldM {A X} (f : A → X → prog S A) a xs :
  (∀ a x, x ∈ xs → within (f a x)) → within (foldM f a xs).
Proof.
  revert a; induction xs as [|x xs IH]; intros a Hf; simpl; [done|].
  apply within_bind; [apply Hf; left|]. intros a'. apply IH. intros b y Hy. apply Hf. by right.
Qed.

Lemma within_foldR {A X} (f : A → X → prog S (result A)) a xs :
  (∀ a x, x ∈ xs → within (f a x)) → within (foldR f a xs).
Proof.
  revert a; induction xs as [|x xs IH]; intros a Hf; simpl; [done|].
  apply within_bind_ok; [apply Hf; left|]. intros a'. apply IH. intros b y Hy. apply Hf. by right.
Qed.
End within.

Lemma within_mono {S : signature} {R} (P P' : op S → Prop) (p : prog S R) :
  (∀ o, P o → P' o) → within P p → within P' p.
Proof. intros HP. induction p as [r|c|o k IH|n k IH]; simpl; naive_solver. Qed.

#[export] Hint Resolve within_bind within_bind_ok within_call within_lift within_foldM
  within_foldR : go.

(** Prove a footprint by following the program. *)
Ltac within_step :=
  match goal with
  | |- _ → _ => intros
  | |- ∀ _, _ => intros
  | |- _ ∧ _ => split
  | |- within _ (prog_bind _ _) => apply within_bind
  | |- within _ (mbind _ _) => apply within_bind
  | |- within _ (bind_ok _ _) => apply within_bind_ok
  | |- within _ (call _) => apply within_call
  | |- within _ (lift _) => apply within_lift
  | |- within _ (foldM _ _ _) => apply within_foldM
  | |- within _ (foldR _ _ _) => apply within_foldR
  | |- within _ (Ret _) => exact I
  | |- within _ (Crash _) => exact I
  | |- within _ (match ?x with _ => _ end) => destruct x
  end.
Ltac within_go := repeat first [within_step | progress simpl | solve [repeat split] | solve [eauto with go]].

(** ** Running a program against a concrete environment *)
Section run.
Context {S : signature} {W : Type}.
Record env := Env {
    answer : ∀ o : op S, W → ans S o * W;
    choose : nat → W → nat * W;
  }.

Fixpoint run {R} (e : env) (p : prog S R) (w : W) : list (event S) * outcome R * W :=
    match p with
    | Ret r => ([], Returned r, w)
    | Crash c => ([], Crashed c, w)
    | Call o k => let '(a, w1) := answer e o w in
                  let '(tr, out, w2) := run e (k a) w1 in (Ev o a :: tr, out, w2)
    | Pick n k => let '(i, w1) := choose e n w in run e (k (Nat.min i (pred n))) w1
    end.

  (** The run meets no empty choice. *)
Fixpoint live {R} (e : env) (p : prog S R) (w : W) : bool :=
    match p with
    | Ret _ | Crash _ => true
    | Call o k => let '(a, w1) := answer e o w in live e (k a) w1
    | Pick n k => Nat.ltb 0 n && let '(i, w1) := choose e n w in live e (k (Nat.min i (pred n))) w1
    end.

Lemma run_exec {R} (e : env) (p : prog S R) w :
    live e p w = true → exec p (run e p w).1.1 (run e p w).1.2.
  Proof.
    revert w; induction p as [r|c|o k IH|n k IH]; intros w Hl; simpl in *; try constructor.
    - destruct (answer e o w) as [a w1]. specialize (IH a w1 Hl).
      destruct (run e (k a) w1) as [[tr out] w2]. by constructor.
    - apply andb_true_iff in Hl as [Hn Hl]. apply Nat.ltb_lt in Hn.
      destruct (choose e n w) as [i w1].
      eapply exec_pick; [|by apply IH]. lia.
  Qed.

(** What every answer of the environment satisfies, every event of a run does. *)
Lemma run_answers {R} (e : env) (P : event S → Prop) (p : prog S R) w :
    (∀ o w, P (Ev o (answer e o w).1)) → Forall P (run e p w).1.1.
  Proof.
    intros HP. revert w. induction p as [r|c|o k IH|n k IH]; intros w; simpl; [done|done|..].
    - specialize (HP o w). destruct (answer e o w) as [a w1]. specialize (IH a w1).
      destruct (run e (k a) w1) as [[tr out] w2]. by constructor.
    - destruct (choose e n w) as [i w1]. apply IH.
  Qed.

Lemma run_bind {A B} (e : env) (p : prog S A) (f : A → prog S B) w :
    run e (prog_bind f p) w =
    (let '(tr, out, w1) := run e p w in
     match out with
     | Returned a => let '(tr', out', w2) := run e (f a) w1 in (tr ++ tr', out', w2)
     | Crashed c => (tr, Crashed c, w1)
     end).
  Proof.
    revert w; induction p as [r|c|o k IH|n k IH]; intros w; simpl.
    - by destruct (run e (f r) w) as [[??]?].
    - done.
    - destruct (answer e o w) as [a w1]. rewrite IH.
      destruct (run e (k a) w1) as [[tr [r|c]] w2]; [|done].
      by destruct (run e (f r) w2) as [[??]?].
    - destruct (choose e n w) as [i w1]. by rewrite IH.
  Qed.
End run.
Arguments env : clear implicits.

(** ** Programs with the same executions

    An equivalence that sequencing respects, so that equivalent parts of a
    program may be rewritten. *)
Definition same_executions {S A} (p q : prog S A) : Prop := ∀ tr out, exec p tr out ↔ exec q tr out.

Section same.
Context {S : signature}.

#[export] Instance same_equivalence {A} : Equivalence (same_executions (S := S) (A := A)).
Proof.
  split; [by intros p tr out|by intros p q H tr out; symmetry|].
  intros p q r H1 H2 tr out. by rewrite (H1 tr out).
Qed.

#[export] Instance wp_same_proper {A} :
  Proper (same_executions (S := S) (A := A) ==> (=) ==> iff) wp.
Proof. intros p q H Q ? <-. rewrite !wp_exec. split; intros HQ tr out He; by apply HQ, H. Qed.

Lemma same_wp {A} (p q : prog S A) : (∀ Q, wp p Q ↔ wp q Q) → same_executions p q.
Proof.
  intros H tr out. split; intros He.
  - by apply (proj1 (wp_exec p (exec q)) (proj2 (H _) (proj2 (wp_exec q (exec q)) (λ _ _ He, He)))).
  - by apply (proj1 (wp_exec q (exec p)) (proj1 (H _) (proj2 (wp_exec p (exec p)) (λ _ _ He, He)))).
Qed.

#[export] Instance bind_same_proper {A B} :
  Proper (pointwise_relation A same_executions ==> same_executions ==> same_executions (S := S))
    (prog_bind (A := A) (B := B)).
Proof.
  intros f g Hf p q Hp. apply same_wp. intros Q. rewrite !wp_bind, Hp.
  split; intros H; (eapply wp_mono; [exact H|]); intros tr [x|c]; try done; by rewrite Hf.
Qed.

Lemma same_bind {A B} (p q : prog S A) (f g : A → prog S B) :
  same_executions p q → (∀ a, same_executions (f a) (g a)) → same_executions (a ← p; f a) (a ← q; g a).
Proof. intros Hp Hf. by apply bind_same_proper. Qed.

Lemma prog_bind_assoc {A B C} (p : prog S A) (f : A → prog S B) (g : B → prog S C) :
  same_executions (b ← (a ← p; f a); g b) (a ← p; b ← f a; g b).
Proof.
  apply same_wp. intros Q. unfold mbind, prog_mbind. rewrite !wp_bind.
  split; intros H; (eapply wp_mono; [exact H|]); intros tr [x|c]; try done; rewrite wp_bind;
    intros Hx; (eapply wp_mono; [exact Hx|]); intros tr' [y|c]; try done; intros Hy;
    (eapply wp_mono; [exact Hy|]); intros ???; by rewrite ?app_assoc || rewrite <- ?app_assoc.
Qed.
End same.
#[export] Hint Extern 0 (same_executions _ _) => reflexivity : core.
