(* ===== verification/Interleave.v ===== *)
(** * Interleaving and map order

    Goroutines run as interleavings of their calls ([par2], [par]) and Go's
    [range] over a map visits the entries in an order that the program does
    not choose ([permute]). Both are internal choices of [prog]; the theorems
    here reduce a property of all schedules to properties of the threads. *)
From S2P Require Import Prelude Effects.

Section par.
Context {S : signature}.

  (** Two goroutines, joined by a wait group. A thread that has returned
      waits; a thread that crashes takes the process down. *)
Fixpoint par2 {A B} (p : prog S A) {struct p} : prog S B → prog S (A * B) :=
    fix go (q : prog S B) {struct q} : prog S (A * B) :=
      match p, q with
      | Ret a, _ => prog_bind (λ b, Ret (a, b)) q
      | _, Ret b => prog_bind (λ a, Ret (a, b)) p
      | _, _ =>
          Pick 2 (λ i,
            match i with
            | 0 => match p with
                   | Ret a => prog_bind (λ b, Ret (a, b)) q
                   | Crash c => Crash c
                   | Call o k => Call o (λ a, par2 (k a) q)
                   | Pick n k => Pick n (λ j, par2 (k j) q)
                   end
            | _ => match q with
                   | Ret b => prog_bind (λ a, Ret (a, b)) p
                   | Crash c => Crash c
                   | Call o k => Call o (λ b, go (k b))
                   | Pick n k => Pick n (λ j, go (k j))
                   end
            end)
      end.

  (** A pool of goroutines whose results are collected by position. *)
Fixpoint par {R} (ps : list (prog S R)) : prog S (list R) :=
    match ps with
    | [] => Ret []
    | p :: ps => prog_bind (λ '(r, rs), Ret (r :: rs)) (par2 p (par ps))
    end.

Inductive interleave {E} : list E → list E → list E → Prop :=
    | interleave_nil : interleave [] [] []
    | interleave_l x l1 l2 l : interleave l1 l2 l → interleave (x :: l1) l2 (x :: l)
    | interleave_r x l1 l2 l : interleave l1 l2 l → interleave l1 (x :: l2) (x :: l).

Inductive interleaves {E} : list (list E) → list E → Prop :=
    | interleaves_nil : interleaves [] []
    | interleaves_cons t ts tr' tr :
        interleaves ts tr' → interleave t tr' tr → interleaves (t :: ts) tr.

Lemma interleave_nil_l {E} (l : list E) : interleave [] l l.
  Proof. induction l; by constructor. Qed.
Lemma interleave_nil_r {E} (l : list E) : interleave l [] l.
  Proof. induction l; by constructor. Qed.

Lemma interleave_perm {E} (l1 l2 l : list E) : interleave l1 l2 l → l ≡ₚ l1 ++ l2.
  Proof.
    induction 1 as [|x l1 l2 l _ IH|x l1 l2 l _ IH]; simpl; [done|by rewrite IH|].
    by rewrite IH, Permutation_middle.
  Qed.

Lemma interleave_sublist {E} (l1 l2 l : list E) :
    interleave l1 l2 l → l1 `sublist_of` l ∧ l2 `sublist_of` l.
  Proof.
    induction 1 as [|x l1 l2 l _ [IH1 IH2]|x l1 l2 l _ [IH1 IH2]]; split; by constructor.
  Qed.

Lemma interleaves_perm {E} (ts : list (list E)) tr : interleaves ts tr → tr ≡ₚ concat ts.
  Proof.
    induction 1 as [|t ts tr' tr _ IH Hi]; simpl; [done|].
    by rewrite (interleave_perm _ _ _ Hi), IH.
  Qed.

Lemma interleaves_sublist {E} (ts : list (list E)) tr t :
    interleaves ts tr → t ∈ ts → t `sublist_of` tr.
  Proof.
    induction 1 as [|t' ts tr' tr _ IH Hi]; [by rewrite elem_of_nil|].
    apply interleave_sublist in Hi as [Hl Hr].
    rewrite elem_of_cons. intros [->|Ht]; [done|]. etrans; [by apply IH|done].
  Qed.

  (** What an execution of two goroutines is made of. *)
Definition joined {A B} (p : prog S A) (q : prog S B) (tr : list (event S))
      (out : outcome (A * B)) : Prop :=
    match out with
    | Returned (a, b) => ∃ t1 t2, interleave t1 t2 tr ∧
        exec p t1 (Returned a) ∧ exec q t2 (Returned b)
    | Crashed c => ∃ t, t `sublist_of` tr ∧ (exec p t (Crashed c) ∨ exec q t (Crashed c))
    end.

Lemma joined_ret_l {A B} (a : A) (q : prog S B) :
    wp (prog_bind (λ b, Ret (a, b)) q) (joined (Ret a) q).
  Proof.
    apply wp_bind, wp_exec. intros tr [b|c] Hq; simpl; [|eauto].
    exists [], tr. rewrite app_nil_r. split_and!; [apply interleave_nil_l|constructor|done].
  Qed.

Lemma joined_ret_r {A B} (p : prog S A) (b : B) :
    wp (prog_bind (λ a, Ret (a, b)) p) (joined p (Ret b)).
  Proof.
    apply wp_bind, wp_exec. intros tr [a|c] Hp; simpl; [|eauto].
    exists tr, []. rewrite app_nil_r. split_and!; [apply interleave_nil_r|done|constructor].
  Qed.

Lemma joined_call_l {A B} o k (q : prog S B) a tr (out : outcome (A * B)) :
    joined (k a) q tr out → joined (Call o k) q (Ev o a :: tr) out.
  Proof.
    destruct out as [[x y]|c]; simpl.
    - intros (t1 & t2 & Hi & Hp & Hq). exists (Ev o a :: t1), t2.
      split_and!; [by constructor|by constructor|done].
    - intros (t & Ht & [Hp|Hq]).
      + exists (Ev o a :: t). split; [by constructor|left; by constructor].
      + exists t. split; [by constructor|by right].
  Qed.

Lemma joined_call_r {A B} (p : prog S A) o k b tr (out : outcome (A * B)) :
    joined p (k b) tr out → joined p (Call o k) (Ev o b :: tr) out.
  Proof.
    destruct out as [[x y]|c]; simpl.
    - intros (t1 & t2 & Hi & Hp & Hq). exists t1, (Ev o b :: t2).
      split_and!; [by constructor|done|by constructor].
    - intros (t & Ht & [Hp|Hq]).
      + exists t. split; [by constructor|by left].
      + exists (Ev o b :: t). split; [by constructor|right; by constructor].
  Qed.

Lemma joined_pick_l {A B} n k (q : prog S B) i tr (out : outcome (A * B)) :
    i < n → joined (k i) q tr out → joined (Pick n k) q tr out.
  Proof.
    intros Hi. destruct out as [[x y]|c]; simpl; [|by intros (t & Ht & [?|?]); exists t; eauto using exec_pick].
    intros (t1 & t2 & ? & ? & ?). exists t1, t2. eauto using exec_pick.
  Qed.

Lemma joined_pick_r {A B} (p : prog S A) n k i tr (out : outcome (A * B)) :
    i < n → joined p (k i) tr out → joined p (Pick n k) tr out.
  Proof.
    intros Hi. destruct out as [[x y]|c]; simpl; [|by intros (t & Ht & [?|?]); exists t; eauto using exec_pick].
    intros (t1 & t2 & ? & ? & ?). exists t1, t2. eauto using exec_pick.
  Qed.

#[local] Hint Resolve joined_call_l joined_call_r joined_pick_l joined_pick_r : core.

Lemma par2_sound {A B} (p : prog S A) (q : prog S B) : wp (par2 p q) (joined p q).
  Proof.
    revert q; induction p as [a|c|o k IH|n k IH]; intros q.
    { destruct q; apply joined_ret_l. }
    all: induction q as [b|c'|o' k' IHq|n' k' IHq]; [apply joined_ret_r|..].
    all: intros [|i] Hi; simpl.
    all: repeat first
      [ progress intros | exists []; split; [done|solve [left; constructor|right; constructor]]
      | eapply wp_mono; [first [eapply IH|eapply IHq]|] | solve [eauto] ].
  Qed.

Lemma wp_par {R} (ps : list (prog S R)) :
    wp (par ps) (λ tr out, match out with
      | Returned rs => ∃ ts, interleaves ts tr ∧ Forall3 (λ p t r, exec p t (Returned r)) ps ts rs
      | Crashed c => ∃ p t, p ∈ ps ∧ t `sublist_of` tr ∧ exec p t (Crashed c)
      end).
  Proof.
    induction ps as [|p ps IH]; simpl.
    { exists []. split; constructor. }
    apply wp_bind. eapply wp_mono; [apply par2_sound|].
    intros tr [[r rs]|c]; simpl; rewrite ?app_nil_r.
    - intros (t1 & t2 & Hi & Hp & Hps).
      pose proof (proj1 (wp_exec _ _) IH _ _ Hps) as (ts & Hts & H3). simpl in *.
      exists (t1 :: ts). split; [by econstructor|by constructor].
    - intros (t & Ht & [Hp|Hps]).
      + exists p, t. split_and!; [left|done|done].
      + pose proof (proj1 (wp_exec _ _) IH _ _ Hps) as (p' & t' & Hin & Hsub & He).
        exists p', t'. split_and!; [by right|by etrans|done].
  Qed.

Lemma within_par2 {A B} (P : op S → Prop) (p : prog S A) (q : prog S B) :
  within P p → within P q → within P (par2 p q).
Proof.
  revert q; induction p as [a|c|o k IH|n k IH]; intros q Hp Hq.
  { destruct q; apply within_bind; done. }
  all: induction q as [b|c'|o' k' IHq|n' k' IHq]; [by apply within_bind|..].
  all: intros [|i] Hi; simpl; simpl in Hp; simpl in Hq; destruct_and?;
    repeat first [ solve [eauto 3] | split | apply IH | apply IHq | progress intros | progress simpl ].
Qed.

Lemma within_par {R} (P : op S → Prop) (ps : list (prog S R)) :
  Forall (within P) ps → within P (par ps).
Proof.
  induction 1 as [|p ps Hp _ IH]; simpl; [done|].
  apply within_bind; [by apply within_par2|]. by intros [??].
Qed.
End par.

Section permute.
Context {S : signature} {A : Type}.

  (** [for k, v := range m]: the entries of [m] in an arbitrary order. *)
Fixpoint permute_n (n : nat) (l : list A) : prog S (list A) :=
    match n with
    | 0 => Ret []
    | Datatypes.S n =>
        match l with
        | [] => Ret []
        | _ :: _ => Pick (length l) (λ i,
            match l !! i with
            | Some x => prog_bind (λ r, Ret (x :: r)) (permute_n n (delete i l))
            | None => Ret l
            end)
        end
    end.
Definition permute (l : list A) : prog S (list A) := permute_n (length l) l.

Lemma wp_permute_n n l Q :
    length l = n → wp (permute_n n l) Q ↔ ∀ l', l' ≡ₚ l → Q [] (Returned l').
  Proof.
    revert l Q; induction n as [|n IH]; intros l Q Hl; simpl.
    { apply nil_length_inv in Hl as ->. split.
      - intros HQ l' Hl'. by apply Permutation_nil_r in Hl' as ->.
      - intros HQ. by apply HQ. }
    destruct l as [|x0 l0]; [done|]. set (l := x0 :: l0) in *. simpl. split.
    - intros HQ [|x l'] Hl'; [by apply Permutation_nil_l in Hl'|].
      assert (x ∈ l) as [i Hi]%list_elem_of_lookup by (rewrite <- Hl'; left).
      specialize (HQ i (lookup_lt_Some _ _ _ Hi)). rewrite Hi in HQ.
      rewrite wp_bind, IH in HQ by (rewrite length_delete by eauto; lia).
      apply (HQ l'), (Permutation_cons_inv (a := x)).
      rewrite Hl'. by apply delete_Permutation.
    - intros HQ i Hlt. destruct (lookup_lt_is_Some_2 l i Hlt) as [x Hi]. rewrite Hi.
      rewrite wp_bind, IH by (rewrite length_delete by eauto; lia).
      intros r Hr. apply HQ. rewrite Hr. symmetry. by apply delete_Permutation.
  Qed.

  (** Every order is possible and no other list is. *)
Lemma wp_permute l Q : wp (permute l) Q ↔ ∀ l', l' ≡ₚ l → Q [] (Returned l').
  Proof. by apply wp_permute_n. Qed.

Lemma within_permute P l : within P (permute l).
Proof.
  unfold permute. generalize (length l). intros n; revert l; induction n as [|n IH]; intros l; simpl; [done|].
  destruct l as [|x0 l0]; [done|]. intros i _. destruct (_ !! i); [|done]. by apply within_bind.
Qed.
End permute.
