(* ===== verification/Rely.v ===== *)
(** * Programs in a world: rely and guarantee

    A trace says what was called and answered; a world says what the calls did.
    [answers] relates a call and its answer to the worlds before and after it,
    and [evolves] extends it to traces. [rg] is a rely-guarantee precondition:
    between any two calls of the program others may change the world as [G]
    allows, and every call of the program changes it as [G] allows. It composes
    over goroutines ([rg_par]), and holds of every execution ([rg_exec]). *)
From S2P Require Import Prelude Effects Interleave.

Section worlds.
Context {S : signature} {W : Type} (answers : W → ∀ o : op S, ans S o → W → Prop).

Inductive evolves : W → list (event S) → W → Prop :=
  | evolves_nil w : evolves w [] w
  | evolves_cons w o a w1 tr w2 :
      answers w o a w1 → evolves w1 tr w2 → evolves w (Ev o a :: tr) w2.

Lemma evolves_app_inv w tr1 tr2 w2 :
  evolves w (tr1 ++ tr2) w2 → ∃ w1, evolves w tr1 w1 ∧ evolves w1 tr2 w2.
Proof.
  revert w; induction tr1 as [|e tr1 IH]; intros w; simpl; [by exists w; split; [constructor|]|].
  inversion 1 as [|? o a w1 ? ? Ha He]; simplify_eq. destruct (IH _ He) as (w' & ? & ?).
  exists w'. split; [by econstructor|done].
Qed.

(** The answer and the next world of one call, by cases on the call. *)
Lemma evolves_cons_inv w o (a : ans S o) tr w2 :
  evolves w (Ev o a :: tr) w2 → ∃ w1, answers w o a w1 ∧ evolves w1 tr w2.
Proof.
  intros H. refine (match H in evolves w' tr' w2' return
    match tr' with [] => True
    | Ev o a :: tr => ∃ w1, answers w' o a w1 ∧ evolves w1 tr w2' end with
    | evolves_nil _ => I
    | evolves_cons _ _ _ w1 _ _ Ha He => ex_intro _ w1 (conj Ha He) end).
Qed.

(** Every execution of [p] that starts in [w] and returns ends as [Q] says. *)
Definition swp {R} (p : prog S R) (w : W) (Q : list (event S) → R → W → Prop) : Prop :=
  ∀ tr r w', exec p tr (Returned r) → evolves w tr w' → Q tr r w'.

Lemma swp_ret {R} (r : R) w (Q : _ → _ → _ → Prop) : Q [] r w → swp (Ret r) w Q.
Proof. intros HQ tr r' w' He Hev. inversion He; simplify_eq. by inversion Hev; simplify_eq. Qed.

Lemma swp_bind {A B} (p : prog S A) (f : A → prog S B) w Q :
  swp p w (λ tr a w1, swp (f a) w1 (λ tr' b w2, Q (tr ++ tr') b w2)) → swp (prog_bind f p) w Q.
Proof.
  intros H tr r w' He Hev. apply exec_bind_inv in He as [(a & t1 & t2 & -> & H1 & H2)|(c & [=] & _)].
  apply evolves_app_inv in Hev as (w1 & Hev1 & Hev2). by eapply (H t1 a w1).
Qed.

Lemma swp_call (o : op S) w (Q : _ → _ → _ → Prop) :
  (∀ a w1, answers w o a w1 → Q [Ev o a] a w1) → swp (call o) w Q.
Proof.
  intros H tr r w' He. revert w'.
  assert (tr = [Ev o r]) as ->.
  { pose proof (proj1 (wp_exec (call o) (λ tr out, ∃ r, out = Returned r ∧ tr = [Ev o r]))) as Hw.
    destruct (Hw ltac:(simpl; eauto) _ _ He) as (r' & [= <-] & ?). done. }
  intros w' (w1 & Ha & Hev)%evolves_cons_inv. inversion Hev; simplify_eq. by apply H.
Qed.

Lemma swp_mono {R} (p : prog S R) w (Q Q' : _ → _ → _ → Prop) :
  swp p w Q → (∀ tr r w', Q tr r w' → Q' tr r w') → swp p w Q'.
Proof. intros H HQ tr r w' He Hev. by apply HQ, H. Qed.

(** What holds of every trace holds in every world. *)
Lemma swp_wp {R} (p : prog S R) w Q Q' :
  wp p Q → swp p w Q' → swp p w (λ tr r w', Q tr (Returned r) ∧ Q' tr r w').
Proof. intros Hwp Hs tr r w' He Hev. split; [by apply (proj1 (wp_exec _ _) Hwp)|by apply Hs]. Qed.

Section rg.
Context (G : W → W → Prop) {HG : PreOrder G}.

(** What [p], started in [w], makes true when it returns, and for as long as
    the others keep to [G]; a crash ends the process and promises nothing. *)
Fixpoint rg {R} (p : prog S R) (w : W) (Q : R → W → Prop) : Prop :=
  match p with
  | Ret r => ∀ w', G w w' → Q r w'
  | Crash _ => True
  | Call o k => ∀ w1 a w2, G w w1 → answers w1 o a w2 → G w1 w2 ∧ rg (k a) w2 Q
  | Pick n k => ∀ i, i < n → rg (k i) w Q
  end.

Lemma rg_stable {R} (p : prog S R) w w' Q : G w w' → rg p w Q → rg p w' Q.
Proof.
  revert w w'; induction p as [r|c|o k IH|n k IH]; simpl; intros w w' Hw H; [| done | |by eauto].
  - intros w2 Hw2. apply H. by etrans.
  - intros w1 a w2 Hw1. apply H. by etrans.
Qed.

Lemma rg_mono {R} (p : prog S R) w (Q Q' : R → W → Prop) :
  rg p w Q → (∀ r w', Q r w' → Q' r w') → rg p w Q'.
Proof.
  intros H HQ. revert w H; induction p as [r|c|o k IH|n k IH]; simpl; intros w H; [by eauto|done| |by eauto].
  intros w1 a w2 Hw1 Ha. destruct (H w1 a w2 Hw1 Ha) as [? ?]. eauto.
Qed.

Lemma rg_bind {A B} (p : prog S A) (f : A → prog S B) w Q :
  rg p w (λ a w', rg (f a) w' Q) → rg (prog_bind f p) w Q.
Proof.
  revert w; induction p as [r|c|o k IH|n k IH]; simpl; intros w H; [|done| |by eauto].
  - by apply H.
  - intros w1 a w2 Hw1 Ha. destruct (H w1 a w2 Hw1 Ha) as [? ?]. eauto.
Qed.

Lemma rg_exec {R} (p : prog S R) w Q tr r w' :
  rg p w Q → exec p tr (Returned r) → evolves w tr w' → G w w' ∧ Q r w'.
Proof.
  intros Hrg He. remember (Returned r) as out eqn:Hout. revert w Hrg.
  induction He as [r'|c|o k a tr out He IH|n k i tr out Hi He IH]; intros w Hrg Hev; simplify_eq.
  - inversion Hev; simplify_eq. split; [done|]. by apply Hrg.
  - apply evolves_cons_inv in Hev as (w1 & Ha & Hev).
    destruct (Hrg w a w1 ltac:(done) Ha) as [Hw H]. destruct (IH eq_refl _ H Hev) as [? ?].
    split; [by etrans|done].
  - apply (IH eq_refl); [by apply Hrg|done].
Qed.

(** The world never leaves [G]. *)
Lemma rg_moves {R} (p : prog S R) w Q : rg p w Q → rg p w (λ r w', Q r w' ∧ G w w').
Proof.
  enough (∀ w0, G w0 w → rg p w Q → rg p w (λ r w', Q r w' ∧ G w0 w')) as H by (intros; by apply H).
  intros w0 Hw0. revert w Hw0; induction p as [r|c|o k IH|n k IH]; simpl; intros w Hw0 H; [|done| |by eauto].
  - intros w' Hw. split; [by apply H|by etrans].
  - intros w1 a w2 Hw1 Ha. destruct (H w1 a w2 Hw1 Ha) as [? ?]. split; [done|]. apply IH; [|done].
    etrans; [exact Hw0|]. by etrans.
Qed.

Lemma rg_swp {R} (p : prog S R) w Q : rg p w Q → swp p w (λ _ r w', Q r w' ∧ G w w').
Proof. intros H tr r w' He Hev. destruct (rg_exec p w Q tr r w'); auto. Qed.

(** ** Loops and goroutines *)
Definition both {A B} (QA : A → W → Prop) (QB : B → W → Prop) (ab : A * B) (w : W) : Prop :=
  QA ab.1 w ∧ QB ab.2 w.

(** A postcondition that is wanted of a thread that has already returned. *)
Lemma rg_settled {A B} (a : A) (q : prog S B) w QA QB :
  (∀ w', G w w' → QA a w') → rg q w QB → rg (prog_bind (λ b, Ret (a, b)) q) w (both QA QB).
Proof.
  intros Ha Hq. apply rg_bind. revert w Ha Hq; induction q as [b|c|o k IH|n k IH]; simpl; intros w Ha Hq.
  - intros w1 Hw1 w2 Hw2. split; [apply Ha|apply Hq]; by etrans.
  - done.
  - intros w1 x w2 Hw1 Hx. destruct (Hq w1 x w2 Hw1 Hx) as [Hg H]. split; [done|]. apply IH; [|done].
    intros w3 Hw3. apply Ha. etrans; [exact Hw1|]. by etrans.
  - eauto.
Qed.

Lemma rg_settled_r {A B} (b : B) (p : prog S A) w QA QB :
  (∀ w', G w w' → QB b w') → rg p w QA → rg (prog_bind (λ a, Ret (a, b)) p) w (both QA QB).
Proof.
  intros Hb Hp. apply rg_bind. revert w Hb Hp; induction p as [a|c|o k IH|n k IH]; simpl; intros w Hb Hp.
  - intros w1 Hw1 w2 Hw2. split; [apply Hp|apply Hb]; by etrans.
  - done.
  - intros w1 x w2 Hw1 Hx. destruct (Hp w1 x w2 Hw1 Hx) as [Hg H]. split; [done|]. apply IH; [|done].
    intros w3 Hw3. apply Hb. etrans; [exact Hw1|]. by etrans.
  - eauto.
Qed.

Lemma rg_par2 {A B} (p : prog S A) (q : prog S B) w QA QB :
  rg p w QA → rg q w QB → rg (par2 p q) w (both QA QB).
Proof.
  revert q w; induction p as [a|c|o k IH|n k IH]; intros q w Hp Hq.
  { destruct q; by apply rg_settled. }
  all: revert w Hp Hq; induction q as [b|c'|o' k' IHq|n' k' IHq]; intros w Hp Hq;
    [by apply rg_settled_r|..].
  all: intros [|i] Hi; simpl; try done.
  all: first
    [ (* a call of the left thread *)
      intros w1 x w2 Hw1 Hx; destruct (Hp w1 x w2 Hw1 Hx) as [? ?]; split; [done|];
      apply IH; [done|]; eapply rg_stable; [|exact Hq]; by etrans
    | intros w1 x w2 Hw1 Hx; destruct (Hq w1 x w2 Hw1 Hx) as [? ?]; split; [done|];
      apply IHq; [|done]; eapply rg_stable; [|exact Hp]; by etrans
    | intros j Hj; apply IH; [by apply Hp|done]
    | intros j Hj; apply IHq; [done|by apply Hq] ].
Qed.

(** What holds when a program returns keeps holding. *)
Lemma rg_always {R} (p : prog S R) w Q :
  rg p w Q → rg p w (λ r w', ∀ w2, G w' w2 → Q r w2).
Proof.
  revert w; induction p as [r|c|o k IH|n k IH]; simpl; intros w H; [|done| |by eauto].
  - intros w1 Hw1 w2 Hw2. apply H. by etrans.
  - intros w1 a w2 Hw1 Ha. destruct (H w1 a w2 Hw1 Ha) as [? ?]. eauto.
Qed.

Lemma rg_bind_always {A B} (p : prog S A) (f : A → prog S B) w QA Q :
  rg p w QA → (∀ a w', (∀ w2, G w' w2 → QA a w2) → rg (f a) w' Q) → rg (prog_bind f p) w Q.
Proof. intros Hp Hf. apply rg_bind. eapply rg_mono; [by apply rg_always|]. simpl. eauto. Qed.

(** Every goroutine of the pool keeps its promise at the end. *)
Lemma rg_par {R X} (f : X → prog S R) (Q : X → R → W → Prop) xs w :
  (∀ x, x ∈ xs → rg (f x) w (Q x)) →
  rg (par (f <$> xs)) w (λ rs w', Forall2 (λ x r, Q x r w') xs rs).
Proof.
  induction xs as [|x xs IH]; intros H; simpl; [by intros; constructor|].
  eapply rg_bind_always.
  - apply rg_par2; [apply H; left|apply IH; intros y Hy; apply H; by right].
  - intros [r rs] w1 Hall w2 Hw. destruct (Hall w2 Hw). by constructor.
Qed.
End rg.
End worlds.
