(* ===== verification/Conduct.v ===== *)
(** * The conduct of programs, and pools of them

    [conduct] bounds what a program may call, assuming that the answers it gets
    are as expected: every call satisfies [G] as long as every answer satisfies
    [A]. It follows a program down its tree, so it holds of threads that never
    end as well, and composes over loops and goroutines. A [pool] is a set of
    such threads over a world: any thread may make its next call, new threads
    start, threads are lost, and others change the world. [pool_invariant] turns
    an invariant of single calls into one of all that the pool can do. *)
From S2P Require Import Prelude Effects Interleave Rely.

Section conduct.
Context {S : signature} (A : ∀ o : op S, ans S o → Prop) (G : op S → Prop).

Fixpoint conduct {R} (p : prog S R) (Q : R → Prop) : Prop :=
  match p with
  | Ret r => Q r
  | Crash _ => True
  | Call o k => G o ∧ ∀ a, A o a → conduct (k a) Q
  | Pick n k => ∀ i, i < n → conduct (k i) Q
  end.

Lemma conduct_mono {R} (p : prog S R) (Q Q' : R → Prop) :
  conduct p Q → (∀ r, Q r → Q' r) → conduct p Q'.
Proof. induction p as [r|c|o k IH|n k IH]; simpl; naive_solver. Qed.

Lemma conduct_bind {B C} (p : prog S B) (f : B → prog S C) Q :
  conduct p (λ b, conduct (f b) Q) → conduct (prog_bind f p) Q.
Proof. induction p as [r|c|o k IH|n k IH]; simpl; naive_solver. Qed.

Lemma conduct_bind_ok {B C} (p : prog S (result B)) (f : B → prog S (result C)) Q :
  conduct p (λ r, match r with Ok b => conduct (f b) Q | Err e => Q (Err e) end) →
  conduct (bind_ok p f) Q.
Proof. intros H. apply conduct_bind. eapply conduct_mono; [exact H|]. by intros [b|e]. Qed.

Lemma conduct_call (o : op S) (Q : ans S o → Prop) : G o → (∀ a, A o a → Q a) → conduct (call o) Q.
Proof. done. Qed.

Lemma conduct_lift {B} (x : deref B) (Q : B → Prop) : (∀ b, x = Val b → Q b) → conduct (lift x) Q.
Proof. destruct x; simpl; auto. Qed.

(** A program whose calls are all fine, whatever the answers. *)
Lemma conduct_within {R} (P : op S → Prop) (p : prog S R) :
  (∀ o, P o → G o) → within P p → conduct p (λ _, True).
Proof. intros HP. induction p as [r|c|o k IH|n k IH]; simpl; naive_solver. Qed.

(** What is known of the results of all executions can be used. *)
Lemma conduct_wp {R} (p : prog S R) (Q Q' : R → Prop) :
  wp p (λ _ out, ∀ r, out = Returned r → Q r) → conduct p Q' → conduct p (λ r, Q r ∧ Q' r).
Proof. induction p as [r|c|o k IH|n k IH]; simpl; naive_solver. Qed.

Lemma conduct_foldM {B X} (f : B → X → prog S B) (I : B → Prop) b xs :
  I b → (∀ b x, x ∈ xs → I b → conduct (f b x) I) → conduct (foldM f b xs) I.
Proof.
  revert b; induction xs as [|x xs IH]; intros b Hb Hf; simpl; [done|].
  apply conduct_bind. eapply conduct_mono; [apply Hf; [left|done]|]. intros b' Hb'.
  apply IH; [done|]. intros b'' y Hy. apply Hf. by right.
Qed.

Lemma conduct_foldR {B X} (f : B → X → prog S (result B)) (I : B → Prop) b xs :
  I b → (∀ b x, x ∈ xs → I b → conduct (f b x) (λ r, ∀ b', r = Ok b' → I b')) →
  conduct (foldR f b xs) (λ r, ∀ b', r = Ok b' → I b').
Proof.
  revert b; induction xs as [|x xs IH]; intros b Hb Hf; simpl; [by intros b' [= <-]|].
  apply conduct_bind_ok. eapply conduct_mono; [apply Hf; [left|done]|]. intros [b'|e] Hb'; [|done].
  apply IH; [by apply Hb'|]. intros b'' y Hy. apply Hf. by right.
Qed.

Lemma conduct_permute {X} (l : list X) : conduct (permute l) (λ l', l' ≡ₚ l).
Proof.
  eapply conduct_mono.
  - apply (conduct_wp (permute l) (λ l', l' ≡ₚ l) (λ _, True)).
    + apply wp_permute. by intros l' Hl' r [= <-].
    + apply (conduct_within (λ _, False)); [done|apply within_permute].
  - by intros r [].
Qed.

(** Goroutines: the threads keep their promises in every interleaving. *)
Definition pair_of {B C} (QB : B → Prop) (QC : C → Prop) (x : B * C) : Prop := QB x.1 ∧ QC x.2.

Lemma conduct_par2 {B C} (p : prog S B) (q : prog S C) QB QC :
  conduct p QB → conduct q QC → conduct (par2 p q) (pair_of QB QC).
Proof.
  assert (Hl : ∀ b (q : prog S C), QB b → conduct q QC →
    conduct (prog_bind (λ c, Ret (b, c)) q) (pair_of QB QC)).
  { intros b q' Hb Hq. apply conduct_bind. eapply conduct_mono; [exact Hq|]. by intros c. }
  assert (Hr : ∀ c (p : prog S B), QC c → conduct p QB →
    conduct (prog_bind (λ b, Ret (b, c)) p) (pair_of QB QC)).
  { intros c p' Hc Hp. apply conduct_bind. eapply conduct_mono; [exact Hp|]. by intros b. }
  revert q; induction p as [b|c|o k IH|n k IH]; intros q Hp Hq.
  { destruct q; by apply Hl. }
  all: induction q as [c'|c'|o' k' IHq|n' k' IHq]; [by apply Hr|..].
  all: intros [|i] Hi; simpl; simpl in Hp; simpl in Hq; destruct_and?;
    repeat first [ solve [eauto 3] | split | apply IH | apply IHq | progress intros | progress simpl ].
Qed.

Lemma conduct_par {R} (ps : list (prog S R)) (Q : R → Prop) :
  (∀ p, p ∈ ps → conduct p Q) → conduct (par ps) (Forall Q).
Proof.
  induction ps as [|p ps IH]; intros H; simpl; [constructor|].
  apply conduct_bind. eapply conduct_mono.
  - apply conduct_par2; [apply H; left|apply IH; intros q Hq; apply H; by right].
  - intros [r rs] [Hr Hrs]. by constructor.
Qed.
End conduct.

(** An invariant of single calls holds after a program that calls nothing else. *)
Lemma conduct_evolves {S : signature} {W R} (answers : W → ∀ o : op S, ans S o → W → Prop)
    (A : ∀ o : op S, ans S o → Prop) (G : op S → Prop) (I : W → Prop) (p : prog S R) Q w tr out w' :
  (∀ w o a w', I w → G o → answers w o a w' → A o a ∧ I w') →
  conduct A G p Q → I w → exec p tr out → evolves answers w tr w' → I w'.
Proof.
  intros Hans Hp Hw He. revert w Hp Hw.
  induction He as [r|c|o k a tr out He IH|n k i tr out Hi He IH]; intros w Hp Hw Hev.
  - by inversion Hev; simplify_eq.
  - by inversion Hev; simplify_eq.
  - apply evolves_cons_inv in Hev as (w1 & Ha & Hev). destruct Hp as [Ho Hk].
    destruct (Hans _ _ _ _ Hw Ho Ha). eapply IH; eauto.
  - eapply IH; eauto.
Qed.

(** Follow a program whose calls are fine; what it returns is left to prove. *)
Ltac conduct_step :=
  match goal with
  | |- conduct _ _ (prog_bind _ _) _ => apply conduct_bind
  | |- conduct _ _ (mbind _ _) _ => apply conduct_bind
  | |- conduct _ _ (bind_ok _ _) _ => apply conduct_bind_ok
  | |- conduct _ _ (match ?x with _ => _ end) _ => destruct x eqn:?
  end.

(** ** Pools of threads *)
Section pool.
Context {S : signature} {W : Type} (answers : W → ∀ o : op S, ans S o → W → Prop).
Context (starts : prog S unit → Prop) (others : W → W → Prop).

Record pool := mkPool { threads : list (prog S unit); world : W }.

(** One step of one thread. *)
Inductive thread_step : prog S unit → W → prog S unit → W → Prop :=
  | thread_call o k a w w' : answers w o a w' → thread_step (Call o k) w (k a) w'
  | thread_pick n k i w : i < n → thread_step (Pick n k) w (k i) w.

(** A thread may be lost at any time: it has returned, it has crashed, or the
    process has ended and taken it along. *)
Inductive step : pool → pool → Prop :=
  | step_run ps p p' qs w w' :
      thread_step p w p' w' → step (mkPool (ps ++ p :: qs) w) (mkPool (ps ++ p' :: qs) w')
  | step_start p ps w : starts p → step (mkPool ps w) (mkPool (p :: ps) w)
  | step_lose ps p qs w : step (mkPool (ps ++ p :: qs) w) (mkPool (ps ++ qs) w)
  | step_others ps w w' : others w w' → step (mkPool ps w) (mkPool ps w').

Inductive reachable (w0 : W) : pool → Prop :=
  | reachable_init : reachable w0 (mkPool [] w0)
  | reachable_step c c' : reachable w0 c → step c c' → reachable w0 c'.

Context (A : ∀ o : op S, ans S o → Prop) (G : op S → Prop) (I : W → Prop).

(** [J] is a condition on the present that holds of the past as well. *)
Lemma pool_invariant_if (J : W → Prop) w0 c :
  (∀ p, starts p → conduct A G p (λ _, True)) →
  (∀ w o a w', I w → J w' → G o → answers w o a w' → A o a ∧ I w') →
  (∀ w w', I w → others w w' → I w') →
  (∀ w o a w', answers w o a w' → J w' → J w) → (∀ w w', others w w' → J w' → J w) →
  I w0 → reachable w0 c → J (world c) → I (world c) ∧ Forall (λ p, conduct A G p (λ _, True)) (threads c).
Proof.
  intros Hstart Hans Hothers HJ HJ' H0. induction 1 as [|c c' _ IH Hstep]; intros Hc; [by split|].
  destruct Hstep as [ps p p' qs w w' Hp|p ps w Hp|ps p qs w|ps w w' Ho]; simpl in *.
  - assert (HJw : J w) by (destruct Hp; [by eapply HJ|done]). destruct (IH HJw) as [HI Ht].
    apply Forall_app in Ht as [Hps [Hp0 Hqs]%Forall_cons].
    destruct Hp as [o k a w w' Ha|n k i w Hi]; simpl in Hp0.
    + destruct Hp0 as [Ho Hk], (Hans _ _ _ _ HI Hc Ho Ha) as [HA HI'].
      split; [done|]. apply Forall_app_2; [done|]. constructor; auto.
    + split; [done|]. apply Forall_app_2; [done|]. constructor; auto.
  - destruct (IH Hc) as [HI Ht]. split; [done|]. constructor; auto.
  - destruct (IH Hc) as [HI Ht]. split; [done|]. rewrite Forall_app, Forall_cons in Ht. destruct Ht as (? & _ & ?).
    by apply Forall_app_2.
  - destruct (IH (HJ' _ _ Ho Hc)) as [HI Ht]. split; [|done]. by eapply Hothers.
Qed.

Lemma pool_invariant w0 c :
  (∀ p, starts p → conduct A G p (λ _, True)) →
  (∀ w o a w', I w → G o → answers w o a w' → A o a ∧ I w') →
  (∀ w w', I w → others w w' → I w') →
  I w0 → reachable w0 c → I (world c) ∧ Forall (λ p, conduct A G p (λ _, True)) (threads c).
Proof. intros ? Hans ? ? ?. apply (pool_invariant_if (λ _, True) w0 c); try done. intros w o a w' ? _. by apply Hans. Qed.

(** The next call of any thread of a reachable pool is as it should be. *)
Lemma pool_calls w0 c p o k :
  (∀ p, starts p → conduct A G p (λ _, True)) →
  (∀ w o a w', I w → G o → answers w o a w' → A o a ∧ I w') →
  (∀ w w', I w → others w w' → I w') →
  I w0 → reachable w0 c → p ∈ threads c → p = Call o k → G o.
Proof.
  intros H1 H2 H3 H4 Hc Hp ->. destruct (pool_invariant w0 c H1 H2 H3 H4 Hc) as [_ Ht].
  rewrite Forall_forall in Ht. by apply Ht in Hp as [? _].
Qed.
End pool.
Arguments mkPool {_ _} _ _.
Arguments threads {_ _} _.
Arguments world {_ _} _.

(** ** Reads from a cache *)
Section cache.
Context {S : signature} {W : Type} (answers : W → ∀ o : op S, ans S o → W → Prop) (cached : op S → bool).

(** A world with the worlds before it. *)
Abbreviation history := (W * list W)%type.

(** A call goes to the present world, or is a read that a cache answers as an
    earlier world would have. *)
Inductive recalls : history → ∀ o : op S, ans S o → history → Prop :=
  | recalls_now w past o a w' : answers w o a w' → recalls (w, past) o a (w', w :: past)
  | recalls_then w past o a w0 w1 :
      cached o = true → w0 ∈ past → answers w0 o a w1 → recalls (w, past) o a (w, past).

(** An invariant of single calls holds with a cache as well. *)
Definition always (I : W → Prop) (h : history) : Prop := I h.1 ∧ Forall I h.2.

Lemma recalls_always (A : ∀ o : op S, ans S o → Prop) (G : op S → Prop) (I J : W → Prop) h o a h' :
  (∀ w o a w', I w → J w → (cached o = true ∨ J w') → G o → answers w o a w' → A o a ∧ I w') →
  always I h → always J h' → G o → recalls h o a h' → A o a ∧ always I h'.
Proof.
  intros H [Hnow Hpast] HJ Ho Hr.
  destruct Hr as [w past o a w' Ha|w past o a w0 w1 Hc Hin Ha]; destruct HJ as [HJ HJs]; simpl in *.
  - apply Forall_cons in HJs as [HJw _]. destruct (H _ _ _ _ Hnow HJw (or_intror HJ) Ho Ha).
    split; [done|]. split; [done|]. by constructor.
  - rewrite Forall_forall in Hpast, HJs.
    destruct (H _ _ _ _ (Hpast _ Hin) (HJs _ Hin) (or_introl Hc) Ho Ha). split; [done|].
    split; [done|]. by apply Forall_forall.
Qed.

Lemma recalls_past (J : W → Prop) h o a h' : recalls h o a h' → always J h' → always J h.
Proof. intros [w past o' a' w' _|w past o' a' w1 w2 _ _ _] [H1 H2]; [|done]. by apply Forall_cons in H2. Qed.
End cache.
