(* ===== verification/GoHeap.v ===== *)
(** * Go values in memory

    Pointers, slices and maps refer to cells of a heap; a struct is the table of
    its fields. [holds] says what a value of a type stands for, a [tree] without
    addresses, and which cells this takes; a deep copy stands for the same tree
    in new cells only. The forms of statement that [controller-gen] writes into
    a [DeepCopyInto] are operations here, each with its law; [DeepCopy] puts
    them together as the generated code does. *)
From S2P Require Import Prelude.
#[local] Set Warnings "-register-all".

(** ** Memory *)
Abbreviation loc := positive (only parsing).

Inductive scalar := SString (s : string) | SInt (z : Z) | SBool (b : bool).

(** A slice has its array, its offset and its length. *)
Inductive val :=
  | VScalar (s : scalar)
  | VNil
  | VPtr (l : loc)
  | VSlice (l : loc) (off len : nat)
  | VMap (l : loc)
  | VStruct (fs : gmap string val).

(** What is allocated: a variable, the array of a slice, a map. *)
Inductive cell := Obj (v : val) | Arr (vs : list val) | Dict (m : gmap string val).

Abbreviation heap := (gmap positive cell).

(** A computation over the heap; [None] is a panic. *)
Definition mem (A : Type) : Type := heap → option (A * heap).

Definition mem_ret {A} (a : A) : mem A := λ h, Some (a, h).
Definition mem_bind {A B} (f : A → mem B) (p : mem A) : mem B := λ h,
  match p h with Some (a, h) => f a h | None => None end.
Definition mem_panic {A} : mem A := λ _, None.

Declare Scope mem_scope.
Notation "x ⇐ p ; q" := (mem_bind (λ x, q) p)
  (at level 20, p at level 100, q at level 200, right associativity, only parsing) : mem_scope.
#[local] Open Scope mem_scope.

Lemma mem_bind_Some {A B} (f : A → mem B) (p : mem A) h b h' :
  mem_bind f p h = Some (b, h') ↔ ∃ a h1, p h = Some (a, h1) ∧ f a h1 = Some (b, h').
Proof. unfold mem_bind. destruct (p h) as [[a h1]|]; naive_solver. Qed.

(** The next free address. *)
Definition fresh_loc (h : heap) : loc := map_fold (λ l _ m, Pos.max (Pos.succ l) m) 1%positive h.

Lemma fresh_loc_fresh h : h !! fresh_loc h = None.
Proof.
  enough (∀ l, is_Some (h !! l) → (l < fresh_loc h)%positive) as H.
  { destruct (h !! fresh_loc h) as [c|] eqn:E; [|done]. specialize (H _ (ex_intro _ c E)). lia. }
  unfold fresh_loc. apply (map_fold_weak_ind (λ m h, ∀ l, is_Some (h !! l) → (l < m)%positive)).
  - intros l [c Hc]. by rewrite lookup_empty in Hc.
  - intros i x m r _ IH l. rewrite lookup_insert_is_Some. intros [->|[_ Hl]]; [lia|]. specialize (IH l Hl). lia.
Qed.

Definition alloc (c : cell) : mem loc := λ h, let l := fresh_loc h in Some (l, <[l := c]> h).
Definition load (l : loc) : mem cell := λ h, match h !! l with Some c => Some (c, h) | None => None end.

Fixpoint mem_map {A B} (f : A → mem B) (xs : list A) : mem (list B) :=
  match xs with
  | [] => mem_ret []
  | x :: xs => y ⇐ f x; ys ⇐ mem_map f xs; mem_ret (y :: ys)
  end.

(** ** The statements of generated copies *)

(** [*out = *in] of a type without pointers. *)
Definition shallow (v : val) : mem val := mem_ret v.

(** [if in != nil { *out = new(T); copy( *in, *out) }] *)
Definition copy_pointer (copy : val → mem val) (v : val) : mem val :=
  match v with
  | VNil => mem_ret VNil
  | VPtr l =>
      c ⇐ load l;
      match c with
      | Obj x => out ⇐ copy x; l' ⇐ alloc (Obj out); mem_ret (VPtr l')
      | _ => mem_panic
      end
  | _ => mem_panic
  end.

(** [if in != nil { *out = make([]T, len( *in)); ... }], each element by [copy] *)
Definition copy_slice (copy : val → mem val) (v : val) : mem val :=
  match v with
  | VNil => mem_ret VNil
  | VSlice l off len =>
      c ⇐ load l;
      match c with
      | Arr xs => outs ⇐ mem_map copy (take len (drop off xs)); l' ⇐ alloc (Arr outs);
                  mem_ret (VSlice l' 0 (length outs))
      | _ => mem_panic
      end
  | _ => mem_panic
  end.

(** [if in != nil { *out = make(map[string]T, len( *in)); for key, val := range *in ... }];
    the order of the range decides no more than the addresses. *)
Definition copy_entry (copy : val → mem val) (kv : string * val) : mem (string * val) :=
  outVal ⇐ copy kv.2; mem_ret (kv.1, outVal).

Definition copy_map (copy : val → mem val) (v : val) : mem val :=
  match v with
  | VNil => mem_ret VNil
  | VMap l =>
      c ⇐ load l;
      match c with
      | Dict m => outs ⇐ mem_map (copy_entry copy) (map_to_list m);
                  l' ⇐ alloc (Dict (list_to_map outs)); mem_ret (VMap l')
      | _ => mem_panic
      end
  | _ => mem_panic
  end.

(** The field [name] of [out], which [*out = *in] made that of [in], is copied. *)
Definition on_field (name : string) (copy : val → mem val) (out : val) : mem val :=
  match out with
  | VStruct fs =>
      match fs !! name with
      | Some x => x' ⇐ copy x; mem_ret (VStruct (<[name := x']> fs))
      | None => mem_panic
      end
  | _ => mem_panic
  end.

(** [*out = *in] and then the fields that are not plain, in their order. *)
Fixpoint struct_copy (fields : list (string * (val → mem val))) (out : val) : mem val :=
  match fields with
  | [] => mem_ret out
  | (name, copy) :: fields => out ⇐ on_field name copy out; struct_copy fields out
  end.

(** ** Types and what values stand for *)
Inductive ty :=
  | TScalar
  | TPointer (T : ty)
  | TSlice (T : ty)
  | TMap (T : ty)
  | TStruct (fs : list (string * ty)).

Inductive tree :=
  | Leaf (s : scalar)
  | Null
  | Box (t : tree)
  | Items (ts : list tree)
  | Entries (ts : gmap string tree)
  | Fields (ts : gmap string tree).

(** The value [v] of type [T] stands for [t], in the cells of [h]. *)
Fixpoint holds (T : ty) (h : heap) (v : val) (t : tree) {struct T} : Prop :=
  match T with
  | TScalar => ∃ s, v = VScalar s ∧ t = Leaf s
  | TPointer T => (v = VNil ∧ t = Null) ∨
      ∃ l x tx, v = VPtr l ∧ h !! l = Some (Obj x) ∧ t = Box tx ∧ holds T h x tx
  | TSlice T => (v = VNil ∧ t = Null) ∨
      ∃ l off len xs ts, v = VSlice l off len ∧ h !! l = Some (Arr xs) ∧ off + len ≤ length xs ∧
        t = Items ts ∧ Forall2 (holds T h) (take len (drop off xs)) ts
  | TMap T => (v = VNil ∧ t = Null) ∨
      ∃ l m ts, v = VMap l ∧ h !! l = Some (Dict m) ∧ t = Entries ts ∧
        ∀ k, option_Forall2 (holds T h) (m !! k) (ts !! k)
  | TStruct fs =>
      ∃ xs ts, v = VStruct xs ∧ t = Fields ts ∧
        (∀ k, k ∉ fs.*1 → xs !! k = None ∧ ts !! k = None) ∧
        (fix all (fs : list (string * ty)) : Prop :=
           match fs with
           | [] => True
           | (name, T) :: fs =>
               (∃ x tx, xs !! name = Some x ∧ ts !! name = Some tx ∧ holds T h x tx) ∧ all fs
           end) fs
  end.

(** Types whose values refer to nothing. *)
Fixpoint plain (T : ty) : bool :=
  match T with
  | TScalar => true
  | TStruct fs => (fix all (fs : list (string * ty)) : bool :=
      match fs with [] => true | (_, T) :: fs => plain T && all fs end) fs
  | _ => false
  end.

(** The fields of a struct one by one. *)
Definition field_holds (h : heap) (xs : gmap string val) (ts : gmap string tree) (f : string * ty) : Prop :=
  ∃ x tx, xs !! f.1 = Some x ∧ ts !! f.1 = Some tx ∧ holds f.2 h x tx.

Lemma holds_struct fs h v t :
  holds (TStruct fs) h v t ↔
  ∃ xs ts, v = VStruct xs ∧ t = Fields ts ∧
    (∀ k, k ∉ fs.*1 → xs !! k = None ∧ ts !! k = None) ∧ Forall (field_holds h xs ts) fs.
Proof.
  simpl. split; intros (xs & ts & -> & -> & Hk & H); exists xs, ts; (split_and!; [done|done|done|]); clear Hk.
  - induction fs as [|[n T] fs IH]; constructor; [apply H|apply IH, H].
  - induction H as [|[n T] fs Hf _ IH]; done.
Qed.

Lemma plain_struct fs : plain (TStruct fs) = true ↔ Forall (λ f, plain f.2 = true) fs.
Proof.
  simpl. induction fs as [|[n T] fs IH]; [by split|]. rewrite andb_true_iff, Forall_cons, IH. done.
Qed.

(** Induction on types, fields included. *)
Lemma ty_ind' (P : ty → Prop) :
  P TScalar → (∀ T, P T → P (TPointer T)) → (∀ T, P T → P (TSlice T)) → (∀ T, P T → P (TMap T)) →
  (∀ fs, Forall (λ f, P f.2) fs → P (TStruct fs)) → ∀ T, P T.
Proof.
  intros H1 H2 H3 H4 H5. fix IH 1. intros [|T|T|T|fs]; [done|by apply H2|by apply H3|by apply H4|].
  apply H5. induction fs as [|[n T] fs IHfs]; constructor; [apply IH|exact IHfs].
Qed.

(** More cells do no harm. *)
Lemma holds_mono T h h' v t : h ⊆ h' → holds T h v t → holds T h' v t.
Proof.
  intros Hh. revert v t. induction T as [|T IH|T IH|T IH|fs IH] using ty_ind'; intros v t.
  - done.
  - intros [?|(l & x & tx & ? & Hl & ? & ?)]; [by left|right]. exists l, x, tx.
    split_and!; [done|by eapply lookup_weaken|done|by apply IH].
  - intros [?|(l & off & len & xs & ts & ? & Hl & ? & ? & ?)]; [by left|right]. exists l, off, len, xs, ts.
    split_and!; [done|by eapply lookup_weaken|done|done|]. by eapply Forall2_impl.
  - intros [?|(l & m & ts & ? & Hl & ? & Hm)]; [by left|right]. exists l, m, ts.
    split_and!; [done|by eapply lookup_weaken|done|]. intros k. destruct (Hm k); constructor; auto.
  - rewrite !holds_struct. intros (xs & ts & ? & ? & ? & Hf). exists xs, ts. split_and!; [done..|].
    rewrite Forall_forall in *. intros f Hin. destruct (Hf f Hin) as (x & tx & ? & ? & ?).
    exists x, tx. eauto.
Qed.

Lemma plain_holds T h v t : plain T = true → holds T h v t → holds T ∅ v t.
Proof.
  revert v t. induction T as [|T _|T _|T _|fs IH] using ty_ind'; intros v t HT; [done..|].
  apply plain_struct in HT. rewrite !holds_struct. intros (xs & ts & ? & ? & ? & Hf). exists xs, ts.
  split_and!; [done..|]. rewrite Forall_forall in *. intros f Hin.
  destruct (Hf f Hin) as (x & tx & ? & ? & ?). exists x, tx. eauto.
Qed.

(** ** Deep copies *)

(** [copy] answers a value that stands for the same, in new cells only, and
    leaves the old cells as they are. *)
Definition deep_copies (copy : val → mem val) (T : ty) : Prop :=
  ∀ h v t, holds T h v t →
    ∃ v' hn, copy v h = Some (v', h ∪ hn) ∧ hn ##ₘ h ∧ holds T hn v' t.

(** The same of lists of values. *)
Definition copies_list {A B} (copy : A → mem B) (R : heap → A → tree → Prop) (R' : heap → B → tree → Prop) : Prop :=
  ∀ h a t, R h a t → ∃ b hn, copy a h = Some (b, h ∪ hn) ∧ hn ##ₘ h ∧ R' hn b t.

Lemma copies_mem_map {A B} (copy : A → mem B) (R : heap → A → tree → Prop) (R' : heap → B → tree → Prop) h xs ts :
  (∀ h h' a t, h ⊆ h' → R h a t → R h' a t) → (∀ h h' b t, h ⊆ h' → R' h b t → R' h' b t) →
  copies_list copy R R' → Forall2 (R h) xs ts →
  ∃ ys hn, mem_map copy xs h = Some (ys, h ∪ hn) ∧ hn ##ₘ h ∧ Forall2 (R' hn) ys ts.
Proof.
  intros HR HR' Hcopy. revert h ts. induction xs as [|x xs IH]; intros h ts Hall.
  { inversion Hall; subst. exists [], ∅. rewrite (right_id_L ∅ (∪)).
    split_and!; [done|apply map_disjoint_empty_l|constructor]. }
  inversion Hall as [|? t ? ts' Hx Hxs]; subst. destruct (Hcopy h x t Hx) as (y & h1 & E1 & Hd1 & Hy).
  destruct (IH (h ∪ h1) ts') as (ys & h2 & E2 & Hd2 & Hys).
  { eapply Forall2_impl; [exact Hxs|]. intros a tx. apply HR, map_union_subseteq_l. }
  apply map_disjoint_union_r in Hd2 as [Hd2 Hd12].
  exists (y :: ys), (h1 ∪ h2). simpl. unfold mem_bind. rewrite E1, E2, (assoc_L (∪)).
  split_and!; [done|by apply map_disjoint_union_l|]. constructor.
  - eapply HR'; [|exact Hy]. apply map_union_subseteq_l.
  - eapply Forall2_impl; [exact Hys|]. intros b tx. apply HR'. by apply map_union_subseteq_r.
Qed.

(** A new cell on top of what was copied. *)
Lemma alloc_new h hn c :
  hn ##ₘ h → ∃ l hn', alloc c (h ∪ hn) = Some (l, h ∪ hn') ∧ hn' ##ₘ h ∧ hn' !! l = Some c ∧ hn ⊆ hn'.
Proof.
  intros Hd. pose proof (fresh_loc_fresh (h ∪ hn)) as Hf. set (l := fresh_loc (h ∪ hn)) in *.
  apply lookup_union_None in Hf as [Hh Hn]. exists l, (<[l := c]> hn). unfold alloc. fold l.
  split_and!.
  - by rewrite insert_union_r.
  - by apply map_disjoint_insert_l.
  - apply lookup_insert_eq.
  - by apply insert_subseteq.
Qed.

Lemma load_some h l c : h !! l = Some c → load l h = Some (c, h).
Proof. unfold load. by intros ->. Qed.

Lemma shallow_deep T : plain T = true → deep_copies shallow T.
Proof.
  intros HT h v t Hv. exists v, ∅. rewrite (right_id_L ∅ (∪)).
  split_and!; [done|apply map_disjoint_empty_l|by eapply plain_holds].
Qed.

(** A copy of nothing. *)
Lemma nil_deep T copy : copy VNil = mem_ret VNil → (∀ h, holds T h VNil Null) →
  ∀ h, ∃ v' hn, copy VNil h = Some (v', h ∪ hn) ∧ hn ##ₘ h ∧ holds T hn v' Null.
Proof.
  intros Hc HT h. exists VNil, ∅. rewrite Hc, (right_id_L ∅ (∪)).
  split_and!; [done|apply map_disjoint_empty_l|done].
Qed.

Lemma copy_pointer_deep copy T : deep_copies copy T → deep_copies (copy_pointer copy) (TPointer T).
Proof.
  intros Hc h v t [[-> ->]|(l & x & tx & -> & Hl & -> & Hx)].
  { apply nil_deep; [done|]. by left. }
  destruct (Hc h x tx Hx) as (out & hn & E & Hd & Hout).
  destruct (alloc_new h hn (Obj out) Hd) as (l' & hn' & E' & Hd' & Hl' & Hsub).
  exists (VPtr l'), hn'. simpl. unfold mem_bind. rewrite (load_some _ _ _ Hl), E, E'.
  split_and!; [done|done|]. right. exists l', out, tx. split_and!; [done..|by eapply holds_mono].
Qed.

Lemma copy_slice_deep copy T : deep_copies copy T → deep_copies (copy_slice copy) (TSlice T).
Proof.
  intros Hc h v t [[-> ->]|(l & off & len & xs & ts & -> & Hl & Hlen & -> & Hxs)].
  { apply nil_deep; [done|]. by left. }
  destruct (copies_mem_map copy (holds T) (holds T) h _ ts (holds_mono T) (holds_mono T) Hc Hxs)
    as (outs & hn & E & Hd & Houts).
  destruct (alloc_new h hn (Arr outs) Hd) as (l' & hn' & E' & Hd' & Hl' & Hsub).
  exists (VSlice l' 0 (length outs)), hn'. simpl. unfold mem_bind. rewrite (load_some _ _ _ Hl), E, E'.
  split_and!; [done|done|]. right. exists l', 0, (length outs), outs, ts. split_and!; [done..|].
  rewrite drop_0, firstn_all. eapply Forall2_impl; [exact Houts|]. intros a tx. by apply holds_mono.
Qed.

(** An entry of a map stands for the tree found under its key. *)
Definition entry_holds (T : ty) (ts : gmap string tree) (h : heap) (kv : string * val) (t : tree) : Prop :=
  ts !! kv.1 = Some t ∧ holds T h kv.2 t.

Lemma copy_entry_deep copy T ts :
  deep_copies copy T → copies_list (copy_entry copy) (entry_holds T ts) (entry_holds T ts).
Proof.
  intros Hc h [k v] t [Hk Hv]. destruct (Hc h v t Hv) as (v' & hn & E & Hd & Hv').
  exists (k, v'), hn. unfold copy_entry, mem_bind. simpl in *. by rewrite E.
Qed.

Lemma copy_map_keys copy kvs h outs h' :
  mem_map (copy_entry copy) kvs h = Some (outs, h') → outs.*1 = kvs.*1.
Proof.
  revert h outs h'; induction kvs as [|kv kvs IH]; intros h outs h'; [by intros [= <- _]|].
  intros (kv' & h1 & (v & h2 & _ & Hkv)%mem_bind_Some & H)%mem_bind_Some.
  injection Hkv as <- <-. apply mem_bind_Some in H as (outs' & h3 & H & Ho). injection Ho as <- <-. csimpl. f_equal. by eapply IH.
Qed.

Lemma copy_map_deep copy T : deep_copies copy T → deep_copies (copy_map copy) (TMap T).
Proof.
  intros Hc h v t [[-> ->]|(l & m & ts & -> & Hl & -> & Hm)].
  { apply nil_deep; [done|]. by left. }
  assert (Hall : Forall2 (entry_holds T ts h) (map_to_list m) ((λ kv, default Null (ts !! kv.1)) <$> map_to_list m)).
  { apply Forall2_fmap_r, Forall_Forall2_diag, Forall_forall. intros [k x] Hin%elem_of_map_to_list. simpl.
    specialize (Hm k). rewrite Hin in Hm. unfold entry_holds. simpl.
    destruct (ts !! k) as [tx|]; inversion Hm; subst; done. }
  destruct (copies_mem_map (copy_entry copy) (entry_holds T ts) (entry_holds T ts) h _ _
    ltac:(intros h1 h2 a tx Hs [? ?]; split; [done|by eapply holds_mono])
    ltac:(intros h1 h2 a tx Hs [? ?]; split; [done|by eapply holds_mono])
    (copy_entry_deep copy T ts Hc) Hall) as (outs & hn & E & Hd & Houts).
  destruct (alloc_new h hn (Dict (list_to_map outs)) Hd) as (l' & hn' & E' & Hd' & Hl' & Hsub).
  exists (VMap l'), hn'. simpl. unfold mem_bind. rewrite (load_some _ _ _ Hl), E, E'.
  split_and!; [done|done|]. right. exists l', (list_to_map outs), ts. split_and!; [done..|]. intros k.
  pose proof (copy_map_keys _ _ _ _ _ E) as Hkeys.
  assert (Hnd : NoDup outs.*1) by (rewrite Hkeys; apply NoDup_fst_map_to_list).
  destruct (list_to_map outs !! k) as [x|] eqn:Ek.
  - apply elem_of_list_to_map in Ek; [|done]. apply list_elem_of_lookup in Ek as [i Hi].
    destruct (Forall2_lookup_l _ _ _ _ _ Houts Hi) as (tx & _ & Hk & Hx). simpl in *. rewrite Hk. constructor.
    by eapply holds_mono.
  - apply not_elem_of_list_to_map in Ek. rewrite Hkeys in Ek. specialize (Hm k). destruct (m !! k) as [x|] eqn:Emk.
    + destruct Ek. apply list_elem_of_fmap. exists (k, x). split; [done|]. by apply elem_of_map_to_list.
    + inversion Hm. constructor.
Qed.

(** *** Structs *)
Lemma struct_copy_fields (Ts : string → ty) ops h hn xs ts :
  hn ##ₘ h → NoDup ops.*1 →
  Forall (λ op, deep_copies op.2 (Ts op.1) ∧ field_holds h xs ts (op.1, Ts op.1)) ops →
  ∃ xs' hn', struct_copy ops (VStruct xs) (h ∪ hn) = Some (VStruct xs', h ∪ hn') ∧ hn' ##ₘ h ∧ hn ⊆ hn' ∧
    (∀ k, k ∉ ops.*1 → xs' !! k = xs !! k) ∧ Forall (λ op, field_holds hn' xs' ts (op.1, Ts op.1)) ops.
Proof.
  revert hn xs. induction ops as [|[name copy] ops IH]; intros hn xs Hd Hnd Hall.
  { exists xs, hn. by split_and!. }
  apply Forall_cons in Hall as [[Hc (x & tx & Hx & Htx & Hv)] Hall]. apply NoDup_cons in Hnd as [Hn Hnd].
  simpl in Hc, Hx, Htx, Hv, Hn.
  destruct (Hc (h ∪ hn) x tx) as (x' & h1 & E & Hd1 & Hx'); [eapply holds_mono, Hv; apply map_union_subseteq_l|].
  apply map_disjoint_union_r in Hd1 as [Hd1 Hdn].
  destruct (IH (hn ∪ h1) (<[name := x']> xs)) as (xs' & hn' & E' & Hd' & Hsub & Hk & Hall').
  - by apply map_disjoint_union_l.
  - done.
  - eapply Forall_impl; [|intros op Hop; exact Hop]. rewrite Forall_forall in *. intros op Hop.
    destruct (Hall op Hop) as [? (y & ty & ? & ? & ?)]. split; [done|]. exists y, ty. simpl in *.
    rewrite lookup_insert_ne; [done|]. intros ->. apply Hn. by apply list_elem_of_fmap_2.
  - exists xs', hn'. cbn [struct_copy]. split_and!; [|done| | |].
    + unfold mem_bind, on_field. rewrite Hx. unfold mem_bind, mem_ret. by rewrite E, <- (assoc_L (∪)).
    + etrans; [|exact Hsub]. apply map_union_subseteq_l.
    + intros k. rewrite fmap_cons, not_elem_of_cons. intros [Hne Hnk]. by rewrite Hk, lookup_insert_ne.
    + constructor; [|done]. exists x', tx. simpl. rewrite Hk, lookup_insert_eq by done. split_and!; [done..|].
      eapply holds_mono; [|exact Hx']. etrans; [|exact Hsub]. by apply map_union_subseteq_r.
Qed.

Fixpoint field_copy (name : string) (ops : list (string * (val → mem val))) : option (val → mem val) :=
  match ops with
  | [] => None
  | (n, copy) :: ops => if String.eqb name n then Some copy else field_copy name ops
  end.

(** Every field is plain or has a deep copy of its type. *)
Definition field_covered (ops : list (string * (val → mem val))) (f : string * ty) : Prop :=
  match field_copy f.1 ops with
  | Some copy => deep_copies copy f.2
  | None => plain f.2 = true
  end.

Definition type_of (fs : list (string * ty)) (name : string) : ty :=
  default TScalar ((list_to_map fs : gmap string ty) !! name).

Lemma type_of_in fs f : NoDup fs.*1 → f ∈ fs → type_of fs f.1 = f.2.
Proof. intros Hnd Hf. unfold type_of. destruct f. by rewrite (elem_of_list_to_map_1 _ _ _ Hnd Hf). Qed.

Lemma field_copy_in name ops :
  match field_copy name ops with Some copy => (name, copy) ∈ ops | None => name ∉ ops.*1 end.
Proof.
  induction ops as [|[n copy] ops IH]; csimpl; [by apply not_elem_of_nil|].
  destruct (String.eqb_spec name n) as [->|Hne]; [left|].
  destruct (field_copy name ops); [by right|]. by rewrite not_elem_of_cons.
Qed.

Lemma field_copy_unique name copy ops : NoDup ops.*1 → (name, copy) ∈ ops → field_copy name ops = Some copy.
Proof.
  induction ops as [|[n c] ops IH]; csimpl; [by intros _ ?%elem_of_nil|].
  intros [Hn Hnd]%NoDup_cons [[= -> ->]|Hin]%elem_of_cons; [by rewrite String.eqb_refl|].
  destruct (String.eqb_spec name n) as [->|_]; [|by apply IH]. destruct Hn. by apply (list_elem_of_fmap_2 fst) in Hin.
Qed.

Lemma struct_copy_deep ops fs :
  NoDup fs.*1 → NoDup ops.*1 → ops.*1 ⊆ fs.*1 → Forall (field_covered ops) fs →
  deep_copies (struct_copy ops) (TStruct fs).
Proof.
  intros Hfs Hops Hsub Hcov h v t Hv. apply holds_struct in Hv as (xs & ts & -> & -> & Hk & Hall).
  rewrite Forall_forall in Hcov, Hall.
  destruct (struct_copy_fields (type_of fs) ops h ∅ xs ts) as (xs' & hn & E & Hd & _ & Hkeep & Hnew).
  - apply map_disjoint_empty_l.
  - done.
  - apply Forall_forall. intros [n copy] Hop.
    assert (n ∈ fs.*1) as ([n' T] & -> & Hf)%list_elem_of_fmap by (apply Hsub; by apply (list_elem_of_fmap_2 fst) in Hop).
    pose proof (type_of_in _ _ Hfs Hf) as HT. simpl in HT |- *. rewrite HT. specialize (Hcov _ Hf). unfold field_covered in Hcov. simpl in *.
    rewrite (field_copy_unique _ _ _ Hops Hop) in Hcov. split; [done|]. by apply Hall.
  - rewrite (right_id_L ∅ (∪)) in E. exists (VStruct xs'), hn. split_and!; [done..|].
    apply holds_struct. exists xs', ts. split_and!; [done|done| |].
    + intros k Hnk. rewrite Hkeep; [by apply Hk|]. intros Hin. by apply Hnk, Hsub.
    + apply Forall_forall. intros [n T] Hf. pose proof (field_copy_in n ops) as Hin. specialize (Hcov _ Hf).
      unfold field_covered in Hcov. simpl in Hcov. destruct (field_copy n ops) as [copy|].
      * rewrite Forall_forall in Hnew. specialize (Hnew _ Hin).
        pose proof (type_of_in _ _ Hfs Hf) as HT. simpl in HT, Hnew. by rewrite HT in Hnew.
      * destruct (Hall _ Hf) as (x & tx & Hx & Htx & Hv). simpl in *. exists x, tx. simpl. rewrite Hkeep by done.
        split_and!; [done..|]. eapply holds_mono; [apply map_empty_subseteq|]. by eapply plain_holds.
Qed.

(** What a program can rely on: the copy stands for what the original stood for
    whatever is written to the old cells, and the original for what it did
    whatever is written to the new ones. *)
Lemma deep_copies_independent copy T h v t :
  deep_copies copy T → holds T h v t →
  ∃ v' hn, copy v h = Some (v', h ∪ hn) ∧ hn ##ₘ h ∧ holds T (h ∪ hn) v' t ∧
    (∀ h2, h2 ##ₘ hn → holds T (h2 ∪ hn) v' t) ∧ (∀ hn2, hn2 ##ₘ h → holds T (h ∪ hn2) v t).
Proof.
  intros Hc Hv. destruct (Hc h v t Hv) as (v' & hn & E & Hd & Hv').
  exists v', hn. split_and!; [done|done| | |]; [| |intros hn2 Hd2; eapply holds_mono; [|exact Hv]; apply map_union_subseteq_l];
    [eapply holds_mono; [|exact Hv']; by apply map_union_subseteq_r|].
  intros h2 Hd2. eapply holds_mono; [|exact Hv']. by apply map_union_subseteq_r.
Qed.

Create HintDb deepcopy.
#[export] Hint Resolve copy_pointer_deep copy_slice_deep copy_map_deep : deepcopy.
#[export] Hint Extern 2 (deep_copies shallow _) => apply shallow_deep; reflexivity : deepcopy.

(** A generated copy of a struct: its fields one by one. *)
Ltac struct_deep :=
  apply struct_copy_deep;
  [ refine (bool_decide_eq_true_1 _ _); vm_compute; reflexivity
  | refine (bool_decide_eq_true_1 _ _); vm_compute; reflexivity
  | refine (bool_decide_eq_true_1 _ _); vm_compute; reflexivity
  | repeat apply Forall_cons_2; try apply Forall_nil_2; unfold field_covered; simpl;
    first [reflexivity | solve [eauto with deepcopy]] ].
