(* ===== verification/DeepCopy.v ===== *)
(** * The generated deep copies ([api/v1alpha1/zz_generated.deepcopy.go])

    For every type of the custom resources, what it is in memory ([X_t], from
    [*_types.go]) and the two or three functions that [controller-gen] wrote for
    it. They are shown to be deep: a copy shares no cell with its original. This
    is what makes it right to treat the resources as values in the other files,
    where a deep copy does not appear. *)
From S2P Require Import Prelude GoHeap.
#[local] Open Scope mem_scope.
#[local] Set Warnings "-register-all".

(** The types of the Kubernetes libraries that occur as fields, and their own
    copies. *)
Class Library := {
  Time_t : ty;
  ObjectMeta_t : ty;
  ListMeta_t : ty;
  LabelSelector_t : ty;
  PodSpec_t : ty;
  Time_DeepCopyInto : val → mem val;
  Time_DeepCopy : val → mem val;
  ObjectMeta_DeepCopyInto : val → mem val;
  ListMeta_DeepCopyInto : val → mem val;
  LabelSelector_DeepCopyInto : val → mem val;
  PodSpec_DeepCopyInto : val → mem val;
}.

Class LibraryLaws (Lib : Library) : Prop := {
  Time_deep : deep_copies Time_DeepCopyInto Time_t;
  Time_pointer_deep : deep_copies Time_DeepCopy (TPointer Time_t);
  ObjectMeta_deep : deep_copies ObjectMeta_DeepCopyInto ObjectMeta_t;
  ListMeta_deep : deep_copies ListMeta_DeepCopyInto ListMeta_t;
  LabelSelector_deep : deep_copies LabelSelector_DeepCopyInto LabelSelector_t;
  PodSpec_deep : deep_copies PodSpec_DeepCopyInto PodSpec_t;
}.
#[export] Hint Resolve Time_deep ObjectMeta_deep ListMeta_deep LabelSelector_deep PodSpec_deep : deepcopy.

(** [metav1.TypeMeta] *)
Definition TypeMeta_t : ty := TStruct [("Kind", TScalar); ("APIVersion", TScalar)].

(** [if in != nil { *out = ( *in).DeepCopy() }] *)
Definition unless_nil (copy : val → mem val) (v : val) : mem val :=
  match v with VNil => mem_ret VNil | _ => copy v end.

(** [if c := in.DeepCopy(); c != nil { return c }; return nil] *)
Definition object_of (c : val) : option val := match c with VNil => None | _ => Some c end.

(** ** The functions *)
Section generated.
Context {Lib : Library}.

Definition Boot_t : ty := TStruct [("CurrentBootMode", TScalar); ("PxeInterface", TScalar)].
Definition Boot_DeepCopyInto : val → mem val := struct_copy [].
Definition Boot_DeepCopy (in_ : val) : mem val := copy_pointer Boot_DeepCopyInto in_.

Definition CPU_t : ty := TStruct [("Architecture", TScalar); ("Count", TScalar);
   ("Flags", TSlice TScalar); ("Frequency", TScalar); ("ModelName", TScalar)].
Definition CPU_DeepCopyInto : val → mem val := struct_copy [("Flags", copy_slice shallow)].
Definition CPU_DeepCopy (in_ : val) : mem val := copy_pointer CPU_DeepCopyInto in_.

Definition NameRef_t : ty := TStruct [("Name", TScalar)].
Definition NameRef_DeepCopyInto : val → mem val := struct_copy [].
Definition NameRef_DeepCopy (in_ : val) : mem val := copy_pointer NameRef_DeepCopyInto in_.

Definition MetricsConfigEntity_t : ty := TStruct [("Path", TScalar); ("Port", TScalar);
   ("Disabled", TScalar)].
Definition MetricsConfigEntity_DeepCopyInto : val → mem val := struct_copy [].
Definition MetricsConfigEntity_DeepCopy (in_ : val) : mem val := copy_pointer MetricsConfigEntity_DeepCopyInto in_.

Definition ContainerMetricsConfiguration_t : ty := TStruct [("Path", TScalar); ("Port", TScalar);
   ("Interval", TScalar); ("AllowList", TPointer NameRef_t);
   ("Containers", TMap (TPointer MetricsConfigEntity_t))].
Definition ContainerMetricsConfiguration_DeepCopyInto : val → mem val := struct_copy [
   ("AllowList", copy_pointer shallow); ("Containers", copy_map (copy_pointer shallow))].
Definition ContainerMetricsConfiguration_DeepCopy (in_ : val) : mem val :=
  copy_pointer ContainerMetricsConfiguration_DeepCopyInto in_.

Definition DataPath_t : ty := TStruct [("Source", TScalar); ("Target", TScalar)].
Definition DataPath_DeepCopyInto : val → mem val := struct_copy [].
Definition DataPath_DeepCopy (in_ : val) : mem val := copy_pointer DataPath_DeepCopyInto in_.

Definition DataConfiguration_t : ty := TStruct [("Paths", TSlice DataPath_t)].
Definition DataConfiguration_DeepCopyInto : val → mem val := struct_copy [
   ("Paths", copy_slice shallow)].
Definition DataConfiguration_DeepCopy (in_ : val) : mem val := copy_pointer DataConfiguration_DeepCopyInto in_.

Definition Deployment_t : ty := TStruct [("Name", TScalar); ("Phase", TScalar);
   ("LastTransitionTime", Time_t); ("LastDataUpload", Time_t)].
Definition Deployment_DeepCopyInto : val → mem val := struct_copy [
   ("LastTransitionTime", Time_DeepCopyInto); ("LastDataUpload", Time_DeepCopyInto)].
Definition Deployment_DeepCopy (in_ : val) : mem val := copy_pointer Deployment_DeepCopyInto in_.

Definition HardwareProfileConfiguration_t : ty := TStruct [("Include", TScalar); ("Scope", TScalar)].
Definition HardwareProfileConfiguration_DeepCopyInto : val → mem val := struct_copy [].
Definition HardwareProfileConfiguration_DeepCopy (in_ : val) : mem val :=
  copy_pointer HardwareProfileConfiguration_DeepCopyInto in_.

Definition HeartbeatConfiguration_t : ty := TStruct [
   ("HardwareProfile", TPointer HardwareProfileConfiguration_t); ("PeriodSeconds", TScalar)].
Definition HeartbeatConfiguration_DeepCopyInto : val → mem val := struct_copy [
   ("HardwareProfile", copy_pointer shallow)].
Definition HeartbeatConfiguration_DeepCopy (in_ : val) : mem val :=
  copy_pointer HeartbeatConfiguration_DeepCopyInto in_.

Definition S3StorageConfiguration_t : ty := TStruct [("BucketHost", TScalar); ("BucketPort", TScalar);
   ("BucketName", TScalar); ("BucketRegion", TScalar); ("AWSAccessKey", TScalar);
   ("AWSSecretAccessKey", TScalar)].
Definition S3StorageConfiguration_DeepCopyInto : val → mem val := struct_copy [].
Definition S3StorageConfiguration_DeepCopy (in_ : val) : mem val :=
  copy_pointer S3StorageConfiguration_DeepCopyInto in_.

Definition StorageConfiguration_t : ty := TStruct [("S3", TPointer S3StorageConfiguration_t)].
Definition StorageConfiguration_DeepCopyInto : val → mem val := struct_copy [
   ("S3", copy_pointer shallow)].
Definition StorageConfiguration_DeepCopy (in_ : val) : mem val := copy_pointer StorageConfiguration_DeepCopyInto in_.

Definition DeviceConfiguration_t : ty := TStruct [("Heartbeat", TPointer HeartbeatConfiguration_t);
   ("Storage", TPointer StorageConfiguration_t)].
Definition DeviceConfiguration_DeepCopyInto : val → mem val := struct_copy [
   ("Heartbeat", copy_pointer HeartbeatConfiguration_DeepCopyInto);
   ("Storage", copy_pointer StorageConfiguration_DeepCopyInto)].
Definition DeviceConfiguration_DeepCopy (in_ : val) : mem val := copy_pointer DeviceConfiguration_DeepCopyInto in_.

Definition IoPerf_t : ty := TStruct [("SyncDuration", TScalar)].
Definition IoPerf_DeepCopyInto : val → mem val := struct_copy [].
Definition IoPerf_DeepCopy (in_ : val) : mem val := copy_pointer IoPerf_DeepCopyInto in_.

Definition Disk_t : ty := TStruct [("Bootable", TScalar); ("ByID", TScalar); ("ByPath", TScalar);
   ("DriveType", TScalar); ("Hctl", TScalar); ("ID", TScalar); ("IoPerf", TPointer IoPerf_t);
   ("IsInstallationMedia", TScalar); ("Model", TScalar); ("Name", TScalar); ("Path", TScalar);
   ("Serial", TScalar); ("SizeBytes", TScalar); ("Smart", TScalar); ("Vendor", TScalar);
   ("Wwn", TScalar)].
Definition Disk_DeepCopyInto : val → mem val := struct_copy [("IoPerf", copy_pointer shallow)].
Definition Disk_DeepCopy (in_ : val) : mem val := copy_pointer Disk_DeepCopyInto in_.

Definition Pod_t : ty := TStruct [("Spec", PodSpec_t)].
Definition Pod_DeepCopyInto : val → mem val := struct_copy [("Spec", PodSpec_DeepCopyInto)].
Definition Pod_DeepCopy (in_ : val) : mem val := copy_pointer Pod_DeepCopyInto in_.

Definition ImageRegistriesConfiguration_t : ty := TStruct [("AuthFileSecret", TPointer NameRef_t)].
Definition ImageRegistriesConfiguration_DeepCopyInto : val → mem val := struct_copy [
   ("AuthFileSecret", copy_pointer shallow)].
Definition ImageRegistriesConfiguration_DeepCopy (in_ : val) : mem val :=
  copy_pointer ImageRegistriesConfiguration_DeepCopyInto in_.

Definition EdgeDeploymentSpec_t : ty := TStruct [("DeviceSelector", TPointer LabelSelector_t);
   ("Device", TScalar); ("Type", TScalar); ("Pod", Pod_t); ("Data", TPointer DataConfiguration_t);
   ("ImageRegistries", TPointer ImageRegistriesConfiguration_t);
   ("Metrics", TPointer ContainerMetricsConfiguration_t); ("LogCollection", TScalar)].
Definition EdgeDeploymentSpec_DeepCopyInto : val → mem val := struct_copy [
   ("DeviceSelector", copy_pointer LabelSelector_DeepCopyInto); ("Pod", Pod_DeepCopyInto);
   ("Data", copy_pointer DataConfiguration_DeepCopyInto);
   ("ImageRegistries", copy_pointer ImageRegistriesConfiguration_DeepCopyInto);
   ("Metrics", copy_pointer ContainerMetricsConfiguration_DeepCopyInto)].
Definition EdgeDeploymentSpec_DeepCopy (in_ : val) : mem val := copy_pointer EdgeDeploymentSpec_DeepCopyInto in_.

Definition EdgeDeploymentStatus_t : ty := TStruct [].
Definition EdgeDeploymentStatus_DeepCopyInto : val → mem val := struct_copy [].
Definition EdgeDeploymentStatus_DeepCopy (in_ : val) : mem val := copy_pointer EdgeDeploymentStatus_DeepCopyInto in_.

Definition EdgeDeployment_t : ty := TStruct [("TypeMeta", TypeMeta_t); ("ObjectMeta", ObjectMeta_t);
   ("Spec", EdgeDeploymentSpec_t); ("Status", EdgeDeploymentStatus_t)].
Definition EdgeDeployment_DeepCopyInto : val → mem val := struct_copy [("TypeMeta", shallow);
   ("ObjectMeta", ObjectMeta_DeepCopyInto); ("Spec", EdgeDeploymentSpec_DeepCopyInto);
   ("Status", shallow)].
Definition EdgeDeployment_DeepCopy (in_ : val) : mem val := copy_pointer EdgeDeployment_DeepCopyInto in_.
Definition EdgeDeployment_DeepCopyObject (in_ : val) : mem (option val) :=
  c ⇐ EdgeDeployment_DeepCopy in_; mem_ret (object_of c).

Definition EdgeDeploymentList_t : ty := TStruct [("TypeMeta", TypeMeta_t); ("ListMeta", ListMeta_t);
   ("Items", TSlice EdgeDeployment_t)].
Definition EdgeDeploymentList_DeepCopyInto : val → mem val := struct_copy [("TypeMeta", shallow);
   ("ListMeta", ListMeta_DeepCopyInto); ("Items", copy_slice EdgeDeployment_DeepCopyInto)].
Definition EdgeDeploymentList_DeepCopy (in_ : val) : mem val := copy_pointer EdgeDeploymentList_DeepCopyInto in_.
Definition EdgeDeploymentList_DeepCopyObject (in_ : val) : mem (option val) :=
  c ⇐ EdgeDeploymentList_DeepCopy in_; mem_ret (object_of c).

Definition OsInformation_t : ty := TStruct [("AutomaticallyUpgrade", TScalar); ("CommitID", TScalar);
   ("HostedObjectsURL", TScalar)].
Definition OsInformation_DeepCopyInto : val → mem val := struct_copy [].
Definition OsInformation_DeepCopy (in_ : val) : mem val := copy_pointer OsInformation_DeepCopyInto in_.

Definition S3Storage_t : ty := TStruct [("SecretName", TScalar); ("ConfigMapName", TScalar);
   ("CreateOBC", TScalar)].
Definition S3Storage_DeepCopyInto : val → mem val := struct_copy [].
Definition S3Storage_DeepCopy (in_ : val) : mem val := copy_pointer S3Storage_DeepCopyInto in_.

Definition Storage_t : ty := TStruct [("S3", TPointer S3Storage_t)].
Definition Storage_DeepCopyInto : val → mem val := struct_copy [("S3", copy_pointer shallow)].
Definition Storage_DeepCopy (in_ : val) : mem val := copy_pointer Storage_DeepCopyInto in_.

Definition Retention_t : ty := TStruct [("MaxMiB", TScalar); ("MaxHours", TScalar)].
Definition Retention_DeepCopyInto : val → mem val := struct_copy [].
Definition Retention_DeepCopy (in_ : val) : mem val := copy_pointer Retention_DeepCopyInto in_.

Definition SystemMetricsConfiguration_t : ty := TStruct [("Interval", TScalar);
   ("AllowList", TPointer NameRef_t); ("Disabled", TScalar)].
Definition SystemMetricsConfiguration_DeepCopyInto : val → mem val := struct_copy [
   ("AllowList", copy_pointer shallow)].
Definition SystemMetricsConfiguration_DeepCopy (in_ : val) : mem val :=
  copy_pointer SystemMetricsConfiguration_DeepCopyInto in_.

Definition MetricsConfiguration_t : ty := TStruct [("Retention", TPointer Retention_t);
   ("SystemMetrics", TPointer SystemMetricsConfiguration_t)].
Definition MetricsConfiguration_DeepCopyInto : val → mem val := struct_copy [
   ("Retention", copy_pointer shallow);
   ("SystemMetrics", copy_pointer SystemMetricsConfiguration_DeepCopyInto)].
Definition MetricsConfiguration_DeepCopy (in_ : val) : mem val := copy_pointer MetricsConfiguration_DeepCopyInto in_.

Definition LogCollectionConfig_t : ty := TStruct [("Kind", TScalar); ("BufferSize", TScalar);
   ("SyslogConfig", TPointer NameRef_t)].
Definition LogCollectionConfig_DeepCopyInto : val → mem val := struct_copy [
   ("SyslogConfig", copy_pointer shallow)].
Definition LogCollectionConfig_DeepCopy (in_ : val) : mem val := copy_pointer LogCollectionConfig_DeepCopyInto in_.

Definition EdgeDeviceSpec_t : ty := TStruct [("OsInformation", TPointer OsInformation_t);
   ("RequestTime", TPointer Time_t); ("Heartbeat", TPointer HeartbeatConfiguration_t);
   ("Storage", TPointer Storage_t); ("Metrics", TPointer MetricsConfiguration_t);
   ("LogCollection", TMap (TPointer LogCollectionConfig_t))].
Definition EdgeDeviceSpec_DeepCopyInto : val → mem val := struct_copy [
   ("OsInformation", copy_pointer shallow); ("RequestTime", unless_nil Time_DeepCopy);
   ("Heartbeat", copy_pointer HeartbeatConfiguration_DeepCopyInto);
   ("Storage", copy_pointer Storage_DeepCopyInto);
   ("Metrics", copy_pointer MetricsConfiguration_DeepCopyInto);
   ("LogCollection", copy_map (copy_pointer LogCollectionConfig_DeepCopyInto))].
Definition EdgeDeviceSpec_DeepCopy (in_ : val) : mem val := copy_pointer EdgeDeviceSpec_DeepCopyInto in_.

Definition Gpu_t : ty := TStruct [("Address", TScalar); ("DeviceID", TScalar); ("Name", TScalar);
   ("Vendor", TScalar); ("VendorID", TScalar)].
Definition Gpu_DeepCopyInto : val → mem val := struct_copy [].
Definition Gpu_DeepCopy (in_ : val) : mem val := copy_pointer Gpu_DeepCopyInto in_.

Definition Interface_t : ty := TStruct [("Biosdevname", TScalar); ("ClientID", TScalar);
   ("Flags", TSlice TScalar); ("HasCarrier", TScalar); ("IPV4Addresses", TSlice TScalar);
   ("IPV6Addresses", TSlice TScalar); ("MacAddress", TScalar); ("Mtu", TScalar); ("Name", TScalar);
   ("Product", TScalar); ("SpeedMbps", TScalar); ("Vendor", TScalar)].
Definition Interface_DeepCopyInto : val → mem val := struct_copy [("Flags", copy_slice shallow);
   ("IPV4Addresses", copy_slice shallow); ("IPV6Addresses", copy_slice shallow)].
Definition Interface_DeepCopy (in_ : val) : mem val := copy_pointer Interface_DeepCopyInto in_.

Definition Memory_t : ty := TStruct [("PhysicalBytes", TScalar); ("UsableBytes", TScalar)].
Definition Memory_DeepCopyInto : val → mem val := struct_copy [].
Definition Memory_DeepCopy (in_ : val) : mem val := copy_pointer Memory_DeepCopyInto in_.

Definition SystemVendor_t : ty := TStruct [("Manufacturer", TScalar); ("ProductName", TScalar);
   ("SerialNumber", TScalar); ("Virtual", TScalar)].
Definition SystemVendor_DeepCopyInto : val → mem val := struct_copy [].
Definition SystemVendor_DeepCopy (in_ : val) : mem val := copy_pointer SystemVendor_DeepCopyInto in_.

Definition Hardware_t : ty := TStruct [("Boot", TPointer Boot_t); ("CPU", TPointer CPU_t);
   ("Disks", TSlice (TPointer Disk_t)); ("Gpus", TSlice (TPointer Gpu_t)); ("Hostname", TScalar);
   ("Interfaces", TSlice (TPointer Interface_t)); ("Memory", TPointer Memory_t);
   ("SystemVendor", TPointer SystemVendor_t)].
Definition Hardware_DeepCopyInto : val → mem val := struct_copy [("Boot", copy_pointer shallow);
   ("CPU", copy_pointer CPU_DeepCopyInto); ("Disks", copy_slice (copy_pointer Disk_DeepCopyInto));
   ("Gpus", copy_slice (copy_pointer shallow));
   ("Interfaces", copy_slice (copy_pointer Interface_DeepCopyInto)); ("Memory", copy_pointer shallow);
   ("SystemVendor", copy_pointer shallow)].
Definition Hardware_DeepCopy (in_ : val) : mem val := copy_pointer Hardware_DeepCopyInto in_.

Definition UpgradeInformation_t : ty := TStruct [("CurrentCommitID", TScalar);
   ("LastUpgradeStatus", TScalar); ("LastUpgradeTime", TScalar)].
Definition UpgradeInformation_DeepCopyInto : val → mem val := struct_copy [].
Definition UpgradeInformation_DeepCopy (in_ : val) : mem val := copy_pointer UpgradeInformation_DeepCopyInto in_.

Definition EdgeDeviceStatus_t : ty := TStruct [("Phase", TScalar); ("LastSeenTime", Time_t);
   ("LastSyncedResourceVersion", TScalar); ("Hardware", TPointer Hardware_t);
   ("Deployments", TSlice Deployment_t); ("DataOBC", TPointer TScalar);
   ("UpgradeInformation", TPointer UpgradeInformation_t)].
Definition EdgeDeviceStatus_DeepCopyInto : val → mem val := struct_copy [
   ("LastSeenTime", Time_DeepCopyInto); ("Hardware", copy_pointer Hardware_DeepCopyInto);
   ("Deployments", copy_slice Deployment_DeepCopyInto); ("DataOBC", copy_pointer shallow);
   ("UpgradeInformation", copy_pointer shallow)].
Definition EdgeDeviceStatus_DeepCopy (in_ : val) : mem val := copy_pointer EdgeDeviceStatus_DeepCopyInto in_.

Definition EdgeDevice_t : ty := TStruct [("TypeMeta", TypeMeta_t); ("ObjectMeta", ObjectMeta_t);
   ("Spec", EdgeDeviceSpec_t); ("Status", EdgeDeviceStatus_t)].
Definition EdgeDevice_DeepCopyInto : val → mem val := struct_copy [("TypeMeta", shallow);
   ("ObjectMeta", ObjectMeta_DeepCopyInto); ("Spec", EdgeDeviceSpec_DeepCopyInto);
   ("Status", EdgeDeviceStatus_DeepCopyInto)].
Definition EdgeDevice_DeepCopy (in_ : val) : mem val := copy_pointer EdgeDevice_DeepCopyInto in_.
Definition EdgeDevice_DeepCopyObject (in_ : val) : mem (option val) :=
  c ⇐ EdgeDevice_DeepCopy in_; mem_ret (object_of c).

Definition EdgeDeviceList_t : ty := TStruct [("TypeMeta", TypeMeta_t); ("ListMeta", ListMeta_t);
   ("Items", TSlice EdgeDevice_t)].
Definition EdgeDeviceList_DeepCopyInto : val → mem val := struct_copy [("TypeMeta", shallow);
   ("ListMeta", ListMeta_DeepCopyInto); ("Items", copy_slice EdgeDevice_DeepCopyInto)].
Definition EdgeDeviceList_DeepCopy (in_ : val) : mem val := copy_pointer EdgeDeviceList_DeepCopyInto in_.
Definition EdgeDeviceList_DeepCopyObject (in_ : val) : mem (option val) :=
  c ⇐ EdgeDeviceList_DeepCopy in_; mem_ret (object_of c).

Definition Route_t : ty := TStruct [("Destination", TScalar); ("Family", TScalar); ("Gateway", TScalar);
   ("Interface", TScalar)].
Definition Route_DeepCopyInto : val → mem val := struct_copy [].
Definition Route_DeepCopy (in_ : val) : mem val := copy_pointer Route_DeepCopyInto in_.

(** All of them: the type, and the copy of a pointer to it. *)
Definition generated : list (ty * (val → mem val)) := [
  (Boot_t, Boot_DeepCopy); (CPU_t, CPU_DeepCopy); (NameRef_t, NameRef_DeepCopy);
  (MetricsConfigEntity_t, MetricsConfigEntity_DeepCopy);
  (ContainerMetricsConfiguration_t, ContainerMetricsConfiguration_DeepCopy);
  (DataPath_t, DataPath_DeepCopy); (DataConfiguration_t, DataConfiguration_DeepCopy);
  (Deployment_t, Deployment_DeepCopy);
  (HardwareProfileConfiguration_t, HardwareProfileConfiguration_DeepCopy);
  (HeartbeatConfiguration_t, HeartbeatConfiguration_DeepCopy);
  (S3StorageConfiguration_t, S3StorageConfiguration_DeepCopy);
  (StorageConfiguration_t, StorageConfiguration_DeepCopy);
  (DeviceConfiguration_t, DeviceConfiguration_DeepCopy); (IoPerf_t, IoPerf_DeepCopy);
  (Disk_t, Disk_DeepCopy); (Pod_t, Pod_DeepCopy);
  (ImageRegistriesConfiguration_t, ImageRegistriesConfiguration_DeepCopy);
  (EdgeDeploymentSpec_t, EdgeDeploymentSpec_DeepCopy);
  (EdgeDeploymentStatus_t, EdgeDeploymentStatus_DeepCopy); (EdgeDeployment_t, EdgeDeployment_DeepCopy);
  (EdgeDeploymentList_t, EdgeDeploymentList_DeepCopy); (OsInformation_t, OsInformation_DeepCopy);
  (S3Storage_t, S3Storage_DeepCopy); (Storage_t, Storage_DeepCopy); (Retention_t, Retention_DeepCopy);
  (SystemMetricsConfiguration_t, SystemMetricsConfiguration_DeepCopy);
  (MetricsConfiguration_t, MetricsConfiguration_DeepCopy);
  (LogCollectionConfig_t, LogCollectionConfig_DeepCopy); (EdgeDeviceSpec_t, EdgeDeviceSpec_DeepCopy);
  (Gpu_t, Gpu_DeepCopy); (Interface_t, Interface_DeepCopy); (Memory_t, Memory_DeepCopy);
  (SystemVendor_t, SystemVendor_DeepCopy); (Hardware_t, Hardware_DeepCopy);
  (UpgradeInformation_t, UpgradeInformation_DeepCopy); (EdgeDeviceStatus_t, EdgeDeviceStatus_DeepCopy);
  (EdgeDevice_t, EdgeDevice_DeepCopy); (EdgeDeviceList_t, EdgeDeviceList_DeepCopy);
  (Route_t, Route_DeepCopy)].

Definition generated_objects : list (ty * (val → mem (option val))) := [
  (EdgeDeployment_t, EdgeDeployment_DeepCopyObject);
  (EdgeDeploymentList_t, EdgeDeploymentList_DeepCopyObject);
  (EdgeDevice_t, EdgeDevice_DeepCopyObject);
  (EdgeDeviceList_t, EdgeDeviceList_DeepCopyObject)].

(** ** They are deep *)
Context {Laws : LibraryLaws Lib}.

Lemma unless_nil_deep copy T : deep_copies copy (TPointer T) → deep_copies (unless_nil copy) (TPointer T).
Proof.
  intros Hc h v t Hv. destruct v; try by apply Hc.
  destruct Hv as [[_ ->]|(l & x & tx & [=] & _)]. apply nil_deep; [done|]. by left.
Qed.

#[local] Hint Resolve unless_nil_deep Time_pointer_deep : deepcopy.

Lemma Boot_deep : deep_copies Boot_DeepCopyInto Boot_t.
Proof. struct_deep. Qed.
#[local] Hint Resolve Boot_deep : deepcopy.
Lemma CPU_deep : deep_copies CPU_DeepCopyInto CPU_t.
Proof. struct_deep. Qed.
#[local] Hint Resolve CPU_deep : deepcopy.
Lemma NameRef_deep : deep_copies NameRef_DeepCopyInto NameRef_t.
Proof. struct_deep. Qed.
#[local] Hint Resolve NameRef_deep : deepcopy.
Lemma MetricsConfigEntity_deep : deep_copies MetricsConfigEntity_DeepCopyInto MetricsConfigEntity_t.
Proof. struct_deep. Qed.
#[local] Hint Resolve MetricsConfigEntity_deep : deepcopy.
Lemma ContainerMetricsConfiguration_deep : deep_copies ContainerMetricsConfiguration_DeepCopyInto ContainerMetricsConfiguration_t.
Proof. struct_deep. Qed.
#[local] Hint Resolve ContainerMetricsConfiguration_deep : deepcopy.
Lemma DataPath_deep : deep_copies DataPath_DeepCopyInto DataPath_t.
Proof. struct_deep. Qed.
#[local] Hint Resolve DataPath_deep : deepcopy.
Lemma DataConfiguration_deep : deep_copies DataConfiguration_DeepCopyInto DataConfiguration_t.
Proof. struct_deep. Qed.
#[local] Hint Resolve DataConfiguration_deep : deepcopy.
Lemma Deployment_deep : deep_copies Deployment_DeepCopyInto Deployment_t.
Proof. struct_deep. Qed.
#[local] Hint Resolve Deployment_deep : deepcopy.
Lemma HardwareProfileConfiguration_deep : deep_copies HardwareProfileConfiguration_DeepCopyInto HardwareProfileConfiguration_t.
Proof. struct_deep. Qed.
#[local] Hint Resolve HardwareProfileConfiguration_deep : deepcopy.
Lemma HeartbeatConfiguration_deep : deep_copies HeartbeatConfiguration_DeepCopyInto HeartbeatConfiguration_t.
Proof. struct_deep. Qed.
#[local] Hint Resolve HeartbeatConfiguration_deep : deepcopy.
Lemma S3StorageConfiguration_deep : deep_copies S3StorageConfiguration_DeepCopyInto S3StorageConfiguration_t.
Proof. struct_deep. Qed.
#[local] Hint Resolve S3StorageConfiguration_deep : deepcopy.
Lemma StorageConfiguration_deep : deep_copies StorageConfiguration_DeepCopyInto StorageConfiguration_t.
Proof. struct_deep. Qed.
#[local] Hint Resolve StorageConfiguration_deep : deepcopy.
Lemma DeviceConfiguration_deep : deep_copies DeviceConfiguration_DeepCopyInto DeviceConfiguration_t.
Proof. struct_deep. Qed.
#[local] Hint Resolve DeviceConfiguration_deep : deepcopy.
Lemma IoPerf_deep : deep_copies IoPerf_DeepCopyInto IoPerf_t.
Proof. struct_deep. Qed.
#[local] Hint Resolve IoPerf_deep : deepcopy.
Lemma Disk_deep : deep_copies Disk_DeepCopyInto Disk_t.
Proof. struct_deep. Qed.
#[local] Hint Resolve Disk_deep : deepcopy.
Lemma Pod_deep : deep_copies Pod_DeepCopyInto Pod_t.
Proof. struct_deep. Qed.
#[local] Hint Resolve Pod_deep : deepcopy.
Lemma ImageRegistriesConfiguration_deep : deep_copies ImageRegistriesConfiguration_DeepCopyInto ImageRegistriesConfiguration_t.
Proof. struct_deep. Qed.
#[local] Hint Resolve ImageRegistriesConfiguration_deep : deepcopy.
Lemma EdgeDeploymentSpec_deep : deep_copies EdgeDeploymentSpec_DeepCopyInto EdgeDeploymentSpec_t.
Proof. struct_deep. Qed.
#[local] Hint Resolve EdgeDeploymentSpec_deep : deepcopy.
Lemma EdgeDeploymentStatus_deep : deep_copies EdgeDeploymentStatus_DeepCopyInto EdgeDeploymentStatus_t.
Proof. struct_deep. Qed.
#[local] Hint Resolve EdgeDeploymentStatus_deep : deepcopy.
Lemma EdgeDeployment_deep : deep_copies EdgeDeployment_DeepCopyInto EdgeDeployment_t.
Proof. struct_deep. Qed.
#[local] Hint Resolve EdgeDeployment_deep : deepcopy.
Lemma EdgeDeploymentList_deep : deep_copies EdgeDeploymentList_DeepCopyInto EdgeDeploymentList_t.
Proof. struct_deep. Qed.
#[local] Hint Resolve EdgeDeploymentList_deep : deepcopy.
Lemma OsInformation_deep : deep_copies OsInformation_DeepCopyInto OsInformation_t.
Proof. struct_deep. Qed.
#[local] Hint Resolve OsInformation_deep : deepcopy.
Lemma S3Storage_deep : deep_copies S3Storage_DeepCopyInto S3Storage_t.
Proof. struct_deep. Qed.
#[local] Hint Resolve S3Storage_deep : deepcopy.
Lemma Storage_deep : deep_copies Storage_DeepCopyInto Storage_t.
Proof. struct_deep. Qed.
#[local] Hint Resolve Storage_deep : deepcopy.
Lemma Retention_deep : deep_copies Retention_DeepCopyInto Retention_t.
Proof. struct_deep. Qed.
#[local] Hint Resolve Retention_deep : deepcopy.
Lemma SystemMetricsConfiguration_deep : deep_copies SystemMetricsConfiguration_DeepCopyInto SystemMetricsConfiguration_t.
Proof. struct_deep. Qed.
#[local] Hint Resolve SystemMetricsConfiguration_deep : deepcopy.
Lemma MetricsConfiguration_deep : deep_copies MetricsConfiguration_DeepCopyInto MetricsConfiguration_t.
Proof. struct_deep. Qed.
#[local] Hint Resolve MetricsConfiguration_deep : deepcopy.
Lemma LogCollectionConfig_deep : deep_copies LogCollectionConfig_DeepCopyInto LogCollectionConfig_t.
Proof. struct_deep. Qed.
#[local] Hint Resolve LogCollectionConfig_deep : deepcopy.
Lemma EdgeDeviceSpec_deep : deep_copies EdgeDeviceSpec_DeepCopyInto EdgeDeviceSpec_t.
Proof. struct_deep. Qed.
#[local] Hint Resolve EdgeDeviceSpec_deep : deepcopy.
Lemma Gpu_deep : deep_copies Gpu_DeepCopyInto Gpu_t.
Proof. struct_deep. Qed.
#[local] Hint Resolve Gpu_deep : deepcopy.
Lemma Interface_deep : deep_copies Interface_DeepCopyInto Interface_t.
Proof. struct_deep. Qed.
#[local] Hint Resolve Interface_deep : deepcopy.
Lemma Memory_deep : deep_copies Memory_DeepCopyInto Memory_t.
Proof. struct_deep. Qed.
#[local] Hint Resolve Memory_deep : deepcopy.
Lemma SystemVendor_deep : deep_copies SystemVendor_DeepCopyInto SystemVendor_t.
Proof. struct_deep. Qed.
#[local] Hint Resolve SystemVendor_deep : deepcopy.
Lemma Hardware_deep : deep_copies Hardware_DeepCopyInto Hardware_t.
Proof. struct_deep. Qed.
#[local] Hint Resolve Hardware_deep : deepcopy.
Lemma UpgradeInformation_deep : deep_copies UpgradeInformation_DeepCopyInto UpgradeInformation_t.
Proof. struct_deep. Qed.
#[local] Hint Resolve UpgradeInformation_deep : deepcopy.
Lemma EdgeDeviceStatus_deep : deep_copies EdgeDeviceStatus_DeepCopyInto EdgeDeviceStatus_t.
Proof. struct_deep. Qed.
#[local] Hint Resolve EdgeDeviceStatus_deep : deepcopy.
Lemma EdgeDevice_deep : deep_copies EdgeDevice_DeepCopyInto EdgeDevice_t.
Proof. struct_deep. Qed.
#[local] Hint Resolve EdgeDevice_deep : deepcopy.
Lemma EdgeDeviceList_deep : deep_copies EdgeDeviceList_DeepCopyInto EdgeDeviceList_t.
Proof. struct_deep. Qed.
#[local] Hint Resolve EdgeDeviceList_deep : deepcopy.
Lemma Route_deep : deep_copies Route_DeepCopyInto Route_t.
Proof. struct_deep. Qed.
#[local] Hint Resolve Route_deep : deepcopy.

Lemma generated_deep T copy : (T, copy) ∈ generated → deep_copies copy (TPointer T).
Proof.
  unfold generated. rewrite !elem_of_cons, elem_of_nil. intros H.
  repeat destruct H as [[= -> ->]|H]; [by apply copy_pointer_deep; auto with deepcopy..|done].
Qed.

Lemma generated_objects_spec T copy h p t :
  (T, copy) ∈ generated_objects → holds (TPointer T) h p t →
  ∃ p' hn, copy p h = Some (object_of p', h ∪ hn) ∧ hn ##ₘ h ∧ holds (TPointer T) hn p' t ∧
    (object_of p' = None ↔ p = VNil).
Proof.
  intros Hin Hp. assert (∃ into, deep_copies into T ∧
    copy = λ in_, c ⇐ copy_pointer into in_; mem_ret (object_of c)) as (into & Hinto & ->).
  { unfold generated_objects in Hin. rewrite !elem_of_cons, elem_of_nil in Hin.
    repeat destruct Hin as [[= -> ->]|Hin];
      [eexists; split; [|reflexivity]; auto with deepcopy..|done]. }
  destruct (copy_pointer_deep into T Hinto h p t Hp) as (p' & hn & E & Hd & Hp').
  exists p', hn. unfold mem_bind. rewrite E. split_and!; [done|done|done|].
  destruct Hp as [[-> ->]|(l & x & tx & -> & _ & -> & _)], Hp' as [[-> ?]|(l' & x' & tx' & -> & _ & ? & _)];
    by simplify_eq.
Qed.

(** C34: The generated copies are deep, for every type of the custom resources. A
    copy of a pointer never panics; it answers nil for nil and otherwise a
    pointer that stands for exactly the same value, whatever slices share or
    pointers alias in the original; the cells it had are left as they are. The
    two are independent: whatever is written afterwards to the cells the
    original had, the copy stands for the value that was copied, and whatever is
    written to the new cells, the original does. *)
Theorem DeepCopy_independent T copy h p t :
  (T, copy) ∈ generated → holds (TPointer T) h p t →
  ∃ p' hn, copy p h = Some (p', h ∪ hn) ∧ hn ##ₘ h ∧ holds (TPointer T) (h ∪ hn) p' t ∧
    (∀ h2, h2 ##ₘ hn → holds (TPointer T) (h2 ∪ hn) p' t) ∧
    (∀ hn2, hn2 ##ₘ h → holds (TPointer T) (h ∪ hn2) p t).
Proof. intros Hin. apply deep_copies_independent. by apply generated_deep. Qed.
End generated.

(** ** Example *)

(** Library types with the fields that the operator reads. *)
#[local] Instance some_library : Library := {
  Time_t := TStruct [("ns", TScalar)];
  ObjectMeta_t := TStruct [("Name", TScalar); ("Labels", TMap TScalar); ("Finalizers", TSlice TScalar)];
  ListMeta_t := TStruct [("ResourceVersion", TScalar)];
  LabelSelector_t := TStruct [("MatchLabels", TMap TScalar)];
  PodSpec_t := TStruct [("Containers", TSlice (TStruct [("Name", TScalar)]))];
  Time_DeepCopyInto := struct_copy [];
  Time_DeepCopy := copy_pointer (struct_copy []);
  ObjectMeta_DeepCopyInto := struct_copy [("Labels", copy_map shallow); ("Finalizers", copy_slice shallow)];
  ListMeta_DeepCopyInto := struct_copy [];
  LabelSelector_DeepCopyInto := struct_copy [("MatchLabels", copy_map shallow)];
  PodSpec_DeepCopyInto := struct_copy [("Containers", copy_slice shallow)];
}.

#[local] Instance some_library_laws : LibraryLaws some_library.
Proof. split; [struct_deep|apply copy_pointer_deep; struct_deep|struct_deep..]. Qed.

(** A CPU whose flags are the middle of a longer array. *)
Definition some_cpu : val := VStruct {["Architecture" := VScalar (SString "x86_64"); "Count" := VScalar (SInt 4);
  "Flags" := VSlice 2 1 1; "Frequency" := VScalar (SString "1.0"); "ModelName" := VScalar (SString "")]}.
Definition some_heap : heap :=
  {[1%positive := Obj some_cpu;
    2%positive := Arr [VScalar (SString "fpu"); VScalar (SString "vme"); VScalar (SString "de")]]}.
Definition some_tree : tree := Box (Fields {["Architecture" := Leaf (SString "x86_64"); "Count" := Leaf (SInt 4);
  "Flags" := Items [Leaf (SString "vme")]; "Frequency" := Leaf (SString "1.0"); "ModelName" := Leaf (SString "")]}).

Lemma some_cpu_holds : holds (TPointer CPU_t) some_heap (VPtr 1) some_tree.
Proof.
  right. exists 1%positive, some_cpu. eexists. split_and!; [done|done|reflexivity|].
  apply holds_struct. do 2 eexists. split; [reflexivity|]. split; [reflexivity|]. split.
  - intros k Hk. unfold CPU_t in Hk. csimpl in Hk. rewrite !not_elem_of_cons in Hk. destruct Hk as (? & ? & ? & ? & ? & _).
    split; unfold some_cpu; rewrite !lookup_insert_ne, lookup_singleton_ne by congruence; done.
  - repeat apply Forall_cons_2; [..|apply Forall_nil_2]; do 2 eexists; (split; [reflexivity|]); (split; [reflexivity|]);
      try by eexists.
    right. do 5 eexists. split; [reflexivity|]. split; [reflexivity|]. split; [simpl; lia|]. split; [reflexivity|].
    repeat constructor. by eexists.
Qed.

(** Overwriting the original's array does not change the copy. *)
Lemma DeepCopy_independent_witness :
  (match CPU_DeepCopy (VPtr 1) some_heap with
   | Some (p', h') => Some (p', h' !! 3%positive, h' !! 1%positive)
   | None => None
   end) = Some (VPtr 4, Some (Arr [VScalar (SString "vme")]), Some (Obj some_cpu)) ∧
  ∃ p' hn, CPU_DeepCopy (VPtr 1) some_heap = Some (p', some_heap ∪ hn) ∧ holds (TPointer CPU_t) (∅ ∪ hn) p' some_tree.
Proof.
  split; [vm_compute; reflexivity|].
  destruct (DeepCopy_independent CPU_t CPU_DeepCopy some_heap (VPtr 1) some_tree) as (p' & hn & E & _ & _ & H & _).
  - right. left.
  - exact some_cpu_holds.
  - exists p', hn. split; [exact E|]. apply H, map_disjoint_empty_l.
Defined.
