(* ===== verification/K8s.v ===== *)
(** * Kubernetes data the operator reads

    The parts of [metav1] and [corev1] objects that the operator inspects. A
    sub-object that the operator only passes on or tests against nil is kept as
    an [Opaque] value (its serialized form). A Go pointer is an [option]; a Go
    map whose nil-ness the program can observe is an [option] of a [gmap]. *)
From S2P Require Import Prelude.

(** A point in time, in nanoseconds since the Unix epoch; [zero_time] is Go's
    [time.Time{}], the first of January of year 1. *)
Abbreviation Timestamp := Z (only parsing).
Definition zero_time : Timestamp := (-62135596800 * 1000000000)%Z.

Abbreviation Opaque := string (only parsing).

(** [map[string]string] *)
Abbreviation labelmap := (gmap string string).

Record ObjectMeta := mkObjectMeta {
  Name : string;
  Namespace : string;
  ResourceVersion : string;
  Labels : option labelmap;
  Finalizers : list string;
  DeletionTimestamp : option Timestamp;
}.

(** [metav1.ObjectMeta{Name: name, Namespace: ns}] *)
Definition new_meta (name ns : string) : ObjectMeta :=
  mkObjectMeta name ns "" None [] None.

Definition meta_set_labels (l : option labelmap) (m : ObjectMeta) : ObjectMeta :=
  mkObjectMeta (Name m) (Namespace m) (ResourceVersion m) l (Finalizers m) (DeletionTimestamp m).
Definition meta_set_finalizers (f : list string) (m : ObjectMeta) : ObjectMeta :=
  mkObjectMeta (Name m) (Namespace m) (ResourceVersion m) (Labels m) f (DeletionTimestamp m).

(** A nil map reads as the empty map. *)
Definition map_of (l : option labelmap) : labelmap := default ∅ l.
Definition labels_of (m : ObjectMeta) : labelmap := map_of (Labels m).

(** ** Label selectors ([metav1.LabelSelector]) *)
Inductive LabelSelectorOperator :=
  | LabelSelectorOpIn
  | LabelSelectorOpNotIn
  | LabelSelectorOpExists
  | LabelSelectorOpDoesNotExist
  | LabelSelectorOpOther (op : string).

Record LabelSelectorRequirement := mkRequirement {
  req_Key : string;
  req_Operator : LabelSelectorOperator;
  req_Values : list string;
}.

Record LabelSelector := mkLabelSelector {
  MatchLabels : labelmap;
  MatchExpressions : list LabelSelectorRequirement;
}.

(** ** Pods *)

(** A reference to a Secret or ConfigMap as a whole. *)
Record SourceRef := mkSourceRef { ref_Name : string; ref_Optional : option bool }.

(** A reference to one key of a Secret or ConfigMap. *)
Record KeySelector := mkKeySelector {
  key_Name : string; key_Key : string; key_Optional : option bool }.

Record EnvVarSource := mkEnvVarSource {
  FieldRef : option Opaque;
  ResourceFieldRef : option Opaque;
  ConfigMapKeyRef : option KeySelector;
  SecretKeyRef : option KeySelector;
}.

Record EnvVar := mkEnvVar {
  env_Name : string;
  env_Value : string;
  ValueFrom : option EnvVarSource;
}.

Record EnvFromSource := mkEnvFromSource {
  Prefix : string;
  ConfigMapRef : option SourceRef;
  SecretRef : option SourceRef;
}.

Record Container := mkContainer {
  container_Name : string;
  EnvFrom : list EnvFromSource;
  Env : list EnvVar;
  Limits : gmap string Opaque;
  Requests : gmap string Opaque;
  VolumeDevices : list Opaque;
  LivenessProbe : option Opaque;
  ReadinessProbe : option Opaque;
  StartupProbe : option Opaque;
  Lifecycle : option Opaque;
  container_Rest : Opaque;
}.

Record Volume := mkVolume {
  volume_Name : string;
  HostPath : option Opaque;
  volume_ConfigMap : option SourceRef;
  volume_Rest : Opaque;
}.

Record PodSpec := mkPodSpec {
  Volumes : list Volume;
  InitContainers : list Container;
  Containers : list Container;
  podspec_Rest : Opaque;
}.

(** [append(podSpec.InitContainers, podSpec.Containers...)] *)
Definition allContainers (p : PodSpec) : list Container := InitContainers p ++ Containers p.

(** ** Other objects the operator reads or writes *)

(** [Data] of a Secret is a map to byte slices; reading a nil map is reading the
    empty map, so nil and empty are one value here. *)
Record Secret := mkSecret {
  secret_Meta : ObjectMeta;
  secret_Data : gmap string string;
}.

Record ConfigMap := mkConfigMap {
  cm_Meta : ObjectMeta;
  cm_Data : gmap string string;
}.

(** [routev1.Route]: only [Spec.Host] is read. *)
Record Route := mkRoute { route_Host : string }.

(** [obv1.ObjectBucketClaim] *)
Record ObjectBucketClaim := mkObjectBucketClaim {
  obc_Meta : ObjectMeta;
  GenerateBucketName : string;
  StorageClassName : string;
}.

(** [ctrl.Request] and [ctrl.Result]; [RequeueAfter] in nanoseconds. *)
Record Request := mkRequest { req_Name : string; req_Namespace : string }.
Record Result := mkResult { Requeue : bool; RequeueAfter : Z }.
Definition no_requeue : Result := mkResult false 0.
Definition requeue : Result := mkResult true 0.

#[export] Instance ObjectMeta_eq_dec : EqDecision ObjectMeta.
Proof. solve_decision. Defined.
#[export] Instance LabelSelectorOperator_eq_dec : EqDecision LabelSelectorOperator.
Proof. solve_decision. Defined.
#[export] Instance LabelSelectorRequirement_eq_dec : EqDecision LabelSelectorRequirement.
Proof. solve_decision. Defined.
#[export] Instance LabelSelector_eq_dec : EqDecision LabelSelector.
Proof. solve_decision. Defined.
#[export] Instance SourceRef_eq_dec : EqDecision SourceRef.
Proof. solve_decision. Defined.
#[export] Instance KeySelector_eq_dec : EqDecision KeySelector.
Proof. solve_decision. Defined.
