(* ===== verification/X509.v ===== *)
(** * Certificates as the operator handles them

    The fields of Go's [x509.Certificate] that the operator sets or reads, and
    the keys and PEM blocks around them. Key material and signatures are
    opaque; what they mean is the business of the library. *)
From S2P Require Import Prelude K8s.

Inductive KeyUsage := KeyUsageDigitalSignature | KeyUsageCertSign.
Inductive ExtKeyUsage := ExtKeyUsageClientAuth | ExtKeyUsageServerAuth.

(** [pkix.Name] *)
Record PkixName := mkPkixName {
  CommonName : string;
  Organization : list string;
  Subject_SerialNumber : string;
  Subject_Rest : Opaque;
}.

(** [PublicKeyAlgorithm], [SignatureAlgorithm] and [Signature] are carried over
    from a request as one opaque value. *)
Record Certificate := mkCertificate {
  cert_SerialNumber : Z;
  Subject : PkixName;
  NotBefore : Timestamp;
  NotAfter : Timestamp;
  IsCA : bool;
  BasicConstraintsValid : bool;
  SubjectKeyId : list Z;
  cert_KeyUsage : list KeyUsage;
  cert_ExtKeyUsage : list ExtKeyUsage;
  DNSNames : list string;
  IPAddresses : list string;
  cert_PublicKey : Opaque;
  cert_Signature : Opaque;
}.

Record CertificateRequest := mkCertificateRequest {
  csr_Subject : PkixName;
  csr_PublicKey : Opaque;
  csr_Signature : Opaque;
}.

(** The dynamic type of a [crypto.PrivateKey]. *)
Inductive PrivateKey :=
  | EcdsaKey (k : Opaque)
  | RsaKey (k : Opaque)
  | OtherKey (k : Opaque).

Record PemBlock := mkPemBlock { Block_Type : string; Block_Bytes : string }.

(** A certificate pool, as the PEM texts that were appended to it. *)
Abbreviation CertPool := (list string) (only parsing).

(** [x509.VerifyOptions]; an empty [KeyUsages] stands for [ExtKeyUsageServerAuth]. *)
Record VerifyOptions := mkVerifyOptions {
  Roots : CertPool;
  Intermediates : CertPool;
  KeyUsages : list ExtKeyUsage;
}.

#[export] Instance ExtKeyUsage_eq_dec : EqDecision ExtKeyUsage.
Proof. solve_decision. Defined.
#[export] Instance KeyUsage_eq_dec : EqDecision KeyUsage.
Proof. solve_decision. Defined.

(** The documented check of key usages in [Certificate.Verify]: no usages asked
    for means server authentication, and a certificate that lists no usages is
    unrestricted. *)
Definition usage_allowed (cert : Certificate) (opts : VerifyOptions) : bool :=
  let asked := match KeyUsages opts with [] => [ExtKeyUsageServerAuth] | us => us end in
  match cert_ExtKeyUsage cert with
  | [] => true
  | usages => existsb (λ u, bool_decide (u ∈ usages)) asked
  end.
