(* ===== verification/Labels.v ===== *)
(** * Labels and label selectors

    [internal/labels] and the parts of [k8s.io/apimachinery] (vendored under
    [src/vendor]) that decide which labels and selectors are well formed and
    which objects a selector matches. *)
From S2P Require Import Prelude K8s.
From Stdlib Require Import Ascii.

(** ** [internal/labels/labels.go] *)
Definition DeviceNameLabel : string := "devicename".
Definition DoesNotExistLabel : string := "doesnotexist".
Definition workloadLabelPrefix : string := "workload/".
Definition selectorLabelPrefix : string := "selector/".

Definition WorkloadLabel (workloadName : string) : string := workloadLabelPrefix +:+ workloadName.
Definition IsWorkloadLabel (label : string) : bool := String.prefix workloadLabelPrefix label.
Definition IsSelectorLabel (label : string) : bool := String.prefix selectorLabelPrefix label.
Definition CreateSelectorLabel (label : string) : string := selectorLabelPrefix +:+ label.

(** ** Well-formed keys and values ([util/validation]) *)
Definition chars (s : string) : list ascii := String.list_ascii_of_string s.

Definition in_range (lo hi c : ascii) : bool :=
  (N_of_ascii lo <=? N_of_ascii c)%N && (N_of_ascii c <=? N_of_ascii hi)%N.
Definition is_lower (c : ascii) : bool := in_range "a" "z" c.
Definition is_upper (c : ascii) : bool := in_range "A" "Z" c.
Definition is_digit (c : ascii) : bool := in_range "0" "9" c.
Definition is_alnum (c : ascii) : bool := is_lower c || is_upper c || is_digit c.
Definition is_qname_char (c : ascii) : bool :=
  is_alnum c || Ascii.eqb c "-" || Ascii.eqb c "_" || Ascii.eqb c ".".
Definition is_dns_char (c : ascii) : bool := is_lower c || is_digit c || Ascii.eqb c "-".

(** [^(F E* )?F$] for a set [F] of first and last characters inside [E]. *)
Definition framed (F E : ascii → bool) (s : list ascii) : bool :=
  match head s, last s with
  | Some a, Some b => F a && F b && forallb E s
  | _, _ => false
  end.

(** [strings.Split(s, sep)] for a one-character separator. *)
Fixpoint split (sep : ascii) (s : list ascii) : list (list ascii) :=
  match s with
  | [] => [[]]
  | c :: s =>
      if Ascii.eqb c sep then [] :: split sep s
      else match split sep s with
           | [] => [[c]]
           | w :: ws => (c :: w) :: ws
           end
  end.

Definition qualifiedNameRegexp (s : list ascii) : bool := framed is_alnum is_qname_char s.
Definition dns1123Label (s : list ascii) : bool :=
  framed (λ c, is_lower c || is_digit c) is_dns_char s.
Definition IsDNS1123Subdomain (s : list ascii) : bool :=
  (Nat.leb (length s) 253) && forallb dns1123Label (split "." s).

(** [true] when the Go function returns no error strings. *)
Definition valid_name_part (name : list ascii) : bool :=
  Nat.leb (length name) 63 && qualifiedNameRegexp name.
Definition IsQualifiedName (value : string) : bool :=
  match split "/" (chars value) with
  | [name] => valid_name_part name
  | [prefix; name] => IsDNS1123Subdomain prefix && valid_name_part name
  | _ => false
  end.
Definition IsValidLabelValue (value : string) : bool :=
  Nat.leb (length (chars value)) 63 &&
  (match chars value with [] => true | s => qualifiedNameRegexp s end).

(** ** Requirements and selectors ([pkg/labels], [metav1/helpers.go]) *)
Inductive Operator := OpIn | OpNotIn | OpEquals | OpExists | OpDoesNotExist.

Record LabelRequirement := mkLabelRequirement {
  lr_key : string; lr_operator : Operator; lr_strValues : list string }.

(** The texts of the library's errors are abbreviated. *)
Definition NewRequirement (key : string) (op : Operator) (vals : list string)
    : result LabelRequirement :=
  if negb (IsQualifiedName key) then Err (ErrorString ("invalid label key " +:+ key)) else
  let arity_ok := match op with
    | OpIn | OpNotIn => negb (Nat.eqb (length vals) 0)
    | OpEquals => Nat.eqb (length vals) 1
    | OpExists | OpDoesNotExist => Nat.eqb (length vals) 0
    end in
  if negb arity_ok then Err (ErrorString "wrong number of values for the operator") else
  if forallb IsValidLabelValue vals then Ok (mkLabelRequirement key op vals)
  else Err (ErrorString ("invalid label value at key " +:+ key)).

(** [Requirement.Matches] on [labels.Set(ls)] *)
Definition req_matches (r : LabelRequirement) (ls : labelmap) : bool :=
  let hasValue v := bool_decide (v ∈ lr_strValues r) in
  match lr_operator r, ls !! lr_key r with
  | (OpIn | OpEquals), Some v => hasValue v
  | (OpIn | OpEquals), None => false
  | OpNotIn, Some v => negb (hasValue v)
  | OpNotIn, None => true
  | OpExists, o => bool_decide (is_Some o)
  | OpDoesNotExist, o => negb (bool_decide (is_Some o))
  end.

Inductive Selector :=
  | NothingSelector
  | InternalSelector (rs : list LabelRequirement).

(** [Selector.Matches]: the library keeps the requirements sorted, which a
    conjunction does not show. *)
Definition sel_matches (s : Selector) (ls : labelmap) : bool :=
  match s with
  | NothingSelector => false
  | InternalSelector rs => forallb (λ r, req_matches r ls) rs
  end.

Fixpoint all_ok {A B} (f : A → result B) (l : list A) : result (list B) :=
  match l with
  | [] => Ok []
  | a :: l => match f a with
              | Err e => Err e
              | Ok b => match all_ok f l with Ok bs => Ok (b :: bs) | Err e => Err e end
              end
  end.

Definition requirement_of (expr : LabelSelectorRequirement) : result LabelRequirement :=
  match req_Operator expr with
  | LabelSelectorOpIn => NewRequirement (req_Key expr) OpIn (req_Values expr)
  | LabelSelectorOpNotIn => NewRequirement (req_Key expr) OpNotIn (req_Values expr)
  | LabelSelectorOpExists => NewRequirement (req_Key expr) OpExists (req_Values expr)
  | LabelSelectorOpDoesNotExist => NewRequirement (req_Key expr) OpDoesNotExist (req_Values expr)
  | LabelSelectorOpOther op => Err (ErrorString (op +:+ " is not a valid pod selector operator"))
  end.

(** [metav1.LabelSelectorAsSelector]. Go reads [MatchLabels] in any order; the
    order can only change which error is reported first. *)
Definition LabelSelectorAsSelector (ps : option LabelSelector) : result Selector :=
  match ps with
  | None => Ok NothingSelector
  | Some ps =>
      match all_ok (λ '(k, v), NewRequirement k OpEquals [v]) (map_to_list (MatchLabels ps)),
            all_ok requirement_of (MatchExpressions ps) with
      | Err e, _ => Err e
      | Ok _, Err e => Err e
      | Ok rs1, Ok rs2 => Ok (InternalSelector (rs1 ++ rs2))
      end
  end.

(** ** Lemmas *)
Lemma prefix_app (p s : string) : String.prefix p (p +:+ s) = true.
Proof.
  induction p as [|c p IH]; simpl; [by destruct s|].
  destruct (ascii_dec c c); [done|congruence].
Qed.

Lemma prefix_spec (p s : string) : String.prefix p s = true ↔ ∃ t, s = p +:+ t.
Proof.
  split; [|intros [t ->]; apply prefix_app].
  revert s; induction p as [|c p IH]; intros s; simpl; [by exists s|].
  destruct s as [|c' s]; simpl; [done|]. destruct (ascii_dec c c') as [->|]; [|done].
  intros [t ->]%IH. by exists t.
Qed.

#[export] Instance app_inj (p : string) : Inj (=) (=) (String.append p).
Proof. intros s t; induction p as [|c p IH]; simpl; [done|]. intros [=]. by apply IH. Qed.

Lemma IsWorkloadLabel_WorkloadLabel w : IsWorkloadLabel (WorkloadLabel w) = true.
Proof. apply prefix_app. Qed.
Lemma IsSelectorLabel_CreateSelectorLabel l : IsSelectorLabel (CreateSelectorLabel l) = true.
Proof. apply prefix_app. Qed.
#[export] Instance CreateSelectorLabel_inj : Inj (=) (=) CreateSelectorLabel.
Proof. apply app_inj. Qed.
#[export] Instance WorkloadLabel_inj : Inj (=) (=) WorkloadLabel.
Proof. apply app_inj. Qed.

Lemma split_nonempty sep s : ∃ w ws, split sep s = w :: ws.
Proof.
  induction s as [|c s (w & ws & IH)]; simpl; [eauto|].
  rewrite IH. destruct (Ascii.eqb c sep); eauto.
Qed.

Lemma split_free sep s : sep ∉ s → split sep s = [s].
Proof.
  induction s as [|c s IH]; simpl; [done|]. rewrite not_elem_of_cons. intros [Hc Hs].
  rewrite IH by done. destruct (Ascii.eqb_spec c sep); [done|done].
Qed.

Lemma split_app_sep sep p s : sep ∉ p → split sep (p ++ sep :: s) = p :: split sep s.
Proof.
  induction p as [|c p IH]; simpl; [by rewrite Ascii.eqb_refl|].
  rewrite not_elem_of_cons. intros [Hc Hp]. rewrite IH by done.
  destruct (Ascii.eqb_spec c sep); [done|done].
Qed.

Lemma split_single sep s w : split sep s = [w] → (sep ∉ s) ∧ w = s.
Proof.
  revert w; induction s as [|c s IH]; simpl; intros w; [intros [=]; set_solver|].
  destruct (Ascii.eqb_spec c sep) as [->|Hc].
  - destruct (split_nonempty sep s) as (?&?&->). done.
  - destruct (split sep s) as [|w' ws] eqn:Es; [destruct (split_nonempty sep s) as (?&?&?); congruence|].
    intros [=]; subst. destruct (IH _ eq_refl) as [Hs ->].
    split; [by rewrite not_elem_of_cons|done].
Qed.

Lemma chars_app s t : chars (s +:+ t) = chars s ++ chars t.
Proof. unfold chars. induction s as [|c s IH]; simpl; [done|]. by rewrite IH. Qed.

(** A framed list starts and ends in [F] and stays in [E]. *)
Lemma framed_spec F E s :
  framed F E s = true ↔
  (∃ a, head s = Some a ∧ F a = true) ∧ (∃ b, last s = Some b ∧ F b = true) ∧
  Forall (λ c, E c = true) s.
Proof.
  unfold framed. destruct (head s) as [a|]; [|naive_solver].
  destruct (last s) as [b|]; [|naive_solver].
  rewrite !andb_true_iff, forallb_forall, Forall_forall. setoid_rewrite list_elem_of_In.
  naive_solver.
Qed.

(** A selector label is a valid label key only for an unprefixed key. *)
Lemma CreateSelectorLabel_valid l :
  IsQualifiedName (CreateSelectorLabel l) = true ↔
  ("/"%char ∉ chars l) ∧ valid_name_part (chars l) = true.
Proof.
  assert (Hs : split "/" (chars (CreateSelectorLabel l)) =
               chars "selector" :: split "/" (chars l)).
  { unfold CreateSelectorLabel. rewrite chars_app. apply (split_app_sep "/" (chars "selector")).
    apply (bool_decide_unpack _). by vm_compute. }
  unfold IsQualifiedName. rewrite Hs.
  destruct (split "/" (chars l)) as [|w [|w' ws]] eqn:E.
  - destruct (split_nonempty "/" (chars l)) as (?&?&?); congruence.
  - apply split_single in E as [Hfree ->].
    change (IsDNS1123Subdomain (chars "selector")) with true. naive_solver.
  - split; [done|]. intros [Hfree _]. by rewrite split_free in E.
Qed.

Lemma all_ok_Forall2 {A B} (f : A → result B) l bs :
  all_ok f l = Ok bs ↔ Forall2 (λ a b, f a = Ok b) l bs.
Proof.
  split.
  - revert bs; induction l as [|a l IH]; simpl; intros bs; [intros [=<-]; constructor|].
    destruct (f a) eqn:E; [|done]. destruct (all_ok f l); [|done].
    intros [=<-]. constructor; eauto.
  - induction 1 as [|a b l bs Hf _ IH]; simpl; [done|]. by rewrite Hf, IH.
Qed.

Lemma NewRequirement_ok key op vals r :
  NewRequirement key op vals = Ok r → r = mkLabelRequirement key op vals ∧ IsQualifiedName key = true.
Proof.
  unfold NewRequirement. destruct (IsQualifiedName key); simpl; [|done].
  destruct (negb _); [done|]. destruct (forallb _ _); [|done]. by intros [=<-].
Qed.

(** The errors of selectors are not errors of the API server. *)
Lemma NewRequirement_error key op vals e : NewRequirement key op vals = Err e → IsNotFound e = false.
Proof.
  unfold NewRequirement. destruct (negb (IsQualifiedName key)); [by intros [= <-]|].
  destruct (negb _); [by intros [= <-]|]. destruct (forallb _ _); [done|by intros [= <-]].
Qed.

Lemma all_ok_error {A B} (f : A → result B) l e :
  all_ok f l = Err e → ∃ a, a ∈ l ∧ f a = Err e.
Proof.
  induction l as [|a l IH]; simpl; [done|]. destruct (f a) as [b|e'] eqn:E.
  - destruct (all_ok f l); [done|]. intros [= ->]. destruct (IH eq_refl) as (a' & ? & ?).
    exists a'. split; [by right|done].
  - intros [= ->]. exists a. split; [left|done].
Qed.

Lemma LabelSelectorAsSelector_error ps e :
  LabelSelectorAsSelector ps = Err e → IsNotFound e = false.
Proof.
  unfold LabelSelectorAsSelector. destruct ps as [ps|]; [|done].
  destruct (all_ok _ (map_to_list _)) as [rs1|e1] eqn:E1.
  2:{ intros [= ->]. apply all_ok_error in E1 as ([k v] & _ & E). by eapply NewRequirement_error. }
  destruct (all_ok requirement_of _) as [rs2|e2] eqn:E2; [done|].
  intros [= ->]. apply all_ok_error in E2 as (r & _ & E). unfold requirement_of in E.
  destruct (req_Operator r); try (by eapply NewRequirement_error). by injection E as <-.
Qed.

(** The last part of a split: what follows the last separator. *)
Lemma last_split sep s w :
  last (split sep s) = Some w ↔ (sep ∉ w) ∧ (s = w ∨ ∃ p, s = p ++ sep :: w).
Proof.
  revert w; induction s as [|c s IH]; intros w; simpl.
  { split; [intros [= <-]; split; [by intros ?%elem_of_nil|by left]|].
    intros [_ [<-|[p Hp]]]; [done|]. by destruct p. }
  destruct (split_nonempty sep s) as (w0 & ws & Es).
  destruct (Ascii.eqb_spec c sep) as [->|Hc].
  - rewrite Es, last_cons_cons, <- Es, IH. split; intros [Hw [H|[p H]]]; (split; [done|]).
    + right. exists []. by rewrite H.
    + right. exists (sep :: p). by rewrite H.
    + subst w. destruct Hw. left.
    + destruct p as [|c p]; simplify_eq/=; [by left|right; by exists p].
  - rewrite Es. destruct ws as [|w1 ws].
    + apply split_single in Es as [Hs ->]. simpl. split.
      * intros [= <-]. split; [by rewrite not_elem_of_cons|by left].
      * intros [Hw [<-|[p Hp]]]; [done|]. exfalso.
        assert (sep ∈ c :: s) as Hin by (rewrite Hp; apply elem_of_app; right; left).
        apply elem_of_cons in Hin as [?|?]; [by subst|done].
    + assert (Hs : sep ∈ s).
      { destruct (decide (sep ∈ s)) as [|Hn]; [done|]. rewrite split_free in Es by done. done. }
      rewrite last_cons_cons. rewrite Es, last_cons_cons in IH. rewrite IH.
      split; intros [Hw [H|[p H]]]; (split; [done|]).
      * by subst.
      * right. exists (c :: p). by rewrite H.
      * subst w. destruct Hw. by right.
      * destruct p as [|c' p]; simplify_eq/=. right. by exists p.
Qed.

#[export] Instance chars_inj : Inj (=) (=) chars.
Proof.
  intros s t H. rewrite <- (String.string_of_list_ascii_of_string s), <- (String.string_of_list_ascii_of_string t).
  unfold chars in H. by rewrite H.
Qed.
