(* ===== verification/Utils.v ===== *)
(** * Utilities: finalizers and requirement maps ([internal/utils])

    [HasFinalizer], and the maps from the name of a Secret or ConfigMap to the
    keys a pod needs of it, collected from its containers and volumes. *)
From S2P Require Import Prelude K8s.

(** [HasFinalizer] *)
Fixpoint has_finalizer (fs : list string) (name : string) : bool :=
  match fs with
  | [] => false
  | f :: fs => if String.eqb f name then true else has_finalizer fs name
  end.
Definition HasFinalizer (cr : ObjectMeta) (name : string) : bool :=
  has_finalizer (Finalizers cr) name.

(** [RemoveFinalizer]'s loop, shared by the two repositories:
    every finalizer but the given one, in order. *)
Definition without_finalizer (finalizer : string) (fs : list string) : list string :=
  filter (λ f, f ≠ finalizer) fs.

Lemma has_finalizer_spec fs name : has_finalizer fs name = true ↔ name ∈ fs.
Proof.
  induction fs as [|f fs IH]; simpl; [by rewrite elem_of_nil|].
  rewrite elem_of_cons, <- IH. destruct (String.eqb_spec f name); naive_solver.
Qed.

Lemma has_without_finalizer f fs : has_finalizer (without_finalizer f fs) f = false.
Proof.
  apply not_true_is_false. rewrite has_finalizer_spec. unfold without_finalizer.
  rewrite list_elem_of_filter. by intros [? _].
Qed.

(** ** Requirement maps

    [StringSet = map[string]interface{}]; a nil set (an optional object) is
    [None], a set of keys that must be present is [Some]. *)
Abbreviation StringSet := (option (gset string)).
Abbreviation MapType := (gmap string StringSet).

(** [GetRef]: (exist, optional, name). [GetRefEnv]: (exist, optional, name, key);
    [NilDeref] is a panic of the closure. *)
Abbreviation GetRef A := (A → bool * option bool * string).
Abbreviation GetRefEnv := (EnvVar → deref (bool * option bool * string * string)).

(** [p == nil] *)
Definition is_nil {A} (p : option A) : bool := match p with None => true | Some _ => false end.

(** The body shared by the loops over whole objects (envFrom and volumes). *)
Definition add_object (optional : bool) (name : string) (themap : MapType) : MapType :=
  match themap !! name with
  | Some keys =>
      if negb optional && is_nil keys
      then <[name := Some ∅]> themap else themap
  | None => if optional then <[name := None]> themap else <[name := Some ∅]> themap
  end.

(** The body of the loops over single keys (env). *)
Definition add_key (optional : bool) (name key : string) (themap : MapType) : MapType :=
  match themap !! name with
  | Some keys =>
      if negb optional then
        match keys with
        | None => <[name := Some {[key]}]> themap
        | Some ks => <[name := Some ({[key]} ∪ ks)]> themap
        end
      else themap
  | None => if optional then <[name := None]> themap else <[name := Some {[key]}]> themap
  end.

Fixpoint ExtractInfoFromEnvFrom (envs : list EnvFromSource) (themap : MapType)
    (ref : GetRef EnvFromSource) : MapType :=
  match envs with
  | [] => themap
  | env :: envs =>
      let '(exists_, opt, name) := ref env in
      if negb exists_ then ExtractInfoFromEnvFrom envs themap ref
      else ExtractInfoFromEnvFrom envs (add_object (default false opt) name themap) ref
  end.

Fixpoint ExtractInfoFromVolume (volumes : list Volume) (themap : MapType)
    (ref : GetRef Volume) : MapType :=
  match volumes with
  | [] => themap
  | volume :: volumes =>
      let '(exists_, opt, name) := ref volume in
      if negb exists_ then ExtractInfoFromVolume volumes themap ref
      else ExtractInfoFromVolume volumes (add_object (default false opt) name themap) ref
  end.

(** The closure is called before [ValueFrom] is tested, so its panic on a nil
    [ValueFrom] is the loop's panic. *)
Fixpoint ExtractInfoFromEnv (env : list EnvVar) (configmapMap : MapType) (ref : GetRefEnv)
    : deref MapType :=
  match env with
  | [] => Val configmapMap
  | envVar :: env =>
      match ref envVar with
      | NilDeref => NilDeref
      | Val (exists_, opt, name, key) =>
          if is_nil (ValueFrom envVar) || negb exists_
          then ExtractInfoFromEnv env configmapMap ref
          else ExtractInfoFromEnv env (add_key (default false opt) name key configmapMap) ref
      end
  end.

(** ** What the maps mean *)

(** One reference to an object: as a whole, or to one of its keys. *)
Record usage := Usage { use_name : string; use_key : option string; use_optional : bool }.

Definition mark (m : MapType) (u : usage) : MapType :=
  match use_key u with
  | None => add_object (use_optional u) (use_name u) m
  | Some k => add_key (use_optional u) (use_name u) k m
  end.

(** The least upper bound of two requirements on one object: absent, then
    optional, then mandatory with growing sets of keys. *)
Definition join (x y : option StringSet) : option StringSet :=
  match x, y with
  | None, z | z, None => z
  | Some None, Some z | Some z, Some None => Some z
  | Some (Some s), Some (Some t) => Some (Some (s ∪ t))
  end.

(** The requirement one reference puts on the object [n]. *)
Definition requires (n : string) (u : usage) : option StringSet :=
  if decide (use_name u = n)
  then Some (if use_optional u then None
             else Some (match use_key u with None => ∅ | Some k => {[k]} end))
  else None.

(** The requirement of a list of references, independent of any order. *)
Definition needed (us : list usage) (n : string) : option StringSet :=
  foldr (λ u, join (requires n u)) None us.

#[export] Instance join_comm : Comm (=) join.
Proof. intros [[s|]|] [[t|]|]; simpl; do 2?f_equal; set_solver. Qed.
#[export] Instance join_assoc : Assoc (=) join.
Proof. intros [[s|]|] [[t|]|] [[u|]|]; simpl; do 2?f_equal; set_solver. Qed.
#[export] Instance join_none_l : LeftId (=) None join.
Proof. by intros [[s|]|]. Qed.
#[export] Instance join_none_r : RightId (=) None join.
Proof. by intros [[s|]|]. Qed.
#[export] Instance join_idem : IdemP (=) join.
Proof. intros [[s|]|]; simpl; do 2?f_equal; set_solver. Qed.

Lemma mark_lookup m u n : mark m u !! n = join (m !! n) (requires n u).
Proof.
  unfold mark, requires, add_key, add_object.
  destruct u as [un k o]; simpl. destruct (decide (un = n)) as [->|Hn].
  - destruct k as [k|]; destruct (m !! n) as [[ks|]|] eqn:E; destruct o; simpl; simplify_map_eq;
      rewrite ?E; first [done | do 2 f_equal; set_solver].
  - rewrite (right_id None join).
    destruct k as [k|], (m !! un) as [[ks|]|], o; simpl; by simplify_map_eq.
Qed.

(** Collecting references one by one computes the join of the requirements. *)
Lemma foldl_mark us m n : foldl mark m us !! n = join (m !! n) (needed us n).
Proof.
  revert m; induction us as [|u us IH]; intros m; simpl; [by rewrite (right_id None join)|].
  by rewrite IH, mark_lookup, (assoc join).
Qed.

Lemma needed_app us us' n : needed (us ++ us') n = join (needed us n) (needed us' n).
Proof.
  induction us as [|u us IH]; simpl; [by destruct (needed us' n) as [[]|]|]. by rewrite IH, (assoc join).
Qed.

#[export] Instance needed_perm n : Proper ((≡ₚ) ==> (=)) (λ us, needed us n).
Proof.
  induction 1 as [|u us us' _ IH|u v us|us us' us'' _ IH1 _ IH2]; simpl; [done|by rewrite IH| |congruence].
  by rewrite !(assoc join), (comm join (requires n u)).
Qed.

(** The requirement map of a list of references. *)
Definition requirements (us : list usage) : MapType := foldl mark ∅ us.

Lemma requirements_lookup us n : requirements us !! n = needed us n.
Proof. unfold requirements. by rewrite foldl_mark, lookup_empty, (left_id None join). Qed.

Lemma requirements_perm us us' : us ≡ₚ us' → requirements us = requirements us'.
Proof. intros H. apply map_eq. intros n. rewrite !requirements_lookup. by apply needed_perm. Qed.

(** Reading a requirement: whether there is one, whether it is mandatory, and
    its keys; each is a homomorphism from [join]. *)
Definition present (x : option StringSet) : Prop := is_Some x.
Definition mandatory (x : option StringSet) : Prop := ∃ s, x = Some (Some s).
Definition keys_of (x : option StringSet) : gset string :=
  match x with Some (Some s) => s | _ => ∅ end.

Lemma present_join x y : present (join x y) ↔ present x ∨ present y.
Proof. unfold present, is_Some. destruct x as [[]|], y as [[]|]; simpl; naive_solver. Qed.
Lemma mandatory_join x y : mandatory (join x y) ↔ mandatory x ∨ mandatory y.
Proof. unfold mandatory. destruct x as [[]|], y as [[]|]; simpl; naive_solver. Qed.
Lemma keys_of_join x y : keys_of (join x y) = keys_of x ∪ keys_of y.
Proof. destruct x as [[]|], y as [[]|]; simpl; set_solver. Qed.

Lemma present_requires n u : present (requires n u) ↔ use_name u = n.
Proof. unfold present, is_Some, requires. case_decide; naive_solver. Qed.
Lemma mandatory_requires n u :
  mandatory (requires n u) ↔ use_name u = n ∧ use_optional u = false.
Proof. unfold mandatory, requires. case_decide; destruct (use_optional u); naive_solver. Qed.
Lemma keys_of_requires n u k :
  k ∈ keys_of (requires n u) ↔ use_name u = n ∧ use_optional u = false ∧ use_key u = Some k.
Proof.
  unfold requires. case_decide; destruct (use_optional u), (use_key u); simpl;
    rewrite ?elem_of_singleton, ?elem_of_empty; naive_solver.
Qed.

Lemma needed_present us n : present (needed us n) ↔ ∃ u, u ∈ us ∧ use_name u = n.
Proof.
  induction us as [|u us IH]; simpl; [rewrite ex_nil; unfold present, is_Some; naive_solver|].
  by rewrite present_join, IH, present_requires, ex_cons.
Qed.

Lemma needed_mandatory us n :
  mandatory (needed us n) ↔ ∃ u, u ∈ us ∧ use_name u = n ∧ use_optional u = false.
Proof.
  induction us as [|u us IH]; simpl; [rewrite ex_nil; unfold mandatory; naive_solver|].
  by rewrite mandatory_join, IH, mandatory_requires, ex_cons.
Qed.

Lemma needed_keys us n k :
  k ∈ keys_of (needed us n) ↔
  ∃ u, u ∈ us ∧ use_name u = n ∧ use_optional u = false ∧ use_key u = Some k.
Proof.
  induction us as [|u us IH]; simpl; [rewrite ex_nil; by rewrite elem_of_empty|].
  by rewrite keys_of_join, elem_of_union, IH, keys_of_requires, ex_cons.
Qed.

(** The three cases of an entry of a requirement map. *)
Lemma needed_spec us n :
  match needed us n with
  | None => ∀ u, u ∈ us → use_name u ≠ n
  | Some None => (∃ u, u ∈ us ∧ use_name u = n) ∧
                 ∀ u, u ∈ us → use_name u = n → use_optional u = true
  | Some (Some ks) => (∃ u, u ∈ us ∧ use_name u = n ∧ use_optional u = false) ∧
                      ∀ k, k ∈ ks ↔ ∃ u, u ∈ us ∧ use_name u = n ∧
                                         use_optional u = false ∧ use_key u = Some k
  end.
Proof.
  pose proof (needed_present us n) as HP. pose proof (needed_mandatory us n) as HM.
  pose proof (needed_keys us n) as HK. unfold present, mandatory in *.
  destruct (needed us n) as [[ks|]|]; simpl in *.
  - split; [naive_solver|done].
  - split; [naive_solver|]. intros u Hu Hn. destruct (use_optional u) eqn:E; [done|].
    destruct (proj2 HM) as [? [=]]. eauto.
  - intros u Hu Hn. destruct (proj2 HP) as [? [=]]. eauto.
Qed.
