(* ===== verification/Models.v ===== *)
(** * Wire data exchanged with the device (package [models])

    The structures of [src/models], with the source's field names prefixed by
    the type's name. Integer fields are [Z] within the bounds of their Go width;
    [float64] is an IEEE binary64 value. *)
From S2P Require Import Prelude K8s.
From Stdlib Require Import SpecFloat.

Module models.

Record Boot := mkBoot { Boot_CurrentBootMode : string; Boot_PxeInterface : string }.

Record CPU := mkCPU {
  CPU_Architecture : string;
  CPU_Count : Z;
  CPU_Flags : list string;
  CPU_Frequency : spec_float;
  CPU_ModelName : string;
}.

Record IoPerf := mkIoPerf { IoPerf_SyncDuration : Z }.

Record Disk := mkDisk {
  Disk_Bootable : bool;
  Disk_ByID : string;
  Disk_ByPath : string;
  Disk_DriveType : string;
  Disk_Hctl : string;
  Disk_ID : string;
  Disk_IoPerf : option IoPerf;
  Disk_IsInstallationMedia : bool;
  Disk_Model : string;
  Disk_Name : string;
  Disk_Path : string;
  Disk_Serial : string;
  Disk_SizeBytes : Z;
  Disk_Smart : string;
  Disk_Vendor : string;
  Disk_Wwn : string;
}.

Record Gpu := mkGpu {
  Gpu_Address : string;
  Gpu_DeviceID : string;
  Gpu_Name : string;
  Gpu_Vendor : string;
  Gpu_VendorID : string;
}.

Record Interface := mkInterface {
  Interface_Biosdevname : string;
  Interface_ClientID : string;
  Interface_Flags : list string;
  Interface_HasCarrier : bool;
  Interface_IPV4Addresses : list string;
  Interface_IPV6Addresses : list string;
  Interface_MacAddress : string;
  Interface_Mtu : Z;
  Interface_Name : string;
  Interface_Product : string;
  Interface_SpeedMbps : Z;
  Interface_Vendor : string;
}.

Record Memory := mkMemory { Memory_PhysicalBytes : Z; Memory_UsableBytes : Z }.

Record SystemVendor := mkSystemVendor {
  SystemVendor_Manufacturer : string;
  SystemVendor_ProductName : string;
  SystemVendor_SerialNumber : string;
  SystemVendor_Virtual : bool;
}.

(** The elements of [Disks], [Gpus] and [Interfaces] are pointers: a JSON null
    in the list is a nil element. *)
Record HardwareInfo := mkHardwareInfo {
  HardwareInfo_Boot : option Boot;
  HardwareInfo_CPU : option CPU;
  HardwareInfo_Disks : list (option Disk);
  HardwareInfo_Gpus : list (option Gpu);
  HardwareInfo_Hostname : string;
  HardwareInfo_Interfaces : list (option Interface);
  HardwareInfo_Memory : option Memory;
  HardwareInfo_SystemVendor : option SystemVendor;
}.

Record EventInfo := mkEventInfo {
  EventInfo_Message : string;
  EventInfo_Reason : string;
  EventInfo_Type : string;
}.

Definition EventInfoTypeInfo : string := "info".
Definition EventInfoTypeWarn : string := "warn".

Record UpgradeStatus := mkUpgradeStatus {
  UpgradeStatus_CurrentCommitID : string;
  UpgradeStatus_LastUpgradeStatus : string;
  UpgradeStatus_LastUpgradeTime : string;
}.

Record WorkloadStatus := mkWorkloadStatus {
  WorkloadStatus_LastDataUpload : Timestamp;
  WorkloadStatus_Name : string;
  WorkloadStatus_Status : string;
}.

Record Heartbeat := mkHeartbeat {
  Heartbeat_Events : list (option EventInfo);
  Heartbeat_Hardware : option HardwareInfo;
  Heartbeat_Status : string;
  Heartbeat_Upgrade : option UpgradeStatus;
  Heartbeat_Version : string;
  Heartbeat_Workloads : list (option WorkloadStatus);
}.

Record RegistrationInfo := mkRegistrationInfo {
  RegistrationInfo_CertificateRequest : string;
  RegistrationInfo_Hardware : option HardwareInfo;
}.

Record RegistrationResponse := mkRegistrationResponse {
  RegistrationResponse_Certificate : string }.

Record DataPath := mkDataPath { DataPath_Source : string; DataPath_Target : string }.

Record DataConfiguration := mkDataConfiguration { DataConfiguration_Paths : list DataPath }.

Record HardwareProfileConfiguration := mkHardwareProfileConfiguration {
  HardwareProfileConfiguration_Include : bool;
  HardwareProfileConfiguration_Scope : string;
}.

Record HeartbeatConfiguration := mkHeartbeatConfiguration {
  HeartbeatConfiguration_HardwareProfile : option HardwareProfileConfiguration;
  HeartbeatConfiguration_PeriodSeconds : Z;
}.

Record ImageRegistries := mkImageRegistries { ImageRegistries_AuthFile : string }.

Record LogsCollectionInformationSyslogConfig := mkSyslogConfig {
  SyslogConfig_Address : string;
  SyslogConfig_Protocol : string;
}.

Record LogsCollectionInformation := mkLogsCollectionInformation {
  LogsCollectionInformation_BufferSize : Z;
  LogsCollectionInformation_Kind : string;
  LogsCollectionInformation_SyslogConfig : option LogsCollectionInformationSyslogConfig;
}.

Record MetricsAllowList := mkMetricsAllowList { MetricsAllowList_Names : list string }.

Record ContainerMetrics := mkContainerMetrics {
  ContainerMetrics_Disabled : bool;
  ContainerMetrics_Path : string;
  ContainerMetrics_Port : Z;
}.

Record Metrics := mkMetrics {
  Metrics_AllowList : option MetricsAllowList;
  Metrics_Containers : option (gmap string ContainerMetrics);
  Metrics_Interval : Z;
  Metrics_Path : string;
  Metrics_Port : Z;
}.

Record MetricsRetention := mkMetricsRetention {
  MetricsRetention_MaxHours : Z;
  MetricsRetention_MaxMib : Z;
}.

Record SystemMetricsConfiguration := mkSystemMetricsConfiguration {
  SystemMetricsConfiguration_AllowList : option MetricsAllowList;
  SystemMetricsConfiguration_Disabled : bool;
  SystemMetricsConfiguration_Interval : Z;
}.

Record MetricsConfiguration := mkMetricsConfiguration {
  MetricsConfiguration_Retention : option MetricsRetention;
  MetricsConfiguration_System : option SystemMetricsConfiguration;
}.

Record OsInformation := mkOsInformation {
  OsInformation_AutomaticallyUpgrade : bool;
  OsInformation_CommitID : string;
  OsInformation_HostedObjectsURL : string;
}.

Record S3StorageConfiguration := mkS3StorageConfiguration {
  S3_AwsAccessKeyID : string;
  S3_AwsCaBundle : string;
  S3_AwsSecretAccessKey : string;
  S3_BucketHost : string;
  S3_BucketName : string;
  S3_BucketPort : Z;
  S3_BucketRegion : string;
}.

Record StorageConfiguration := mkStorageConfiguration {
  StorageConfiguration_S3 : option S3StorageConfiguration }.

Record DeviceConfiguration := mkDeviceConfiguration {
  DeviceConfiguration_Heartbeat : option HeartbeatConfiguration;
  DeviceConfiguration_LogCollection : option (gmap string LogsCollectionInformation);
  DeviceConfiguration_Metrics : option MetricsConfiguration;
  DeviceConfiguration_Os : option OsInformation;
  DeviceConfiguration_Storage : option StorageConfiguration;
}.

Record Secret := mkSecret { Secret_Data : string; Secret_Name : string }.
Abbreviation SecretList := (list Secret).

(** A list of YAML documents. *)
Abbreviation ConfigmapList := (list string).

Record Workload := mkWorkload {
  Workload_Configmaps : ConfigmapList;
  Workload_Data : option DataConfiguration;
  Workload_ImageRegistries : option ImageRegistries;
  Workload_LogCollection : string;
  Workload_Metrics : option Metrics;
  Workload_Name : string;
  Workload_Specification : string;
}.
Abbreviation WorkloadList := (list Workload).

Record DeviceConfigurationMessage := mkDeviceConfigurationMessage {
  DeviceConfigurationMessage_Configuration : DeviceConfiguration;
  DeviceConfigurationMessage_DeviceID : string;
  DeviceConfigurationMessage_Secrets : SecretList;
  DeviceConfigurationMessage_Version : string;
  DeviceConfigurationMessage_Workloads : WorkloadList;
  DeviceConfigurationMessage_WorkloadsMonitoringInterval : Z;
}.

(** [Message.Content] is an [interface{}]: on the way in it is the decoded JSON
    document, kept here as its text; on the way out it is one of the two values
    the handlers send. *)
Inductive Content :=
  | RawContent (json : string)
  | CommandContent (command : string) (arguments : gmap string string)
  | ConfigurationContent (dc : DeviceConfigurationMessage).

Record Message := mkMessage {
  Message_Content : Content;
  Message_Directive : string;
  Message_MessageID : string;
  Message_Sent : Timestamp;
  Message_Type : string;
  Message_Version : Z;
}.

Definition MessageTypeConnectionStatus : string := "connection-status".
Definition MessageTypeCommand : string := "command".
Definition MessageTypeEvent : string := "event".
Definition MessageTypeData : string := "data".

(** [MessageResponse.Content] is nil or a registration response. *)
Record MessageResponse := mkMessageResponse {
  MessageResponse_Content : option RegistrationResponse;
  MessageResponse_Directive : string;
  MessageResponse_MessageID : string;
}.

End models.
