(* ===== verification/Normalize.v ===== *)
(** * NormalizeLabel ([internal/utils/utils.go])

    Device-reported names become label values: lower-cased, cut at the first
    and last alphanumeric character, stripped of everything outside
    [[a-z0-9-_.]]. A Go string is a sequence of bytes; the functions of
    [strings] and [regexp] used here read it as UTF-8. The Unicode tables are
    written out for Latin-1 and are a parameter beyond it. *)
From S2P Require Import Prelude K8s Labels.
From Stdlib Require Import Ascii.
#[local] Open Scope Z_scope.

Abbreviation rune := Z.
Definition RuneError : rune := 0xFFFD.

(** The part of package [unicode]'s tables above U+00FF. *)
Class UnicodeTables := {
  lower_ext : rune → bool;
  digit_ext : rune → bool;
  tolower_ext : rune → rune;
}.

Definition byte_of (c : ascii) : Z := Z.of_N (N_of_ascii c).
Definition bytes (s : string) : list Z := byte_of <$> chars s.
Definition between (lo hi x : Z) : bool := (lo <=? x) && (x <=? hi).
Definition continuation (b : Z) : bool := between 0x80 0xBF b.

(** [utf8.DecodeRuneInString], repeated: an invalid byte is one [RuneError]. *)
Fixpoint decode (s : list Z) : list rune :=
  match s with
  | [] => []
  | b0 :: s1 =>
      if b0 <? 0x80 then b0 :: decode s1 else
      match s1 with
      | [] => RuneError :: decode s1
      | b1 :: s2 =>
          if between 0xC2 0xDF b0 && continuation b1
          then ((b0 - 0xC0) * 64 + (b1 - 0x80)) :: decode s2 else
          match s2 with
          | [] => RuneError :: decode s1
          | b2 :: s3 =>
              if between 0xE0 0xEF b0 && continuation b1 && continuation b2
                 && (negb (b0 =? 0xE0) || (0xA0 <=? b1)) && (negb (b0 =? 0xED) || (b1 <=? 0x9F))
              then ((b0 - 0xE0) * 4096 + (b1 - 0x80) * 64 + (b2 - 0x80)) :: decode s3 else
              match s3 with
              | [] => RuneError :: decode s1
              | b3 :: s4 =>
                  if between 0xF0 0xF4 b0 && continuation b1 && continuation b2 && continuation b3
                     && (negb (b0 =? 0xF0) || (0x90 <=? b1)) && (negb (b0 =? 0xF4) || (b1 <=? 0x8F))
                  then ((b0 - 0xF0) * 262144 + (b1 - 0x80) * 4096 + (b2 - 0x80) * 64 + (b3 - 0x80))
                       :: decode s4
                  else RuneError :: decode s1
              end
          end
      end
  end.

Section unicode.
Context `{UnicodeTables}.

(** [unicode.ToLower], [unicode.IsLower] and [unicode.IsDigit] *)
Definition to_lower (r : rune) : rune :=
  if r <=? 0x7F then (if between 0x41 0x5A r then r + 32 else r)
  else if r <=? 0xFF then (if between 0xC0 0xDE r && negb (r =? 0xD7) then r + 32 else r)
  else tolower_ext r.
Definition IsLower (r : rune) : bool :=
  if r <=? 0xFF then between 0x61 0x7A r || (r =? 0xB5) || between 0xDF 0xF6 r || between 0xF8 0xFF r
  else lower_ext r.
Definition IsDigit (r : rune) : bool :=
  if r <=? 0xFF then between 0x30 0x39 r else digit_ext r.

Definition legal (c : rune) : bool := IsLower c || IsDigit c.

(** The class [[a-z0-9-_.]]; the regular expression removes its complement. *)
Definition label_rune (r : rune) : bool :=
  between 0x61 0x7A r || between 0x30 0x39 r || (r =? 0x2D) || (r =? 0x5F) || (r =? 0x2E).

(** [strings.IndexFunc] and [strings.LastIndexFunc], counted in runes. *)
Fixpoint IndexFunc (f : rune → bool) (s : list rune) : option nat :=
  match s with
  | [] => None
  | r :: s => if f r then Some 0%nat else S <$> IndexFunc f s
  end.
Definition LastIndexFunc (f : rune → bool) (s : list rune) : option nat :=
  (λ i, (List.length s - 1 - i)%nat) <$> IndexFunc f (reverse s).

(** [name[i : j+1]], where [j] is the byte index at which the last legal rune
    starts: of a rune of several bytes only the first byte is kept, and that
    byte alone reads as [RuneError]. *)
Definition first_byte (r : rune) : list rune := if r <? 0x80 then [r] else [RuneError].
Definition slice_through (i j : nat) (s : list rune) : list rune :=
  drop i (take j s) ++ match s !! j with Some r => first_byte r | None => [] end.

Definition string_of_runes (s : list rune) : string :=
  String.string_of_list_ascii ((λ r, ascii_of_N (Z.to_N r)) <$> s).

Definition NormalizeLabel (name : string) : result string :=
  let name := to_lower <$> decode (bytes name) in
  match IndexFunc legal name, LastIndexFunc legal name with
  | Some firstLegal, Some lastLegal =>
      Ok (string_of_runes (List.filter label_rune (slice_through firstLegal lastLegal name)))
  | _, _ => Err (ErrorString "The name doesn't contain a legal alphanumeric character")
  end.

(** ** Lemmas *)
Definition is_ascii (s : string) : Prop := Forall (λ b, b < 0x80) (bytes s).

Lemma bytes_range s : Forall (λ b, 0 <= b < 256) (bytes s).
Proof.
  apply Forall_fmap, Forall_true. intros c. unfold compose, byte_of.
  pose proof (N_ascii_bounded c). lia.
Qed.

Lemma decode_ascii (bs : list Z) : Forall (λ b, b < 0x80) bs → decode bs = bs.
Proof.
  induction 1 as [|b bs Hb _ IH]; simpl; [done|].
  destruct (Z.ltb_spec b 0x80); [by rewrite IH|lia].
Qed.

Lemma IndexFunc_Some f s i :
  IndexFunc f s = Some i ↔ (∃ r, s !! i = Some r ∧ f r = true) ∧ Forall (λ r, f r = false) (take i s).
Proof.
  revert i; induction s as [|r s IH]; intros i; simpl.
  { split; [done|]. by intros [(? & ? & _) _]. }
  destruct (f r) eqn:E.
  - split; [intros [=<-]; simpl; eauto|]. destruct i; simpl; [done|].
    rewrite Forall_cons. intros [_ [? _]]. congruence.
  - destruct i as [|i]; simpl.
    + split; [by destruct (IndexFunc f s)|]. intros [(? & [= ->] & ?) _]. congruence.
    + rewrite Forall_cons. trans (IndexFunc f s = Some i); [|rewrite IH; tauto].
      destruct (IndexFunc f s); simpl; split; congruence.
Qed.

Lemma IndexFunc_None f s : IndexFunc f s = None ↔ Forall (λ r, f r = false) s.
Proof.
  induction s as [|r s IH]; simpl; [done|]. rewrite Forall_cons, <- IH.
  destruct (f r); [by split; [|intros [? _]]|]. rewrite fmap_None. tauto.
Qed.

Lemma LastIndexFunc_Some f s j :
  LastIndexFunc f s = Some j → (∃ r, s !! j = Some r ∧ f r = true) ∧ ∀ k r, (j < k)%nat → s !! k = Some r → f r = false.
Proof.
  unfold LastIndexFunc. rewrite fmap_Some. intros (i & Hi & ->).
  apply IndexFunc_Some in Hi as [(r & Hr & Hf) Hall].
  pose proof (lookup_lt_Some _ _ _ Hr) as Hlt. rewrite length_reverse in Hlt.
  rewrite reverse_lookup in Hr by done.
  split; [exists r; split; [by replace (List.length s - 1 - i)%nat with (List.length s - S i)%nat by lia|done]|].
  intros k r' Hk Hr'. pose proof (lookup_lt_Some _ _ _ Hr') as Hlt'.
  rewrite Forall_lookup in Hall. apply (Hall (List.length s - S k)%nat).
  rewrite lookup_take_lt by lia. rewrite reverse_lookup by lia.
  by replace (List.length s - S (List.length s - S k))%nat with k by lia.
Qed.

(** The alphanumeric frame the function cuts out. *)
Definition framed_by (P : rune → bool) (l : list rune) : Prop :=
  (∃ a, head l = Some a ∧ P a = true) ∧ (∃ b, last l = Some b ∧ P b = true).

Lemma legal_ascii r : r < 0x80 → legal r = true → label_rune r = true.
Proof.
  unfold legal, IsLower, IsDigit, label_rune, between. intros Hr.
  rewrite (proj2 (Z.leb_le r 0xFF)) by lia. lia.
Qed.

Lemma slice_through_framed s i j :
  Forall (λ b, b < 0x80) s → IndexFunc legal s = Some i → LastIndexFunc legal s = Some j →
  slice_through i j s = drop i (take (S j) s) ∧ framed_by legal (drop i (take (S j) s)).
Proof.
  intros Hs [(a & Ha & Hla) _]%IndexFunc_Some [(b & Hb & Hlb) Hj]%LastIndexFunc_Some.
  assert (i ≤ j)%nat as Hij.
  { destruct (decide (j < i)%nat) as [Hlt|]; [|lia]. by rewrite (Hj i a Hlt Ha) in Hla. }
  pose proof (lookup_lt_Some _ _ _ Hb) as Hlen.
  rewrite (take_S_r _ _ _ Hb), drop_app_le by (rewrite length_take; lia).
  split; [|split].
  - unfold slice_through, first_byte. rewrite Hb.
    by rewrite (proj2 (Z.ltb_lt b 0x80)) by (rewrite Forall_lookup in Hs; eauto).
  - exists a. split; [|done]. rewrite head_lookup.
    rewrite <- drop_app_le by (rewrite length_take; lia). rewrite <- (take_S_r _ _ _ Hb).
    rewrite lookup_drop, Nat.add_0_r, lookup_take_lt by lia. done.
  - exists b. by rewrite last_snoc.
Qed.

Lemma filter_framed l :
  Forall (λ b, b < 0x80) l → framed_by legal l → framed_by legal (List.filter label_rune l).
Proof.
  intros Hl [(a & Ha & Hla) (b & Hb & Hlb)].
  assert (label_rune a = true ∧ label_rune b = true) as [Hea Heb].
  { rewrite Forall_forall in Hl.
    split; apply legal_ascii; try done; apply Hl; [by apply head_Some_elem_of|by apply last_Some_elem_of]. }
  split.
  - exists a. split; [|done]. apply head_Some in Ha as [l' ->]. simpl. by rewrite Hea.
  - exists b. split; [|done]. apply last_Some in Hb as [l' ->].
    rewrite List.filter_app. simpl. rewrite Heb. apply last_snoc.
Qed.

(** A list that is already normal is cut and filtered to itself. *)
Lemma normal_fixed l :
  framed_by legal l → Forall (λ r, label_rune r = true) l →
  ∃ i j, IndexFunc legal l = Some i ∧ LastIndexFunc legal l = Some j ∧
         List.filter label_rune (slice_through i j l) = l.
Proof.
  intros [(a & Ha & Hla) (b & Hb & Hlb)] Hl.
  apply head_Some in Ha as [t ->]. exists 0%nat, (length t).
  assert (Hrev : head (reverse (a :: t)) = Some b) by (by rewrite head_reverse).
  assert (IndexFunc legal (reverse (a :: t)) = Some 0%nat) as Hlast.
  { apply head_Some in Hrev as [t' ->]. simpl. by rewrite Hlb. }
  unfold LastIndexFunc. rewrite Hlast. simpl. rewrite Hla. split_and!; [done|f_equal; lia|].
  assert (slice_through 0 (length t) (a :: t) = a :: t) as ->.
  { unfold slice_through. rewrite drop_0.
    rewrite last_lookup in Hb. simpl in Hb. rewrite Hb.
    assert (b < 0x80) as Hb80.
    { rewrite Forall_lookup in Hl. specialize (Hl _ _ Hb). unfold label_rune, between in Hl. lia. }
    unfold first_byte. rewrite (proj2 (Z.ltb_lt b 0x80)) by done.
    rewrite <- (take_S_r _ _ _ Hb). apply take_ge. simpl. lia. }
  apply List.forallb_filter_id, forallb_forall. intros r Hr%list_elem_of_In.
  rewrite Forall_forall in Hl. auto.
Qed.

(** From runes back to strings. *)
Lemma chars_string_of_runes l : chars (string_of_runes l) = (λ r, ascii_of_N (Z.to_N r)) <$> l.
Proof. apply String.list_ascii_of_string_of_list_ascii. Qed.

Lemma label_rune_range r : label_rune r = true → 0 <= r < 0x80.
Proof. unfold label_rune, between. lia. Qed.

Lemma byte_of_ascii r : 0 <= r < 256 → byte_of (ascii_of_N (Z.to_N r)) = r.
Proof. intros Hr. unfold byte_of. rewrite N_ascii_embedding; lia. Qed.

Lemma bytes_string_of_runes l :
  Forall (λ r, label_rune r = true) l → bytes (string_of_runes l) = l.
Proof.
  intros Hl. unfold bytes. rewrite chars_string_of_runes, <- list_fmap_compose.
  induction Hl as [|r l Hr _ IH]; [done|]. rewrite fmap_cons, IH. unfold compose.
  apply label_rune_range in Hr. by rewrite byte_of_ascii by lia.
Qed.

Lemma to_lower_label r : label_rune r = true → to_lower r = r.
Proof.
  intros Hr. pose proof (label_rune_range _ Hr). unfold to_lower.
  rewrite (proj2 (Z.leb_le r 0x7F)) by lia.
  destruct (between 0x41 0x5A r) eqn:E; [|done]. unfold label_rune, between in *. lia.
Qed.

Lemma to_lower_ascii r : r < 0x80 → to_lower r < 0x80.
Proof.
  unfold to_lower. intros. rewrite (proj2 (Z.leb_le r 0x7F)) by lia.
  destruct (between 0x41 0x5A r) eqn:E; [|done]. unfold between in E. lia.
Qed.

Lemma label_rune_char r :
  label_rune r = true → is_qname_char (ascii_of_N (Z.to_N r)) = true.
Proof.
  intros Hr. pose proof (label_rune_range _ Hr).
  assert (∀ n, (n < 128)%nat → label_rune (Z.of_nat n) = true →
     is_qname_char (ascii_of_N (N.of_nat n)) = true) as Hall.
  { intros n Hn. do 128 (destruct n as [|n]; [vm_compute; done|]). lia. }
  specialize (Hall (Z.to_nat r)). rewrite Z2Nat.id in Hall by lia.
  replace (N.of_nat (Z.to_nat r)) with (Z.to_N r) in Hall by lia. apply Hall; [lia|done].
Qed.

Lemma legal_char r :
  r < 0x80 → legal r = true → is_alnum (ascii_of_N (Z.to_N r)) = true.
Proof.
  intros Hr Hl. pose proof (label_rune_range _ (legal_ascii r Hr Hl)).
  assert (∀ n, (n < 128)%nat → between 0x61 0x7A (Z.of_nat n) || between 0x30 0x39 (Z.of_nat n) = true →
     is_alnum (ascii_of_N (N.of_nat n)) = true) as Hall.
  { intros n Hn. do 128 (destruct n as [|n]; [vm_compute; done|]). lia. }
  specialize (Hall (Z.to_nat r)). rewrite Z2Nat.id in Hall by lia.
  replace (N.of_nat (Z.to_nat r)) with (Z.to_N r) in Hall by lia. apply Hall; [lia|].
  unfold legal, IsLower, IsDigit, between in *. rewrite (proj2 (Z.leb_le r 0xFF)) in Hl by lia. lia.
Qed.

Lemma framed_label l :
  Forall (λ r, label_rune r = true) l → framed_by legal l →
  qualifiedNameRegexp (chars (string_of_runes l)) = true.
Proof.
  intros Hl [(a & Ha & Hla) (b & Hb & Hlb)].
  rewrite chars_string_of_runes. apply framed_spec. rewrite fmap_last.
  assert (Hsmall : ∀ r, r ∈ l → r < 0x80).
  { intros r Hr. rewrite Forall_forall in Hl. by apply label_rune_range, Hl. }
  split_and!.
  - apply head_Some in Ha as Hl'. destruct Hl' as [t ->]. eexists; split; [done|].
    apply legal_char; [apply Hsmall; left|done].
  - rewrite Hb. eexists; split; [done|]. apply legal_char; [by apply Hsmall, last_Some_elem_of|done].
  - apply Forall_fmap. eapply Forall_impl; [done|]. apply label_rune_char.
Qed.

Lemma filtered_label l : Forall (λ r, label_rune r = true) (List.filter label_rune l).
Proof. apply Forall_forall. intros r. by rewrite list_elem_of_In, List.filter_In; intros [_ ?]. Qed.

(** What the function returns, on lists of runes. *)
Lemma NormalizeLabel_runes name t :
  is_ascii name → NormalizeLabel name = Ok t →
  ∃ l, t = string_of_runes l ∧ Forall (λ r, label_rune r = true) l ∧ framed_by legal l ∧
       (length l ≤ length (chars name))%nat.
Proof.
  intros Ha. unfold NormalizeLabel. rewrite decode_ascii by done.
  set (s := to_lower <$> bytes name).
  assert (Hs : Forall (λ b, b < 0x80) s).
  { apply Forall_fmap. eapply Forall_impl; [done|]. intros r. apply to_lower_ascii. }
  destruct (IndexFunc legal s) as [i|] eqn:Hi; [|done].
  destruct (LastIndexFunc legal s) as [j|] eqn:Hj; [|done]. intros [=<-].
  destruct (slice_through_framed _ _ _ Hs Hi Hj) as [-> Hf].
  eexists. split_and!; [done|apply filtered_label|apply filter_framed; [|done]|].
  - by apply Forall_drop, Forall_take.
  - etrans; [apply List.filter_length_le|]. rewrite length_drop, length_take.
    subst s. unfold bytes. rewrite !length_fmap. lia.
Qed.

(** ** Properties *)

(** Whatever the input and the Unicode tables, a successful result consists
    of characters a-z, 0-9, '-', '_' and '.' only. *)
Lemma NormalizeLabel_charset name t :
  NormalizeLabel name = Ok t → Forall (λ b, label_rune b = true) (bytes t).
Proof.
  unfold NormalizeLabel. destruct (IndexFunc _ _); [|done]. destruct (LastIndexFunc _ _); [|done].
  intros [=<-]. rewrite bytes_string_of_runes; apply filtered_label.
Qed.

(** Normalizing an ASCII name twice is the same as normalizing it once. *)
Lemma NormalizeLabel_idempotent name t :
  is_ascii name → NormalizeLabel name = Ok t → NormalizeLabel t = Ok t.
Proof.
  intros Ha E. destruct (NormalizeLabel_runes _ _ Ha E) as (l & -> & Hl & Hf & Hlen).
  unfold NormalizeLabel. rewrite bytes_string_of_runes, decode_ascii by
    first [done | eapply Forall_impl; [done|]; intros r ?%label_rune_range; lia].
  assert (to_lower <$> l = l) as ->.
  { clear Hf E Hlen. induction Hl as [|r l Hr _ IH]; [done|]. by rewrite fmap_cons, IH, to_lower_label. }
  destruct (normal_fixed l Hf Hl) as (i & j & -> & -> & ->). done.
Qed.

(** On an ASCII name the result is a well-formed label value (it starts and ends
    with an alphanumeric character) no longer than the name, normalizing it
    again changes nothing, and the function fails exactly when the name has no
    letter and no digit. *)
Theorem NormalizeLabel_ascii name (Ha : is_ascii name) :
  match NormalizeLabel name with
  | Ok t => qualifiedNameRegexp (chars t) = true ∧ (length (chars t) ≤ length (chars name))%nat ∧
      NormalizeLabel t = Ok t ∧ Exists (λ b, legal (to_lower b) = true) (bytes name)
  | Err _ => Forall (λ b, legal (to_lower b) = false) (bytes name)
  end.
Proof.
  destruct (NormalizeLabel name) as [t|e] eqn:E.
  - pose proof (NormalizeLabel_idempotent _ _ Ha E) as Hi.
    assert (Exists (λ b, legal (to_lower b) = true) (bytes name)) as Hex.
    { destruct (decide (Exists (λ b, legal (to_lower b) = true) (bytes name))) as [|Hn]; [done|exfalso].
      unfold NormalizeLabel in E. rewrite decode_ascii in E by done.
      rewrite (proj2 (IndexFunc_None _ _)) in E; [done|]. apply Forall_fmap. apply not_Exists_Forall in Hn; [|apply _].
      eapply Forall_impl; [exact Hn|]. intros b Hb. by apply not_true_is_false in Hb. }
    destruct (NormalizeLabel_runes _ _ Ha E) as (l & -> & Hl & Hf & Hlen).
    split_and!; [by apply framed_label|by rewrite chars_string_of_runes, length_fmap|done|done].
  - unfold NormalizeLabel in E. rewrite decode_ascii in E by done.
    destruct (IndexFunc legal _) as [i|] eqn:Hi; [|by apply IndexFunc_None, Forall_fmap in Hi].
    destruct (LastIndexFunc legal _) as [j|] eqn:Hj; [done|].
    unfold LastIndexFunc in Hj. apply fmap_None, IndexFunc_None, Forall_reverse, Forall_fmap in Hj. done.
Qed.

(** On a non-ASCII name the result can be an ill-formed label value: the cut
    falls inside a multi-byte lower-case letter, which the filter then drops,
    and the character next to it becomes the edge. Here the name is (in UTF-8)
    e-acute, '-', 'a' and the result '-a'. *)
Lemma NormalizeLabel_non_ascii :
  NormalizeLabel (String (ascii_of_N 0xC3) (String (ascii_of_N 0xA9) "-a")) = Ok "-a" ∧
  IsValidLabelValue "-a" = false.
Proof. split; vm_compute; reflexivity. Qed.

(** The result may also be too long for a label value: nothing truncates it. *)
Lemma NormalizeLabel_too_long :
  ∃ name, is_ascii name ∧ NormalizeLabel name = Ok name ∧ IsValidLabelValue name = false.
Proof.
  exists (String.string_of_list_ascii (replicate 64 "a"%char)).
  split_and!; [repeat constructor|by vm_compute..].
Qed.

End unicode.

(** Tables that know no letter or digit above U+00FF. *)
Definition latin1_tables : UnicodeTables :=
  {| lower_ext := λ _, false; digit_ext := λ _, false; tolower_ext := λ r, r |}.

Lemma NormalizeLabel_ascii_witness :
  @NormalizeLabel latin1_tables "-Intel(R) Core(TM) i7." = Ok "intelrcoretmi7"%string ∧
  match @NormalizeLabel latin1_tables "-Intel(R) Core(TM) i7." with
  | Ok t => qualifiedNameRegexp (chars t) = true
  | Err _ => False
  end.
Proof.
  split; [by vm_compute|].
  assert (is_ascii "-Intel(R) Core(TM) i7.") as Ha by repeat constructor.
  pose proof (@NormalizeLabel_ascii latin1_tables "-Intel(R) Core(TM) i7." Ha) as H.
  destruct (@NormalizeLabel latin1_tables "-Intel(R) Core(TM) i7.") as [t|e] eqn:E; [apply H|].
  vm_compute in E. discriminate.
Defined.
