(* ===== verification/V1alpha1.v ===== *)
(** * The custom resources (package [api/v1alpha1])

    [EdgeDevice] and [EdgeDeployment] with their specifications and status, and
    the functional updates that stand for assignments to their fields. *)
From S2P Require Import Prelude K8s.

Module v1alpha1.

Record NameRef := mkNameRef { NameRef_Name : string }.

(** ** EdgeDevice *)

Record LogCollectionConfig := mkLogCollectionConfig {
  LogCollectionConfig_Kind : string;
  LogCollectionConfig_BufferSize : Z;
  LogCollectionConfig_SyslogConfig : option NameRef;
}.

Record SystemMetricsConfiguration := mkSystemMetricsConfiguration {
  SystemMetricsConfiguration_Interval : Z;
  SystemMetricsConfiguration_AllowList : option NameRef;
  SystemMetricsConfiguration_Disabled : bool;
}.

Record Retention := mkRetention { Retention_MaxMiB : Z; Retention_MaxHours : Z }.

Record MetricsConfiguration := mkMetricsConfiguration {
  MetricsConfiguration_Retention : option Retention;
  MetricsConfiguration_SystemMetrics : option SystemMetricsConfiguration;
}.

Record S3Storage := mkS3Storage {
  S3Storage_SecretName : string;
  S3Storage_ConfigMapName : string;
  S3Storage_CreateOBC : bool;
}.

Record Storage := mkStorage { Storage_S3 : option S3Storage }.

Record OsInformation := mkOsInformation {
  OsInformation_AutomaticallyUpgrade : bool;
  OsInformation_CommitID : string;
  OsInformation_HostedObjectsURL : string;
}.

Record HardwareProfileConfiguration := mkHardwareProfileConfiguration {
  HardwareProfileConfiguration_Include : bool;
  HardwareProfileConfiguration_Scope : string;
}.

Record HeartbeatConfiguration := mkHeartbeatConfiguration {
  HeartbeatConfiguration_HardwareProfile : option HardwareProfileConfiguration;
  HeartbeatConfiguration_PeriodSeconds : Z;
}.

(** The values of [LogCollection] are pointers. *)
Record EdgeDeviceSpec := mkEdgeDeviceSpec {
  EdgeDeviceSpec_OsInformation : option OsInformation;
  EdgeDeviceSpec_RequestTime : option Timestamp;
  EdgeDeviceSpec_Heartbeat : option HeartbeatConfiguration;
  EdgeDeviceSpec_Storage : option Storage;
  EdgeDeviceSpec_Metrics : option MetricsConfiguration;
  EdgeDeviceSpec_LogCollection : gmap string (option LogCollectionConfig);
}.

Abbreviation EdgeDeploymentPhase := string (only parsing).
Definition Deploying : EdgeDeploymentPhase := "Deploying".
Definition Running : EdgeDeploymentPhase := "Running".
Definition Exited : EdgeDeploymentPhase := "Exited".

Record Deployment := mkDeployment {
  Deployment_Name : string;
  Deployment_Phase : EdgeDeploymentPhase;
  Deployment_LastTransitionTime : Timestamp;
  Deployment_LastDataUpload : Timestamp;
}.

Record UpgradeInformation := mkUpgradeInformation {
  UpgradeInformation_CurrentCommitID : string;
  UpgradeInformation_LastUpgradeStatus : string;
  UpgradeInformation_LastUpgradeTime : string;
}.

Record Boot := mkBoot { Boot_CurrentBootMode : string; Boot_PxeInterface : string }.

Record CPU := mkCPU {
  CPU_Architecture : string;
  CPU_Count : Z;
  CPU_Flags : list string;
  CPU_Frequency : string;
  CPU_ModelName : string;
}.

Record IoPerf := mkIoPerf { IoPerf_SyncDuration : Z }.

Record Disk := mkDisk {
  Disk_Bootable : bool;
  Disk_ByID : string;
  Disk_ByPath : string;
  Disk_DriveType : string;
  Disk_Hctl : string;
  Disk_ID : string;
  Disk_IoPerf : option IoPerf;
  Disk_IsInstallationMedia : bool;
  Disk_Model : string;
  Disk_Name : string;
  Disk_Path : string;
  Disk_Serial : string;
  Disk_SizeBytes : Z;
  Disk_Smart : string;
  Disk_Vendor : string;
  Disk_Wwn : string;
}.

Record Gpu := mkGpu {
  Gpu_Address : string;
  Gpu_DeviceID : string;
  Gpu_Name : string;
  Gpu_Vendor : string;
  Gpu_VendorID : string;
}.

Record Interface := mkInterface {
  Interface_Biosdevname : string;
  Interface_ClientID : string;
  Interface_Flags : list string;
  Interface_HasCarrier : bool;
  Interface_IPV4Addresses : list string;
  Interface_IPV6Addresses : list string;
  Interface_MacAddress : string;
  Interface_Mtu : Z;
  Interface_Name : string;
  Interface_Product : string;
  Interface_SpeedMbps : Z;
  Interface_Vendor : string;
}.

Record Memory := mkMemory { Memory_PhysicalBytes : Z; Memory_UsableBytes : Z }.

Record SystemVendor := mkSystemVendor {
  SystemVendor_Manufacturer : string;
  SystemVendor_ProductName : string;
  SystemVendor_SerialNumber : string;
  SystemVendor_Virtual : bool;
}.

Record Hardware := mkHardware {
  Hardware_Boot : option Boot;
  Hardware_CPU : option CPU;
  Hardware_Disks : list (option Disk);
  Hardware_Gpus : list (option Gpu);
  Hardware_Hostname : string;
  Hardware_Interfaces : list (option Interface);
  Hardware_Memory : option Memory;
  Hardware_SystemVendor : option SystemVendor;
}.

Record EdgeDeviceStatus := mkEdgeDeviceStatus {
  EdgeDeviceStatus_Phase : string;
  EdgeDeviceStatus_LastSeenTime : Timestamp;
  EdgeDeviceStatus_LastSyncedResourceVersion : string;
  EdgeDeviceStatus_Hardware : option Hardware;
  EdgeDeviceStatus_Deployments : list Deployment;
  EdgeDeviceStatus_DataOBC : option string;
  EdgeDeviceStatus_UpgradeInformation : option UpgradeInformation;
}.

Record EdgeDevice := mkEdgeDevice {
  EdgeDevice_Meta : ObjectMeta;
  EdgeDevice_Spec : EdgeDeviceSpec;
  EdgeDevice_Status : EdgeDeviceStatus;
}.

(** Go's zero values. *)
Definition zero_spec : EdgeDeviceSpec := mkEdgeDeviceSpec None None None None None ∅.
Definition zero_status : EdgeDeviceStatus :=
  mkEdgeDeviceStatus "" zero_time "" None [] None None.

(** Assignments to the fields of a device. *)
Definition set_meta (m : ObjectMeta) (d : EdgeDevice) : EdgeDevice :=
  mkEdgeDevice m (EdgeDevice_Spec d) (EdgeDevice_Status d).
Definition set_status (s : EdgeDeviceStatus) (d : EdgeDevice) : EdgeDevice :=
  mkEdgeDevice (EdgeDevice_Meta d) (EdgeDevice_Spec d) s.
Definition set_labels (l : option labelmap) (d : EdgeDevice) : EdgeDevice :=
  set_meta (meta_set_labels l (EdgeDevice_Meta d)) d.
Definition set_finalizers (f : list string) (d : EdgeDevice) : EdgeDevice :=
  set_meta (meta_set_finalizers f (EdgeDevice_Meta d)) d.
Definition status_set_deployments (l : list Deployment) (s : EdgeDeviceStatus) : EdgeDeviceStatus :=
  mkEdgeDeviceStatus (EdgeDeviceStatus_Phase s) (EdgeDeviceStatus_LastSeenTime s)
    (EdgeDeviceStatus_LastSyncedResourceVersion s) (EdgeDeviceStatus_Hardware s) l
    (EdgeDeviceStatus_DataOBC s) (EdgeDeviceStatus_UpgradeInformation s).
Definition set_deployments (l : list Deployment) (d : EdgeDevice) : EdgeDevice :=
  set_status (status_set_deployments l (EdgeDevice_Status d)) d.
Definition set_obc (o : option string) (d : EdgeDevice) : EdgeDevice :=
  let s := EdgeDevice_Status d in
  set_status (mkEdgeDeviceStatus (EdgeDeviceStatus_Phase s) (EdgeDeviceStatus_LastSeenTime s)
    (EdgeDeviceStatus_LastSyncedResourceVersion s) (EdgeDeviceStatus_Hardware s)
    (EdgeDeviceStatus_Deployments s) o (EdgeDeviceStatus_UpgradeInformation s)) d.

Definition device_name (d : EdgeDevice) : string := Name (EdgeDevice_Meta d).
Definition device_namespace (d : EdgeDevice) : string := Namespace (EdgeDevice_Meta d).
Definition device_labels (d : EdgeDevice) : option labelmap := Labels (EdgeDevice_Meta d).
Definition device_deployments (d : EdgeDevice) : list Deployment :=
  EdgeDeviceStatus_Deployments (EdgeDevice_Status d).

(** ** EdgeDeployment *)

Record ImageRegistriesConfiguration := mkImageRegistriesConfiguration {
  ImageRegistriesConfiguration_AuthFileSecret : option NameRef }.

Record MetricsConfigEntity := mkMetricsConfigEntity {
  MetricsConfigEntity_Path : string;
  MetricsConfigEntity_Port : Z;
  MetricsConfigEntity_Disabled : bool;
}.

(** The values of [Containers] are pointers. *)
Record ContainerMetricsConfiguration := mkContainerMetricsConfiguration {
  ContainerMetricsConfiguration_Path : string;
  ContainerMetricsConfiguration_Port : Z;
  ContainerMetricsConfiguration_Interval : Z;
  ContainerMetricsConfiguration_AllowList : option NameRef;
  ContainerMetricsConfiguration_Containers : gmap string (option MetricsConfigEntity);
}.

Record DataPath := mkDataPath { DataPath_Source : string; DataPath_Target : string }.
Record DataConfiguration := mkDataConfiguration { DataConfiguration_Paths : list DataPath }.

Abbreviation EdgeDeploymentType := string (only parsing).
Definition PodDeploymentType : EdgeDeploymentType := "pod".

Record EdgeDeploymentSpec := mkEdgeDeploymentSpec {
  EdgeDeploymentSpec_DeviceSelector : option LabelSelector;
  EdgeDeploymentSpec_Device : string;
  EdgeDeploymentSpec_Type : EdgeDeploymentType;
  EdgeDeploymentSpec_Pod : PodSpec;
  EdgeDeploymentSpec_Data : option DataConfiguration;
  EdgeDeploymentSpec_ImageRegistries : option ImageRegistriesConfiguration;
  EdgeDeploymentSpec_Metrics : option ContainerMetricsConfiguration;
  EdgeDeploymentSpec_LogCollection : string;
}.

(** [EdgeDeploymentStatus] has no fields. *)
Record EdgeDeployment := mkEdgeDeployment {
  EdgeDeployment_Meta : ObjectMeta;
  EdgeDeployment_Spec : EdgeDeploymentSpec;
}.

Definition dep_set_meta (m : ObjectMeta) (d : EdgeDeployment) : EdgeDeployment :=
  mkEdgeDeployment m (EdgeDeployment_Spec d).
Definition dep_set_labels (l : option labelmap) (d : EdgeDeployment) : EdgeDeployment :=
  dep_set_meta (meta_set_labels l (EdgeDeployment_Meta d)) d.
Definition dep_set_finalizers (f : list string) (d : EdgeDeployment) : EdgeDeployment :=
  dep_set_meta (meta_set_finalizers f (EdgeDeployment_Meta d)) d.
Definition dep_name (d : EdgeDeployment) : string := Name (EdgeDeployment_Meta d).
Definition dep_namespace (d : EdgeDeployment) : string := Namespace (EdgeDeployment_Meta d).
Definition dep_labels (d : EdgeDeployment) : option labelmap := Labels (EdgeDeployment_Meta d).
Definition dep_device (d : EdgeDeployment) : string := EdgeDeploymentSpec_Device (EdgeDeployment_Spec d).
Definition dep_selector (d : EdgeDeployment) : option LabelSelector :=
  EdgeDeploymentSpec_DeviceSelector (EdgeDeployment_Spec d).

(** Equality is decidable; a merge patch is made of what differs. *)
#[export] Instance NameRef_eq_dec : EqDecision NameRef.
Proof. solve_decision. Defined.
#[export] Instance LogCollectionConfig_eq_dec : EqDecision LogCollectionConfig.
Proof. solve_decision. Defined.
#[export] Instance SystemMetricsConfiguration_eq_dec : EqDecision SystemMetricsConfiguration.
Proof. solve_decision. Defined.
#[export] Instance Retention_eq_dec : EqDecision Retention.
Proof. solve_decision. Defined.
#[export] Instance MetricsConfiguration_eq_dec : EqDecision MetricsConfiguration.
Proof. solve_decision. Defined.
#[export] Instance S3Storage_eq_dec : EqDecision S3Storage.
Proof. solve_decision. Defined.
#[export] Instance Storage_eq_dec : EqDecision Storage.
Proof. solve_decision. Defined.
#[export] Instance OsInformation_eq_dec : EqDecision OsInformation.
Proof. solve_decision. Defined.
#[export] Instance HardwareProfileConfiguration_eq_dec : EqDecision HardwareProfileConfiguration.
Proof. solve_decision. Defined.
#[export] Instance HeartbeatConfiguration_eq_dec : EqDecision HeartbeatConfiguration.
Proof. solve_decision. Defined.
#[export] Instance EdgeDeviceSpec_eq_dec : EqDecision EdgeDeviceSpec.
Proof. solve_decision. Defined.
#[export] Instance Deployment_eq_dec : EqDecision Deployment.
Proof. solve_decision. Defined.
#[export] Instance UpgradeInformation_eq_dec : EqDecision UpgradeInformation.
Proof. solve_decision. Defined.
#[export] Instance Boot_eq_dec : EqDecision Boot.
Proof. solve_decision. Defined.
#[export] Instance CPU_eq_dec : EqDecision CPU.
Proof. solve_decision. Defined.
#[export] Instance IoPerf_eq_dec : EqDecision IoPerf.
Proof. solve_decision. Defined.
#[export] Instance Disk_eq_dec : EqDecision Disk.
Proof. solve_decision. Defined.
#[export] Instance Gpu_eq_dec : EqDecision Gpu.
Proof. solve_decision. Defined.
#[export] Instance Interface_eq_dec : EqDecision Interface.
Proof. solve_decision. Defined.
#[export] Instance Memory_eq_dec : EqDecision Memory.
Proof. solve_decision. Defined.
#[export] Instance SystemVendor_eq_dec : EqDecision SystemVendor.
Proof. solve_decision. Defined.
#[export] Instance Hardware_eq_dec : EqDecision Hardware.
Proof. solve_decision. Defined.

End v1alpha1.
