(* ===== verification/Hardware.v ===== *)
(** * Hardware information ([internal/hardware])

    The conversion of the hardware a device reports into the status of its
    custom resource, and into the labels of that resource. *)
From S2P Require Import Prelude K8s Models V1alpha1 Labels Normalize.
From stdpp Require Import pretty.
From Stdlib Require Import SpecFloat.

(** ** [fmt.Sprintf("%.2f", x)]: the exact value rounded half to even *)
Definition pow2 (n : Z) : Z := (2 ^ n)%Z.

Definition round_half_even (num den : Z) : Z :=
  let q := (num / den)%Z in
  let r := (num mod den)%Z in
  match (2 * r ?= den)%Z with
  | Lt => q
  | Gt => (q + 1)%Z
  | Eq => if Z.even q then q else (q + 1)%Z
  end.

Definition hundredths (m : positive) (e : Z) : Z :=
  if (0 <=? e)%Z then (Z.pos m * 100 * pow2 e)%Z
  else round_half_even (Z.pos m * 100) (pow2 (- e)).

Definition two_digits (n : Z) : string :=
  if (n <? 10)%Z then "0" +:+ pretty n else pretty n.

Definition Sprintf_2f (x : spec_float) : string :=
  match x with
  | S754_nan => "NaN"
  | S754_infinity s => if s then "-Inf" else "+Inf"
  | S754_zero s => if s then "-0.00" else "0.00"
  | S754_finite s m e =>
      let h := hundredths m e in
      (if s then "-" else "") +:+ pretty (h / 100)%Z +:+ "." +:+ two_digits (h mod 100)
  end.

(** ** MapHardware *)

(** Go conversions between pointer types of equal fields. *)
Definition to_IoPerf (x : models.IoPerf) : v1alpha1.IoPerf :=
  v1alpha1.mkIoPerf (models.IoPerf_SyncDuration x).
Definition to_Gpu (g : models.Gpu) : v1alpha1.Gpu :=
  v1alpha1.mkGpu (models.Gpu_Address g) (models.Gpu_DeviceID g) (models.Gpu_Name g)
    (models.Gpu_Vendor g) (models.Gpu_VendorID g).
Definition to_Interface (i : models.Interface) : v1alpha1.Interface :=
  v1alpha1.mkInterface (models.Interface_Biosdevname i) (models.Interface_ClientID i)
    (models.Interface_Flags i) (models.Interface_HasCarrier i)
    (models.Interface_IPV4Addresses i) (models.Interface_IPV6Addresses i)
    (models.Interface_MacAddress i) (models.Interface_Mtu i) (models.Interface_Name i)
    (models.Interface_Product i) (models.Interface_SpeedMbps i) (models.Interface_Vendor i).

Definition map_disk (d : models.Disk) : v1alpha1.Disk :=
  v1alpha1.mkDisk (models.Disk_Bootable d) (models.Disk_ByID d) (models.Disk_ByPath d)
    (models.Disk_DriveType d) (models.Disk_Hctl d) (models.Disk_ID d)
    (to_IoPerf <$> models.Disk_IoPerf d) (models.Disk_IsInstallationMedia d)
    (models.Disk_Model d) (models.Disk_Name d) (models.Disk_Path d) (models.Disk_Serial d)
    (models.Disk_SizeBytes d) (models.Disk_Smart d) (models.Disk_Vendor d) (models.Disk_Wwn d).

Definition map_boot (b : models.Boot) : v1alpha1.Boot :=
  v1alpha1.mkBoot (models.Boot_CurrentBootMode b) (models.Boot_PxeInterface b).
Definition map_cpu (c : models.CPU) : v1alpha1.CPU :=
  v1alpha1.mkCPU (models.CPU_Architecture c) (models.CPU_Count c) (models.CPU_Flags c)
    (Sprintf_2f (models.CPU_Frequency c)) (models.CPU_ModelName c).
Definition map_memory (m : models.Memory) : v1alpha1.Memory :=
  v1alpha1.mkMemory (models.Memory_PhysicalBytes m) (models.Memory_UsableBytes m).
Definition map_vendor (v : models.SystemVendor) : v1alpha1.SystemVendor :=
  v1alpha1.mkSystemVendor (models.SystemVendor_Manufacturer v) (models.SystemVendor_ProductName v)
    (models.SystemVendor_SerialNumber v) (models.SystemVendor_Virtual v).

(** A nil element of [Disks] is dereferenced; a nil GPU or interface stays nil. *)
Definition MapHardware (hardware : option models.HardwareInfo) : deref (option v1alpha1.Hardware) :=
  match hardware with
  | None => Val None
  | Some hardware =>
      match deref_map (λ d, map_disk <$> deref_ptr d) (models.HardwareInfo_Disks hardware) with
      | NilDeref => NilDeref
      | Val disks =>
          Val (Some (v1alpha1.mkHardware
            (map_boot <$> models.HardwareInfo_Boot hardware)
            (map_cpu <$> models.HardwareInfo_CPU hardware)
            (Some <$> disks)
            (option_map to_Gpu <$> models.HardwareInfo_Gpus hardware)
            (models.HardwareInfo_Hostname hardware)
            (option_map to_Interface <$> models.HardwareInfo_Interfaces hardware)
            (map_memory <$> models.HardwareInfo_Memory hardware)
            (map_vendor <$> models.HardwareInfo_SystemVendor hardware)))
      end
  end.

(** ** MapLabels *)
Section labels.
Context `{UnicodeTables}.

(** [if x, err := NormalizeLabel(s); err == nil { labels[key] = x }] *)
Definition add_label (key s : string) (labels : labelmap) : labelmap :=
  match NormalizeLabel s with
  | Ok x => <[key := x]> labels
  | Err _ => labels
  end.

Definition MapLabels (hardware : option models.HardwareInfo) : option labelmap :=
  match hardware with
  | None => None
  | Some hardware =>
      let labels := add_label "device.hostname" (models.HardwareInfo_Hostname hardware) ∅ in
      let labels :=
        match models.HardwareInfo_CPU hardware with
        | None => labels
        | Some cpu =>
            add_label "device.cpu-model" (models.CPU_ModelName cpu)
              (add_label "device.cpu-architecture" (models.CPU_Architecture cpu) labels)
        end in
      Some match models.HardwareInfo_SystemVendor hardware with
           | None => labels
           | Some v =>
               add_label "device.system-serial" (models.SystemVendor_SerialNumber v)
                 (add_label "device.system-product" (models.SystemVendor_ProductName v)
                   (add_label "device.system-manufacturer" (models.SystemVendor_Manufacturer v) labels))
           end
  end.

(** The names a report holds. *)
Definition reported_names (h : models.HardwareInfo) : list string :=
  models.HardwareInfo_Hostname h ::
  match models.HardwareInfo_CPU h with
  | Some c => [models.CPU_Architecture c; models.CPU_ModelName c] | None => [] end ++
  match models.HardwareInfo_SystemVendor h with
  | Some v => [models.SystemVendor_Manufacturer v; models.SystemVendor_ProductName v;
               models.SystemVendor_SerialNumber v] | None => [] end.

Definition well_formed (ls : labelmap) : Prop :=
  map_Forall (λ k v, String.prefix "device." k = true ∧ qualifiedNameRegexp (chars v) = true) ls.

Lemma add_label_well_formed k s ls :
  String.prefix "device." k = true → is_ascii s → well_formed ls → well_formed (add_label k s ls).
Proof.
  intros Hk Hs Hls. unfold add_label. pose proof (NormalizeLabel_runes s) as HN.
  destruct (NormalizeLabel s) as [t|e]; [|done].
  destruct (HN t Hs eq_refl) as (l & -> & Hl & Hf & _).
  apply map_Forall_insert_2; [|done]. split; [done|]. by apply framed_label.
Qed.
End labels.

(** Reading a converted report back: the inverse of every field but the CPU
    frequency, which is given separately. *)
Definition unmap_disk (d : v1alpha1.Disk) : models.Disk :=
  models.mkDisk (v1alpha1.Disk_Bootable d) (v1alpha1.Disk_ByID d) (v1alpha1.Disk_ByPath d)
    (v1alpha1.Disk_DriveType d) (v1alpha1.Disk_Hctl d) (v1alpha1.Disk_ID d)
    ((λ x, models.mkIoPerf (v1alpha1.IoPerf_SyncDuration x)) <$> v1alpha1.Disk_IoPerf d)
    (v1alpha1.Disk_IsInstallationMedia d) (v1alpha1.Disk_Model d) (v1alpha1.Disk_Name d)
    (v1alpha1.Disk_Path d) (v1alpha1.Disk_Serial d) (v1alpha1.Disk_SizeBytes d)
    (v1alpha1.Disk_Smart d) (v1alpha1.Disk_Vendor d) (v1alpha1.Disk_Wwn d).
Definition unmap_gpu (g : v1alpha1.Gpu) : models.Gpu :=
  models.mkGpu (v1alpha1.Gpu_Address g) (v1alpha1.Gpu_DeviceID g) (v1alpha1.Gpu_Name g)
    (v1alpha1.Gpu_Vendor g) (v1alpha1.Gpu_VendorID g).
Definition unmap_interface (i : v1alpha1.Interface) : models.Interface :=
  models.mkInterface (v1alpha1.Interface_Biosdevname i) (v1alpha1.Interface_ClientID i)
    (v1alpha1.Interface_Flags i) (v1alpha1.Interface_HasCarrier i)
    (v1alpha1.Interface_IPV4Addresses i) (v1alpha1.Interface_IPV6Addresses i)
    (v1alpha1.Interface_MacAddress i) (v1alpha1.Interface_Mtu i) (v1alpha1.Interface_Name i)
    (v1alpha1.Interface_Product i) (v1alpha1.Interface_SpeedMbps i) (v1alpha1.Interface_Vendor i).
Definition unmap_hardware (freq : spec_float) (h : v1alpha1.Hardware) : models.HardwareInfo :=
  models.mkHardwareInfo
    ((λ b, models.mkBoot (v1alpha1.Boot_CurrentBootMode b) (v1alpha1.Boot_PxeInterface b))
       <$> v1alpha1.Hardware_Boot h)
    ((λ c, models.mkCPU (v1alpha1.CPU_Architecture c) (v1alpha1.CPU_Count c) (v1alpha1.CPU_Flags c)
             freq (v1alpha1.CPU_ModelName c)) <$> v1alpha1.Hardware_CPU h)
    (option_map unmap_disk <$> v1alpha1.Hardware_Disks h)
    (option_map unmap_gpu <$> v1alpha1.Hardware_Gpus h)
    (v1alpha1.Hardware_Hostname h)
    (option_map unmap_interface <$> v1alpha1.Hardware_Interfaces h)
    ((λ m, models.mkMemory (v1alpha1.Memory_PhysicalBytes m) (v1alpha1.Memory_UsableBytes m))
       <$> v1alpha1.Hardware_Memory h)
    ((λ v, models.mkSystemVendor (v1alpha1.SystemVendor_Manufacturer v)
             (v1alpha1.SystemVendor_ProductName v) (v1alpha1.SystemVendor_SerialNumber v)
             (v1alpha1.SystemVendor_Virtual v)) <$> v1alpha1.Hardware_SystemVendor h).

Lemma unmap_map_disk d : unmap_disk (map_disk d) = d.
Proof. destruct d as [? ? ? ? ? ? [[]|]]; reflexivity. Qed.

Lemma option_map_id {A B} (f : A → B) (g : B → A) (o : option A) :
  (∀ a, g (f a) = a) → g <$> (f <$> o) = o.
Proof. intros Hgf. destruct o; simpl; [by rewrite Hgf|done]. Qed.

Lemma list_option_map_id {A B} (f : A → B) (g : B → A) (l : list (option A)) :
  (∀ a, g (f a) = a) → option_map g <$> (option_map f <$> l) = l.
Proof.
  intros Hgf. induction l as [|[a|] l IH]; csimpl; [done|by rewrite Hgf, IH|by rewrite IH].
Qed.

Lemma MapHardware_disks h :
  MapHardware (Some h) = NilDeref ↔ None ∈ models.HardwareInfo_Disks h.
Proof.
  unfold MapHardware.
  assert (deref_map (λ d, map_disk <$> deref_ptr d) (models.HardwareInfo_Disks h) = NilDeref ↔
          None ∈ models.HardwareInfo_Disks h) as <-.
  { rewrite deref_map_NilDeref. split; [intros ([d|] & Hin & Hd); done|]. intros Hin. by exists None. }
  by destruct (deref_map _ _).
Qed.

(** C35: The conversion of a hardware report keeps every field: reading the status
    back gives the report, for the CPU frequency that was reported, which the
    status holds rounded to two decimals. It panics exactly when the report has
    a null disk. *)
Theorem MapHardware_faithful h :
  (MapHardware (Some h) = NilDeref ↔ None ∈ models.HardwareInfo_Disks h) ∧
  ∀ r, MapHardware (Some h) = Val r → ∃ v freq, r = Some v ∧ unmap_hardware freq v = h ∧
    (v1alpha1.CPU_Frequency <$> v1alpha1.Hardware_CPU v) =
    ((λ _, Sprintf_2f freq) <$> models.HardwareInfo_CPU h).
Proof.
  split; [apply MapHardware_disks|]. intros r.
  unfold MapHardware. destruct (deref_map _ _) as [disks|] eqn:Hd; [|done]. intros [= <-].
  apply deref_map_Forall2 in Hd. eexists.
  exists (from_option models.CPU_Frequency S754_nan (models.HardwareInfo_CPU h)). split; [done|].
  destruct h as [boot cpu ds gpus host ifs mem vendor]; simpl in *.
  split; [|by destruct cpu]. unfold unmap_hardware; simpl. f_equal.
  - by destruct boot as [[]|].
  - by destruct cpu as [[]|].
  - induction Hd as [|[d|] d' ds disks Hd _ IH]; csimpl; [done| |done].
    injection Hd as <-. by rewrite unmap_map_disk, IH.
  - apply list_option_map_id. by intros [].
  - apply list_option_map_id. by intros [].
  - by destruct mem as [[]|].
  - by destruct vendor as [[]|].
Qed.

(** The labels made of an ASCII hardware report have keys under "device." and values
    that start and end with a letter or digit and hold nothing but the
    characters of label values. *)
Theorem MapLabels_well_formed `{UnicodeTables} h ls :
  Forall is_ascii (reported_names h) → MapLabels (Some h) = Some ls → well_formed ls.
Proof.
  unfold MapLabels, reported_names. rewrite Forall_cons. intros [Hh Hrest] [= <-].
  apply Forall_app in Hrest as [Hc Hv].
  destruct (models.HardwareInfo_CPU h), (models.HardwareInfo_SystemVendor h);
    decompose_Forall_hyps;
    repeat (apply add_label_well_formed; [by vm_compute|done|]);
    apply map_Forall_empty.
Qed.

Definition some_report : models.HardwareInfo :=
  models.mkHardwareInfo None (Some (models.mkCPU "x86_64" 4 [] (S754_finite false 3 9) "Core i7")) [] []
    "edge-1.example" [] None None.

Lemma MapLabels_well_formed_witness :
  @MapLabels latin1_tables (Some some_report) =
    Some {["device.hostname" := "edge-1.example"; "device.cpu-architecture" := "x86_64";
           "device.cpu-model" := "corei7"]} ∧
  ∀ ls, @MapLabels latin1_tables (Some some_report) = Some ls → well_formed ls.
Proof.
  split; [vm_compute; reflexivity|]. intros ls.
  apply (@MapLabels_well_formed latin1_tables some_report ls). repeat constructor.
Defined.
