(* ===== verification/Calls.v ===== *)
(** * The environment of the operator

    Every interaction of the operator with code outside the repository is a
    call: the API server through the controller-runtime client, the event
    recorder, the Prometheus counters, the clock, the random source, and the
    libraries for YAML, JSON and X.509. The environment may give any answer of
    the right type; what a theorem needs of it is a hypothesis of that theorem.

    A client operation that updates the object it is given (the decoded answer
    of the server is written into it) answers the new contents of the object. A
    list call without a namespace option ([None]) lists all namespaces. *)
From S2P Require Import Prelude Effects K8s Labels X509 Models V1alpha1.
Import v1alpha1.

(** The Prometheus counters of [internal/metrics]. *)
Inductive counter :=
  | EdgeDeviceSuccessfulRegistration
  | EdgeDeviceFailedRegistration
  | EdgeDeviceUnregistration.

#[export] Instance counter_eq_dec : EqDecision counter.
Proof. solve_decision. Defined.

(** The answer of a write is the object that the client leaves in memory. *)
Inductive api_op : Type :=
  (* controller-runtime client, EdgeDevice *)
  | GetEdgeDevice (namespace name : string)
  | CreateEdgeDevice (device : EdgeDevice)
  | PatchEdgeDevice (from new : EdgeDevice)
  | PatchEdgeDeviceStatus (from new : EdgeDevice)
  | ListEdgeDevices (namespace : string) (selector : Selector)
  (* EdgeDeployment *)
  | GetEdgeDeployment (namespace name : string)
  | PatchEdgeDeployment (from new : EdgeDeployment)
  | ListEdgeDeployments (namespace : option string) (selector : Selector)
  (* core and third-party objects *)
  | GetSecret (namespace name : string)
  | CreateSecret (secret : Secret)
  | GetConfigMap (namespace name : string)
  | GetRoute (namespace name : string)
  | GetObjectBucketClaim (namespace name : string)
  | CreateObjectBucketClaim (obc : ObjectBucketClaim)
  (* recorder, counters, clock, identifiers *)
  | RecordEvent (device : EdgeDevice) (eventtype reason message : string)
  | IncCounter (c : counter)
  | Sleep (milliseconds : Z)
  | Now
  | NewUUID
  (* serialization libraries *)
  | MarshalPodSpec (spec : PodSpec)
  | MarshalConfigMap (cm : ConfigMap)
  | MarshalStringMap (m : gmap string string)
  | UnmarshalAllowList (yaml : string)
  | UnmarshalHeartbeat (content : models.Content)
  | UnmarshalRegistrationInfo (content : models.Content)
  (* crypto/x509, encoding/pem, crypto/tls and the random source *)
  | PemDecode (pem : string)
  | PemEncode (block : PemBlock)
  | ParseCertificate (der : string)
  | ParseCertificateRequest (der : string)
  | ParseECPrivateKey (der : string)
  | ParsePKCS1PrivateKey (der : string)
  | MarshalECPrivateKey (key : PrivateKey)
  | MarshalPKCS1PrivateKey (key : PrivateKey)
  | GenerateECKey
  | GenerateRSAKey (bits : Z)
  | PublicOf (key : PrivateKey)
  | CreateCertificate (template parent : Certificate) (pub : Opaque) (priv : option PrivateKey)
  | X509KeyPair (certPEM keyPEM : string)
  | CheckSignatureFrom (cert parent : Certificate)
  | VerifyCertificate (cert : Certificate) (opts : VerifyOptions)
  | RandString (n : Z)
  | AddDate (t : Timestamp) (years months days : Z).

Definition api_ans (o : api_op) : Type :=
  match o with
  | GetEdgeDevice _ _ | CreateEdgeDevice _ | PatchEdgeDevice _ _
  | PatchEdgeDeviceStatus _ _ => result EdgeDevice
  | ListEdgeDevices _ _ => result (list EdgeDevice)
  | GetEdgeDeployment _ _ | PatchEdgeDeployment _ _ => result EdgeDeployment
  | ListEdgeDeployments _ _ => result (list EdgeDeployment)
  | GetSecret _ _ | CreateSecret _ => result Secret
  | GetConfigMap _ _ => result ConfigMap
  | GetRoute _ _ => result Route
  | GetObjectBucketClaim _ _ | CreateObjectBucketClaim _ => result ObjectBucketClaim
  | RecordEvent _ _ _ _ | IncCounter _ | Sleep _ => unit
  | Now => Timestamp
  | NewUUID => string
  | MarshalPodSpec _ | MarshalConfigMap _ | MarshalStringMap _ => result string
  | UnmarshalAllowList _ => result models.MetricsAllowList
  | UnmarshalHeartbeat _ => result models.Heartbeat
  | UnmarshalRegistrationInfo _ => result models.RegistrationInfo
  | PemDecode _ => option PemBlock
  | PemEncode _ => result string
  | ParseCertificate _ => result Certificate
  | ParseCertificateRequest _ => result CertificateRequest
  | ParseECPrivateKey _ | ParsePKCS1PrivateKey _ => result PrivateKey
  | MarshalECPrivateKey _ => result string
  | MarshalPKCS1PrivateKey _ => string
  | GenerateECKey | GenerateRSAKey _ => result PrivateKey
  | PublicOf _ => Opaque
  | CreateCertificate _ _ _ _ => result string
  | X509KeyPair _ _ => result Opaque
  | CheckSignatureFrom _ _ | VerifyCertificate _ _ => result unit
  | RandString _ => string
  | AddDate _ _ _ _ => Timestamp
  end.

Canonical Structure api : signature := Signature api_op api_ans.

Abbreviation go := (prog api).
Abbreviation api_event := (event api).

(** A call, with the answer's type computed. *)
Definition ask (o : api_op) : go (api_ans o) := @call api o.

(** Calls that may change the state of the cluster. *)
Definition is_write (o : api_op) : bool :=
  match o with
  | CreateEdgeDevice _ | PatchEdgeDevice _ _ | PatchEdgeDeviceStatus _ _
  | PatchEdgeDeployment _ _ | CreateSecret _ | CreateObjectBucketClaim _ => true
  | _ => false
  end.

(** Calls that may change a device. *)
Definition is_device_write (o : api_op) : bool :=
  match o with PatchEdgeDevice _ _ | PatchEdgeDeviceStatus _ _ | CreateEdgeDevice _ => true | _ => false end.

(** Calls that may change a deployment. *)
Definition is_deployment_write (o : api_op) : bool :=
  match o with PatchEdgeDeployment _ _ => true | _ => false end.

(** The writes of a trace, in order. *)
Definition writes (tr : list api_event) : list api_op :=
  filter (λ o, is_write o = true) (ev_op <$> tr).

Lemma writes_app tr1 tr2 : writes (tr1 ++ tr2) = writes tr1 ++ writes tr2.
Proof. unfold writes. by rewrite fmap_app, filter_app. Qed.

Lemma writes_cons (o : api_op) (a : api_ans o) tr :
  writes (Ev (S := api) o a :: tr) = (if is_write o then [o] else []) ++ writes tr.
Proof. unfold writes. simpl. rewrite filter_cons. by case_decide; destruct (is_write o). Qed.

(** Calls of the operator's own counters, in order. *)
Definition counted (tr : list api_event) : list counter :=
  omap (λ o, match o with IncCounter c => Some c | _ => None end) (ev_op (S := api) <$> tr).

Lemma counted_app tr1 tr2 : counted (tr1 ++ tr2) = counted tr1 ++ counted tr2.
Proof. unfold counted. by rewrite fmap_app, omap_app. Qed.

#[export] Hint Rewrite writes_app writes_cons counted_app : go.

(** Calls whose operation satisfies a predicate, in order. *)
Definition calls (P : api_op → bool) (tr : list api_event) : list api_op :=
  filter (λ o, P o = true) (ev_op <$> tr).

Lemma calls_app P tr1 tr2 : calls P (tr1 ++ tr2) = calls P tr1 ++ calls P tr2.
Proof. unfold calls. by rewrite fmap_app, filter_app. Qed.

Lemma calls_cons P (o : api_op) (a : api_ans o) tr :
  calls P (Ev (S := api) o a :: tr) = (if P o then [o] else []) ++ calls P tr.
Proof. unfold calls. simpl. rewrite filter_cons. by case_decide; destruct (P o). Qed.

#[export] Hint Rewrite calls_app calls_cons : go.


(** A footprint bounds the calls of a trace. *)
Lemma calls_none P tr : Forall (λ o, P o = false) (ev_op <$> tr) → calls P tr = [].
Proof.
  unfold calls. induction tr as [|[o a] tr IH]; csimpl; [done|].
  rewrite Forall_cons. intros [HP Ht]. rewrite filter_cons_False by congruence. auto.
Qed.

Lemma writes_calls tr : writes tr = calls is_write tr.
Proof. done. Qed.

Lemma wp_calls_none {R} P (p : go R) Q :
  within (λ o, P o = false) p → wp p Q → wp p (λ tr out, calls P tr = [] ∧ Q tr out).
Proof.
  intros Hp HQ. apply wp_and; [|done]. eapply wp_mono; [by apply within_wp|].
  intros tr out. apply calls_none.
Qed.

(** Selections of calls. *)
Definition is_record (o : api_op) : bool := match o with RecordEvent _ _ _ _ => true | _ => false end.
Definition is_status_patch (o : api_op) : bool :=
  match o with PatchEdgeDeviceStatus _ _ => true | _ => false end.

Lemma writes_nil : writes [] = [].
Proof. done. Qed.
Lemma calls_nil P : calls P [] = [].
Proof. done. Qed.
Lemma counted_cons (o : api_op) (a : api_ans o) tr :
  counted (Ev (S := api) o a :: tr) =
  (match o with IncCounter c => [c] | _ => [] end) ++ counted tr.
Proof. by destruct o. Qed.
Lemma counted_nil : counted [] = [].
Proof. done. Qed.
#[export] Hint Rewrite writes_nil calls_nil counted_nil counted_cons @app_nil_r : go.

(** From here on these three are computed by the rewrite rules only. *)
#[global] Opaque writes calls counted.

(** Compute, reading the traces off. *)
Ltac go_simpl := simpl; autorewrite with go; simpl.
