(* ===== verification/ApiServer.v ===== *)
(** * What the operator relies on of the API server

    The documented behaviour of the server as far as the controllers depend on
    it: reads and lists answer what is stored; a patch is the difference between
    two versions (a JSON merge patch) laid over the stored object, labels key by
    key and lists as a whole; status and the rest are patched by different calls
    ([EdgeDevice] has the status subresource), and a new device is stored without
    a status; a call that fails changes nothing. The server keeps times to the
    second: times in the lists of stored deployments are meant so rounded, and
    where a status is new to the server nothing is said of its times ([alike]).
    The theorems of [Convergence], [LabelsConvergence] and [DeviceSide] hold in every world
    with these laws; [Server] is one. *)
From S2P Require Import Prelude Effects Interleave Rely K8s Labels Utils V1alpha1 Calls.
Import v1alpha1.

Abbreviation key := (string * string)%type.

Definition key_of (d : EdgeDevice) : key := (device_namespace d, device_name d).
Definition dep_key (d : EdgeDeployment) : key := (dep_namespace d, dep_name d).

(** The labels of [stored] under the patch from [old] to [new]. A map that
    becomes empty is left out of the object, so the patch removes it as a whole. *)
Definition merge_labels (old new stored : labelmap) : labelmap :=
  if decide (new = ∅ ∧ old ≠ ∅) then ∅
  else filter (λ kv, old !! kv.1 ≠ new !! kv.1) new ∪ filter (λ kv, old !! kv.1 = new !! kv.1) stored.

(** Key by key, unless the patch empties the map of an object with other labels. *)
Lemma merge_labels_lookup old new stored k :
  (new = ∅ → old = ∅ ∨ ∀ k, old !! k = None → stored !! k = None) →
  merge_labels old new stored !! k = if decide (old !! k = new !! k) then stored !! k else new !! k.
Proof.
  intros Hnull. unfold merge_labels. case_decide as H0.
  { destruct H0 as [-> Ho]. destruct (Hnull eq_refl) as [?|Hs]; [done|]. rewrite lookup_empty.
    case_decide as Hk; [by rewrite Hs|done]. }
  case_decide as Hk.
  - rewrite lookup_union_r by (apply map_lookup_filter_None_2; right; simpl; naive_solver).
    destruct (stored !! k) as [v|] eqn:E.
    + by apply map_lookup_filter_Some_2.
    + apply map_lookup_filter_None_2. by left.
  - rewrite lookup_union_l by (apply map_lookup_filter_None_2; right; simpl; naive_solver).
    destruct (new !! k) as [v|] eqn:E.
    + apply map_lookup_filter_Some_2; [done|]. simpl. by rewrite E.
    + apply map_lookup_filter_None_2. by left.
Qed.

(** A field (lists as a whole) is replaced when the two versions differ in it. *)
Definition merge_field {A} `{EqDecision A} (old new stored : A) : A :=
  if decide (old = new) then stored else new.

(** Two statuses that differ in no more than their times, which the server keeps
    to the second. *)
Record alike (s s' : EdgeDeviceStatus) : Prop := {
  alike_phase : EdgeDeviceStatus_Phase s = EdgeDeviceStatus_Phase s';
  alike_version : EdgeDeviceStatus_LastSyncedResourceVersion s = EdgeDeviceStatus_LastSyncedResourceVersion s';
  alike_hardware : EdgeDeviceStatus_Hardware s = EdgeDeviceStatus_Hardware s';
  alike_deployments : (λ x, (Deployment_Name x, Deployment_Phase x)) <$> EdgeDeviceStatus_Deployments s =
    (λ x, (Deployment_Name x, Deployment_Phase x)) <$> EdgeDeviceStatus_Deployments s';
  alike_obc : EdgeDeviceStatus_DataOBC s = EdgeDeviceStatus_DataOBC s';
  alike_upgrade : EdgeDeviceStatus_UpgradeInformation s = EdgeDeviceStatus_UpgradeInformation s';
}.

Lemma merge_field_stored {A} `{EqDecision A} (old new : A) : merge_field old new old = new.
Proof. unfold merge_field. by case_decide. Qed.

(** Laid over the version it was made from, a patch gives the new version. *)
Lemma merge_labels_stored old new : merge_labels old new old = new.
Proof. apply map_eq. intros k. rewrite merge_labels_lookup by auto. by case_decide. Qed.

(** [d] is the stored device [d0] after a patch of the object, or of its status. *)
Record patched_main (old new d0 d : EdgeDevice) : Prop := {
  main_key : key_of d = key_of d0;
  main_labels : map_of (device_labels d) =
    merge_labels (map_of (device_labels old)) (map_of (device_labels new)) (map_of (device_labels d0));
  main_status : EdgeDevice_Status d = EdgeDevice_Status d0;
  main_deletion : DeletionTimestamp (EdgeDevice_Meta d) = DeletionTimestamp (EdgeDevice_Meta d0);
  main_finalizers : Finalizers (EdgeDevice_Meta d) =
    merge_field (Finalizers (EdgeDevice_Meta old)) (Finalizers (EdgeDevice_Meta new)) (Finalizers (EdgeDevice_Meta d0));
  main_spec : EdgeDevice_Spec old = EdgeDevice_Spec new → EdgeDevice_Spec d = EdgeDevice_Spec d0;
}.

Record patched_status (old new d0 d : EdgeDevice) : Prop := {
  status_key : key_of d = key_of d0;
  status_labels : map_of (device_labels d) = map_of (device_labels d0);
  status_deployments : device_deployments d =
    merge_field (device_deployments old) (device_deployments new) (device_deployments d0);
  status_finalizers : Finalizers (EdgeDevice_Meta d) = Finalizers (EdgeDevice_Meta d0);
  status_spec : EdgeDevice_Spec d = EdgeDevice_Spec d0;
  status_deletion : DeletionTimestamp (EdgeDevice_Meta d) = DeletionTimestamp (EdgeDevice_Meta d0);
  (* made from the stored version, the patch gives the new one *)
  status_new : EdgeDevice_Status old = EdgeDevice_Status d0 → alike (EdgeDevice_Status d) (EdgeDevice_Status new);
}.

(** [d] is what is stored when [d0] is created: the status is not taken over. *)
Record created (d0 d : EdgeDevice) : Prop := {
  created_key : key_of d = key_of d0;
  created_labels : map_of (device_labels d) = map_of (device_labels d0);
  created_requested : is_nil (EdgeDeviceSpec_RequestTime (EdgeDevice_Spec d)) =
    is_nil (EdgeDeviceSpec_RequestTime (EdgeDevice_Spec d0));
  created_finalizers : Finalizers (EdgeDevice_Meta d) = Finalizers (EdgeDevice_Meta d0);
  created_alive : DeletionTimestamp (EdgeDevice_Meta d) = None;
  created_status : EdgeDevice_Status d = zero_status;
}.

(** A list that is left out when it is empty, decoded over [m]. *)
Definition list_into {A} (s m : list A) : list A := match s with [] => m | _ => s end.

(** [a] is what becomes of the object [m] in memory when the answer [s] of the
    server is decoded into it ([typed_client.go] ends each write with
    [Into(obj)]). The decoder adds the entries of a map to those that are there,
    and leaves a field alone that the answer omits: an empty list, a nil pointer.
    The name and the namespace are always given, and so are the names of a list
    of deployments that is not empty. *)
Record decoded (s m a : EdgeDevice) : Prop := {
  decoded_key : key_of a = key_of s;
  decoded_labels : map_of (device_labels a) = map_of (device_labels s) ∪ map_of (device_labels m);
  decoded_finalizers : Finalizers (EdgeDevice_Meta a) =
    list_into (Finalizers (EdgeDevice_Meta s)) (Finalizers (EdgeDevice_Meta m));
  decoded_deployments : Deployment_Name <$> device_deployments a =
    Deployment_Name <$> list_into (device_deployments s) (device_deployments m);
  decoded_status : EdgeDevice_Status s = EdgeDevice_Status m → EdgeDevice_Status a = EdgeDevice_Status s;
}.

(** An object under deletion goes with its last finalizer. *)
Definition leaves (old new d : EdgeDevice) : bool :=
  negb (is_nil (DeletionTimestamp (EdgeDevice_Meta d)))
  && bool_decide (Finalizers (EdgeDevice_Meta old) ≠ Finalizers (EdgeDevice_Meta new))
  && bool_decide (Finalizers (EdgeDevice_Meta d) = []).

(** A world holds the stored devices and deployments. *)
Class ApiServer (W : Type) := {
  devices_of : W → gmap key EdgeDevice;
  deployments_of : W → gmap key EdgeDeployment;
  answers : W → ∀ o : api_op, api_ans o → W → Prop;
}.

Class ApiServerLaws W `{ApiServer W} := {
  reads_keep w o a w' :
    answers w o a w' → is_device_write o = false → devices_of w' = devices_of w;
  deployments_keep w o a w' :
    answers w o a w' → is_deployment_write o = false → deployments_of w' = deployments_of w;
  get_device w ns n r w' :
    answers w (GetEdgeDevice ns n) r w' →
    match r with
    | Ok d => devices_of w !! (ns, n) = Some d
    | Err e => IsNotFound e = true → devices_of w !! (ns, n) = None
    end;
  list_devices w ns s r w' :
    answers w (ListEdgeDevices ns s) r w' →
    match r with
    | Ok ds => ∀ d, d ∈ ds ↔ ∃ n, devices_of w !! (ns, n) = Some d ∧
                                  sel_matches s (map_of (device_labels d)) = true
    | Err e => IsNotFound e = true → ∀ n, devices_of w !! (ns, n) = None
    end;
  get_deployment w ns n r w' :
    answers w (GetEdgeDeployment ns n) r w' →
    match r with
    | Ok d => deployments_of w !! (ns, n) = Some d
    | Err e => IsNotFound e = true → deployments_of w !! (ns, n) = None
    end;
  list_deployments w ns s r w' :
    answers w (ListEdgeDeployments ns s) r w' →
    match r with
    | Ok ds => ∀ d, d ∈ ds ↔ ∃ k, deployments_of w !! k = Some d ∧
        match ns with None => True | Some ns => k.1 = ns end ∧
        sel_matches s (map_of (dep_labels d)) = true
    | Err _ => True
    end;
  patch_object w old new r w' :
    answers w (PatchEdgeDevice old new) r w' →
    match r with
    | Ok a => ∃ d0 d, devices_of w !! key_of old = Some d0 ∧ patched_main old new d0 d ∧ decoded d new a ∧
                      devices_of w' = (if leaves old new d then delete (key_of old) (devices_of w)
                                       else <[key_of old := d]> (devices_of w))
    | Err _ => devices_of w' = devices_of w
    end;
  store_device w d0 r w' :
    answers w (CreateEdgeDevice d0) r w' →
    match r with
    | Ok a => ∃ d, devices_of w !! key_of d0 = None ∧ created d0 d ∧ decoded d d0 a ∧
                   devices_of w' = <[key_of d0 := d]> (devices_of w)
    | Err _ => devices_of w' = devices_of w
    end;
  patch_status w old new r w' :
    answers w (PatchEdgeDeviceStatus old new) r w' →
    match r with
    | Ok a => ∃ d0 d, devices_of w !! key_of old = Some d0 ∧ patched_status old new d0 d ∧ decoded d new a ∧
                      devices_of w' = <[key_of old := d]> (devices_of w)
    | Err _ => devices_of w' = devices_of w
    end;
}.

(** A patch that leaves the finalizers alone leaves the object there. *)
Lemma patch_device `{ApiServerLaws W} w old new r w' :
  answers w (PatchEdgeDevice old new) r w' →
  Finalizers (EdgeDevice_Meta old) = Finalizers (EdgeDevice_Meta new) →
  match r with
  | Ok a => ∃ d0 d, devices_of w !! key_of old = Some d0 ∧ patched_main old new d0 d ∧ decoded d new a ∧
                    devices_of w' = <[key_of old := d]> (devices_of w)
  | Err _ => devices_of w' = devices_of w
  end.
Proof.
  intros Ha%patch_object Hf. destruct r as [a|e]; [|done]. destruct Ha as (d0 & d & Hd & Hp & Ha & Hw).
  exists d0, d. split_and!; [done..|]. rewrite Hw. unfold leaves.
  by rewrite (bool_decide_eq_false_2 (Finalizers _ ≠ _)), andb_false_r by tauto.
Qed.

(** The two patches, as functions. *)
Definition patch_main (old new stored : EdgeDevice) : EdgeDevice :=
  let m := EdgeDevice_Meta stored in
  mkEdgeDevice
    (mkObjectMeta (Name m) (Namespace m) (ResourceVersion m)
       (Some (merge_labels (map_of (device_labels old)) (map_of (device_labels new)) (map_of (device_labels stored))))
       (merge_field (Finalizers (EdgeDevice_Meta old)) (Finalizers (EdgeDevice_Meta new)) (Finalizers m))
       (DeletionTimestamp m))
    (merge_field (EdgeDevice_Spec old) (EdgeDevice_Spec new) (EdgeDevice_Spec stored))
    (EdgeDevice_Status stored).

Definition patch_device_status (old new stored : EdgeDevice) : EdgeDevice :=
  let field {A} `{EqDecision A} (f : EdgeDeviceStatus → A) :=
    merge_field (f (EdgeDevice_Status old)) (f (EdgeDevice_Status new)) (f (EdgeDevice_Status stored)) in
  set_status (mkEdgeDeviceStatus (field EdgeDeviceStatus_Phase) (field EdgeDeviceStatus_LastSeenTime)
    (field EdgeDeviceStatus_LastSyncedResourceVersion) (field EdgeDeviceStatus_Hardware)
    (field EdgeDeviceStatus_Deployments) (field EdgeDeviceStatus_DataOBC)
    (field EdgeDeviceStatus_UpgradeInformation)) stored.

(** A new device as it is stored: alive, and without a status. *)
Definition stored_new (d : EdgeDevice) : EdgeDevice :=
  let m := EdgeDevice_Meta d in
  mkEdgeDevice (mkObjectMeta (Name m) (Namespace m) (ResourceVersion m) (Labels m) (Finalizers m) None)
    (EdgeDevice_Spec d) zero_status.

Lemma patch_main_patched old new stored : patched_main old new stored (patch_main old new stored).
Proof. split; try done. simpl. intros ->. apply decide_True; done. Qed.

Lemma patch_status_patched old new stored : patched_status old new stored (patch_device_status old new stored).
Proof. split; try done. intros E. unfold patch_device_status. simpl. rewrite E, !merge_field_stored. done. Qed.

Lemma stored_new_created d : created d (stored_new d).
Proof. done. Qed.

(** Decoding, as a function: strings, lists and pointers that the answer omits
    stay; an object behind a pointer is taken as a whole. *)
Definition string_into (s m : string) : string := if String.eqb s "" then m else s.

Definition status_into (s m : EdgeDeviceStatus) : EdgeDeviceStatus :=
  mkEdgeDeviceStatus (string_into (EdgeDeviceStatus_Phase s) (EdgeDeviceStatus_Phase m))
    (EdgeDeviceStatus_LastSeenTime s)
    (string_into (EdgeDeviceStatus_LastSyncedResourceVersion s) (EdgeDeviceStatus_LastSyncedResourceVersion m))
    (union (EdgeDeviceStatus_Hardware s) (EdgeDeviceStatus_Hardware m))
    (list_into (EdgeDeviceStatus_Deployments s) (EdgeDeviceStatus_Deployments m))
    (union (EdgeDeviceStatus_DataOBC s) (EdgeDeviceStatus_DataOBC m))
    (union (EdgeDeviceStatus_UpgradeInformation s) (EdgeDeviceStatus_UpgradeInformation m)).

Definition decode_into (s m : EdgeDevice) : EdgeDevice :=
  let ms := EdgeDevice_Meta s in
  let mm := EdgeDevice_Meta m in
  mkEdgeDevice
    (mkObjectMeta (Name ms) (Namespace ms) (ResourceVersion ms)
       (match Labels ms, Labels mm with None, None => None | ls, lm => Some (map_of ls ∪ map_of lm) end)
       (list_into (Finalizers ms) (Finalizers mm)) (union (DeletionTimestamp ms) (DeletionTimestamp mm)))
    (EdgeDevice_Spec s) (status_into (EdgeDevice_Status s) (EdgeDevice_Status m)).

Lemma list_into_same {A} (s : list A) : list_into s s = s.
Proof. by destruct s. Qed.

Lemma status_into_same s : status_into s s = s.
Proof.
  unfold status_into, string_into. rewrite list_into_same.
  destruct s as [ph t v [h|] ds [o|] [u|]]; simpl; by repeat case_match.
Qed.

Lemma decode_into_decoded s m : decoded s m (decode_into s m).
Proof.
  split; try done.
  - unfold device_labels, decode_into. simpl. by destruct (Labels (EdgeDevice_Meta s)), (Labels (EdgeDevice_Meta m)).
  - intros E. unfold decode_into. simpl. rewrite <- E. apply status_into_same.
Qed.

(** Every device is stored under its own name and namespace. *)
Definition well_keyed (m : gmap key EdgeDevice) : Prop := ∀ k d, m !! k = Some d → key_of d = k.

Section rules.
Context {W : Type} `{AS : ApiServer W}.

Lemma swp_ask (o : api_op) w (Q : list api_event → api_ans o → W → Prop) :
  (∀ (a : api_ans o) w1, answers w o a w1 → Q [Ev (S := api) o a] a w1) → swp answers (ask o) w Q.
Proof. apply (swp_call (S := api)). Qed.

(** A program without calls leaves the world as it is. *)
Lemma swp_silent {A} (p : go A) w (Q : outcome A → Prop) :
  wp p (λ tr out, tr = [] ∧ Q out) → swp answers p w (λ tr r w', tr = [] ∧ w' = w ∧ Q (Returned r)).
Proof.
  intros H tr r w' He Hev. destruct (proj1 (wp_exec _ _) H _ _ He) as [-> HQ].
  by inversion Hev; simplify_eq.
Qed.

Context {AL : ApiServerLaws W}.

(** The event takes one world to the other. *)
Definition happened (w : W) (e : api_event) (w' : W) : Prop :=
  match e with Ev o a => answers w o a w' end.

(** Every answer of a reading program is about one and the same world. *)
Lemma evolves_reads w tr w' :
  evolves answers w tr w' → writes tr = [] →
  devices_of w' = devices_of w ∧ deployments_of w' = deployments_of w ∧
  ∀ e, e ∈ tr → ∃ w1 w2, happened w1 e w2 ∧ devices_of w1 = devices_of w ∧ deployments_of w1 = deployments_of w.
Proof.
  induction 1 as [w|w o a w1 tr w2 Ha Hev IH]; intros Hw.
  { split_and!; [done..|]. by intros e ?%elem_of_nil. }
  rewrite writes_cons in Hw. destruct (is_write o) eqn:Eo; [done|]. simpl in Hw.
  destruct (IH Hw) as (Hd & Hp & Hall).
  assert (devices_of w1 = devices_of w) by (eapply reads_keep; [done|]; by destruct o).
  assert (deployments_of w1 = deployments_of w) by (eapply deployments_keep; [done|]; by destruct o).
  split_and!; [congruence..|]. intros e [->|Hin]%elem_of_cons; [by exists w, w1|].
  destruct (Hall e Hin) as (w1' & w2' & ? & ? & ?). exists w1', w2'. split_and!; [done|congruence..].
Qed.

Lemma swp_reads {A} (p : go A) w (Q : list api_event → outcome A → Prop) :
  wp p (λ tr out, writes tr = [] ∧ Q tr out) →
  swp answers p w (λ tr r w', Q tr (Returned r) ∧ devices_of w' = devices_of w ∧
    deployments_of w' = deployments_of w ∧
    ∀ e, e ∈ tr → ∃ w1 w2, happened w1 e w2 ∧ devices_of w1 = devices_of w ∧ deployments_of w1 = deployments_of w).
Proof.
  intros H tr r w' He Hev. destruct (proj1 (wp_exec _ _) H _ _ He) as [Hw HQ].
  split; [done|]. by apply evolves_reads.
Qed.

End rules.
