(* ===== verification/Server.v ===== *)
(** * A concrete environment

    An API server that stores the objects it is given, in memory, and plain
    answers for everything else. The examples and the witnesses of the
    development run the operator against it; no theorem assumes it. *)
From S2P Require Import Prelude Effects Interleave Rely K8s Labels Utils X509 Models V1alpha1 Calls ApiServer.
Import v1alpha1.

Record cluster := mkCluster {
  devices : gmap key EdgeDevice;
  deployments : gmap key EdgeDeployment;
  secrets : gmap key Secret;
  configmaps : gmap key ConfigMap;
  routes : gmap key Route;
  claims : gmap key ObjectBucketClaim;
  clock : Z;
}.

Definition empty_cluster : cluster := mkCluster ∅ ∅ ∅ ∅ ∅ ∅ 0.

Definition set_devices (m : gmap key EdgeDevice) (c : cluster) : cluster :=
  mkCluster m (deployments c) (secrets c) (configmaps c) (routes c) (claims c) (clock c).
Definition put_device (d : EdgeDevice) (c : cluster) : cluster := set_devices (<[key_of d := d]> (devices c)) c.
Definition put_deployment (d : EdgeDeployment) (c : cluster) : cluster :=
  mkCluster (devices c) (<[(dep_namespace d, dep_name d) := d]> (deployments c)) (secrets c)
    (configmaps c) (routes c) (claims c) (clock c).
Definition put_secret (s : Secret) (c : cluster) : cluster :=
  mkCluster (devices c) (deployments c)
    (<[(Namespace (secret_Meta s), Name (secret_Meta s)) := s]> (secrets c))
    (configmaps c) (routes c) (claims c) (clock c).
Definition put_configmap (m : ConfigMap) (c : cluster) : cluster :=
  mkCluster (devices c) (deployments c) (secrets c)
    (<[(Namespace (cm_Meta m), Name (cm_Meta m)) := m]> (configmaps c)) (routes c) (claims c) (clock c).
Definition put_claim (o : ObjectBucketClaim) (c : cluster) : cluster :=
  mkCluster (devices c) (deployments c) (secrets c) (configmaps c) (routes c)
    (<[(Namespace (obc_Meta o), Name (obc_Meta o)) := o]> (claims c)) (clock c).
Definition tick (c : cluster) : cluster :=
  mkCluster (devices c) (deployments c) (secrets c) (configmaps c) (routes c) (claims c) (clock c + 1).

Definition not_found : error := StatusError StatusReasonNotFound "not found".
Definition unsupported : error := ErrorString "not supported".

Definition get {A} (o : option A) : result A := match o with Some a => Ok a | None => Err not_found end.

(** The values of a map that satisfy a predicate, by key. *)
Definition select {A} (P : key → A → bool) (m : gmap key A) : list A :=
  (filter (λ kv, P kv.1 kv.2 = true) (map_to_list m)).*2.

Definition some_certificate (cn : string) (usages : list ExtKeyUsage) : Certificate :=
  mkCertificate 1 (mkPkixName cn [] "" "") 0 0 false false [] [] usages [] [] "" "".

Definition serve (o : api_op) (c : cluster) : api_ans o * cluster :=
  match o with
  | GetEdgeDevice ns n => (get (devices c !! (ns, n)), c)
  | CreateEdgeDevice d =>
      match devices c !! key_of d with
      | Some _ => (Err (StatusError StatusReasonAlreadyExists "already exists"), c)
      | None => let stored := stored_new d in (Ok (decode_into stored d), put_device stored c)
      end
  | PatchEdgeDevice old new =>
      match devices c !! key_of old with
      | None => (Err not_found, c)
      | Some stored =>
          let d := patch_main old new stored in
          (Ok (decode_into d new),
           set_devices (if leaves old new d then delete (key_of old) (devices c)
                        else <[key_of old := d]> (devices c)) c)
      end
  | PatchEdgeDeviceStatus old new =>
      match devices c !! key_of old with
      | None => (Err not_found, c)
      | Some stored =>
          let d := patch_device_status old new stored in
          (Ok (decode_into d new), set_devices (<[key_of old := d]> (devices c)) c)
      end
  | ListEdgeDevices ns s =>
      (Ok (select (λ k d, String.eqb k.1 ns && sel_matches s (map_of (device_labels d))) (devices c)), c)
  | GetEdgeDeployment ns n => (get (deployments c !! (ns, n)), c)
  | PatchEdgeDeployment _ d => (Ok d, put_deployment d c)
  | ListEdgeDeployments ns s =>
      (Ok (select (λ k d, match ns with None => true | Some ns => String.eqb k.1 ns end
                          && sel_matches s (map_of (dep_labels d))) (deployments c)), c)
  | GetSecret ns n => (get (secrets c !! (ns, n)), c)
  | CreateSecret s => (Ok s, put_secret s c)
  | GetConfigMap ns n => (get (configmaps c !! (ns, n)), c)
  | GetRoute ns n => (get (routes c !! (ns, n)), c)
  | GetObjectBucketClaim ns n => (get (claims c !! (ns, n)), c)
  | CreateObjectBucketClaim o => (Ok o, put_claim o c)
  | RecordEvent _ _ _ _ | IncCounter _ | Sleep _ => (tt, c)
  | Now => (clock c, tick c)
  | NewUUID => ("uuid"%string, c)
  | MarshalPodSpec _ => (Ok "pod: yaml"%string, c)
  | MarshalConfigMap m => (Ok ("configmap: " +:+ Name (cm_Meta m)), c)
  | MarshalStringMap m => (Ok (String.concat "," (map_to_list m).*1), c)
  | UnmarshalAllowList y => (Ok (models.mkMetricsAllowList [y]), c)
  | UnmarshalHeartbeat _ => (Ok (models.mkHeartbeat [] None "up" None "1" []), c)
  | UnmarshalRegistrationInfo _ => (Ok (models.mkRegistrationInfo "csr" None), c)
  | PemDecode p => (Some (mkPemBlock (if String.eqb p "key" then "EC PRIVATE KEY" else "CERTIFICATE") p), c)
  | PemEncode b => (Ok (Block_Bytes b), c)
  | ParseCertificate der => (Ok (some_certificate der []), c)
  | ParseCertificateRequest der =>
      (Ok (mkCertificateRequest (mkPkixName "someone" ["elsewhere"] "" "") ("public of " +:+ der) der), c)
  | ParseECPrivateKey k => (Ok (EcdsaKey k), c)
  | ParsePKCS1PrivateKey _ => (Err unsupported, c)
  | MarshalECPrivateKey _ => (Ok "key"%string, c)
  | MarshalPKCS1PrivateKey _ => ("key"%string, c)
  | GenerateECKey => (Ok (EcdsaKey "ec"), c)
  | GenerateRSAKey _ => (Ok (RsaKey "rsa"), c)
  | PublicOf _ => ("public"%string, c)
  | CreateCertificate _ _ _ _ => (Ok "der"%string, c)
  | X509KeyPair cert _ => (Ok cert, c)
  | CheckSignatureFrom _ _ => (Ok tt, c)
  | VerifyCertificate cert opts =>
      (if usage_allowed cert opts then Ok tt else Err (ErrorString "incompatible key usage"), c)
  | RandString _ => ("abcde"%string, c)
  | AddDate t y m d => ((t + y * 31536000000000000 + m * 2592000000000000 + d * 86400000000000)%Z, c)
  end.

(** Every schedule is the first choice. *)
Definition server : env api cluster := {| answer := serve; choose := λ n c, (0, c) |}.

(** Run a program and look at its end. *)
Definition outcome_of {A} (p : go A) (c : cluster) : outcome A := (run server p c).1.2.
Definition trace_of {A} (p : go A) (c : cluster) : list api_op := ev_op <$> (run server p c).1.1.
Definition cluster_of {A} (p : go A) (c : cluster) : cluster := (run server p c).2.

(** A property of all executions holds of this one. *)
Lemma run_wp {A} (p : go A) Q c :
  live server p c = true → wp p Q → Q (run server p c).1.1 (run server p c).1.2.
Proof. intros Hl Hwp. apply (proj1 (wp_exec p Q) Hwp). by apply run_exec. Qed.

(** This server keeps the laws of [ApiServer]. *)
#[export] Instance cluster_server : ApiServer cluster := {
  devices_of := devices;
  deployments_of := deployments;
  answers c o a c' := serve o c = (a, c');
}.

Lemma elem_of_select {A} (P : key → A → bool) (m : gmap key A) x :
  x ∈ select P m ↔ ∃ k, m !! k = Some x ∧ P k x = true.
Proof.
  unfold select. rewrite list_elem_of_fmap. split.
  - intros ([k y] & -> & [HP Hin]%list_elem_of_filter). apply elem_of_map_to_list in Hin. eauto.
  - intros (k & Hk & HP). exists (k, x). split; [done|]. apply list_elem_of_filter.
    by rewrite elem_of_map_to_list.
Qed.

#[export] Instance cluster_laws : ApiServerLaws cluster.
Proof.
  split.
  - intros c o a c' Ha. destruct o; simpl in *; repeat case_match; by simplify_eq.
  - intros c o a c' Ha. destruct o; simpl in *; repeat case_match; by simplify_eq.
  - intros c ns n r c' Ha. simpl in *. injection Ha as <- <-. by destruct (devices c !! (ns, n)).
  - intros c ns s r c' Ha. simpl in Ha. simplify_eq. intros d. rewrite elem_of_select. split.
    + intros ([ns0 n] & Hd & [E Hs]%andb_true_iff). apply String.eqb_eq in E. simpl in E. subst. eauto.
    + intros (n & Hd & Hs). exists (ns, n). split; [done|]. simpl. by rewrite String.eqb_refl.
  - intros c ns n r c' Ha. simpl in *. injection Ha as <- <-. by destruct (deployments c !! (ns, n)).
  - intros c ns s r c' Ha. simpl in *. injection Ha as <- <-. intros d. rewrite elem_of_select. split.
    + intros (k & Hd & [E Hs]%andb_true_iff). exists k. split_and!; [done| |done].
      destruct ns as [ns|]; [by apply String.eqb_eq in E|done].
    + intros (k & Hd & E & Hs). exists k. split; [done|]. rewrite Hs, andb_true_r.
      destruct ns as [ns|]; [by rewrite E, String.eqb_refl|done].
  - intros c old new r c' Ha. simpl in Ha.
    destruct (devices c !! key_of old) as [d0|] eqn:E; [|by injection Ha as <- <-].
    injection Ha as <- <-. exists d0, (patch_main old new d0).
    split_and!; [done|apply patch_main_patched|apply decode_into_decoded|done].
  - intros c d r c' Ha. simpl in Ha. destruct (devices c !! key_of d) as [d0|] eqn:E; injection Ha as <- <-; [done|].
    exists (stored_new d). split_and!; [done|apply stored_new_created|apply decode_into_decoded|done].
  - intros c old new r c' Ha. simpl in Ha. destruct (devices c !! key_of old) as [d0|] eqn:E; injection Ha as <- <-; [|done].
    exists d0, (patch_device_status old new d0).
    split_and!; [done|apply patch_status_patched|apply decode_into_decoded|done].
Qed.

(** A run of the server is an evolution of its world. *)
Lemma run_evolves {A} (p : go A) c : evolves answers c (run server p c).1.1 (run server p c).2.
Proof.
  revert c; induction p as [r|k|o k IH|n k IH]; intros c; simpl; [constructor|constructor| |apply IH].
  destruct (serve o c) as [a c1] eqn:E. specialize (IH a c1).
  destruct (run server (k a) c1) as [[tr out] c2]. simpl in *. by econstructor.
Qed.

Lemma run_swp {A} (p : go A) c Q r :
  swp answers p c Q → live server p c = true → outcome_of p c = Returned r →
  Q (run server p c).1.1 r (cluster_of p c).
Proof.
  intros H Hl Hr. apply H; [|apply run_evolves]. rewrite <- Hr. by apply run_exec.
Qed.

Lemma map_Forall_keyed (m : gmap key EdgeDevice) :
  bool_decide (map_Forall (λ k d, key_of d = k) m) = true → well_keyed m.
Proof. intros H%bool_decide_eq_true k d Hk. by apply (H k d). Qed.

Definition some_meta (name ns : string) (ls : labelmap) (fs : list string) : ObjectMeta :=
  mkObjectMeta name ns "1" (Some ls) fs None.
Definition some_device (name ns : string) (ls : labelmap) : EdgeDevice :=
  mkEdgeDevice (some_meta name ns ls []) zero_spec zero_status.
Definition some_deployment (name ns : string) (ls : labelmap) (fs : list string)
    (sel : option LabelSelector) (device : string) : EdgeDeployment :=
  mkEdgeDeployment (some_meta name ns ls fs)
    (mkEdgeDeploymentSpec sel device PodDeploymentType (mkPodSpec [] [] [] "") None None None "").
