(* ===== verification/Repositories.v ===== *)
(** * The repositories ([internal/repository])

    [edgedevice.CRRepository] and [edgedeployment.CRRespository]: thin layers
    over the client, with the label update and its retries and the removal of
    finalizers. A function that returns only an error answers [None] for nil;
    a function that changes the object it is given answers the object too. *)
From S2P Require Import Prelude Effects K8s Labels Utils Models V1alpha1 Calls.
Import v1alpha1.

(** What the controllers and handlers rely on: the operations of
    [edgedevice.Repository] and [edgedeployment.Repository]. *)
Class EdgeDeviceRepository := {
  edgedevice_Read : string → string → go (result EdgeDevice);
  edgedevice_Create : EdgeDevice → go (result EdgeDevice);
  (** [PatchStatus(ctx, device, patch)], the patch given by its base *)
  edgedevice_PatchStatus : EdgeDevice → EdgeDevice → go (result EdgeDevice);
  edgedevice_Patch : EdgeDevice → EdgeDevice → go (result EdgeDevice);
  edgedevice_ListForSelector : option LabelSelector → string → go (result (list EdgeDevice));
  edgedevice_RemoveFinalizer : EdgeDevice → string → go (option error * EdgeDevice);
  edgedevice_UpdateLabels : EdgeDevice → option labelmap → go (option error * EdgeDevice);
}.

Class EdgeDeploymentRepository := {
  edgedeployment_Read : string → string → go (result EdgeDeployment);
  edgedeployment_Patch : EdgeDeployment → EdgeDeployment → go (result EdgeDeployment);
  edgedeployment_RemoveFinalizer : EdgeDeployment → string → go (option error * EdgeDeployment);
  edgedeployment_ListByLabel : string → string → go (result (list EdgeDeployment));
}.

(** ** [edgedevice] *)
Module edgedevice.

Definition Read (name namespace : string) : go (result EdgeDevice) :=
  ask (GetEdgeDevice namespace name).

Definition Create (edgeDevice : EdgeDevice) : go (result EdgeDevice) :=
  ask (CreateEdgeDevice edgeDevice).

Definition PatchStatus (edgeDevice patch : EdgeDevice) : go (result EdgeDevice) :=
  ask (PatchEdgeDeviceStatus patch edgeDevice).

Definition Patch (old new : EdgeDevice) : go (result EdgeDevice) :=
  ask (PatchEdgeDevice old new).

Definition ListForSelector (selector : option LabelSelector) (namespace : string)
    : go (result (list EdgeDevice)) :=
  match LabelSelectorAsSelector selector with
  | Err e => Ret (Err e)
  | Ok s => ask (ListEdgeDevices namespace s)
  end.

Definition RemoveFinalizer (edgeDevice : EdgeDevice) (finalizer : string)
    : go (option error * EdgeDevice) :=
  let cp := set_finalizers
    (without_finalizer finalizer (Finalizers (EdgeDevice_Meta edgeDevice))) edgeDevice in
  err ← Patch edgeDevice cp;
  match err with
  | Ok cp => Ret (None, set_finalizers (Finalizers (EdgeDevice_Meta cp)) edgeDevice)
  | Err _ => Ret (None, edgeDevice)
  end.

(** [updateLabels]: [reflect.DeepEqual] tells a nil map from an empty one. *)
Definition updateLabels (device : EdgeDevice) (labels : option labelmap)
    : go (option error * EdgeDevice) :=
  let deviceLabels := map_of labels ∪ map_of (device_labels device) in
  if bool_decide (device_labels device = Some deviceLabels) then Ret (None, device)
  else
    r ← Patch device (set_labels (Some deviceLabels) device);
    match r with
    | Ok deviceCopy => Ret (None, set_labels (device_labels deviceCopy) device)
    | Err e => Ret (Some e, device)
    end.

(** The iterations [i] left of the retry loop; [err] is the outer error, which
    the loop's own [err] shadows. *)
Fixpoint retryLabels (todo : list Z) (name namespace : string) (labels : option labelmap)
    (err : error) : go (option error) :=
  match todo with
  | [] => Ret (Some err)
  | i :: todo =>
      _ ← ask (Sleep (i * 50));
      device2 ← Read name namespace;
      match device2 with
      | Err _ => retryLabels todo name namespace labels err
      | Ok device2 =>
          r ← updateLabels device2 labels;
          match r.1 with
          | None => Ret None
          | Some _ => retryLabels todo name namespace labels err
          end
      end
  end.

Definition UpdateLabels (device : EdgeDevice) (labels : option labelmap)
    : go (option error * EdgeDevice) :=
  r ← updateLabels device labels;
  match r with
  | (None, device) => Ret (None, device)
  | (Some err, device) =>
      e ← retryLabels [1; 2; 3]%Z (device_name device) (device_namespace device) labels err;
      Ret (e, device)
  end.

End edgedevice.

(** ** [edgedeployment] *)
Module edgedeployment.

Definition Read (name namespace : string) : go (result EdgeDeployment) :=
  ask (GetEdgeDeployment namespace name).

Definition Patch (old new : EdgeDeployment) : go (result EdgeDeployment) :=
  ask (PatchEdgeDeployment old new).

Definition RemoveFinalizer (edgeDeployment : EdgeDeployment) (finalizer : string)
    : go (option error * EdgeDeployment) :=
  let cp := dep_set_finalizers
    (without_finalizer finalizer (Finalizers (EdgeDeployment_Meta edgeDeployment))) edgeDeployment in
  err ← Patch edgeDeployment cp;
  match err with
  | Ok cp => Ret (None, dep_set_finalizers (Finalizers (EdgeDeployment_Meta cp)) edgeDeployment)
  | Err _ => Ret (None, edgeDeployment)
  end.

(** No namespace among the list options: every namespace is listed. *)
Definition ListByLabel (labelName labelValue : string) : go (result (list EdgeDeployment)) :=
  match NewRequirement labelName OpEquals [labelValue] with
  | Err e => Ret (Err e)
  | Ok requirement => ask (ListEdgeDeployments None (InternalSelector [requirement]))
  end.

End edgedeployment.

(** The implementations the operator is started with. *)
#[export] Instance CRRepository : EdgeDeviceRepository := {
  edgedevice_Read := edgedevice.Read;
  edgedevice_Create := edgedevice.Create;
  edgedevice_PatchStatus := edgedevice.PatchStatus;
  edgedevice_Patch := edgedevice.Patch;
  edgedevice_ListForSelector := edgedevice.ListForSelector;
  edgedevice_RemoveFinalizer := edgedevice.RemoveFinalizer;
  edgedevice_UpdateLabels := edgedevice.UpdateLabels;
}.

#[export] Instance CRRespository : EdgeDeploymentRepository := {
  edgedeployment_Read := edgedeployment.Read;
  edgedeployment_Patch := edgedeployment.Patch;
  edgedeployment_RemoveFinalizer := edgedeployment.RemoveFinalizer;
  edgedeployment_ListByLabel := edgedeployment.ListByLabel;
}.

(** ** What the operations do *)

(** A patch that only adds or overwrites labels. *)
Definition label_patch (labels : option labelmap) (o : api_op) : Prop :=
  match o with
  | PatchEdgeDevice from new =>
      new = set_labels (Some (map_of labels ∪ map_of (device_labels from))) from
  | _ => False
  end.

(** The labels are in place: a patch went through, or a version of the device
    the program saw had them already. *)
Definition labels_applied (labels : option labelmap) (d : EdgeDevice) (tr : list api_event) : Prop :=
  (∃ from new d', Ev (S := api) (PatchEdgeDevice from new) (Ok d') ∈ tr) ∨
  (∃ seen, (seen = d ∨ ∃ ns n, Ev (S := api) (GetEdgeDevice ns n) (Ok seen) ∈ tr) ∧
           map_of labels ⊆ map_of (device_labels seen)).

Lemma labels_applied_mono labels d tr tr' :
  tr ⊆ tr' → labels_applied labels d tr → labels_applied labels d tr'.
Proof.
  unfold labels_applied. intros Hs.
  intros [(from & new & d' & H)|(seen & [H|(ns & n & H)] & Hl)]; [left; eauto 6|right..]; eauto 8.
Qed.

Lemma labels_applied_app_r labels d seen ns n tr tr' :
  Ev (S := api) (GetEdgeDevice ns n) (Ok seen) ∈ tr →
  labels_applied labels seen tr' → labels_applied labels d (tr ++ tr').
Proof.
  unfold labels_applied. setoid_rewrite elem_of_app. intros Hr.
  intros [(from & new & d' & H)|(x & [->|(ns' & n' & H)] & Hs)]; [left; eauto 6|right..]; eauto 8.
Qed.

Lemma updateLabels_wp d labels :
  wp (edgedevice.updateLabels d labels) (λ tr out,
    Forall (label_patch labels) (writes tr) ∧ length (writes tr) ≤ 1 ∧
    match out with
    | Returned (None, _) => labels_applied labels d tr
    | Returned (Some e, d') => d' = d ∧ ∃ new, tr = [Ev (S := api) (PatchEdgeDevice d new) (Err e)]
    | Crashed _ => False
    end).
Proof.
  unfold edgedevice.updateLabels. case_bool_decide as H; simpl.
  - go_simpl. split_and!; [constructor|simpl; lia|]. right. exists d. split; [by left|].
    rewrite H. simpl. apply map_union_subseteq_l.
  - intros [cp|e]; go_simpl.
    + split_and!; [by repeat constructor|lia|]. left. do 3 eexists. left.
    + split_and!; [by repeat constructor|lia|done|by eexists].
Qed.

Lemma retryLabels_wp todo name ns labels err d :
  wp (edgedevice.retryLabels todo name ns labels err) (λ tr out,
    Forall (label_patch labels) (writes tr) ∧ length (writes tr) ≤ length todo ∧
    match out with
    | Returned None => labels_applied labels d tr
    | Returned (Some e) => e = err
    | Crashed _ => False
    end).
Proof.
  induction todo as [|i todo IH]; simpl; [by go_simpl; split_and!; [constructor|simpl; lia|]|].
  intros [] [device2|e]; simpl.
  - apply wp_bind. eapply wp_mono; [apply updateLabels_wp|].
    intros tr [[[e|] d2]|c]; simpl; [| |by intros (_ & _ & [])].
    + intros (Hf & Hl & _ & _). eapply wp_mono; [apply IH|]. intros tr' out (Hf' & Hl' & Hout).
      go_simpl. rewrite length_app, Forall_app. split_and!; [done|done|lia|].
      destruct out as [[?|]|]; [done| |done].
      eapply labels_applied_mono; [|done]. intros ev Hev. simpl. set_solver.
    + intros (Hf & Hl & Ha).
      go_simpl. split_and!; [done|lia|].
      eapply (labels_applied_app_r _ _ device2 _ _ [_; _]); [right; left|done].
  - eapply wp_mono; [apply IH|]. intros tr' out (Hf' & Hl' & Hout).
    go_simpl. split_and!; [done|lia|].
    destruct out as [[?|]|]; [done| |done].
    eapply labels_applied_mono; [|done]. set_solver.
Qed.

(** A label update patches the device at most four times, and every patch it
    sends is the labels it was given laid over the labels of the version of the
    device it read; it reports success only when a patch was accepted or a
    version it saw had the labels already; the error it reports is always the
    error of the first patch, whatever the retries answered. *)
Lemma UpdateLabels_wp d labels :
  wp (edgedevice.UpdateLabels d labels) (λ tr out,
    Forall (label_patch labels) (writes tr) ∧ length (writes tr) ≤ 4 ∧
    match out with
    | Returned (None, _) => labels_applied labels d tr
    | Returned (Some e, _) =>
        ∃ new, head tr = Some (Ev (S := api) (PatchEdgeDevice d new) (Err e))
    | Crashed _ => False
    end).
Proof.
  unfold edgedevice.UpdateLabels. remember [1; 2; 3]%Z as todo eqn:Htodo. apply wp_bind. eapply wp_mono; [apply updateLabels_wp|].
  intros tr [[[e|] d']|c] (Hf & Hl & Hout); simpl; [| |done].
  - destruct Hout as (-> & new & ->). apply wp_bind. eapply wp_mono; [apply retryLabels_wp with (d := d)|].
    intros tr' [oe|c]; go_simpl; simpl in *; [|naive_solver].
    intros (Hf' & Hl' & Hr). subst todo; simpl in Hl'. split_and!; [|lia|].
    + inversion Hf; subst. by constructor.
    + destruct oe as [e'|]; [subst; by eexists|].
      eapply labels_applied_mono; [|done]. set_solver.
  - go_simpl. split_and!; [done|lia|done].
Qed.

(** The calls of a label update. *)
Definition label_op (o : api_op) : Prop :=
  match o with PatchEdgeDevice _ _ | GetEdgeDevice _ _ | Sleep _ => True | _ => False end.

Lemma updateLabels_within d labels : within label_op (edgedevice.updateLabels d labels).
Proof. unfold edgedevice.updateLabels. within_go. Qed.

Lemma retryLabels_within todo name ns labels err :
  within label_op (edgedevice.retryLabels todo name ns labels err).
Proof.
  induction todo as [|i todo IH]; simpl; [done|]. split; [done|]. intros _. split; [done|].
  intros [d|e]; [|done]. apply within_bind; [apply updateLabels_within|]. intros [[e|] ?]; simpl; done.
Qed.

(** ** What a client of the repositories may rely on *)
Class EdgeDeviceRepositoryLaws (R : EdgeDeviceRepository) : Prop := {
  Read_law name ns Q :
    (∀ r, Q [Ev (S := api) (GetEdgeDevice ns name) r] (Returned r)) → wp (edgedevice_Read name ns) Q;
  Patch_law old new Q :
    (∀ r, Q [Ev (S := api) (PatchEdgeDevice old new) r] (Returned r)) → wp (edgedevice_Patch old new) Q;
  PatchStatus_law device patch Q :
    (∀ r, Q [Ev (S := api) (PatchEdgeDeviceStatus patch device) r] (Returned r)) →
    wp (edgedevice_PatchStatus device patch) Q;
  UpdateLabels_law d labels :
    wp (edgedevice_UpdateLabels d labels) (λ tr out,
      Forall (label_patch labels) (writes tr) ∧ length (writes tr) ≤ 4 ∧
      match out with
      | Returned (None, _) => labels_applied labels d tr
      | Returned (Some e, _) =>
          ∃ new, head tr = Some (Ev (S := api) (PatchEdgeDevice d new) (Err e))
      | Crashed _ => False
      end);
  UpdateLabels_ops d labels : within label_op (edgedevice_UpdateLabels d labels);
  RemoveFinalizer_law d f Q :
    (∀ r d', Q [Ev (S := api) (PatchEdgeDevice d
                  (set_finalizers (without_finalizer f (Finalizers (EdgeDevice_Meta d))) d)) r]
               (Returned (None, d'))) →
    wp (edgedevice_RemoveFinalizer d f) Q;
  Create_law d Q :
    (∀ r, Q [Ev (S := api) (CreateEdgeDevice d) r] (Returned r)) → wp (edgedevice_Create d) Q;
  (** at most one list call, of the devices that match the selector *)
  ListForSelector_law sel ns Q :
    (∀ e, LabelSelectorAsSelector sel = Err e → Q [] (Returned (Err e))) →
    (∀ s r, LabelSelectorAsSelector sel = Ok s →
            Q [Ev (S := api) (ListEdgeDevices ns s) r] (Returned r)) →
    wp (edgedevice_ListForSelector sel ns) Q;
}.

Class EdgeDeploymentRepositoryLaws (R : EdgeDeploymentRepository) : Prop := {
  dep_Read_law name ns Q :
    (∀ r, Q [Ev (S := api) (GetEdgeDeployment ns name) r] (Returned r)) →
    wp (edgedeployment_Read name ns) Q;
  dep_Patch_law old new Q :
    (∀ r, Q [Ev (S := api) (PatchEdgeDeployment old new) r] (Returned r)) →
    wp (edgedeployment_Patch old new) Q;
  dep_RemoveFinalizer_law d f Q :
    (∀ r d', Q [Ev (S := api) (PatchEdgeDeployment d
                  (dep_set_finalizers (without_finalizer f (Finalizers (EdgeDeployment_Meta d))) d)) r]
               (Returned (None, d'))) →
    wp (edgedeployment_RemoveFinalizer d f) Q;
  ListByLabel_law name value Q :
    (∀ e, NewRequirement name OpEquals [value] = Err e → Q [] (Returned (Err e))) →
    (∀ req r, NewRequirement name OpEquals [value] = Ok req →
       Q [Ev (S := api) (ListEdgeDeployments None (InternalSelector [req])) r] (Returned r)) →
    wp (edgedeployment_ListByLabel name value) Q;
}.

#[export] Instance CRRepository_laws : EdgeDeviceRepositoryLaws CRRepository.
Proof.
  split; simpl; [auto..|apply UpdateLabels_wp| | |auto|].
  - intros d labels. apply within_bind; [apply updateLabels_within|]. intros [[e|] d']; [|done].
    apply within_bind; [apply retryLabels_within|]. done.
  - intros d f Q HQ [cp|e]; simpl; apply HQ.
  - intros sel ns Q He Hs. unfold edgedevice.ListForSelector.
    destruct (LabelSelectorAsSelector sel) as [s|e]; simpl; auto.
Qed.

#[export] Instance CRRespository_laws : EdgeDeploymentRepositoryLaws CRRespository.
Proof.
  split; simpl; [auto..| |].
  - intros d f Q HQ [cp|e]; simpl; apply HQ.
  - intros name value Q He Hs. unfold edgedeployment.ListByLabel.
    destruct (NewRequirement name OpEquals [value]) as [r|e]; simpl; auto.
Qed.

(** Removing a finalizer, of a device or of a deployment, sends exactly one patch,
    which drops that finalizer and keeps the others in order, and then reports
    success even when the patch was refused; in that case the object in memory
    is unchanged. *)
Theorem RemoveFinalizer_reports_success f :
  (∀ d, wp (edgedevice.RemoveFinalizer d f) (λ tr out, ∃ new r d',
     tr = [Ev (S := api) (PatchEdgeDevice d new) r] ∧ out = Returned (None, d') ∧
     new = set_finalizers (without_finalizer f (Finalizers (EdgeDevice_Meta d))) d ∧
     HasFinalizer (EdgeDevice_Meta new) f = false ∧
     (is_ok r = false → d' = d))) ∧
  (∀ d, wp (edgedeployment.RemoveFinalizer d f) (λ tr out, ∃ new r d',
     tr = [Ev (S := api) (PatchEdgeDeployment d new) r] ∧ out = Returned (None, d') ∧
     new = dep_set_finalizers (without_finalizer f (Finalizers (EdgeDeployment_Meta d))) d ∧
     HasFinalizer (EdgeDeployment_Meta new) f = false ∧
     (is_ok r = false → d' = d))).
Proof.
  split; intros d [cp|e]; simpl; do 3 eexists; (split_and!; [done..| |done]);
    apply has_without_finalizer.
Qed.
