(* ===== verification/Heartbeat.v ===== *)
(** * Heartbeats ([internal/heartbeat])

    The synchronous handler: a heartbeat is turned into events, a status patch
    and a label update, with up to four attempts. The handler is written
    against [EdgeDeviceRepository]. *)
From S2P Require Import Prelude Effects Interleave K8s Utils Models V1alpha1 Normalize Hardware Calls Server Repositories.
Import v1alpha1.

(** [Notification]; the heartbeat behind the pointer is always present. *)
Record Notification := mkNotification {
  DeviceID : string;
  notification_Namespace : string;
  notification_Heartbeat : models.Heartbeat;
  Retry : Z;
}.

Definition next_retry (n : Notification) : Notification :=
  mkNotification (DeviceID n) (notification_Namespace n) (notification_Heartbeat n) (Retry n + 1).

(** ** [updater.go] *)
Definition EventTypeNormal : string := "Normal".
Definition EventTypeWarning : string := "Warning".

Definition event_type (e : models.EventInfo) : string :=
  if String.eqb (models.EventInfo_Type e) models.EventInfoTypeWarn
  then EventTypeWarning else EventTypeNormal.

Fixpoint processEvents (edgeDevice : EdgeDevice) (events : list (option models.EventInfo)) : go unit :=
  match events with
  | [] => Ret ()
  | None :: events => processEvents edgeDevice events
  | Some event :: events =>
      _ ← ask (RecordEvent edgeDevice (event_type event)
                 (models.EventInfo_Reason event) (models.EventInfo_Message event));
      processEvents edgeDevice events
  end.

(** The loop over the reported workloads; a null workload is dereferenced. *)
Definition update_deployment (deploymentMap : gmap string Deployment)
    (status : option models.WorkloadStatus) : go (gmap string Deployment) :=
  match status with
  | None => Crash Panic
  | Some status =>
      match deploymentMap !! models.WorkloadStatus_Name status with
      | None => Ret deploymentMap
      | Some deployment =>
          deployment ←
            (if String.eqb (Deployment_Phase deployment) (models.WorkloadStatus_Status status)
             then Ret deployment
             else now ← ask Now;
                  Ret (mkDeployment (Deployment_Name deployment) (models.WorkloadStatus_Status status)
                         now (Deployment_LastDataUpload deployment)));
          Ret (<[models.WorkloadStatus_Name status :=
                 mkDeployment (Deployment_Name deployment) (Deployment_Phase deployment)
                   (Deployment_LastTransitionTime deployment)
                   (models.WorkloadStatus_LastDataUpload status)]> deploymentMap)
      end
  end.

Definition deployments_by_name (ds : list Deployment) : gmap string Deployment :=
  foldl (λ m d, <[Deployment_Name d := d]> m) ∅ ds.

Definition updateDeploymentStatuses (oldDeployments : list Deployment)
    (workloads : list (option models.WorkloadStatus)) : go (list Deployment) :=
  deploymentMap ← foldM update_deployment (deployments_by_name oldDeployments) workloads;
  entries ← permute (map_to_list deploymentMap);
  Ret (entries.*2).

Definition to_UpgradeInformation (u : models.UpgradeStatus) : UpgradeInformation :=
  mkUpgradeInformation (models.UpgradeStatus_CurrentCommitID u)
    (models.UpgradeStatus_LastUpgradeStatus u) (models.UpgradeStatus_LastUpgradeTime u).

Section handler.
Context {R : EdgeDeviceRepository} {U : UnicodeTables}.

Definition updateStatus (edgeDevice : EdgeDevice) (heartbeat : models.Heartbeat)
    : go (result EdgeDevice) :=
  now ← ask Now;
  hw ← match models.Heartbeat_Hardware heartbeat with
       | None => Ret (EdgeDeviceStatus_Hardware (EdgeDevice_Status edgeDevice))
       | Some _ => lift (MapHardware (models.Heartbeat_Hardware heartbeat))
       end;
  deployments ← updateDeploymentStatuses (device_deployments edgeDevice)
                  (models.Heartbeat_Workloads heartbeat);
  edgedevice_PatchStatus
    (set_status (mkEdgeDeviceStatus (models.Heartbeat_Status heartbeat) now
       (models.Heartbeat_Version heartbeat) hw deployments
       (EdgeDeviceStatus_DataOBC (EdgeDevice_Status edgeDevice))
       (to_UpgradeInformation <$> models.Heartbeat_Upgrade heartbeat)) edgeDevice)
    edgeDevice.

Definition updateLabels (edgeDevice : EdgeDevice) (heartbeat : models.Heartbeat)
    : go (option error * EdgeDevice) :=
  edgedevice_UpdateLabels edgeDevice (MapLabels (models.Heartbeat_Hardware heartbeat)).

(** ** [synchronous-handler.go] *)
Definition process (notification : Notification) : go (option error * bool) :=
  let heartbeat := notification_Heartbeat notification in
  r ← edgedevice_Read (DeviceID notification) (notification_Namespace notification);
  match r with
  | Err err => Ret (Some err, negb (IsNotFound err))
  | Ok edgeDevice =>
      _ ← (if (Retry notification =? 0)%Z
           then processEvents edgeDevice (models.Heartbeat_Events heartbeat) else Ret ());
      r ← updateStatus edgeDevice heartbeat;
      match r with
      | Err err => Ret (Some err, true)
      | Ok edgeDevice =>
          r ← updateLabels edgeDevice heartbeat;
          match r.1 with
          | Some err => Ret (Some err, true)
          | None => Ret (None, false)
          end
      end
  end.

(** The iterations left of the loop [for i := 1; i < 5; i++]. *)
Fixpoint attempts (todo : list Z) (err : option error) (notification : Notification)
    : go (option error) :=
  match todo with
  | [] => Ret err
  | i :: todo =>
      r ← process notification;
      match r with
      | (None, _) => Ret None
      | (Some err, false) => Ret (Some err)
      | (Some err, true) =>
          _ ← ask (Sleep (i * 50));
          attempts todo (Some err) (next_retry notification)
      end
  end.

Definition Process (notification : Notification) : go (option error) :=
  attempts [1; 2; 3; 4]%Z None notification.
End handler.

(** ** Deployment statuses *)

(** The reports on the deployment [n], in the order of the message. *)
Definition reports (n : string) (ws : list (option models.WorkloadStatus))
    : list models.WorkloadStatus :=
  filter (λ w, models.WorkloadStatus_Name w = n) (omap id ws).

(** [d'] is [d] after the reports [ws]. *)
Record follows (d : Deployment) (ws : list models.WorkloadStatus) (tr : list api_event)
    (d' : Deployment) : Prop := {
  follows_name : Deployment_Name d' = Deployment_Name d;
  follows_phase : Deployment_Phase d' =
    default (Deployment_Phase d) (models.WorkloadStatus_Status <$> last ws);
  follows_upload : Deployment_LastDataUpload d' =
    default (Deployment_LastDataUpload d) (models.WorkloadStatus_LastDataUpload <$> last ws);
  follows_steady : Forall (λ w, models.WorkloadStatus_Status w = Deployment_Phase d) ws →
    Deployment_LastTransitionTime d' = Deployment_LastTransitionTime d;
  follows_moved : ¬ Forall (λ w, models.WorkloadStatus_Status w = Deployment_Phase d) ws →
    Ev (S := api) Now (Deployment_LastTransitionTime d') ∈ tr;
}.

Lemma follows_refl d tr : follows d [] tr d.
Proof. split; simpl; [done..|]. intros []. constructor. Qed.

Lemma follows_mono d ws tr tr' d' : tr ⊆ tr' → follows d ws tr d' → follows d ws tr' d'.
Proof. intros Hs [????]; split; eauto. Qed.

Lemma follows_same d ws tr d' w :
  follows d ws tr d' → Deployment_Phase d' = models.WorkloadStatus_Status w →
  follows d (ws ++ [w]) tr
    (mkDeployment (Deployment_Name d') (Deployment_Phase d') (Deployment_LastTransitionTime d')
       (models.WorkloadStatus_LastDataUpload w)).
Proof.
  intros [Hn Hp Hu Hs Hm] Hw. split; simpl; rewrite ?last_snoc; simpl; [done..| |].
  - intros [Hf _]%Forall_app. auto.
  - intros Hf. apply Hm. intros Hf'. apply Hf. apply Forall_app_2; [done|]. constructor; [|done].
    rewrite <- Hw, Hp. destruct (last ws) as [w'|] eqn:E; simpl; [|done].
    apply last_Some_elem_of in E. rewrite Forall_forall in Hf'. by apply Hf'.
Qed.

Lemma follows_changed d ws tr d' w now :
  follows d ws tr d' → Deployment_Phase d' ≠ models.WorkloadStatus_Status w →
  follows d (ws ++ [w]) (tr ++ [Ev (S := api) Now now])
    (mkDeployment (Deployment_Name d') (models.WorkloadStatus_Status w) now
       (models.WorkloadStatus_LastDataUpload w)).
Proof.
  intros [Hn Hp Hu Hs Hm] Hw. split; simpl; rewrite ?last_snoc; simpl; [done..| |].
  - intros [Hf Hf']%Forall_app. inversion Hf' as [|?? Heq]; subst. destruct Hw.
    rewrite Hp, Heq. destruct (last ws) as [w'|] eqn:E; simpl; [|done].
    apply last_Some_elem_of in E. rewrite Forall_forall in Hf. by apply Hf.
  - intros _. apply elem_of_app. right. left.
Qed.

Lemma deployments_by_name_lookup old n d :
  NoDup (Deployment_Name <$> old) →
  deployments_by_name old !! n = Some d ↔ d ∈ old ∧ Deployment_Name d = n.
Proof.
  unfold deployments_by_name.
  induction old as [|x old IH] using rev_ind; csimpl.
  { intros _. rewrite lookup_empty, elem_of_nil. naive_solver. }
  rewrite fmap_app, NoDup_app. intros (Hd & Hx & _). rewrite foldl_app. simpl.
  rewrite elem_of_app, list_elem_of_singleton, lookup_insert_Some, IH by done.
  split; [naive_solver|]. intros [[Hin| ->] Hn]; [|naive_solver]. right. split; [|done].
  intros Hxn. apply (Hx (Deployment_Name d)); [|rewrite Hn, <- Hxn; left].
  by apply list_elem_of_fmap_2.
Qed.

Lemma reports_app n ws ws' : reports n (ws ++ ws') = reports n ws ++ reports n ws'.
Proof. unfold reports. by rewrite omap_app, filter_app. Qed.

Definition updated (m0 : gmap string Deployment) (ws : list (option models.WorkloadStatus))
    (m : gmap string Deployment) (tr : list api_event) : Prop :=
  ∀ n, option_Forall2 (λ d d', follows d (reports n ws) tr d') (m0 !! n) (m !! n).

Lemma update_deployment_step m0 dn m tr w :
  updated m0 dn m tr →
  wp (update_deployment m (Some w)) (λ tr' out,
    match out with
    | Returned m' => updated m0 (dn ++ [Some w]) m' (tr ++ tr')
    | Crashed _ => False
    end).
Proof.
  intros HI. set (n := models.WorkloadStatus_Name w).
  assert (Hother : ∀ tr' n', n' ≠ n → option_Forall2 (λ d d',
      follows d (reports n' (dn ++ [Some w])) (tr ++ tr') d') (m0 !! n') (m !! n')).
  { intros tr' n' Hn'. rewrite reports_app. unfold reports at 2; simpl. rewrite filter_cons_False by done.
    simpl. rewrite app_nil_r. destruct (HI n') as [d d' Hd|]; constructor.
    eapply follows_mono; [|done]. set_solver. }
  assert (Hsame : reports n (dn ++ [Some w]) = reports n dn ++ [w]).
  { rewrite reports_app. unfold reports at 2; simpl. by rewrite filter_cons_True. }
  unfold update_deployment. fold n. pose proof (HI n) as Hn.
  destruct (m !! n) as [d'|] eqn:Em.
  - destruct (m0 !! n) as [d|] eqn:Em0; [|by inversion Hn]. inversion Hn as [?? Hd|]; subst.
    destruct (String.eqb_spec (Deployment_Phase d') (models.WorkloadStatus_Status w)) as [Hp|Hp]; simpl;
      [|intros now]; intros n'; destruct (decide (n' = n)) as [->|Hn'];
      rewrite ?lookup_insert_eq, ?lookup_insert_ne by done; try (by apply Hother);
      rewrite Em0, Hsame; constructor; rewrite ?app_nil_r.
    + by apply follows_same.
    + by apply follows_changed.
  - simpl. intros n'. destruct (decide (n' = n)) as [->|Hn']; [|by apply Hother].
    rewrite Em. inversion Hn. constructor.
Qed.

Lemma update_deployment_live m w :
  wp (update_deployment m (Some w)) (λ _ out, is_returned out = true).
Proof. unfold update_deployment. destruct (_ !! _); [|done]. by destruct (String.eqb _ _). Qed.

Lemma updateDeploymentStatuses_wp old ws :
  NoDup (Deployment_Name <$> old) → None ∉ ws →
  wp (updateDeploymentStatuses old ws) (λ tr out, ∃ new new',
    out = Returned new ∧ new ≡ₚ new' ∧
    Forall2 (λ d d', follows d (reports (Deployment_Name d) ws) tr d') old new').
Proof.
  intros Hnd Hws. unfold updateDeploymentStatuses. apply wp_bind.
  eapply wp_mono; [apply (wp_foldM _ (updated (deployments_by_name old)) (λ _ _, False))|].
  - intros n. destruct (_ !! n); constructor. apply follows_refl.
  - intros dn [w|] todo m tr Hw HI; [|subst; destruct Hws; set_solver].
    eapply wp_mono; [by apply update_deployment_step|]. by intros tr' [].
  - intros tr [m|]; [|done]. intros HI. apply wp_bind, wp_permute. intros l Hl. simpl.
    rewrite app_nil_r. exists l.*2, ((λ d, default d (m !! Deployment_Name d)) <$> old).
    assert (Hlook : ∀ d, d ∈ old →
      ∃ d', m !! Deployment_Name d = Some d' ∧ follows d (reports (Deployment_Name d) ws) tr d').
    { intros d Hd. pose proof (HI (Deployment_Name d)) as Hn.
      rewrite (proj2 (deployments_by_name_lookup old _ d Hnd)) in Hn by done.
      inversion Hn; subst; eauto. }
    split_and!; [done| |].
    + rewrite Hl. apply (map_values_perm Deployment_Name); [done|]. intros n d'. split.
      * intros Hm. pose proof (HI n) as Hn. rewrite Hm in Hn. inversion Hn as [d ? Hf Hd Hd'|]; subst.
        symmetry in Hd. apply deployments_by_name_lookup in Hd as [Hd <-]; [|done].
        exists d. by rewrite Hm.
      * intros (d & Hd & <- & <-). destruct (Hlook d Hd) as (d' & E & _). by rewrite E.
    + apply Forall2_fmap_r, Forall_Forall2_diag, Forall_forall. intros d Hd.
      destruct (Hlook d Hd) as (d' & E & Hf). simpl. rewrite E. by eapply follows_mono.
Qed.

Lemma updateDeploymentStatuses_null old ws :
  None ∈ ws → wp (updateDeploymentStatuses old ws) (λ tr out, out = Crashed Panic).
Proof.
  intros Hws. unfold updateDeploymentStatuses. apply wp_bind.
  assert (∀ m, wp (foldM update_deployment m ws) (λ _ out, out = Crashed Panic)) as Hall.
  { revert Hws. induction ws as [|[w|] ws IH]; intros Hws m; simpl; [set_solver| |done].
    apply wp_bind. eapply wp_mono; [apply update_deployment_live|]. intros tr [m'|]; [|done].
    intros _. eapply wp_mono; [apply IH; set_solver|]. done. }
  eapply wp_mono; [apply Hall|]. by intros tr [] [=->].
Qed.

(** The statuses of a device's deployments after a heartbeat. The device keeps
    exactly its deployments, in some order, and reports about others are
    ignored; each takes the phase and the time of the last upload of the last
    report about it; its transition time stays when no report tells another
    phase, and is otherwise a reading of the clock made on the way. A null entry
    among the reports makes the handler panic, and nothing else does. *)
Theorem updateDeploymentStatuses_spec old ws :
  NoDup (Deployment_Name <$> old) →
  wp (updateDeploymentStatuses old ws) (λ tr out,
    (None ∈ ws ∧ out = Crashed Panic) ∨
    ((None ∉ ws) ∧ ∃ new new', out = Returned new ∧ new ≡ₚ new' ∧
       Forall2 (λ d d', follows d (reports (Deployment_Name d) ws) tr d') old new')).
Proof.
  intros Hnd. destruct (decide (Exists (λ w, is_nil w = true) ws)) as [H|H].
  - eapply wp_mono; [apply updateDeploymentStatuses_null|intros tr out ->; left; split; [|done]];
      apply Exists_exists in H as ([w|] & Hw & [=]); done.
  - assert (None ∉ ws) as Hn by (intros Hin; apply H, Exists_exists; by exists None).
    eapply wp_mono; [by apply updateDeploymentStatuses_wp|]. intros tr out Ho. by right.
Qed.

(** ** The handler *)

(** The events the operator records for the events of a heartbeat. *)
Definition event_records (d : EdgeDevice) (events : list (option models.EventInfo)) : list api_op :=
  (λ e, RecordEvent d (event_type e) (models.EventInfo_Reason e) (models.EventInfo_Message e))
    <$> omap id events.

(** A heartbeat with a null disk or a null workload. *)
Definition malformed (h : models.Heartbeat) : Prop :=
  None ∈ models.Heartbeat_Workloads h ∨
  ∃ hw, models.Heartbeat_Hardware h = Some hw ∧ None ∈ models.HardwareInfo_Disks hw.

Lemma processEvents_wp d events Q :
  (∀ tr, ev_op <$> tr = event_records d events → Q tr (Returned ())) →
  wp (processEvents d events) Q.
Proof.
  revert Q; induction events as [|[e|] events IH]; simpl; intros Q HQ; [by apply HQ| |by apply IH].
  intros []. apply IH. intros tr Htr. apply HQ. unfold event_records in *. csimpl. f_equal. exact Htr.
Qed.

Lemma calls_event_records d events tr :
  ev_op <$> tr = event_records d events →
  calls is_record tr = event_records d events ∧ calls is_status_patch tr = [].
Proof.
  intros Htr. rewrite <- Htr. unfold event_records in Htr. revert tr Htr.
  induction (omap id events) as [|e es IH]; intros [|[o a] tr]; csimpl; try done.
  intros [= -> Htr]. apply IH in Htr as [IH1 IH2].
  go_simpl. by rewrite IH1, IH2.
Qed.

Lemma update_deployment_within P m w : P Now → within P (update_deployment m w).
Proof. intros HP. unfold update_deployment. within_go. Qed.

Lemma updateDeploymentStatuses_within P old ws : P Now → within P (updateDeploymentStatuses old ws).
Proof.
  intros HP. apply within_bind.
  - apply within_foldM. intros. by apply update_deployment_within.
  - intros m. apply within_bind; [apply within_permute|done].
Qed.

Lemma updateDeploymentStatuses_crash old ws :
  wp (updateDeploymentStatuses old ws) (λ tr out, is_returned out = false → None ∈ ws).
Proof.
  unfold updateDeploymentStatuses. apply wp_bind.
  eapply wp_mono; [apply (wp_foldM _ (λ _ _ _, True) (λ _ _, None ∈ ws))|]; [done| |].
  - intros dn [w|] todo m tr -> _; [|simpl; set_solver].
    eapply wp_mono; [apply update_deployment_live|]. by intros tr' [].
  - intros tr [m|c]; [|done]. intros _. apply wp_bind, wp_permute. done.
Qed.

Section handler_theorems.
Context {R : EdgeDeviceRepository} {L : EdgeDeviceRepositoryLaws R} {U : UnicodeTables}.

Lemma updateStatus_wp d h :
  wp (updateStatus d h) (λ tr out,
    calls is_record tr = [] ∧
    match out with
    | Returned r => ∃ new tr', tr = tr' ++ [Ev (S := api) (PatchEdgeDeviceStatus d new) r] ∧
                    calls is_status_patch tr' = []
    | Crashed _ => malformed h ∧ calls is_status_patch tr = []
    end).
Proof.
  unfold updateStatus. simpl. intros now. apply wp_bind.
  assert (Hhw : wp (S := api) (match models.Heartbeat_Hardware h with
    | Some _ => lift (MapHardware (models.Heartbeat_Hardware h))
    | None => Ret (EdgeDeviceStatus_Hardware (EdgeDevice_Status d)) end)
    (λ tr out, tr = [] ∧ (is_returned out = false → malformed h))).
  { destruct (models.Heartbeat_Hardware h) as [hw|] eqn:E; simpl; [|done].
    destruct (deref_map _ _) eqn:Ed; simpl; [done|]. split; [done|]. intros _.
    apply deref_map_NilDeref in Ed as ([dk|] & Hin & Hd); [done|]. right. eauto. }
  eapply wp_mono; [apply Hhw|]. intros tr [hw|c] [-> Hcr]; go_simpl; [|by auto].
  apply wp_bind. eapply wp_mono.
  { eapply (wp_calls_none is_record); [by apply updateDeploymentStatuses_within|].
    eapply (wp_calls_none is_status_patch); [by apply updateDeploymentStatuses_within|].
    apply updateDeploymentStatuses_crash. }
  intros tr [ds|c] (Hr & Hs & Hc); go_simpl.
  - apply PatchStatus_law. intros r. go_simpl. rewrite Hr. split; [done|].
    do 2 eexists. split; [by rewrite app_comm_cons|]. go_simpl. by rewrite Hs.
  - rewrite Hr, Hs. split_and!; [done| |done]. left. by apply Hc.
Qed.

Lemma label_op_quiet o : label_op o → is_record o = false ∧ is_status_patch o = false.
Proof. by destruct o. Qed.

(** One attempt. *)
Definition attempt_ok (n : Notification) (tr : list api_event)
    (out : outcome (option error * bool)) : Prop :=
  ∃ r tr', tr = Ev (S := api) (GetEdgeDevice (notification_Namespace n) (DeviceID n)) r :: tr' ∧
    calls is_record tr' =
      (match r with
       | Ok d => if (Retry n =? 0)%Z
                 then event_records d (models.Heartbeat_Events (notification_Heartbeat n)) else []
       | Err _ => []
       end) ∧
    length (calls is_status_patch tr') ≤ 1 ∧
    match out with
    | Returned (None, _) =>
        ∃ from new d, Ev (S := api) (PatchEdgeDeviceStatus from new) (Ok d) ∈ tr'
    | Returned (Some e, retry) => retry = true ∨ tr' = [] ∧ r = Err e ∧ IsNotFound e = true
    | Crashed _ => malformed (notification_Heartbeat n)
    end.

#[local] Opaque updateStatus.

Lemma process_wp n : wp (process n) (attempt_ok n).
Proof.
  unfold process. apply wp_bind, Read_law. intros [d|e]; simpl.
  2:{ do 2 eexists. split; [done|]. go_simpl. split_and!; [done|lia|].
      destruct (IsNotFound e); [by right|by left]. }
  apply wp_bind. eapply wp_mono with (Q := λ tr out, out = Returned () ∧
    calls is_status_patch tr = [] ∧ calls is_record tr =
      if (Retry n =? 0)%Z then event_records d (models.Heartbeat_Events (notification_Heartbeat n)) else []).
  { destruct (Retry n =? 0)%Z; [|done]. apply processEvents_wp. intros tr Htr.
    by apply calls_event_records in Htr as [-> ->]. }
  intros tr out (-> & Hs & Hr); simpl. apply wp_bind. eapply wp_mono; [apply updateStatus_wp|].
  intros tr' [r|c] [Hr' Hout]; simpl.
  2:{ destruct Hout as [Hm Hs']. do 2 eexists. split; [done|]. go_simpl.
      rewrite Hr, Hr', Hs, Hs'. go_simpl. split_and!; [done|lia|done]. }
  destruct Hout as (new & tr1 & -> & Hs').
  assert (calls is_record tr1 = []) as Hr1 by (revert Hr'; go_simpl; done).
  destruct r as [d'|e]; simpl.
  2:{ do 2 eexists. split; [done|]. go_simpl. rewrite Hr, Hr1, Hs, Hs'. go_simpl.
      split_and!; [done|lia|by left]. }
  unfold updateLabels. apply wp_bind. eapply wp_mono.
  { eapply (wp_calls_none is_record);
      [eapply within_mono, UpdateLabels_ops; intros o Ho; by apply label_op_quiet|].
    eapply (wp_calls_none is_status_patch);
      [eapply within_mono, UpdateLabels_ops; intros o Ho; by apply label_op_quiet|].
    apply UpdateLabels_law. }
  intros tr2 [[oe d2]|c] (Hr2 & Hs2 & _ & _ & Hout); simpl; [|done].
  destruct oe as [e|]; simpl; (do 2 eexists; split; [done|]); go_simpl;
    rewrite Hr, Hr1, Hs, Hs', Hr2, Hs2; go_simpl; (split_and!; [done|lia|]); [by left|].
  do 3 eexists. rewrite !elem_of_app. right; left; right. left.
Qed.

Lemma attempts_quiet todo err n :
  (0 < Retry n)%Z →
  wp (attempts todo err n) (λ tr out, calls is_record tr = []).
Proof.
  revert err n; induction todo as [|i todo IH]; intros err n Hn; simpl; [done|].
  apply wp_bind. eapply wp_mono; [apply process_wp|].
  intros tr out (r & tr' & -> & Hr & _). replace (Retry n =? 0)%Z with false in Hr by lia.
  assert (calls is_record tr' = []) as Hq by (by destruct r).
  destruct out as [[[e|] []]|c]; go_simpl; rewrite ?Hq; simpl; try done.
  intros []. eapply wp_mono; [apply IH; simpl; lia|].
  intros tr'' out Ht. go_simpl. by rewrite Hq, Ht.
Qed.

Lemma attempts_wp todo err n :
  wp (attempts todo err n) (λ tr out,
    length (calls is_status_patch tr) ≤ length todo ∧
    match out with
    | Returned None => err = None ∧ todo = [] ∨
        ∃ from new d, Ev (S := api) (PatchEdgeDeviceStatus from new) (Ok d) ∈ tr
    | Returned (Some e) => (todo = [] ∧ tr = []) ∨
        (∃ i, last todo = Some i ∧ last tr = Some (Ev (S := api) (Sleep (i * 50)) ())) ∨
        IsNotFound e = true ∧ last tr = Some
          (Ev (S := api) (GetEdgeDevice (notification_Namespace n) (DeviceID n)) (Err e))
    | Crashed _ => malformed (notification_Heartbeat n)
    end).
Proof.
  revert err n; induction todo as [|i todo IH]; intros err n; simpl.
  { go_simpl. split; [lia|]. destruct err; auto. }
  apply wp_bind. eapply wp_mono; [apply process_wp|].
  intros tr out (r & tr' & -> & _ & Hl & Hout).
  destruct out as [[[e|] []]|c]; go_simpl; try (split; [lia|]).
  - intros []. eapply wp_mono; [apply IH|]. intros tr'' out [Hl' Hout']. go_simpl.
    rewrite length_app. split; [lia|]. destruct out as [[e'|]|c]; [..|done].
    + rewrite app_comm_cons, last_app, !last_cons. right.
      destruct Hout' as [[-> ->]|[(j & Hj & Ht)|[He Ht]]].
      * left. by exists i.
      * left. exists j. by rewrite Hj, Ht.
      * right. by rewrite Ht.
    + right. destruct Hout' as [[? _]|(from & new & d & H)]; [done|].
      exists from, new, d. rewrite elem_of_cons, elem_of_app, elem_of_cons. auto.
  - destruct Hout as [?|(-> & -> & ?)]; [done|]. auto.
  - right. destruct Hout as (from & new & d & H). exists from, new, d. by right.
  - right. destruct Hout as (from & new & d & H). exists from, new, d. by right.
  - done.
Qed.

Lemma Process_wp n :
  wp (Process n) (λ tr out,
    length (calls is_status_patch tr) ≤ 4 ∧
    match out with
    | Returned None => ∃ from new d, Ev (S := api) (PatchEdgeDeviceStatus from new) (Ok d) ∈ tr
    | Returned (Some e) =>
        last tr = Some (Ev (S := api) (Sleep 200) ()) ∨
        IsNotFound e = true ∧ last tr = Some
          (Ev (S := api) (GetEdgeDevice (notification_Namespace n) (DeviceID n)) (Err e))
    | Crashed _ => malformed (notification_Heartbeat n)
    end).
Proof.
  eapply wp_mono; [apply attempts_wp|]. intros tr [[e|]|c] [Hl Hout]; (split; [done|]).
  - destruct Hout as [[? _]|[(i & [= <-] & Ht)|?]]; [done|auto..].
  - by destruct Hout as [[_ ?]|?].
  - done.
Qed.

Lemma Process_events n :
  Retry n = 0%Z →
  wp (Process n) (λ tr out, ∃ r tr',
    tr = Ev (S := api) (GetEdgeDevice (notification_Namespace n) (DeviceID n)) r :: tr' ∧
    calls is_record tr =
      match r with
      | Ok d => event_records d (models.Heartbeat_Events (notification_Heartbeat n))
      | Err _ => []
      end).
Proof.
  intros Hn. unfold Process. generalize [2; 3; 4]%Z as todo. intros todo. simpl. apply wp_bind. eapply wp_mono; [apply process_wp|].
  intros tr out (r & tr' & -> & Hr & _). rewrite Hn in Hr. simpl in Hr.
  destruct out as [[[e|] []]|c]; [|by exists r, tr'; go_simpl..].
  simpl. intros []. eapply wp_mono; [apply attempts_quiet; simpl; lia|].
  intros tr'' out Ht. exists r. eexists. split; [done|]. go_simpl. by rewrite Hr, Ht, app_nil_r.
Qed.
(** The processing of a heartbeat. It patches the status of the device at most four
    times and succeeds only when a patch was accepted; it gives up after the
    last attempt's pause, or at once when the server says that the device does
    not exist; it panics only on a heartbeat with a null workload or a null
    disk. The events of a notification that was not retried yet are recorded
    once, in their order, and only if the very first read of the device
    succeeds: retries never record events. *)
Theorem Process_spec n :
  wp (Process n) (λ tr out,
    (length (calls is_status_patch tr) ≤ 4 ∧
     match out with
     | Returned None => ∃ from new d, Ev (S := api) (PatchEdgeDeviceStatus from new) (Ok d) ∈ tr
     | Returned (Some e) =>
         last tr = Some (Ev (S := api) (Sleep 200) ()) ∨
         IsNotFound e = true ∧ last tr = Some
           (Ev (S := api) (GetEdgeDevice (notification_Namespace n) (DeviceID n)) (Err e))
     | Crashed _ => malformed (notification_Heartbeat n)
     end) ∧
    (Retry n = 0%Z → ∃ r tr',
       tr = Ev (S := api) (GetEdgeDevice (notification_Namespace n) (DeviceID n)) r :: tr' ∧
       calls is_record tr =
         match r with
         | Ok d => event_records d (models.Heartbeat_Events (notification_Heartbeat n))
         | Err _ => []
         end)).
Proof.
  apply wp_and; [apply Process_wp|]. destruct (decide (Retry n = 0%Z)) as [H|H].
  - eapply wp_mono; [by apply Process_events|]. by intros tr out.
  - eapply wp_mono; [apply Process_wp|]. by intros tr out _ ?.
Qed.
End handler_theorems.

(** ** Examples *)
Definition some_heartbeat : models.Heartbeat :=
  models.mkHeartbeat [Some (models.mkEventInfo "pulled" "Image" "info")] None "up" None "1"
    [Some (models.mkWorkloadStatus 5 "d" "Running")].
Definition deployed : EdgeDevice :=
  set_deployments [mkDeployment "d" "Deploying" 0 0] (some_device "dev" "ns" ∅).

Lemma updateDeploymentStatuses_spec_witness :
  outcome_of (updateDeploymentStatuses [mkDeployment "d" "Deploying" 0 0]
      [Some (models.mkWorkloadStatus 5 "d" "Running"); Some (models.mkWorkloadStatus 6 "other" "Running")])
    empty_cluster = Returned [mkDeployment "d" "Running" 0 5] ∧
  wp (updateDeploymentStatuses [mkDeployment "d" "Deploying" 0 0] [None]) (λ tr out, out = Crashed Panic).
Proof.
  split; [vm_compute; reflexivity|].
  eapply wp_mono; [apply (updateDeploymentStatuses_spec [mkDeployment "d" "Deploying" 0 0] [None])|].
  - repeat constructor. by intros ?%elem_of_nil.
  - intros tr out [[_ ->]|[Hn _]]; [done|]. destruct Hn. left.
Defined.

Lemma Process_spec_witness :
  outcome_of (@Process CRRepository latin1_tables (mkNotification "dev" "ns" some_heartbeat 0))
    (put_device deployed empty_cluster) = Returned None ∧
  wp (@Process CRRepository latin1_tables (mkNotification "dev" "ns" some_heartbeat 0))
     (λ tr out, length (calls is_status_patch tr) ≤ 4 ∧ is_returned out = true).
Proof.
  split; [vm_compute; reflexivity|].
  eapply wp_mono; [apply (Process_spec (mkNotification "dev" "ns" some_heartbeat 0))|].
  intros tr [r|c] [[Hl H] _]; [done|]. exfalso. destruct H as [H|(hw & [=] & _)].
  by apply list_elem_of_singleton in H.
Defined.
