(* ===== verification/Fmt.v ===== *)
(** * [fmt.Errorf(message)]: formatting without operands

    Some callers pass a message as the format string. Every verb in it is then
    rendered as an error marker; this is [doPrintf] of Go's package [fmt] for an
    empty list of operands. *)
From S2P Require Import Prelude Labels Normalize.
From Stdlib Require Import Ascii.

Definition text : Type := list ascii.
Definition txt (s : string) : text := String.list_ascii_of_string s.

(** [parsenum]: the rest after the digits; a number beyond 10^6 with one more
    digit is given up together with everything that follows. *)
Fixpoint parsenum (num : Z) (isnum : bool) (s : text) : Z * bool * text :=
  match s with
  | c :: s' =>
      if is_digit c then
        if (1000000 <? num)%Z then (0%Z, false, [])
        else parsenum (num * 10 + (byte_of c - 48)) true s'
      else (num, isnum, s)
  | [] => (num, isnum, [])
  end.

(** Everything before the first [c] and everything after it. *)
Fixpoint cut (c : ascii) (s : text) : option (text * text) :=
  match s with
  | [] => None
  | c' :: s =>
      if Ascii.eqb c' c then Some ([], s)
      else match cut c s with Some (a, b) => Some (c' :: a, b) | None => None end
  end.

(** [argNumber] with no operands: (rest, found, the index is good). *)
Definition argNumber (s : text) : text * bool * bool :=
  match s with
  | "["%char :: s' =>
      if Nat.ltb (length s) 3 then (s', false, false) else
      match cut "]" s' with
      | None => (s', false, false)
      | Some (inner, rest) =>
          let '(_, isnum, after) := parsenum 0 false inner in
          (rest, isnum && match after with [] => true | _ => false end, false)
      end
  | _ => (s, false, true)
  end.

Fixpoint skip_flags (s : text) : text :=
  match s with
  | c :: s' =>
      if existsb (Ascii.eqb c) ["#"; "0"; "+"; "-"; " "]%char then skip_flags s' else s
  | [] => []
  end.

(** A verb: its text as printed, and the rest. *)
Definition take_verb (s : text) : text * text :=
  let rune_of n := Nat.eqb (length (decode (byte_of <$> take n s))) 1 in
  match s with
  | [] => ([], [])
  | c :: s' =>
      if (byte_of c <? 128)%Z then ([c], s')
      else match filter (λ n, Nat.leb n (length s) && rune_of n = true) [4; 3; 2] with
           | n :: _ => (take n s, drop n s)
           | [] => (ascii_of_nat <$> [239; 191; 189], s')
           end
  end.

(** One directive, the text after its [%]: (output, rest). *)
Definition directive (s : text) : text * text :=
  let s := skip_flags s in
  let '(s, afterIndex, good) := argNumber s in
  let '(out, s, afterIndex, good) :=
    match s with
    | "*"%char :: s => (txt "%!(BADWIDTH)", s, false, good)
    | _ => let '(_, widPresent, s) := parsenum 0 false s in
           ([], s, afterIndex, good && negb (afterIndex && widPresent))
    end in
  let '(out, s, afterIndex, good) :=
    match s with
    | "."%char :: s =>
        let good := good && negb afterIndex in
        let '(s, afterIndex, good') := argNumber s in
        match s with
        | "*"%char :: s => (out ++ txt "%!(BADPREC)", s, false, good && good')
        | _ => let '(_, _, s) := parsenum 0 false s in (out, s, afterIndex, good && good')
        end
    | _ => (out, s, afterIndex, good)
    end in
  let '(s, good) :=
    if afterIndex then (s, good)
    else let '(s, _, good') := argNumber s in (s, good && good') in
  match s with
  | [] => (out ++ txt "%!(NOVERB)", [])
  | _ =>
      let '(verb, s) := take_verb s in
      if decide (verb = ["%"%char]) then (out ++ ["%"%char], s)
      else if good then (out ++ txt "%!" ++ verb ++ txt "(MISSING)", s)
      else (out ++ txt "%!" ++ verb ++ txt "(BADINDEX)", s)
  end.

Fixpoint doPrintf (fuel : nat) (s : text) : text :=
  match fuel with
  | 0 => []
  | S fuel =>
      match s with
      | [] => []
      | "%"%char :: s => let '(out, s) := directive s in out ++ doPrintf fuel s
      | c :: s => c :: doPrintf fuel s
      end
  end.

(** [fmt.Errorf(message).Error()]: every step consumes a character. *)
Definition Errorf (message : string) : string :=
  String.string_of_list_ascii (doPrintf (length (txt message)) (txt message)).

Lemma doPrintf_plain n s : length s <= n → ("%"%char ∉ s) → doPrintf n s = s.
Proof.
  revert s; induction n as [|n IH]; intros [|c s]; simpl; intros Hl Hs; [done|lia|done|].
  rewrite not_elem_of_cons in Hs. destruct Hs as [Hc Hs]. rewrite IH by (auto; lia).
  destruct c as [[] [] [] [] [] [] [] []]; congruence.
Qed.

(** A message without a percent sign is kept. *)
Lemma Errorf_plain s : ("%"%char ∉ chars s) → Errorf s = s.
Proof.
  intros Hs. unfold Errorf. rewrite doPrintf_plain; [|done|exact Hs].
  apply String.string_of_list_ascii_of_string.
Qed.

Example Errorf_verbs :
  (Errorf "100% of %d, %5.2f, %[1]d, 50%%, %" =
   "100%!o(MISSING)f %!d(MISSING), %!f(MISSING), %!d(BADINDEX), 50%, %!(NOVERB)")%string.
Proof. vm_compute. reflexivity. Qed.
