(* ===== verification/Concurrent.v ===== *)
(** * Concurrent execution over the devices of a deployment

    [splitEdgeDevices], [ExecuteConcurrent] and the helpers [merge] and
    [mergeErrorMessages] of [controllers/edgedeployment_controller.go]. The
    goroutines are interleaved by [par]. *)
From S2P Require Import Prelude Effects Interleave K8s V1alpha1 Calls Fmt.
Import v1alpha1.

(** ** Splitting *)

(** [int(x)] of a 64-bit unsigned integer. *)
Definition to_int (x : Z) : Z :=
  let y := (x mod 2 ^ 64)%Z in if (y <? 2 ^ 63)%Z then y else (y - 2 ^ 64)%Z.

Section split.
Context {A : Type}.

(** [s[low : high]]; bounds outside the slice panic. *)
Definition slice (s : list A) (low high : Z) : deref (list A) :=
  if ((0 <=? low) && (low <=? high) && (high <=? Z.of_nat (length s)))%Z
  then Val (take (Z.to_nat (high - low)) (drop (Z.to_nat low) s)) else NilDeref.

(** The loop of [splitEdgeDevices]; [None] when the fuel runs out. *)
Fixpoint split_loop (fuel : nat) (edgeDevices : list A) (splitLen residueLen usedLen : Z)
    (result : list (list A)) : option (deref (list (list A))) :=
  match fuel with
  | 0 => None
  | S fuel =>
      if (usedLen <? Z.of_nat (length edgeDevices))%Z then
        let '(residueExtra, residueLen) :=
          if (0 <? residueLen)%Z then (1, residueLen - 1)%Z else (0, residueLen)%Z in
        let newSliceLen := (splitLen + residueExtra)%Z in
        match slice edgeDevices usedLen (usedLen + newSliceLen) with
        | NilDeref => Some NilDeref
        | Val newSlice =>
            split_loop fuel edgeDevices splitLen residueLen (usedLen + newSliceLen)
              (result ++ [newSlice])
        end
      else Some (Val result)
  end.

Definition splitEdgeDevices (edgeDevices : list A) (splitSize : Z) : option (deref (list (list A))) :=
  if (splitSize =? 0)%Z then Some (Val []) else
  let intX := to_int splitSize in
  let sLen := Z.of_nat (length edgeDevices) in
  let splitLen := Z.quot sLen intX in
  let residueLen := (sLen - splitLen * intX)%Z in
  split_loop (S (2 * length edgeDevices)) edgeDevices splitLen residueLen 0 [].

Lemma slice_val (s : list A) low high :
  (0 ≤ low ≤ high)%Z → (high ≤ Z.of_nat (length s))%Z →
  slice s low high = Val (take (Z.to_nat (high - low)) (drop (Z.to_nat low) s)).
Proof. intros ? ?. unfold slice. by replace (_ && _ && _) with true by lia. Qed.

(** [k] parts are left to cut, [r] of them one longer than [q]. *)
Lemma split_loop_spec k fuel (l : list A) q r u acc :
  (k < fuel)%nat → (0 ≤ q)%Z → (0 ≤ r ≤ Z.of_nat k)%Z → (1 ≤ q ∨ r = Z.of_nat k)%Z →
  (0 ≤ u)%Z → (Z.of_nat (length l) - u = Z.of_nat k * q + r)%Z →
  ∃ parts, split_loop fuel l q r u acc = Some (Val (acc ++ parts)) ∧
    length parts = k ∧ concat parts = drop (Z.to_nat u) l ∧
    Forall (λ p, p ≠ [] ∧ (Z.of_nat (length p) = q ∨ Z.of_nat (length p) = q + 1)%Z) parts.
Proof.
  revert fuel r u acc; induction k as [|k IH]; intros fuel r u acc Hfuel Hq Hr Hqr Hu Hlen;
    (destruct fuel as [|fuel]; [lia|]); simpl.
  - replace (u <? _)%Z with false by lia. exists []. rewrite app_nil_r.
    split_and!; [done|done| |constructor]. rewrite drop_ge by lia. done.
  - replace (u <? _)%Z with true by nia.
    set (x := if (0 <? r)%Z then 1%Z else 0%Z).
    assert (Hx : (if (0 <? r)%Z then (1, r - 1)%Z else (0, r)%Z) = (x, (r - x)%Z))
      by (unfold x; destruct (0 <? r)%Z; f_equal; lia).
    assert (x = 1 ∧ 0 < r ∨ x = 0 ∧ r = 0)%Z as Hx' by (unfold x; destruct (Z.ltb_spec 0 r); lia).
    rewrite Hx, slice_val by nia.
    destruct (IH fuel (r - x)%Z (u + (q + x))%Z
      (acc ++ [take (Z.to_nat (u + (q + x) - u)) (drop (Z.to_nat u) l)]))
      as (parts & -> & Hl & Hc & Hf); [lia..|nia|].
    eexists (_ :: parts). split; [by rewrite <- app_assoc|]. simpl. rewrite Hl, Hc.
    assert (length (take (Z.to_nat (u + (q + x) - u)) (drop (Z.to_nat u) l)) = Z.to_nat (q + x)) as Hpl
      by (rewrite length_take, length_drop; nia).
    split_and!; [done| |].
    + replace (Z.to_nat (u + (q + x))) with (Z.to_nat u + Z.to_nat (u + (q + x) - u)) by lia.
      rewrite <- drop_drop. apply take_drop.
    + constructor; [|done]. rewrite Hpl. split; [|lia].
      intros E. rewrite E in Hpl. simpl in Hpl. lia.
Qed.

(** The parts of a split: consecutive, non-empty, of lengths that differ by at
    most one. *)
Record balanced (n : nat) (l : list A) (parts : list (list A)) : Prop := {
  balanced_concat : concat parts = l;
  balanced_count : length parts = n `min` length l;
  balanced_nonempty : Forall (λ p, p ≠ []) parts;
  balanced_lengths : ∀ p p', p ∈ parts → p' ∈ parts → length p ≤ S (length p');
}.

Lemma splitEdgeDevices_balanced (l : list A) n :
  (0 < n < 2 ^ 63)%Z →
  ∃ parts, splitEdgeDevices l n = Some (Val parts) ∧ balanced (Z.to_nat n) l parts.
Proof.
  intros Hn. unfold splitEdgeDevices. replace (n =? 0)%Z with false by lia.
  assert (to_int n = n) as ->.
  { unfold to_int. rewrite Z.mod_small by lia. by replace (n <? 2 ^ 63)%Z with true by lia. }
  set (len := Z.of_nat (length l)).
  pose proof (Z.quot_rem' len n) as Hqr. pose proof (Z.rem_bound_pos len n) as Hrem.
  assert (0 ≤ Z.quot len n)%Z as Hq by (apply Z.quot_pos; lia).
  destruct (split_loop_spec (Z.to_nat n `min` length l) (S (2 * length l)) l
    (Z.quot len n) (len - Z.quot len n * n) 0 []) as (parts & -> & Hl & Hc & Hf).
  - lia.
  - done.
  - destruct (decide (n ≤ len)%Z); [lia|]. rewrite (Z.quot_small len n) by lia. lia.
  - destruct (decide (n ≤ len)%Z); [left|right].
    + assert (Z.quot n n ≤ Z.quot len n)%Z as H by (apply Z.quot_le_mono; lia).
      rewrite Z.quot_same in H by lia. lia.
    + rewrite (Z.quot_small len n) by lia. lia.
  - lia.
  - fold len. destruct (decide (n ≤ len)%Z).
    + replace (Z.of_nat (Z.to_nat n `min` length l)) with n by lia. lia.
    + rewrite (Z.quot_small len n) by lia. lia.
  - exists parts. split; [done|]. split.
    + by rewrite Hc.
    + done.
    + eapply Forall_impl; [done|]. by intros p [? _].
    + rewrite Forall_forall in Hf. intros p p' Hp Hp'.
      destruct (Hf p Hp) as [_ ?], (Hf p' Hp') as [_ ?]. lia.
Qed.
End split.

(** ** [ConcurrentFunc]s *)
Abbreviation ConcurrentFunc := (list EdgeDevice → go (list error)).

Definition ExecuteConcurrent (concurrency : Z) (f : ConcurrentFunc) (edgeDevices : list EdgeDevice)
    : go (list error) :=
  if (Z.of_nat (length edgeDevices) =? 0)%Z || (concurrency =? 0)%Z then Ret [] else
  inputs ← lift (default NilDeref (splitEdgeDevices edgeDevices concurrency));
  returnValues ← par (f <$> inputs);
  Ret (concat returnValues).

Fixpoint merge_loop (mergedMap : gset string) (edgeDevices2 : list EdgeDevice) : list EdgeDevice :=
  match edgeDevices2 with
  | [] => []
  | device :: edgeDevices2 =>
      if decide (device_name device ∈ mergedMap) then merge_loop mergedMap edgeDevices2
      else device :: merge_loop mergedMap edgeDevices2
  end.

Definition merge (edgeDevices1 edgeDevices2 : list EdgeDevice) : list EdgeDevice :=
  edgeDevices1 ++ merge_loop (list_to_set (device_name <$> edgeDevices1)) edgeDevices2.

Definition mergeErrorMessages (errs : list error) : string :=
  foldl (λ message err,
    if String.eqb message "" then Error err else message +:+ ", " +:+ Error err) "" errs.

(** The loop that the concurrent functions of the controllers share: [body]
    handles one device and its error, if any, is collected. *)
Fixpoint for_devices (body : EdgeDevice → go (option error)) (errs : list error)
    (input : list EdgeDevice) : go (list error) :=
  match input with
  | [] => Ret errs
  | edgeDevice :: input =>
      err ← body edgeDevice;
      match err with
      | Some err => for_devices body (errs ++ [err]) input
      | None => for_devices body errs input
      end
  end.

(** ** Schedules *)

(** [tr] is one run of [body] for every device, in some interleaving: each
    device's run is complete and its calls are in program order in [tr]. *)
Definition each (body : EdgeDevice → go (option error)) (devices : list EdgeDevice)
    (tr : list api_event) (rs : list (option error)) : Prop :=
  ∃ ts, Forall3 (λ d t r, exec (body d) t (Returned r)) devices ts rs ∧
    tr ≡ₚ concat ts ∧ Forall (λ t, t `sublist_of` tr) ts.

Lemma for_devices_exec body errs devices :
  wp (for_devices body errs devices) (λ tr out,
    match out with
    | Returned errs' => ∃ ts rs, Forall3 (λ d t r, exec (body d) t (Returned r)) devices ts rs ∧
        tr = concat ts ∧ errs' = errs ++ omap id rs
    | Crashed c => ∃ d t, d ∈ devices ∧ exec (body d) t (Crashed c)
    end).
Proof.
  revert errs; induction devices as [|d devices IH]; intros errs; simpl.
  { exists [], []. split_and!; [constructor|done|]. by rewrite app_nil_r. }
  apply wp_bind, wp_exec. intros tr [r|c] Hd; [|by exists d, tr; split; [left|]].
  assert (Heq : ∀ errs', errs' = errs ++ option_list r →
    wp (for_devices body errs' devices) (λ tr' out', match out' with
      | Returned errs' => ∃ ts rs, Forall3 (λ d t r, exec (body d) t (Returned r)) (d :: devices) ts rs ∧
          tr ++ tr' = concat ts ∧ errs' = errs ++ omap id rs
      | Crashed c => ∃ d' t, d' ∈ d :: devices ∧ exec (body d') t (Crashed c)
      end)).
  { intros errs' ->. eapply wp_mono; [apply IH|]. intros tr' [errs'|c].
    - intros (ts & rs & H3 & -> & ->). exists (tr :: ts), (r :: rs).
      split_and!; [by constructor|done|]. rewrite <- app_assoc. f_equal. by destruct r.
    - intros (d' & t & Hin & He). exists d', t. split; [by right|done]. }
  destruct r as [err|]; apply Heq; [done|]. simpl. by rewrite app_nil_r.
Qed.

(** Runs of the parts of a list of devices make a run of the list. *)
Lemma each_parts body parts tss rss :
  Forall3 (λ p t r, exec (for_devices body [] p) t (Returned r)) parts tss rss →
  ∃ ts rs, Forall3 (λ d t r, exec (body d) t (Returned r)) (concat parts) ts rs ∧
    concat tss = concat ts ∧ concat rss = omap id rs ∧
    Forall (λ t, ∃ t', t' ∈ tss ∧ t `sublist_of` t') ts.
Proof.
  induction 1 as [|p t r parts tss rss Hp _ (ts & rs & H3 & Hc & Hr & Hs)]; simpl.
  { exists [], []. split_and!; constructor. }
  pose proof (proj1 (wp_exec _ _) (for_devices_exec body [] p) _ _ Hp) as (ts' & rs' & H3' & -> & ->).
  exists (ts' ++ ts), (rs' ++ rs). split_and!.
  - by apply Forall3_app.
  - by rewrite concat_app, Hc.
  - by rewrite omap_app, Hr.
  - apply Forall_app. split.
    + apply Forall_forall. intros t Ht. exists (concat ts'). split; [left|].
      apply list_elem_of_split in Ht as (l1 & l2 & ->). rewrite concat_app. simpl.
      apply sublist_inserts_l, sublist_inserts_r. done.
    + eapply Forall_impl; [done|]. intros t (t' & Ht' & Hsub). exists t'. split; [by right|done].
Qed.

Lemma ExecuteConcurrent_wp concurrency f devices :
  (0 < concurrency < 2 ^ 63)%Z →
  wp (ExecuteConcurrent concurrency f devices) (λ tr out, ∃ parts,
    balanced (Z.to_nat concurrency) devices parts ∧
    match out with
    | Returned errs => ∃ ts rs, interleaves ts tr ∧ errs = concat rs ∧
        Forall3 (λ p t r, exec (f p) t (Returned r)) parts ts rs
    | Crashed c => ∃ p t, p ∈ parts ∧ t `sublist_of` tr ∧ exec (f p) t (Crashed c)
    end).
Proof.
  intros Hc. unfold ExecuteConcurrent. replace (concurrency =? 0)%Z with false by lia.
  rewrite orb_false_r. destruct (splitEdgeDevices_balanced devices concurrency Hc) as (parts & Hs & Hb).
  destruct (Z.eqb_spec (Z.of_nat (length devices)) 0) as [H0|H0].
  - assert (devices = []) as -> by (apply nil_length_inv; lia). exists []. split.
    + split; [done|simpl; lia|constructor|]. intros p p' Hp. by apply elem_of_nil in Hp.
    + exists [], []. split_and!; constructor.
  - rewrite Hs. simpl. apply wp_bind. eapply wp_mono; [apply wp_par|].
    intros tr [rs|c]; simpl; rewrite ?app_nil_r.
    + intros (ts & Hi & H3). exists parts. split; [done|]. exists ts, rs. split_and!; [done..|].
      clear -H3. remember (f <$> parts) as ps eqn:E. revert parts E.
      induction H3 as [|p t r ps ts rs Hp _ IH]; intros [|p' parts] [=]; subst; constructor; auto.
    + intros (p & t & (p' & -> & Hp)%list_elem_of_fmap & Ht & He). exists parts. eauto 10.
Qed.

(** With a loop over the devices, each device is handled exactly once. *)
Lemma ExecuteConcurrent_each concurrency body devices :
  (0 < concurrency < 2 ^ 63)%Z →
  wp (ExecuteConcurrent concurrency (for_devices body []) devices) (λ tr out,
    match out with
    | Returned errs => ∃ rs, each body devices tr rs ∧ errs = omap id rs
    | Crashed c => ∃ d t, d ∈ devices ∧ exec (body d) t (Crashed c)
    end).
Proof.
  intros Hc. eapply wp_mono; [by apply ExecuteConcurrent_wp|].
  intros tr [errs|c] (parts & [Hconc _ _ _] & H).
  - destruct H as (tss & rss & Hi & -> & H3). apply each_parts in H3 as (ts & rs & H3 & Hcc & Hr & Hs).
    rewrite Hconc in H3. exists rs. split; [|done]. exists ts. split_and!; [done| |].
    + by rewrite <- Hcc, (interleaves_perm _ _ Hi).
    + eapply Forall_impl; [exact Hs|]. intros t (t' & Ht' & Hsub).
      etrans; [done|]. by eapply interleaves_sublist.
  - destruct H as (p & t & Hp & _ & He).
    pose proof (proj1 (wp_exec _ _) (for_devices_exec body [] p) _ _ He) as (d & t' & Hd & He').
    exists d, t'. split; [|done]. rewrite <- Hconc. apply list_elem_of_In, in_concat.
    exists p. by rewrite <- !list_elem_of_In.
Qed.

(** C29: For every positive concurrency a Go [int] can hold, splitting cuts the
    devices into consecutive non-empty slices, as many as the concurrency allows
    and there are devices for, of lengths that differ by at most one; it neither
    panics nor runs forever. *)
Theorem splitEdgeDevices_spec {A} (edgeDevices : list A) splitSize :
  (0 < splitSize < 2 ^ 63)%Z →
  ∃ parts, splitEdgeDevices edgeDevices splitSize = Some (Val parts) ∧
    balanced (Z.to_nat splitSize) edgeDevices parts.
Proof. apply splitEdgeDevices_balanced. Qed.

Lemma splitEdgeDevices_spec_witness :
  splitEdgeDevices [1; 2; 3; 4; 5; 6; 7] 3 = Some (Val [[1; 2; 3]; [4; 5]; [6; 7]]) ∧
  ∃ parts, splitEdgeDevices [1; 2; 3; 4; 5; 6; 7] 3 = Some (Val parts) ∧
    balanced 3 [1; 2; 3; 4; 5; 6; 7] parts.
Proof. split; [reflexivity|]. apply (splitEdgeDevices_spec [1; 2; 3; 4; 5; 6; 7] 3); lia. Defined.

(** A concurrency beyond [int]'s range becomes negative and the slicing panics. *)
Example splitEdgeDevices_overflow :
  splitEdgeDevices [1; 2; 3; 4; 5] (2 ^ 64 - 1) = Some NilDeref.
Proof. reflexivity. Qed.

(** A concurrent execution runs the function once on every slice of a balanced
    split, in goroutines whose calls interleave in any way the scheduler likes;
    the errors are the errors of the slices in their order, and it crashes only
    if the function crashes on a slice. *)
Theorem ExecuteConcurrent_spec concurrency f devices :
  (0 < concurrency < 2 ^ 63)%Z →
  wp (ExecuteConcurrent concurrency f devices) (λ tr out, ∃ parts,
    balanced (Z.to_nat concurrency) devices parts ∧
    match out with
    | Returned errs => ∃ ts rs, interleaves ts tr ∧ errs = concat rs ∧
        Forall3 (λ p t r, exec (f p) t (Returned r)) parts ts rs
    | Crashed c => ∃ p t, p ∈ parts ∧ t `sublist_of` tr ∧ exec (f p) t (Crashed c)
    end).
Proof. apply ExecuteConcurrent_wp. Qed.

Definition count_slice (ds : list EdgeDevice) : go (list error) :=
  Ret [ErrorString (String.concat "," (device_name <$> ds))].
Definition three_devices : list EdgeDevice :=
  (λ n, mkEdgeDevice (new_meta n "ns") zero_spec zero_status) <$> ["a"; "b"; "c"]%string.

Lemma ExecuteConcurrent_spec_witness :
  ExecuteConcurrent 2 count_slice three_devices =
    Ret [ErrorString "a,b"; ErrorString "c"] ∧
  wp (ExecuteConcurrent 2 count_slice three_devices) (λ tr out, ∃ parts, balanced 2 three_devices parts).
Proof.
  split; [reflexivity|].
  eapply wp_mono; [apply (ExecuteConcurrent_spec 2 count_slice three_devices); lia|].
  intros tr out (parts & H & _). by exists parts.
Defined.

(** ** [merge] and [mergeErrorMessages] *)
Lemma merge_loop_filter names l :
  merge_loop names l = filter (λ d, device_name d ∉ names) l.
Proof.
  induction l as [|d l IH]; simpl; [done|]. rewrite filter_cons, IH.
  by repeat case_decide.
Qed.

(** Merging two lists of devices keeps the first as it is, adds the devices of the
    second whose name the first does not have, in order, and so names every
    device of either list, each once if the lists have no duplicates. *)
Theorem merge_spec ds1 ds2 :
  ∃ rest, merge ds1 ds2 = ds1 ++ rest ∧ rest `sublist_of` ds2 ∧
    (∀ n, n ∈ device_name <$> merge ds1 ds2 ↔ n ∈ device_name <$> ds1 ∨ n ∈ device_name <$> ds2) ∧
    (NoDup (device_name <$> ds1) → NoDup (device_name <$> ds2) →
     NoDup (device_name <$> merge ds1 ds2)).
Proof.
  unfold merge. rewrite merge_loop_filter. eexists. split; [done|].
  assert (filter (λ d, device_name d ∉ (list_to_set (device_name <$> ds1) : gset string)) ds2
          `sublist_of` ds2) as Hsub by apply sublist_filter.
  split; [done|]. split.
  - intros n. rewrite fmap_app, elem_of_app, !list_elem_of_fmap.
    setoid_rewrite list_elem_of_filter. setoid_rewrite elem_of_list_to_set.
    split; [naive_solver|]. intros [?|(d & -> & Hd)]; [by left|].
    destruct (decide (device_name d ∈ device_name <$> ds1)) as [Hin|]; [|right; eauto].
    left. apply list_elem_of_fmap in Hin as (d' & E & ?). eauto.
  - intros H1 H2. rewrite fmap_app. apply NoDup_app. split_and!; [done| |].
    + intros n Hn (d & -> & [Hd _]%list_elem_of_filter)%list_elem_of_fmap.
      apply Hd. by apply elem_of_list_to_set.
    + eapply sublist_NoDup; [done|]. by apply fmap_sublist.
Qed.

(** The messages from the first that is not empty, separated by commas. *)
Fixpoint drop_empty (ms : list string) : list string :=
  match ms with
  | [] => []
  | m :: ms' => if String.eqb m "" then drop_empty ms' else ms
  end.

(** The merged message is the list of the messages separated by commas, from the
    first non-empty one on; an empty message after it still gets its separator.
    *)
Theorem mergeErrorMessages_spec errs :
  mergeErrorMessages errs = String.concat ", " (drop_empty (Error <$> errs)).
Proof.
  assert (Hacc : ∀ m errs, m ≠ "" →
    foldl (λ message err, if String.eqb message "" then Error err
                          else message +:+ ", " +:+ Error err) m errs =
    String.concat ", " (m :: (Error <$> errs))).
  { intros m es; revert m; induction es as [|e es IH]; intros m Hm; [done|]. csimpl.
    destruct (String.eqb_spec m ""); [done|]. rewrite IH; [|by destruct m].
    cbn [String.concat]. destruct es; csimpl; [done|]. by rewrite <- !(assoc_L String.append). }
  unfold mergeErrorMessages. induction errs as [|e errs IH]; [done|]. csimpl.
  destruct (String.eqb_spec (Error e) "") as [E|E]; [by rewrite E, IH|]. by rewrite Hacc.
Qed.
