(* ===== verification/EdgeDeploymentController.v ===== *)
(** * The EdgeDeployment controller ([controllers/edgedeployment_controller.go])

    Reconciling a deployment: its finalizer, its selector labels, and its
    presence on the devices it matches. The reconciler is written against the
    repositories' interfaces; [Concurrency] is its configuration. *)
From S2P Require Import Prelude Effects Interleave K8s Labels Utils V1alpha1 Calls Repositories Fmt Concurrent Server.
Import v1alpha1.

Definition YggdrasilDeviceReferenceFinalizer : string := "yggdrasil-device-reference-finalizer".

Definition hasLabelForDeployment (edgeDevice : EdgeDevice) (deploymentName : string) : bool :=
  bool_decide (is_Some (map_of (device_labels edgeDevice) !! WorkloadLabel deploymentName)).

Definition hasDeployment (edgeDevice : EdgeDevice) (name : string) : bool :=
  existsb (λ deployment, String.eqb (Deployment_Name deployment) name) (device_deployments edgeDevice).

(** ** Selector labels *)

(** The label of one requirement of the selector. *)
Definition requirement_label (requirement : LabelSelectorRequirement) : string :=
  if decide (req_Operator requirement = LabelSelectorOpDoesNotExist)
  then CreateSelectorLabel DoesNotExistLabel
  else CreateSelectorLabel (req_Key requirement).

Definition set_true (m : labelmap) (label : string) : labelmap := <[label := "true"]> m.

(** One iteration of [UpdateSelectorLabels]; the deletion loop is a filter. *)
Definition update_selector_labels (edgeDeployment : EdgeDeployment) : EdgeDeployment :=
  let deploymentLabels :=
    filter (λ kv, IsSelectorLabel kv.1 = false) (map_of (dep_labels edgeDeployment)) in
  let deploymentLabels :=
    if negb (String.eqb (dep_device edgeDeployment) "") then
      <[CreateSelectorLabel DeviceNameLabel := dep_device edgeDeployment]> deploymentLabels
    else
      match dep_selector edgeDeployment with
      | None => deploymentLabels
      | Some labelSelector =>
          foldl set_true
            (foldl set_true deploymentLabels
               (CreateSelectorLabel <$> (map_to_list (MatchLabels labelSelector)).*1))
            (requirement_label <$> MatchExpressions labelSelector)
      end in
  dep_set_labels (Some deploymentLabels) edgeDeployment.

Definition UpdateSelectorLabels (edgeDeployments : list EdgeDeployment) : list EdgeDeployment :=
  update_selector_labels <$> edgeDeployments.

Section reconciler.
Context {R : EdgeDeviceRepository} {DR : EdgeDeploymentRepository} (Concurrency : Z).

Definition updateLabelsFromSelector (edgeDeployment : EdgeDeployment) : go (bool * option error) :=
  let edgeDeploymentCopy := update_selector_labels edgeDeployment in
  let newLabels := dep_labels edgeDeploymentCopy in
  if bool_decide (map_of newLabels = ∅ ∧ dep_labels edgeDeployment = None)
     || bool_decide (newLabels = dep_labels edgeDeployment)
  then Ret (false, None)
  else
    r ← edgedeployment_Patch edgeDeployment edgeDeploymentCopy;
    Ret (true, match r with Ok _ => None | Err err => Some err end).

Definition executeConcurrent (f : ConcurrentFunc) (edgeDevices : list EdgeDevice) : go (list error) :=
  if (Concurrency =? 1)%Z then f edgeDevices else ExecuteConcurrent Concurrency f edgeDevices.

Definition getLabelledEdgeDevices (name namespace : string) : go (result (list EdgeDevice)) :=
  edgedevice_ListForSelector (Some (mkLabelSelector {[WorkloadLabel name := "true"]} [])) namespace.

Definition getMatchingEdgeDevices (edgeDeployment : EdgeDeployment) : go (result (list EdgeDevice)) :=
  if negb (String.eqb (dep_device edgeDeployment) "") then
    edgeDevice ←? edgedevice_Read (dep_device edgeDeployment) (dep_namespace edgeDeployment);
    Ret (Ok [edgeDevice])
  else
    match dep_selector edgeDeployment with
    | None => Ret (Ok [])
    | Some _ => edgedevice_ListForSelector (dep_selector edgeDeployment) (dep_namespace edgeDeployment)
    end.

(** ** One device *)

Definition add_to_device (name : string) (edgeDevice : EdgeDevice) : go (option error) :=
  edgeDevice ←
    (if hasDeployment edgeDevice name then Ret (Ok edgeDevice)
     else edgedevice_PatchStatus
            (set_deployments (device_deployments edgeDevice ++
               [mkDeployment name Deploying zero_time zero_time]) edgeDevice) edgeDevice);
  match edgeDevice with
  | Err err => Ret (Some err)
  | Ok edgeDevice =>
      if hasLabelForDeployment edgeDevice name then Ret None
      else
        r ← edgedevice_Patch edgeDevice
              (set_labels (Some (<[WorkloadLabel name := "true"]> (map_of (device_labels edgeDevice))))
                 edgeDevice);
        Ret (match r with Ok _ => None | Err err => Some err end)
  end.

Definition removeDeploymentFromDevice (name : string) (edgeDevice : EdgeDevice) : go (option error) :=
  let newDeployments :=
    filter (λ deployment, Deployment_Name deployment ≠ name) (device_deployments edgeDevice) in
  r ← edgedevice_PatchStatus (set_deployments newDeployments edgeDevice) edgeDevice;
  match r with
  | Err err => Ret (Some err)
  | Ok edgeDevice =>
      match device_labels edgeDevice with
      | None => Ret None
      | Some labels =>
          r ← edgedevice_Patch edgeDevice
                (set_labels (Some (delete (WorkloadLabel name) labels)) edgeDevice);
          Ret (match r with Ok _ => None | Err err => Some err end)
      end
  end.

(** ** The devices of a deployment *)

Definition errors_to_error (errs : list error) : option error :=
  match errs with
  | [] => None
  | _ => Some (ErrorString (Errorf (mergeErrorMessages errs)))
  end.

Definition addDeploymentsToDevices (name : string) (edgeDevices : list EdgeDevice) : go (option error) :=
  errs ← executeConcurrent (for_devices (add_to_device name) []) edgeDevices;
  Ret (errors_to_error errs).

Definition removeDeploymentFromDevices (name : string) (edgeDevices : list EdgeDevice) : go (list error) :=
  for_devices (removeDeploymentFromDevice name) [] edgeDevices.

Definition remove_if_not_matching (name : string) (matchingDevicesMap : gset string)
    (device : EdgeDevice) : go (option error) :=
  if decide (device_name device ∈ matchingDevicesMap) then Ret None
  else removeDeploymentFromDevice name device.

Definition removeDeploymentFromNonMatchingDevices (name : string)
    (matchingDevices labelledDevices : list EdgeDevice) : go (option error) :=
  let matchingDevicesMap := list_to_set (device_name <$> matchingDevices) in
  errs ← executeConcurrent (for_devices (remove_if_not_matching name matchingDevicesMap) [])
           labelledDevices;
  Ret (errors_to_error errs).

Definition finalizeRemoval (edgeDevices : list EdgeDevice) (edgeDeployment : EdgeDeployment)
    : go (option error) :=
  errs ← executeConcurrent (removeDeploymentFromDevices (dep_name edgeDeployment)) edgeDevices;
  match errors_to_error errs with
  | Some err => Ret (Some err)
  | None =>
      r ← edgedeployment_RemoveFinalizer edgeDeployment YggdrasilDeviceReferenceFinalizer;
      Ret r.1
  end.

(** [Reconcile] goes on without devices when the query answers "not found". *)
Definition tolerate (r : result (list EdgeDevice)) : result (list EdgeDevice) :=
  match r with Err err => if IsNotFound err then Ok [] else Err err | Ok ds => Ok ds end.

(** [Reconcile] after the two lists of devices are known. *)
Definition settle (edgeDeployment : EdgeDeployment) (labelledDevices edgeDevices : list EdgeDevice)
    : go (Result * option error) :=
  match DeletionTimestamp (EdgeDeployment_Meta edgeDeployment) with
  | Some _ =>
      if HasFinalizer (EdgeDeployment_Meta edgeDeployment) YggdrasilDeviceReferenceFinalizer then
        err ← finalizeRemoval (merge edgeDevices labelledDevices) edgeDeployment;
        match err with
        | Some err => Ret (requeue, Some err)
        | None => Ret (no_requeue, None)
        end
      else Ret (no_requeue, None)
  | None =>
      err ← addDeploymentsToDevices (dep_name edgeDeployment) edgeDevices;
      match err with
      | Some err => Ret (requeue, Some err)
      | None =>
          err ← removeDeploymentFromNonMatchingDevices (dep_name edgeDeployment)
                  edgeDevices labelledDevices;
          match err with
          | Some err => Ret (requeue, Some err)
          | None => Ret (no_requeue, None)
          end
      end
  end.

(** [Reconcile] after the finalizer and the labels are in place. *)
Definition reconcile_devices (edgeDeployment : EdgeDeployment) : go (Result * option error) :=
  labelledDevices ← getLabelledEdgeDevices (dep_name edgeDeployment) (dep_namespace edgeDeployment);
  match tolerate labelledDevices with
  | Err err => Ret (requeue, Some err)
  | Ok labelledDevices =>
      edgeDevices ← getMatchingEdgeDevices edgeDeployment;
      match tolerate edgeDevices with
      | Err err => Ret (requeue, Some err)
      | Ok edgeDevices => settle edgeDeployment labelledDevices edgeDevices
      end
  end.

Definition Reconcile (req : Request) : go (Result * option error) :=
  edgeDeployment ← edgedeployment_Read (req_Name req) (req_Namespace req);
  match edgeDeployment with
  | Err err => if IsNotFound err then Ret (no_requeue, None) else Ret (requeue, Some err)
  | Ok edgeDeployment =>
      match DeletionTimestamp (EdgeDeployment_Meta edgeDeployment) with
      | Some _ => reconcile_devices edgeDeployment
      | None =>
          if negb (HasFinalizer (EdgeDeployment_Meta edgeDeployment) YggdrasilDeviceReferenceFinalizer)
          then
            r ← edgedeployment_Patch edgeDeployment
                  (dep_set_finalizers [YggdrasilDeviceReferenceFinalizer] edgeDeployment);
            match r with
            | Err err => Ret (requeue, Some err)
            | Ok _ => Ret (requeue, None)
            end
          else
            r ← updateLabelsFromSelector edgeDeployment;
            match r with
            | (_, Some err) => Ret (requeue, Some err)
            | (true, None) => Ret (no_requeue, None)
            | (false, None) => reconcile_devices edgeDeployment
            end
      end
  end.
End reconciler.

(** ** What one device sees *)

(** A write to a device that touches nothing but the deployment [name]: its
    entry in the status, or its workload label. *)
Definition frame (name : string) (o : api_op) : Prop :=
  match o with
  | PatchEdgeDeviceStatus from new => ∃ ds, new = set_deployments ds from ∧
      filter (λ d, Deployment_Name d ≠ name) ds =
      filter (λ d, Deployment_Name d ≠ name) (device_deployments from)
  | PatchEdgeDevice from new => ∃ ls, new = set_labels (Some ls) from ∧
      delete (WorkloadLabel name) ls = delete (WorkloadLabel name) (map_of (device_labels from))
  | _ => False
  end.

(** The server accepted what puts the deployment on the device [d]. *)
Definition added (name : string) (d : EdgeDevice) (tr : list api_event) : Prop :=
  ∃ d1,
    (hasDeployment d name = true ∧ d1 = d ∨
     ∃ new, Ev (S := api) (PatchEdgeDeviceStatus d new) (Ok d1) ∈ tr ∧ hasDeployment new name = true) ∧
    (hasLabelForDeployment d1 name = true ∨
     ∃ new d2, Ev (S := api) (PatchEdgeDevice d1 new) (Ok d2) ∈ tr ∧
               hasLabelForDeployment new name = true).

(** The server accepted what takes the deployment off the device [d]. *)
Definition removed (name : string) (d : EdgeDevice) (tr : list api_event) : Prop :=
  ∃ new d1, Ev (S := api) (PatchEdgeDeviceStatus d new) (Ok d1) ∈ tr ∧
    hasDeployment new name = false ∧
    (device_labels d1 = None ∨
     ∃ new2 d2, Ev (S := api) (PatchEdgeDevice d1 new2) (Ok d2) ∈ tr ∧
                hasLabelForDeployment new2 name = false).

Lemma added_mono name d tr tr' : tr ⊆ tr' → added name d tr → added name d tr'.
Proof.
  intros Hs (d1 & H1 & H2). exists d1. split.
  - destruct H1 as [?|(new & H & ?)]; [by left|]. right. eauto.
  - destruct H2 as [?|(new & d2 & H & ?)]; [by left|]. right. eauto.
Qed.

Lemma removed_mono name d tr tr' : tr ⊆ tr' → removed name d tr → removed name d tr'.
Proof.
  intros Hs (new & d1 & H1 & Hn & H2). exists new, d1. split_and!; [auto|done|].
  destruct H2 as [?|(new2 & d2 & H & ?)]; [by left|]. right. eauto.
Qed.

Lemma hasDeployment_spec d name :
  hasDeployment d name = true ↔ ∃ x, x ∈ device_deployments d ∧ Deployment_Name x = name.
Proof.
  unfold hasDeployment. rewrite existsb_exists.
  setoid_rewrite list_elem_of_In. by setoid_rewrite String.eqb_eq.
Qed.

Lemma filter_frame name (ds : list Deployment) :
  filter (λ d, Deployment_Name d ≠ name) (filter (λ d, Deployment_Name d ≠ name) ds) =
  filter (λ d, Deployment_Name d ≠ name) ds.
Proof. rewrite list_filter_filter. apply list_filter_iff. naive_solver. Qed.

Lemma map_of_set_labels l d : map_of (device_labels (set_labels (Some l) d)) = l.
Proof. done. Qed.

Section device_steps.
Context {R : EdgeDeviceRepository} {L : EdgeDeviceRepositoryLaws R}.

(** A step on one device writes within the frame, never crashes, and on success
    has done its work. *)
Definition device_step (name : string) (Φ : list api_event → Prop) (p : go (option error)) : Prop :=
  wp p (λ tr out, Forall (frame name) (ev_op <$> tr) ∧
    match out with
    | Returned None => Φ tr
    | Returned (Some _) => True
    | Crashed _ => False
    end).

Lemma add_to_device_step name d : device_step name (added name d) (add_to_device name d).
Proof.
  assert (Hlabel : ∀ d1 tr0,
    Forall (frame name) (ev_op <$> tr0) →
    (hasDeployment d name = true ∧ d1 = d ∨
     ∃ new, Ev (S := api) (PatchEdgeDeviceStatus d new) (Ok d1) ∈ tr0 ∧ hasDeployment new name = true) →
    wp (if hasLabelForDeployment d1 name then Ret None
        else r ← edgedevice_Patch d1
               (set_labels (Some (<[WorkloadLabel name := "true"]> (map_of (device_labels d1)))) d1);
             Ret (match r with Ok _ => None | Err err => Some err end))
    (λ tr out, Forall (frame name) (ev_op <$> tr0 ++ tr) ∧
      match out with Returned None => added name d (tr0 ++ tr)
                   | Returned (Some _) => True | Crashed _ => False end)).
  { intros d1 tr0 Hf Hd. destruct (hasLabelForDeployment d1 name) eqn:El; simpl.
    - rewrite app_nil_r. split; [done|]. exists d1. auto.
    - apply wp_bind, Patch_law. intros r. simpl. rewrite fmap_app. split.
      + apply Forall_app_2; [done|]. constructor; [|constructor]. eexists. split; [done|].
        apply delete_insert_eq.
      + destruct r as [d2|e]; [|done]. exists d1. split.
        * destruct Hd as [?|(new & H & ?)]; [by left|]. right. exists new.
          rewrite elem_of_app. auto.
        * right. do 2 eexists. split; [apply elem_of_app; right; left|].
          unfold hasLabelForDeployment. rewrite map_of_set_labels, lookup_insert_eq.
          by apply bool_decide_eq_true_2. }
  unfold device_step, add_to_device. destruct (hasDeployment d name) eqn:Ed.
  - apply (Hlabel d []); [constructor|by left].
  - apply wp_bind, PatchStatus_law. set (new := set_deployments _ d). intros r.
    assert (Hf : frame name (PatchEdgeDeviceStatus d new)).
    { eexists. split; [done|]. rewrite filter_app, filter_cons_False by (simpl; naive_solver).
      by rewrite filter_nil, app_nil_r. }
    destruct r as [d1|e]; [|by split; [repeat constructor|]].
    apply (Hlabel d1 [Ev (S := api) (PatchEdgeDeviceStatus d new) (Ok d1)]); [by repeat constructor|].
    right. exists new. split; [left|]. apply hasDeployment_spec. simpl.
    eexists. split; [apply elem_of_app; right; left|done].
Qed.

Lemma remove_from_device_step name d :
  device_step name (removed name d) (removeDeploymentFromDevice name d).
Proof.
  unfold device_step, removeDeploymentFromDevice. apply wp_bind, PatchStatus_law.
  set (new := set_deployments _ d). intros r.
  assert (Hf : frame name (PatchEdgeDeviceStatus d new)).
  { eexists. split; [done|]. apply filter_frame. }
  assert (Hn : hasDeployment new name = false).
  { apply not_true_is_false. rewrite hasDeployment_spec. intros (x & Hx & Hxn).
    by apply list_elem_of_filter in Hx as [? _]. }
  destruct r as [d1|e]; simpl; [|by repeat constructor].
  destruct (device_labels d1) as [ls|] eqn:El; simpl.
  - apply wp_bind, Patch_law. intros r. simpl. split.
    + constructor; [done|]. constructor; [|constructor]. eexists. split; [done|].
      rewrite El. apply delete_delete_eq.
    + destruct r as [d2|e]; [|done]. exists new, d1. split_and!; [left|done|]. right.
      do 2 eexists. split; [right; left|]. unfold hasLabelForDeployment.
      rewrite map_of_set_labels, lookup_delete_eq. by apply bool_decide_eq_false_2; intros [].
  - split; [by repeat constructor|]. exists new, d1. split_and!; [left|done|by left].
Qed.

Lemma remove_if_not_matching_step name names d :
  device_step name (λ tr, device_name d ∉ names → removed name d tr)
    (remove_if_not_matching name names d).
Proof.
  unfold remove_if_not_matching, device_step. case_decide; simpl; [by split; [constructor|]|].
  eapply wp_mono; [apply remove_from_device_step|]. by intros tr [[e|]|c] [Hf Hout].
Qed.
End device_steps.

(** ** All the devices of a list *)
Section all_devices.
Context {R : EdgeDeviceRepository} {L : EdgeDeviceRepositoryLaws R}.
Context (Concurrency : Z) (HC : (0 < Concurrency < 2 ^ 63)%Z).

Lemma each_device_step name (Φ : EdgeDevice → list api_event → Prop) body devices tr rs :
  (∀ d, device_step name (Φ d) (body d)) → each body devices tr rs →
  Forall (frame name) (ev_op <$> tr) ∧
  (omap id rs = [] → Forall (λ d, ∃ t, t ⊆ tr ∧ Φ d t) devices).
Proof.
  intros Hstep (ts & H3 & Hperm & Hsub). split.
  - rewrite Hperm. clear Hperm Hsub. induction H3 as [|d t r devices ts rs He _ IH]; simpl; [constructor|].
    rewrite fmap_app. apply Forall_app_2; [|done].
    by apply (proj1 (wp_exec _ _) (Hstep d) _ _ He).
  - clear Hperm. revert Hsub. induction H3 as [|d t r devices ts rs He _ IH]; [constructor|].
    rewrite Forall_cons. intros [Ht Hsub] Hrs. destruct r as [e|]; [done|]. constructor; [|by apply IH].
    exists t. split; [by apply sublist_subseteq|].
    by apply (proj1 (wp_exec _ _) (Hstep d) _ _ He).
Qed.

(** Whatever the concurrency, every device is handled once, within the frame;
    no error means that every device is done. *)
Lemma executeConcurrent_wp name (Φ : EdgeDevice → list api_event → Prop) body devices :
  (∀ d, device_step name (Φ d) (body d)) →
  wp (executeConcurrent Concurrency (for_devices body []) devices) (λ tr out,
    Forall (frame name) (ev_op <$> tr) ∧
    match out with
    | Returned errs => errs = [] → Forall (λ d, ∃ t, t ⊆ tr ∧ Φ d t) devices
    | Crashed _ => False
    end).
Proof.
  intros Hstep.
  assert (Hwp : wp (executeConcurrent Concurrency (for_devices body []) devices) (λ tr out,
    match out with
    | Returned errs => ∃ rs, each body devices tr rs ∧ errs = omap id rs
    | Crashed c => ∃ d t, d ∈ devices ∧ exec (body d) t (Crashed c)
    end)).
  { unfold executeConcurrent. destruct (Concurrency =? 1)%Z.
    - eapply wp_mono; [apply for_devices_exec|]. intros tr [errs|c]; [|done].
      intros (ts & rs & H3 & -> & ->). exists rs. split; [|done]. exists ts. split_and!; [done..|].
      apply Forall_forall. intros t Ht. apply list_elem_of_split in Ht as (l1 & l2 & ->).
      rewrite concat_app. simpl. by apply sublist_inserts_l, sublist_inserts_r.
    - by apply ExecuteConcurrent_each. }
  eapply wp_mono; [exact Hwp|]. intros tr [errs|c].
  - intros (rs & He & ->). by eapply each_device_step.
  - intros (d & t & _ & He). by destruct (proj1 (wp_exec _ _) (Hstep d) _ _ He).
Qed.

Lemma executeConcurrent_error_wp name (Φ : EdgeDevice → list api_event → Prop) body devices :
  (∀ d, device_step name (Φ d) (body d)) → (∀ d tr tr', tr ⊆ tr' → Φ d tr → Φ d tr') →
  wp (errs ← executeConcurrent Concurrency (for_devices body []) devices;
      Ret (errors_to_error errs)) (λ tr out,
    Forall (frame name) (ev_op <$> tr) ∧
    match out with
    | Returned None => Forall (λ d, Φ d tr) devices
    | Returned (Some _) => True
    | Crashed _ => False
    end).
Proof.
  intros Hstep Hmono. apply wp_bind. eapply wp_mono; [by apply executeConcurrent_wp|].
  intros tr [[|e errs]|c] [Hf Hout]; simpl; rewrite ?app_nil_r; try done.
  split; [done|]. eapply Forall_impl; [by apply Hout|]. intros d (t & Ht & HΦ). by eapply Hmono.
Qed.

Lemma addDeploymentsToDevices_wp name devices :
  wp (addDeploymentsToDevices Concurrency name devices) (λ tr out,
    Forall (frame name) (ev_op <$> tr) ∧
    match out with
    | Returned None => Forall (λ d, added name d tr) devices
    | Returned (Some _) => True
    | Crashed _ => False
    end).
Proof.
  apply executeConcurrent_error_wp; [intros d; apply add_to_device_step|].
  intros d tr tr'. apply added_mono.
Qed.

Lemma removeDeploymentFromNonMatchingDevices_wp name matching labelled :
  wp (removeDeploymentFromNonMatchingDevices Concurrency name matching labelled) (λ tr out,
    Forall (frame name) (ev_op <$> tr) ∧
    match out with
    | Returned None =>
        Forall (λ d, device_name d ∉ device_name <$> matching → removed name d tr) labelled
    | Returned (Some _) => True
    | Crashed _ => False
    end).
Proof.
  unfold removeDeploymentFromNonMatchingDevices. cbv zeta.
  eapply wp_mono; [apply executeConcurrent_error_wp; [intros d; apply remove_if_not_matching_step|]|].
  - intros d tr tr' Hs H Hd. by eapply removed_mono, H.
  - intros tr [[e|]|c] [Hf Hout]; (split; [done|]); [done| |done].
    eapply Forall_impl; [exact Hout|]. simpl. intros d H Hd. apply H.
    by rewrite elem_of_list_to_set.
Qed.
End all_devices.

Section finalize.
Context {R : EdgeDeviceRepository} {L : EdgeDeviceRepositoryLaws R}.
Context {DR : EdgeDeploymentRepository} {DL : EdgeDeploymentRepositoryLaws DR}.
Context (Concurrency : Z) (HC : (0 < Concurrency < 2 ^ 63)%Z).

(** The patch that gives the deployment up. *)
Definition finalizer_removal (dep : EdgeDeployment) : EdgeDeployment :=
  dep_set_finalizers
    (without_finalizer YggdrasilDeviceReferenceFinalizer (Finalizers (EdgeDeployment_Meta dep))) dep.

Lemma finalizeRemoval_wp devices dep :
  wp (finalizeRemoval Concurrency devices dep) (λ tr out,
    match out with
    | Returned (Some _) => Forall (frame (dep_name dep)) (ev_op <$> tr)
    | Returned None => ∃ tr' a,
        tr = tr' ++ [Ev (S := api) (PatchEdgeDeployment dep (finalizer_removal dep)) a] ∧
        Forall (frame (dep_name dep)) (ev_op <$> tr') ∧
        Forall (λ d, removed (dep_name dep) d tr') devices
    | Crashed _ => False
    end).
Proof.
  unfold finalizeRemoval, removeDeploymentFromDevices. apply wp_bind.
  eapply wp_mono; [apply executeConcurrent_wp with (Φ := removed (dep_name dep)); [done|]|].
  { intros d. apply remove_from_device_step. }
  intros tr [[|e errs]|c] [Hf Hout]; simpl; [| by rewrite app_nil_r|done].
  apply wp_bind, dep_RemoveFinalizer_law. intros a d'. simpl. exists tr, a. split_and!; [done..|].
  eapply Forall_impl; [by apply Hout|]. intros d (t & Ht & Hr). by eapply removed_mono.
Qed.
End finalize.

(** ** Reconciling *)

(** A missing object counts as no device. *)
Definition found (a : result (list EdgeDevice)) : list EdgeDevice :=
  match a with Ok ds => ds | Err _ => [] end.

Definition workload_selector (name : string) : LabelSelector :=
  mkLabelSelector {[WorkloadLabel name := "true"]} [].

(** [ds] is what the server answered, in the trace [tr], to the query for the
    devices that a selector matches. *)
Definition listed (sel : LabelSelector) (ns : string) (tr : list api_event) (ds : list EdgeDevice) : Prop :=
  ∃ s a, LabelSelectorAsSelector (Some sel) = Ok s ∧
    Ev (S := api) (ListEdgeDevices ns s) a ∈ tr ∧ ds = found a ∧
    (is_ok a = false → ∃ e, a = Err e ∧ IsNotFound e = true).

(** The devices the deployment is meant for, as the server answered. *)
Definition matched (dep : EdgeDeployment) (tr : list api_event) (ds : list EdgeDevice) : Prop :=
  if negb (String.eqb (dep_device dep) "") then
    ∃ a, Ev (S := api) (GetEdgeDevice (dep_namespace dep) (dep_device dep)) a ∈ tr ∧
      ds = match a with Ok d => [d] | Err _ => [] end ∧
      (∀ e, a = Err e → IsNotFound e = true)
  else
    match dep_selector dep with
    | None => ds = []
    | Some sel => listed sel (dep_namespace dep) tr ds
    end.

(** What the survey of the devices leaves behind. *)
Definition read_op (o : api_op) : Prop :=
  match o with ListEdgeDevices _ _ | GetEdgeDevice _ _ => True | _ => False end.

Lemma listed_mono sel ns tr tr' ds : tr ⊆ tr' → listed sel ns tr ds → listed sel ns tr' ds.
Proof. intros Hs (s & a & ? & H & ? & ?). exists s, a. eauto. Qed.

Lemma matched_mono dep tr tr' ds : tr ⊆ tr' → matched dep tr ds → matched dep tr' ds.
Proof.
  intros Hs. unfold matched. destruct (negb _).
  - intros (a & H & ? & ?). exists a. eauto.
  - destruct (dep_selector dep); [by apply listed_mono|done].
Qed.

(** Calls of a reconciliation before it gives the deployment up. *)
Definition step_op (name : string) (o : api_op) : Prop := read_op o ∨ frame name o.

(** What a reconciliation of the devices of [dep] has done when it ends. *)
Definition reconciled (dep : EdgeDeployment) (tr : list api_event)
    (out : outcome (Result * option error)) : Prop :=
  match out with
  | Crashed _ => False
  | Returned (res, Some _) => res = requeue ∧ Forall (step_op (dep_name dep)) (ev_op <$> tr)
  | Returned (res, None) => res = no_requeue ∧ ∃ labelled matching,
      listed (workload_selector (dep_name dep)) (dep_namespace dep) tr labelled ∧
      matched dep tr matching ∧
      match DeletionTimestamp (EdgeDeployment_Meta dep) with
      | Some _ =>
          if HasFinalizer (EdgeDeployment_Meta dep) YggdrasilDeviceReferenceFinalizer then
            ∃ tr' a, tr = tr' ++ [Ev (S := api) (PatchEdgeDeployment dep (finalizer_removal dep)) a] ∧
              Forall (step_op (dep_name dep)) (ev_op <$> tr') ∧
              Forall (λ d, removed (dep_name dep) d tr') (merge matching labelled)
          else Forall read_op (ev_op <$> tr)
      | None =>
          Forall (step_op (dep_name dep)) (ev_op <$> tr) ∧
          Forall (λ d, added (dep_name dep) d tr) matching ∧
          Forall (λ d, device_name d ∉ device_name <$> matching → removed (dep_name dep) d tr) labelled
      end
  end.

Section reconcile.
Context {R : EdgeDeviceRepository} {L : EdgeDeviceRepositoryLaws R}.
Context {DR : EdgeDeploymentRepository} {DL : EdgeDeploymentRepositoryLaws DR}.
Context (Concurrency : Z) (HC : (0 < Concurrency < 2 ^ 63)%Z).

Lemma getLabelledEdgeDevices_wp name ns :
  wp (getLabelledEdgeDevices name ns) (λ tr out, Forall read_op (ev_op <$> tr) ∧
    match out with
    | Returned (Ok ds) => listed (workload_selector name) ns tr ds
    | Returned (Err e) => IsNotFound e = true → listed (workload_selector name) ns tr []
    | Crashed _ => False
    end).
Proof.
  apply ListForSelector_law; fold (workload_selector name).
  - intros e He. split; [constructor|]. intros Hn. exfalso.
    eapply LabelSelectorAsSelector_error in He. congruence.
  - intros s r Hs. split; [by repeat constructor|]. destruct r as [ds|e].
    + exists s, (Ok ds). split_and!; [done|left|done|done].
    + intros Hn. exists s, (Err e). split_and!; [done|left|done|]. eauto.
Qed.

Lemma getMatchingEdgeDevices_wp dep :
  wp (getMatchingEdgeDevices dep) (λ tr out, Forall read_op (ev_op <$> tr) ∧
    match out with
    | Returned (Ok ds) => matched dep tr ds
    | Returned (Err e) => IsNotFound e = true → matched dep tr []
    | Crashed _ => False
    end).
Proof.
  unfold getMatchingEdgeDevices, matched. destruct (negb _).
  - apply wp_bind_ok, Read_law. intros [d|e]; simpl; (split; [by repeat constructor|]).
    + eexists. split; [left|]. split; [done|]. by intros e.
    + intros Hn. eexists. split; [left|]. split; [done|]. by intros e' [= <-].
  - destruct (dep_selector dep) as [sel|]; [|by split; [constructor|]].
    apply ListForSelector_law.
    + intros e He. split; [constructor|]. intros Hn. exfalso.
      eapply LabelSelectorAsSelector_error in He. congruence.
    + intros s r Hs. split; [by repeat constructor|]. destruct r as [ds|e].
      * exists s, (Ok ds). split_and!; [done|left|done|done].
      * intros Hn. exists s, (Err e). split_and!; [done|left|done|]. eauto.
Qed.

Lemma step_op_read name (tr : list api_event) :
  Forall read_op (ev_op <$> tr) → Forall (step_op name) (ev_op <$> tr).
Proof. intros H. eapply Forall_impl; [exact H|]. by left. Qed.

Lemma step_op_frame name (tr : list api_event) :
  Forall (frame name) (ev_op <$> tr) → Forall (step_op name) (ev_op <$> tr).
Proof. intros H. eapply Forall_impl; [exact H|]. by right. Qed.

Lemma steps_app P (tr tr' : list api_event) :
  Forall P (ev_op <$> tr) → Forall P (ev_op <$> tr') → Forall P (ev_op <$> (tr ++ tr')).
Proof. intros. rewrite fmap_app. by apply Forall_app_2. Qed.

#[local] Hint Resolve step_op_read step_op_frame steps_app : core.

Lemma settle_wp dep tr0 labelled matching :
  Forall read_op (ev_op <$> tr0) →
  listed (workload_selector (dep_name dep)) (dep_namespace dep) tr0 labelled →
  matched dep tr0 matching →
  wp (settle Concurrency dep labelled matching) (λ tr out, reconciled dep (tr0 ++ tr) out).
Proof.
  intros Hr Hl Hm. unfold settle, reconciled. destruct (DeletionTimestamp _) as [ts|].
  - destruct (HasFinalizer _ _).
    2:{ simpl. rewrite app_nil_r. eauto 10. }
    apply wp_bind. eapply wp_mono; [by apply finalizeRemoval_wp|].
    intros tr [[e|]|c] Hout; simpl; rewrite ?app_nil_r; [by auto| |done].
    destruct Hout as (tr' & a & -> & Hf & Hrm). split; [done|]. exists labelled, matching.
    split_and!; [by eauto using listed_mono|by eauto using matched_mono|].
    exists (tr0 ++ tr'), a. split_and!; [by rewrite app_assoc|by auto|].
    eapply Forall_impl; [done|]. intros d. by apply removed_mono; auto.
  - apply wp_bind. eapply wp_mono; [by apply addDeploymentsToDevices_wp|].
    intros tr [[e|]|c] [Hf Hadd]; simpl; rewrite ?app_nil_r; [by auto| |done].
    apply wp_bind. eapply wp_mono; [by apply removeDeploymentFromNonMatchingDevices_wp|].
    intros tr' [[e|]|c] [Hf' Hrm]; simpl; rewrite ?app_nil_r; [by auto 8| |done].
    split; [done|]. exists labelled, matching.
    split_and!; [by eauto using listed_mono|by eauto using matched_mono|by auto 8|..].
    + eapply Forall_impl; [done|]. intros d. apply added_mono. set_solver.
    + eapply Forall_impl; [done|]. simpl. intros d H Hd. eapply removed_mono; [|by apply H]. set_solver.
Qed.

(** What [tolerate] makes of an answer whose "not found" means the empty list. *)
Lemma tolerate_cases (P : list EdgeDevice → Prop) r :
  match r with Ok ds => P ds | Err e => IsNotFound e = true → P [] end →
  (∃ ds, tolerate r = Ok ds ∧ P ds) ∨ (∃ e, tolerate r = Err e).
Proof.
  destruct r as [ds|e]; simpl; [by eauto|]. destruct (IsNotFound e); eauto.
Qed.

Lemma reconcile_devices_wp dep : wp (reconcile_devices Concurrency dep) (reconciled dep).
Proof.
  unfold reconcile_devices. apply wp_bind. eapply wp_mono; [apply getLabelledEdgeDevices_wp|].
  intros tr [a|c] [Hr Hl]; [|done].
  destruct (tolerate_cases _ a Hl) as [(labelled & -> & Hl')|[e ->]].
  2:{ simpl. rewrite app_nil_r. auto. }
  apply wp_bind. eapply wp_mono; [apply getMatchingEdgeDevices_wp|].
  intros tr' [b|c] [Hr' Hm]; [|done].
  destruct (tolerate_cases _ b Hm) as [(matching & -> & Hm')|[e ->]].
  2:{ simpl. rewrite app_nil_r. auto. }
  eapply wp_mono; [apply (settle_wp dep (tr ++ tr') labelled matching); auto|].
  - by eauto using listed_mono.
  - by eauto using matched_mono.
  - intros tr'' out. by rewrite app_assoc.
Qed.
End reconcile.

(** The deployment's labels are not those its selector asks for. *)
Definition stale (dep : EdgeDeployment) : bool :=
  let newLabels := dep_labels (update_selector_labels dep) in
  negb (bool_decide (map_of newLabels = ∅ ∧ dep_labels dep = None)
        || bool_decide (newLabels = dep_labels dep)).

(** Which of its phases [Reconcile] is in for the deployment it read. *)
Inductive phase := SetFinalizer | SetLabels | Devices.

Definition phase_of (dep : EdgeDeployment) : phase :=
  match DeletionTimestamp (EdgeDeployment_Meta dep) with
  | Some _ => Devices
  | None =>
      if negb (HasFinalizer (EdgeDeployment_Meta dep) YggdrasilDeviceReferenceFinalizer)
      then SetFinalizer else if stale dep then SetLabels else Devices
  end.

(** The error a patch answers. *)
Definition error_of {A} (a : result A) : option error :=
  match a with Ok _ => None | Err e => Some e end.

(** What a reconciliation that read [dep] goes on to do. *)
Definition phase_post (dep : EdgeDeployment) (tr : list api_event)
    (out : outcome (Result * option error)) : Prop :=
  match phase_of dep with
  | SetFinalizer => ∃ a,
      tr = [Ev (S := api) (PatchEdgeDeployment dep
              (dep_set_finalizers [YggdrasilDeviceReferenceFinalizer] dep)) a] ∧
      out = Returned (requeue, error_of a)
  | SetLabels => ∃ a,
      tr = [Ev (S := api) (PatchEdgeDeployment dep (update_selector_labels dep)) a] ∧
      out = Returned (if is_ok a then no_requeue else requeue, error_of a)
  | Devices => reconciled dep tr out
  end.

Section theorems.
Context {R : EdgeDeviceRepository} {L : EdgeDeviceRepositoryLaws R}.
Context {DR : EdgeDeploymentRepository} {DL : EdgeDeploymentRepositoryLaws DR}.
Context (Concurrency : Z) (HC : (0 < Concurrency < 2 ^ 63)%Z).

Lemma Reconcile_wp req :
  wp (Reconcile Concurrency req) (λ tr out, ∃ r tr',
    tr = Ev (S := api) (GetEdgeDeployment (req_Namespace req) (req_Name req)) r :: tr' ∧
    match r with
    | Err e => tr' = [] ∧
        out = Returned (if IsNotFound e then (no_requeue, None) else (requeue, Some e))
    | Ok dep => phase_post dep tr' out
    end).
Proof.
  unfold Reconcile. apply wp_bind, dep_Read_law. intros [dep|e].
  2:{ simpl. destruct (IsNotFound e) eqn:E; simpl; exists (Err e), []; by rewrite E. }
  eapply wp_mono with (Q := phase_post dep); [|by intros tr out H; exists (Ok dep), tr].
  unfold phase_post, phase_of. destruct (DeletionTimestamp _) as [ts|]; [by apply reconcile_devices_wp|].
  destruct (negb (HasFinalizer _ _)).
  - apply wp_bind, dep_Patch_law. intros [d|e]; [by exists (Ok d)|by exists (Err e)].
  - apply wp_bind. unfold updateLabelsFromSelector, stale. destruct (_ || _); simpl.
    + by apply reconcile_devices_wp.
    + apply wp_bind, dep_Patch_law. intros [d|e]; [by exists (Ok d)|by exists (Err e)].
Qed.

(** The deployment is put in order before any device is touched. If a deployment
    that is not being deleted lacks the finalizer, the reconciliation sends
    exactly one patch, which sets the list of finalizers to this one finalizer
    (finalizers of others are dropped), and asks to be run again; and whenever
    it writes to a device, the deployment had the finalizer and its selector
    labels were up to date. *)
Theorem Reconcile_deployment_first req :
  wp (Reconcile Concurrency req) (λ tr out, ∃ r tr',
    tr = Ev (S := api) (GetEdgeDeployment (req_Namespace req) (req_Name req)) r :: tr' ∧
    ∀ dep, r = Ok dep → DeletionTimestamp (EdgeDeployment_Meta dep) = None →
      (HasFinalizer (EdgeDeployment_Meta dep) YggdrasilDeviceReferenceFinalizer = false →
         ∃ a, tr' = [Ev (S := api) (PatchEdgeDeployment dep
                (dep_set_finalizers [YggdrasilDeviceReferenceFinalizer] dep)) a] ∧
              out = Returned (requeue, error_of a)) ∧
      (Exists (λ o, is_device_write o = true) (ev_op <$> tr') →
         HasFinalizer (EdgeDeployment_Meta dep) YggdrasilDeviceReferenceFinalizer = true ∧
         stale dep = false)).
Proof.
  eapply wp_mono; [apply Reconcile_wp|]. intros tr out (r & tr' & -> & Hr).
  exists r, tr'. split; [done|]. intros dep -> Hd.
  unfold phase_post, phase_of in Hr. rewrite Hd in Hr.
  destruct (HasFinalizer _ _); simpl in *; (split; [done|]).
  - destruct (stale dep); [|done]. destruct Hr as (a & -> & _). by intros [?|Hn%Exists_nil]%Exists_cons.
  - destruct Hr as (a & -> & _). by intros [?|Hn%Exists_nil]%Exists_cons.
Qed.

(** The only writes of a reconciliation of a deployment under deletion are the
    removals, and the finalizer goes last. *)
Lemma reconciled_deletion dep ts tr out :
  DeletionTimestamp (EdgeDeployment_Meta dep) = Some ts → reconciled dep tr out →
  Forall (step_op (dep_name dep)) (ev_op <$> tr) ∨
  ∃ tr' a labelled matching,
    tr = tr' ++ [Ev (S := api) (PatchEdgeDeployment dep (finalizer_removal dep)) a] ∧
    Forall (step_op (dep_name dep)) (ev_op <$> tr') ∧
    listed (workload_selector (dep_name dep)) (dep_namespace dep) tr labelled ∧
    matched dep tr matching ∧
    Forall (λ d, removed (dep_name dep) d tr') (merge matching labelled).
Proof.
  unfold reconciled. intros Hd. destruct out as [[res [e|]]|c]; [by intros [_ ?]; left| |done].
  rewrite Hd. intros (_ & labelled & matching & Hl & Hm & H). destruct (HasFinalizer _ _).
  - right. destruct H as (tr' & a & -> & Hf & Hr). eauto 10.
  - left. by apply step_op_read.
Qed.

(** C14: The end of a deployment. While it is being deleted the deployment itself is
    patched only to drop the finalizer, as the very last call, and only after
    the server accepted the removal of the deployment from every device that
    carries its label or that it is meant for; so no device is left behind. When
    the controller reports success for a deployment that has the finalizer, this
    patch was sent. *)
Theorem Reconcile_deletion req :
  wp (Reconcile Concurrency req) (λ tr out, ∃ r tr',
    tr = Ev (S := api) (GetEdgeDeployment (req_Namespace req) (req_Name req)) r :: tr' ∧
    ∀ dep ts, r = Ok dep → DeletionTimestamp (EdgeDeployment_Meta dep) = Some ts →
      (∀ from new, PatchEdgeDeployment from new ∈ ev_op <$> tr' →
         ∃ before a labelled matching,
           tr' = before ++ [Ev (S := api) (PatchEdgeDeployment dep (finalizer_removal dep)) a] ∧
           from = dep ∧ new = finalizer_removal dep ∧
           listed (workload_selector (dep_name dep)) (dep_namespace dep) tr' labelled ∧
           matched dep tr' matching ∧
           Forall (λ d, removed (dep_name dep) d before) (merge matching labelled)) ∧
      (out = Returned (no_requeue, None) →
         HasFinalizer (EdgeDeployment_Meta dep) YggdrasilDeviceReferenceFinalizer = true →
         PatchEdgeDeployment dep (finalizer_removal dep) ∈ ev_op <$> tr')).
Proof.
  eapply wp_mono; [apply Reconcile_wp|]. intros tr out (r & tr' & -> & Hr).
  exists r, tr'. split; [done|]. intros dep ts -> Hd.
  unfold phase_post, phase_of in Hr. rewrite Hd in Hr. split.
  - intros from new Hin. apply (reconciled_deletion _ ts) in Hr; [|done].
    assert (Hno : ∀ tr, PatchEdgeDeployment from new ∈ ev_op (S := api) <$> tr →
                        ¬ Forall (step_op (dep_name dep)) (ev_op <$> tr)).
    { intros tr0 Hin0 Hf. rewrite Forall_forall in Hf. by destruct (Hf _ Hin0). }
    destruct Hr as [Hf|(before & a & labelled & matching & -> & Hf & Hl & Hm & Hr)];
      [by destruct (Hno _ Hin)|].
    rewrite fmap_app in Hin. apply elem_of_app in Hin as [Hin|Hin]; [by destruct (Hno _ Hin)|].
    apply list_elem_of_singleton in Hin as [= -> ->]. exists before, a, labelled, matching.
    split_and!; done.
  - intros -> HF. destruct Hr as (_ & labelled & matching & _ & _ & H). rewrite Hd, HF in H.
    destruct H as (tr0 & a & -> & _). rewrite fmap_app. apply elem_of_app. right. left.
Qed.

(** What success of the deployment controller means. When it reports success for a
    deployment that is not being deleted and whose selector labels are in place,
    the API server had answered which devices carry the label of the deployment
    and which devices it is meant for (one device by name, or the devices its
    selector matches, in its namespace); and for every device it is meant for
    the server accepted the status entry and the label that were missing, and
    for every labelled device it is not meant for the server accepted their
    removal. This holds for every interleaving of the goroutines and every
    answer of the server. *)
Theorem Reconcile_success req :
  wp (Reconcile Concurrency req) (λ tr out, ∃ r tr',
    tr = Ev (S := api) (GetEdgeDeployment (req_Namespace req) (req_Name req)) r :: tr' ∧
    ∀ dep, r = Ok dep → DeletionTimestamp (EdgeDeployment_Meta dep) = None → stale dep = false →
      out = Returned (no_requeue, None) →
      ∃ labelled matching,
        listed (workload_selector (dep_name dep)) (dep_namespace dep) tr' labelled ∧
        matched dep tr' matching ∧
        (∀ d, d ∈ matching → added (dep_name dep) d tr') ∧
        (∀ d, d ∈ labelled → device_name d ∉ device_name <$> matching → removed (dep_name dep) d tr')).
Proof.
  eapply wp_mono; [apply Reconcile_wp|]. intros tr out (r & tr' & -> & Hr).
  exists r, tr'. split; [done|]. intros dep -> Hd Hs ->.
  unfold phase_post, phase_of in Hr. rewrite Hd, Hs in Hr.
  destruct (HasFinalizer _ _); simpl in Hr; [|by destruct Hr as (a & _ & [=])].
  destruct Hr as (_ & labelled & matching & Hl & Hm & H). rewrite Hd in H.
  destruct H as (_ & Ha & Hr). rewrite Forall_forall in Ha, Hr. eauto 10.
Qed.

(** C15: What a reconciliation leaves alone. It never crashes; after reading the
    deployment it only lists and reads devices, patches the deployment without
    touching its specification, and patches devices in a way that changes
    nothing but the status entry or the workload label of this deployment: the
    entries of other deployments keep their order and contents, and every other
    label its value. *)
Theorem Reconcile_frame req :
  wp (Reconcile Concurrency req) (λ tr out, is_returned out = true ∧ ∃ r tr',
    tr = Ev (S := api) (GetEdgeDeployment (req_Namespace req) (req_Name req)) r :: tr' ∧
    Forall (λ o, read_op o ∨ ∃ dep, r = Ok dep ∧
      (frame (dep_name dep) o ∨
       ∃ new, o = PatchEdgeDeployment dep new ∧
         EdgeDeployment_Spec new = EdgeDeployment_Spec dep)) (ev_op <$> tr')).
Proof.
  eapply wp_mono; [apply Reconcile_wp|]. intros tr out (r & tr' & -> & Hr).
  destruct r as [dep|e]; [|by destruct Hr as [-> ->]; destruct (IsNotFound e);
                            (split; [done|]); do 2 eexists; (split; [done|]); constructor].
  assert (Hstep : ∀ tr, Forall (step_op (dep_name dep)) (ev_op <$> tr) →
    Forall (λ o, read_op o ∨ ∃ dep', Ok dep = Ok dep' ∧
      (frame (dep_name dep') o ∨ ∃ new, o = PatchEdgeDeployment dep' new ∧
         EdgeDeployment_Spec new = EdgeDeployment_Spec dep')) (ev_op (S := api) <$> tr)).
  { intros tr0 Hf. eapply Forall_impl; [exact Hf|]. intros o [?|?]; eauto 6. }
  assert (Hone : ∀ new (a : result EdgeDeployment), EdgeDeployment_Spec new = EdgeDeployment_Spec dep →
    Forall (λ o, read_op o ∨ ∃ dep', Ok dep = Ok dep' ∧
      (frame (dep_name dep') o ∨ ∃ new, o = PatchEdgeDeployment dep' new ∧
         EdgeDeployment_Spec new = EdgeDeployment_Spec dep'))
      (ev_op <$> [Ev (S := api) (PatchEdgeDeployment dep new) a])).
  { intros new a Hn. constructor; [|constructor]. right. eauto 8. }
  unfold phase_post in Hr. destruct (phase_of dep).
  - destruct Hr as (a & -> & ->). split; [done|]. do 2 eexists. split; [done|]. by apply Hone.
  - destruct Hr as (a & -> & ->). split; [done|]. do 2 eexists. split; [done|]. by apply Hone.
  - unfold reconciled in Hr. destruct out as [[res [e|]]|c]; [..|done]; (split; [done|]);
      do 2 eexists; (split; [done|]).
    + destruct Hr as [_ Hr]. by apply Hstep.
    + destruct Hr as (_ & labelled & matching & _ & _ & H). destruct (DeletionTimestamp _).
      * destruct (HasFinalizer _ _).
        -- destruct H as (before & a & -> & Hf & _). apply steps_app; [by apply Hstep|by apply Hone].
        -- by apply Hstep, step_op_read.
      * destruct H as [H _]. by apply Hstep.
Qed.
End theorems.

(** ** Selector labels *)

(** The selector labels a deployment should carry, whatever it carries now. *)
Definition selector_labels (dep : EdgeDeployment) : labelmap :=
  if negb (String.eqb (dep_device dep) "")
  then {[CreateSelectorLabel DeviceNameLabel := dep_device dep]}
  else
    match dep_selector dep with
    | None => ∅
    | Some s =>
        gset_to_gmap "true"
          (list_to_set ((CreateSelectorLabel <$> (map_to_list (MatchLabels s)).*1) ++
                        (requirement_label <$> MatchExpressions s)))
    end.

Lemma foldl_set_true m ls k :
  foldl set_true m ls !! k = if decide (k ∈ ls) then Some "true"%string else m !! k.
Proof.
  revert m; induction ls as [|l ls IH]; intros m; simpl; [done|]. rewrite IH. unfold set_true.
  destruct (decide (k ∈ ls)), (decide (k ∈ l :: ls)) as [Hin|Hin]; rewrite elem_of_cons in Hin;
    try done; [tauto| |].
  - destruct Hin as [->|]; [|done]. by rewrite lookup_insert_eq.
  - rewrite lookup_insert_ne; [done|]. intros ->. tauto.
Qed.

Lemma requirement_label_selector r : IsSelectorLabel (requirement_label r) = true.
Proof. unfold requirement_label. case_decide; apply IsSelectorLabel_CreateSelectorLabel. Qed.

Lemma selector_labels_selector dep k v :
  selector_labels dep !! k = Some v → IsSelectorLabel k = true.
Proof.
  unfold selector_labels. destruct (negb _).
  - intros [<- _]%lookup_singleton_Some. apply IsSelectorLabel_CreateSelectorLabel.
  - destruct (dep_selector dep) as [s|]; [|done]. rewrite lookup_gset_to_gmap_Some, elem_of_list_to_set.
    intros [Hin _]. apply elem_of_app in Hin as [(l & -> & _)%list_elem_of_fmap|(r & -> & _)%list_elem_of_fmap].
    + apply IsSelectorLabel_CreateSelectorLabel.
    + apply requirement_label_selector.
Qed.

(** The new labels: the selector labels over the labels of other kinds. *)
Lemma update_selector_labels_union dep :
  dep_labels (update_selector_labels dep) =
  Some (selector_labels dep ∪ filter (λ kv, IsSelectorLabel kv.1 = false) (map_of (dep_labels dep))).
Proof.
  unfold update_selector_labels, selector_labels. cbv zeta.
  match goal with |- dep_labels (dep_set_labels ?l dep) = ?r => change (l = r) end. f_equal.
  set (rest := filter _ _). destruct (negb _); [by rewrite <- insert_union_singleton_l|].
  destruct (dep_selector dep) as [s|]; [|by rewrite (left_id (∅ : labelmap) (∪))].
  apply map_eq. intros k. rewrite !foldl_set_true, lookup_union.
  set (ls := CreateSelectorLabel <$> _). set (rs := requirement_label <$> _).
  destruct (decide (k ∈ ls ++ rs)) as [Hin|Hin].
  - rewrite (proj2 (lookup_gset_to_gmap_Some _ _ _ _)) by (split; [by apply elem_of_list_to_set|done]).
    rewrite elem_of_app in Hin. rewrite union_Some_l. repeat case_decide; naive_solver.
  - rewrite (proj2 (lookup_gset_to_gmap_None _ _ _)) by (by rewrite elem_of_list_to_set).
    rewrite elem_of_app in Hin. rewrite (left_id None (∪)). repeat case_decide; naive_solver.
Qed.

Lemma update_selector_labels_lookup dep k :
  map_of (dep_labels (update_selector_labels dep)) !! k =
    if IsSelectorLabel k then selector_labels dep !! k else map_of (dep_labels dep) !! k.
Proof.
  rewrite update_selector_labels_union. simpl. rewrite lookup_union.
  destruct (selector_labels dep !! k) as [v|] eqn:E.
  - rewrite (selector_labels_selector dep k v E). by rewrite union_Some_l.
  - rewrite (left_id None (∪)). destruct (IsSelectorLabel k) eqn:Ek.
    + apply map_lookup_filter_None. right. simpl. intros x _ H. congruence.
    + destruct (map_of (dep_labels dep) !! k) as [v|] eqn:El.
      * by apply map_lookup_filter_Some.
      * apply map_lookup_filter_None. by left.
Qed.

Lemma UpdateSelectorLabels_settles dep :
  update_selector_labels (update_selector_labels dep) = update_selector_labels dep ∧
  stale (update_selector_labels dep) = false.
Proof.
  set (new := update_selector_labels dep).
  assert (Hl : dep_labels (update_selector_labels new) = dep_labels new).
  { assert (map_of (dep_labels (update_selector_labels new)) = map_of (dep_labels new)) as Hm.
    { apply map_eq. intros k. rewrite update_selector_labels_lookup. destruct (IsSelectorLabel k) eqn:E.
      - unfold new. by rewrite update_selector_labels_lookup, E.
      - done. }
    rewrite update_selector_labels_union in *. unfold new in *.
    rewrite (update_selector_labels_union dep) in *. simpl in *. by rewrite Hm. }
  split.
  - change (dep_set_labels (dep_labels (update_selector_labels new)) new = new).
    rewrite Hl. unfold dep_set_labels, dep_set_meta, meta_set_labels. by destruct new as [[]].
  - unfold stale. by rewrite Hl, (bool_decide_eq_true_2 _ eq_refl), orb_true_r.
Qed.

(** The selector labels of a deployment. After an update the selector labels are
    exactly those of its target (its device's name, or else every key of the
    selector, with one common label for all requirements that a label be
    absent), the labels of other kinds are as before and nothing else of the
    deployment changed; a second update changes nothing, and the reconciler then
    sees no reason to patch. *)
Theorem UpdateSelectorLabels_spec dep :
  let new := update_selector_labels dep in
  (∀ k, map_of (dep_labels new) !! k =
     if IsSelectorLabel k then selector_labels dep !! k else map_of (dep_labels dep) !! k) ∧
  new = dep_set_labels (dep_labels new) dep ∧
  update_selector_labels new = new ∧ stale new = false.
Proof.
  intros new. split; [apply update_selector_labels_lookup|]. split; [done|].
  apply UpdateSelectorLabels_settles.
Qed.

(** ** Examples *)
Definition example_selector : LabelSelector := mkLabelSelector {["zone" := "a"]} [].
Definition example_deployment : EdgeDeployment :=
  some_deployment "d" "ns" {["selector/zone" := "true"]} [YggdrasilDeviceReferenceFinalizer]
    (Some example_selector) "".
Definition example_cluster : cluster :=
  put_deployment example_deployment
    (put_device (some_device "in" "ns" {["zone" := "a"]})
      (put_device (some_device "out" "ns" {[WorkloadLabel "d" := "true"]}) empty_cluster)).
Definition example_request : Request := mkRequest "d" "ns".

Definition fresh_deployment : EdgeDeployment := some_deployment "d" "ns" ∅ [] (Some example_selector) "".
Definition deleted_deployment : EdgeDeployment :=
  dep_set_meta (mkObjectMeta "d" "ns" "1" (Some {["selector/zone" := "true"]})
    [YggdrasilDeviceReferenceFinalizer] (Some 7%Z)) example_deployment.

Lemma Reconcile_deployment_first_witness :
  trace_of (Reconcile 5 example_request) (put_deployment fresh_deployment empty_cluster) =
    [GetEdgeDeployment "ns" "d";
     PatchEdgeDeployment fresh_deployment
       (dep_set_finalizers [YggdrasilDeviceReferenceFinalizer] fresh_deployment)] ∧
  wp (Reconcile 5 example_request) (λ tr out, ∃ r tr',
    tr = Ev (S := api) (GetEdgeDeployment "ns" "d") r :: tr' ∧
    (r = Ok fresh_deployment → ∃ a,
       tr' = [Ev (S := api) (PatchEdgeDeployment fresh_deployment
                (dep_set_finalizers [YggdrasilDeviceReferenceFinalizer] fresh_deployment)) a] ∧
       out = Returned (requeue, error_of a))).
Proof.
  split; [vm_compute; reflexivity|].
  eapply wp_mono; [apply (Reconcile_deployment_first 5 ltac:(lia) example_request)|].
  intros tr out (r & tr' & -> & H). exists r, tr'. split; [done|]. intros ->.
  by apply (H _ eq_refl eq_refl).
Defined.

Lemma Reconcile_deletion_witness :
  map (λ d, hasLabelForDeployment d "d") (map_to_list (devices (cluster_of (Reconcile 5 example_request)
    (put_deployment deleted_deployment example_cluster)))).*2 = [false; false] ∧
  wp (Reconcile 5 example_request) (λ tr out, ∃ r tr',
    tr = Ev (S := api) (GetEdgeDeployment "ns" "d") r :: tr' ∧
    (r = Ok deleted_deployment → out = Returned (no_requeue, None) →
     PatchEdgeDeployment deleted_deployment (finalizer_removal deleted_deployment) ∈ ev_op <$> tr')).
Proof.
  split; [vm_compute; reflexivity|].
  eapply wp_mono; [apply (Reconcile_deletion 5 ltac:(lia) example_request)|].
  intros tr out (r & tr' & -> & H). exists r, tr'. split; [done|]. intros -> Hout.
  by apply (H _ 7%Z eq_refl eq_refl).
Defined.

Lemma Reconcile_success_witness :
  outcome_of (Reconcile 5 example_request) example_cluster = Returned (no_requeue, None) ∧
  wp (Reconcile 5 example_request) (λ tr out, ∃ r tr',
    tr = Ev (S := api) (GetEdgeDeployment "ns" "d") r :: tr' ∧
    (r = Ok example_deployment → out = Returned (no_requeue, None) →
     ∃ matching, matched example_deployment tr' matching ∧ ∀ d, d ∈ matching → added "d" d tr')).
Proof.
  split; [vm_compute; reflexivity|].
  eapply wp_mono; [apply (Reconcile_success 5 ltac:(lia) example_request)|].
  intros tr out (r & tr' & -> & H). exists r, tr'. split; [done|]. intros -> Hout.
  destruct (H _ eq_refl eq_refl ltac:(vm_compute; reflexivity) Hout) as (_ & matching & _ & Hm & Ha & _).
  by exists matching.
Defined.

Lemma Reconcile_frame_witness :
  trace_of (Reconcile 1 (mkRequest "gone" "ns")) example_cluster = [GetEdgeDeployment "ns" "gone"] ∧
  wp (Reconcile 1 (mkRequest "gone" "ns")) (λ tr out, is_returned out = true).
Proof.
  split; [vm_compute; reflexivity|].
  eapply wp_mono; [apply (Reconcile_frame 1 ltac:(lia) (mkRequest "gone" "ns"))|]. by intros tr out [? _].
Defined.
