(* ===== verification/Convergence.v ===== *)
(** * The deployment controller converges

    The state-level counterpart of [EdgeDeploymentController]: in every world
    that keeps the laws of [ApiServer], a successful reconciliation leaves the
    deployment on exactly the devices it is meant for. The goroutines of the
    controller share the world; [allowed] is the guarantee each of them gives
    and the others rely on. *)
From S2P Require Import Prelude Effects Interleave Rely K8s Labels Utils V1alpha1 Calls ApiServer Server Repositories Concurrent EdgeDeploymentController.
Import v1alpha1.

(** ** The abstract specification *)

(** The devices a deployment is meant for, by name or by selector. *)
Definition meant_for (dep : EdgeDeployment) (d : EdgeDevice) : bool :=
  String.eqb (device_namespace d) (dep_namespace dep) &&
  if negb (String.eqb (dep_device dep) "") then String.eqb (device_name d) (dep_device dep)
  else
    match dep_selector dep with
    | None => false
    | Some _ =>
        match LabelSelectorAsSelector (dep_selector dep) with
        | Ok s => sel_matches s (map_of (device_labels d))
        | Err _ => false
        end
    end.

(** The devices that carry the label of a deployment. *)
Definition labelled (dep : EdgeDeployment) (d : EdgeDevice) : bool :=
  String.eqb (device_namespace d) (dep_namespace dep) &&
  bool_decide (map_of (device_labels d) !! WorkloadLabel (dep_name dep) = Some "true"%string).

(** Entry and label. *)
Definition on_device (name : string) (d : EdgeDevice) : Prop :=
  hasDeployment d name = true ∧ hasLabelForDeployment d name = true.
Definition off_device (name : string) (d : EdgeDevice) : Prop :=
  hasDeployment d name = false ∧ hasLabelForDeployment d name = false.

(** All but the entry and the label of one deployment. *)
Definition other_deployments (name : string) (d : EdgeDevice) : list Deployment :=
  filter (λ x, Deployment_Name x ≠ name) (device_deployments d).
Definition other_labels (name : string) (d : EdgeDevice) : labelmap :=
  delete (WorkloadLabel name) (map_of (device_labels d)).

(** What a device may turn into: [keep] says whether the deployment belongs on
    it, [touch] whether the controller deals with it. *)
Record allowed (name : string) (keep touch : Prop) (d d' : EdgeDevice) : Prop := {
  al_key : key_of d' = key_of d;
  al_entry : keep → hasDeployment d name = true → hasDeployment d' name = true;
  al_label : keep → hasLabelForDeployment d name = true → hasLabelForDeployment d' name = true;
  al_no_entry : ¬ keep → hasDeployment d name = false → hasDeployment d' name = false;
  al_no_label : ¬ keep → hasLabelForDeployment d name = false → hasLabelForDeployment d' name = false;
  al_deployments : other_deployments name d' = other_deployments name d;
  al_labels : other_labels name d' = other_labels name d;
  al_untouched : ¬ touch → d' = d;
}.

#[export] Instance allowed_preorder name keep touch : PreOrder (allowed name keep touch).
Proof.
  split; [by split|]. intros d1 d2 d3 [] []. split; try congruence; intuition congruence.
Qed.

(** Two stores with the same keys, related device by device. *)
Definition stores (R : key → EdgeDevice → EdgeDevice → Prop) (m m' : gmap key EdgeDevice) : Prop :=
  ∀ k, match m !! k, m' !! k with
       | Some d, Some d' => R k d d'
       | None, None => True
       | _, _ => False
       end.

Lemma stores_preorder R : (∀ k, PreOrder (R k)) → PreOrder (stores R).
Proof.
  intros HR. split.
  - intros m k. by destruct (m !! k).
  - intros m1 m2 m3 H12 H23 k. specialize (H12 k); specialize (H23 k).
    destruct (m1 !! k), (m2 !! k), (m3 !! k); try done. by etrans.
Qed.

Lemma stores_lookup R m m' k d : stores R m m' → m !! k = Some d → ∃ d', m' !! k = Some d' ∧ R k d d'.
Proof. intros H Hk. specialize (H k). rewrite Hk in H. destruct (m' !! k) as [d'|]; [eauto|done]. Qed.

Lemma stores_insert R m k d d' :
  (∀ k, PreOrder (R k)) → m !! k = Some d → R k d d' → stores R m (<[k := d']> m).
Proof.
  intros HR Hk Hd k'. destruct (decide (k' = k)) as [->|Hne].
  - by rewrite lookup_insert_eq, Hk.
  - rewrite lookup_insert_ne by done. by destruct (m !! k').
Qed.

(** ** The goroutines *)
Section tasks.
Context {W : Type} `{AS : ApiServer W} {AL : ApiServerLaws W}.
Context (name : string) (keep touch : key → Prop).

Definition G (w w' : W) : Prop :=
  stores (λ k, allowed name (keep k) (touch k)) (devices_of w) (devices_of w').

#[export] Instance G_preorder : PreOrder G.
Proof.
  assert (HP : PreOrder (stores (λ k, allowed name (keep k) (touch k))))
    by (apply stores_preorder; intros k; apply _).
  split; [intros w; unfold G; reflexivity|]. intros w1 w2 w3. unfold G. apply transitivity.
Qed.

Lemma G_same w w' : devices_of w' = devices_of w → G w w'.
Proof. intros E. assert (G w w) as H by reflexivity. unfold G in *. by rewrite E. Qed.

Lemma G_lookup w w' k d :
  G w w' → devices_of w !! k = Some d →
  ∃ d', devices_of w' !! k = Some d' ∧ allowed name (keep k) (touch k) d d'.
Proof. apply stores_lookup. Qed.

Lemma G_insert w w' k d d' :
  devices_of w !! k = Some d → devices_of w' = <[k := d']> (devices_of w) →
  allowed name (keep k) (touch k) d d' → G w w'.
Proof. intros Hk E Hal. unfold G. rewrite E. eapply stores_insert; [intros; apply _|done|done]. Qed.

(** The right presence of the deployment on a device. *)
Definition entry_right (k : key) (d : EdgeDevice) : Prop :=
  (keep k → hasDeployment d name = true) ∧ (¬ keep k → hasDeployment d name = false).
Definition label_right (k : key) (d : EdgeDevice) : Prop :=
  (keep k → hasLabelForDeployment d name = true) ∧ (¬ keep k → hasLabelForDeployment d name = false).

Lemma entry_right_allowed k d d' : allowed name (keep k) (touch k) d d' → entry_right k d → entry_right k d'.
Proof. intros [] []. split; auto. Qed.
Lemma label_right_allowed k d d' : allowed name (keep k) (touch k) d d' → label_right k d → label_right k d'.
Proof. intros [] []. split; auto. Qed.

Lemma entry_right_ext k d d' :
  device_deployments d' = device_deployments d → entry_right k d → entry_right k d'.
Proof. unfold entry_right, hasDeployment. by intros ->. Qed.

(** [m], in memory, is known to have the labels of the stored device [d], as far
    as the label of the deployment goes. *)
Record in_memory (k : key) (m d : EdgeDevice) : Prop := {
  im_key : key_of m = k;
  im_labels : other_labels name m = other_labels name d;
  im_label : keep k → hasLabelForDeployment m name = true → hasLabelForDeployment d name = true;
  im_no_label : ¬ keep k → hasLabelForDeployment m name = false → hasLabelForDeployment d name = false;
}.

Lemma in_memory_stored k d : key_of d = k → in_memory k d d.
Proof. by split. Qed.

Lemma in_memory_allowed k m d d' : allowed name (keep k) (touch k) d d' → in_memory k m d → in_memory k m d'.
Proof. intros [] []. split; [done|congruence|auto..]. Qed.

Lemma hasLabel_lookup d :
  hasLabelForDeployment d name = bool_decide (is_Some (map_of (device_labels d) !! WorkloadLabel name)).
Proof. done. Qed.

(** The answer of a status patch, decoded into the object that was sent. *)
Lemma in_memory_decoded k d d' m a :
  key_of d' = k → decoded d' m a → map_of (device_labels d') = map_of (device_labels d) →
  in_memory k m d → in_memory k a d'.
Proof.
  intros Hk [Hka Hla _ _ _] Hl [_ Hlm H1 H2]. rewrite !hasLabel_lookup in *.
  split; [congruence|..]; rewrite ?hasLabel_lookup; unfold other_labels in *; rewrite ?Hla, ?Hl.
  - rewrite delete_union, Hlm. by rewrite map_union_idemp.
  - intros Hkeep H%bool_decide_eq_true. apply bool_decide_eq_true_2. apply lookup_union_is_Some in H as [?|Hm]; [done|].
    by eapply bool_decide_eq_true, H1; [|apply bool_decide_eq_true_2].
  - intros Hkeep H%bool_decide_eq_false. apply bool_decide_eq_false_2. intros ?. apply H, lookup_union_is_Some. by left.
Qed.

(** A status patch that puts the entry right keeps the guarantee. *)
Lemma status_step w w1 old ds r w2 k :
  answers w1 (PatchEdgeDeviceStatus old (set_deployments ds old)) r w2 →
  key_of old = k → touch k → devices_of w !! k = Some old → G w w1 →
  other_deployments name (set_deployments ds old) = other_deployments name old →
  entry_right k (set_deployments ds old) →
  G w1 w2 ∧ ∀ a, r = Ok a → ∃ d, devices_of w2 !! k = Some d ∧ entry_right k d ∧ in_memory k a d.
Proof.
  intros Ha Hk Ht Hold Hw Hf Hright. apply patch_status in Ha. rewrite Hk in Ha.
  destruct r as [a|e]; [|split; [by apply G_same|done]].
  destruct Ha as (d0 & d' & Hd0 & [Hkey Hlab Hdep _ _ _ _] & Hdec & Hw2).
  destruct (G_lookup _ _ _ _ Hw Hold) as (d0' & E & Hal). rewrite Hd0 in E. injection E as <-.
  assert (Hr : entry_right k d' ∧ other_deployments name d' = other_deployments name d0).
  { unfold merge_field in Hdep. unfold other_deployments in *. rewrite Hdep. case_decide as Hds.
    - split; [|done]. eapply entry_right_ext; [exact Hdep|]. eapply entry_right_allowed; [exact Hal|].
      by eapply entry_right_ext; [|exact Hright].
    - split; [by eapply entry_right_ext; [|exact Hright]|]. rewrite Hf. symmetry. apply (al_deployments _ _ _ _ _ Hal). }
  destruct Hr as [Hr Ho]. split.
  - eapply G_insert; [done..|]. split; [done| | | | |done| |done];
      unfold hasLabelForDeployment, other_labels; rewrite ?Hlab; try done; destruct Hr; auto.
  - intros ? [= <-]. exists d'. rewrite Hw2, lookup_insert_eq. split_and!; [done..|].
    eapply in_memory_decoded; [|exact Hdec|exact Hlab|].
    + rewrite Hkey. by rewrite (al_key _ _ _ _ _ Hal).
    + eapply in_memory_allowed; [exact Hal|]. by split.
Qed.

(** A patch that puts the label right keeps it. *)
Lemma label_step w w1 old d ls r w2 k :
  answers w1 (PatchEdgeDevice old (set_labels (Some ls) old)) r w2 →
  in_memory k old d → touch k → devices_of w !! k = Some d → G w w1 →
  other_labels name (set_labels (Some ls) old) = other_labels name old →
  label_right k (set_labels (Some ls) old) →
  G w1 w2 ∧ ∀ a, r = Ok a → ∃ d', devices_of w2 !! k = Some d' ∧ label_right k d' ∧ (entry_right k d → entry_right k d').
Proof.
  intros Ha Hm Ht Hold Hw Hf Hright. apply patch_device in Ha; [|done]. rewrite (im_key _ _ _ Hm) in Ha.
  destruct r as [a|e]; [|split; [by apply G_same|done]].
  destruct Ha as (d0 & d' & Hd0 & [Hkey Hlab Hst _ _ _] & _ & Hw2).
  destruct (G_lookup _ _ _ _ Hw Hold) as (d0' & E & Hal). rewrite Hd0 in E. injection E as <-.
  destruct (in_memory_allowed _ _ _ _ Hal Hm) as [_ Hlm Him Hino].
  unfold label_right in Hright. rewrite hasLabel_lookup, map_of_set_labels in *.
  assert (Hother : ∀ l, l ≠ WorkloadLabel name →
    map_of (device_labels old) !! l = map_of (device_labels d0) !! l ∧ ls !! l = map_of (device_labels d0) !! l).
  { intros l Hne. apply (f_equal (lookup l)) in Hf, Hlm. unfold other_labels in *. rewrite map_of_set_labels in Hf.
    rewrite !lookup_delete_ne in Hf, Hlm by done. split; congruence. }
  assert (Hl : ∀ l, map_of (device_labels d') !! l =
    if decide (map_of (device_labels old) !! l = ls !! l) then map_of (device_labels d0) !! l else ls !! l).
  { intros l. rewrite Hlab. apply merge_labels_lookup. intros E. change (ls = ∅) in E. subst ls. right.
    intros l' Hl'. destruct (decide (l' = WorkloadLabel name)) as [->|Hne];
      [|by destruct (Hother l' Hne) as [_ <-]].
    apply eq_None_not_Some. intros Hs. assert (Hnk : ¬ keep k).
    { intros Hk%Hright. apply bool_decide_eq_true in Hk. rewrite lookup_empty in Hk. by destruct Hk. }
    specialize (Hino Hnk). rewrite !hasLabel_lookup, Hl' in Hino.
    by apply (bool_decide_eq_false_1 _ (Hino eq_refl)). }
  assert (Hr : label_right k d').
  { unfold label_right. rewrite !hasLabel_lookup, Hl in *. case_decide as El; [|exact Hright].
    rewrite El in Him, Hino. destruct Hright. split; auto. }
  assert (Ho : other_labels name d' = other_labels name d0).
  { apply map_eq. intros l. unfold other_labels. destruct (decide (l = WorkloadLabel name)) as [->|Hne];
      [by rewrite !lookup_delete_eq|]. rewrite !lookup_delete_ne, Hl by done. case_decide; [done|]. by apply Hother. }
  assert (Hd : device_deployments d' = device_deployments d0) by (unfold device_deployments; by rewrite Hst).
  split.
  - eapply G_insert; [done..|]. split; [done| | | | | |done|done];
      unfold other_deployments, hasDeployment; rewrite ?Hd; try done; destruct Hr; auto.
  - intros ? [= <-]. exists d'. rewrite Hw2, lookup_insert_eq. split_and!; [done|done|].
    intros He. eapply entry_right_ext; [exact Hd|]. by eapply entry_right_allowed.
Qed.

(** Entry and label are right in [w], and stay so. *)
Definition right_in (k : key) (w : W) : Prop :=
  ∃ d, devices_of w !! k = Some d ∧ entry_right k d ∧ label_right k d.

Lemma right_in_G k w w' : G w w' → right_in k w → right_in k w'.
Proof.
  intros Hw (d & Hd & He & Hl). destruct (G_lookup _ _ _ _ Hw Hd) as (d' & Hd' & Hal). exists d'.
  split_and!; [done|by eapply entry_right_allowed|by eapply label_right_allowed].
Qed.

Definition task (p : go (option error)) (k : key) (w : W) : Prop :=
  rg answers G p w (λ r w', r = None → right_in k w').

(** The second half of both tasks. *)
Lemma patch_label_task m d ls w k :
  in_memory k m d → touch k → devices_of w !! k = Some d → entry_right k d →
  other_labels name (set_labels (Some ls) m) = other_labels name m →
  label_right k (set_labels (Some ls) m) →
  task (r ← edgedevice.Patch m (set_labels (Some ls) m);
        Ret (match r with Ok _ => None | Err err => Some err end)) k w.
Proof.
  intros Hm Ht Hd He Ho Hl w1 a w2 Hw Ha.
  destruct (label_step _ _ _ _ _ _ _ _ Ha Hm Ht Hd Hw Ho Hl) as [HG Hout]. split; [done|].
  simpl. intros w' Hw' Hr. destruct a as [a|e]; [|done]. eapply right_in_G; [exact Hw'|].
  destruct (Hout a eq_refl) as (d' & ? & ? & ?). exists d'. auto.
Qed.

Lemma settled_task d w k :
  devices_of w !! k = Some d → entry_right k d → label_right k d → task (Ret None) k w.
Proof. intros Hd He Hl w' Hw' _. eapply right_in_G; [exact Hw'|]. by exists d. Qed.

Lemma add_task d w :
  keep (key_of d) → touch (key_of d) → devices_of w !! key_of d = Some d →
  task (add_to_device name d) (key_of d) w.
Proof.
  intros Hkeep Ht Hd. set (k := key_of d) in *.
  assert (Hlabel : ∀ m d1 w1, in_memory k m d1 → devices_of w1 !! k = Some d1 → entry_right k d1 →
    task (if hasLabelForDeployment m name then Ret None
          else r ← edgedevice.Patch m
                 (set_labels (Some (<[WorkloadLabel name := "true"]> (map_of (device_labels m)))) m);
               Ret (match r with Ok _ => None | Err err => Some err end)) k w1).
  { intros m d1 w1 Hm Hd1 He1. destruct (hasLabelForDeployment m name) eqn:El.
    - eapply settled_task; [done..|]. split; [|done]. intros _. by eapply (im_label _ _ _ Hm).
    - eapply patch_label_task; [done..| |].
      + apply delete_insert_eq.
      + split; [|done]. intros _. rewrite hasLabel_lookup, map_of_set_labels, lookup_insert_eq.
        by apply bool_decide_eq_true_2. }
  unfold add_to_device. destruct (hasDeployment d name) eqn:Ed.
  - apply (Hlabel d d); [by apply in_memory_stored|done|]. by split.
  - intros w1 a w2 Hw Ha. apply (status_step w w1 d _ a w2 k) in Ha as [HG Hout]; [|done..| |].
    + split; [done|]. destruct a as [a|e]; [|by intros w' _]. destruct (Hout a eq_refl) as (d1 & ? & ? & ?).
      by apply (Hlabel a d1).
    + unfold other_deployments. change (device_deployments (set_deployments ?ds d)) with ds.
      rewrite filter_app, filter_cons_False by (simpl; naive_solver).
      by rewrite filter_nil, app_nil_r.
    + split; [|done]. intros _. apply hasDeployment_spec. eexists. simpl.
      split; [apply elem_of_app; right; left|done].
Qed.

Lemma remove_task d w :
  ¬ keep (key_of d) → touch (key_of d) → devices_of w !! key_of d = Some d →
  task (removeDeploymentFromDevice name d) (key_of d) w.
Proof.
  intros Hkeep Ht Hd. unfold removeDeploymentFromDevice. intros w1 a w2 Hw Ha.
  apply (status_step w w1 d _ a w2 (key_of d)) in Ha as [HG Hout]; [|done..| |].
  - split; [done|]. destruct a as [a|e]; [|by intros w' _]. destruct (Hout a eq_refl) as (d1 & Hd1 & He1 & Hm).
    simpl. destruct (device_labels a) as [ls|] eqn:El.
    + eapply patch_label_task; [done..| |].
      * unfold other_labels. rewrite map_of_set_labels, El. apply delete_delete_eq.
      * split; [done|]. intros _. rewrite hasLabel_lookup, map_of_set_labels, lookup_delete_eq.
        by apply bool_decide_eq_false_2; intros [].
    + eapply settled_task; [done..|]. split; [done|]. intros _. apply (im_no_label _ _ _ Hm Hkeep).
      rewrite hasLabel_lookup, El. by apply bool_decide_eq_false_2; intros [].
  - apply filter_frame.
  - split; [done|]. intros _. apply not_true_is_false. rewrite hasDeployment_spec.
    intros (x & Hx & Hn). by apply list_elem_of_filter in Hx as [? _].
Qed.

(** ** All the devices of a list, in every interleaving *)
Lemma for_devices_tasks body errs ds w :
  (∀ d, d ∈ ds → task (body d) (key_of d) w) →
  rg answers G (for_devices body errs ds) w
    (λ es w', es = [] → errs = [] ∧ ∀ d, d ∈ ds → right_in (key_of d) w').
Proof.
  revert errs w; induction ds as [|d ds IH]; intros errs w H; simpl.
  { intros w' _ ->. split; [done|]. intros d []%elem_of_nil. }
  apply (rg_bind_always answers G) with (QA := λ r w', (r = None → right_in (key_of d) w') ∧ G w w').
  { apply (rg_moves answers G), H. left. }
  intros r w1 Hr.
  assert (Hrest : ∀ errs', (errs' = [] → errs = [] ∧ r = None) →
    rg answers G (for_devices body errs' ds) w1
      (λ es w', es = [] → errs = [] ∧ ∀ d', d' ∈ d :: ds → right_in (key_of d') w')).
  { intros errs' Herrs. eapply rg_mono; [apply (rg_moves answers G), (IH errs' w1)|].
    - intros d' Hd'. eapply (rg_stable answers G); [|apply H; by right]. by apply (Hr w1).
    - simpl. intros es w2 [Hes Hw2] ->. destruct (Hes eq_refl) as [He Hall]. apply Herrs in He as [-> ->].
      split; [done|]. intros d' [->|Hd']%elem_of_cons; [|by apply Hall]. by apply (Hr w2 Hw2). }
  destruct r as [err|]; apply Hrest; [|done]. intros E. by apply app_nil in E as [_ ?].
Qed.

Lemma executeConcurrent_tasks Concurrency body ds w :
  (0 < Concurrency < 2 ^ 63)%Z →
  (∀ d, d ∈ ds → task (body d) (key_of d) w) →
  rg answers G (executeConcurrent Concurrency (for_devices body []) ds) w
    (λ es w', es = [] → ∀ d, d ∈ ds → right_in (key_of d) w').
Proof.
  intros HC H. unfold executeConcurrent. destruct (Concurrency =? 1)%Z.
  { eapply rg_mono; [by apply for_devices_tasks|]. simpl. intros es w' Hes E. by apply Hes. }
  unfold ExecuteConcurrent. replace (Concurrency =? 0)%Z with false by lia. rewrite orb_false_r.
  destruct (Z.eqb_spec (Z.of_nat (length ds)) 0) as [H0|_].
  { assert (ds = []) as -> by (apply nil_length_inv; lia). intros w' _ _ d []%elem_of_nil. }
  destruct (splitEdgeDevices_balanced ds Concurrency HC) as (parts & -> & [Hc _ _ _]). simpl.
  apply (rg_bind_always answers G) with (QA := λ rs w', Forall2 (λ part es, es = [] →
    ([] : list error) = [] ∧ ∀ d, d ∈ part → right_in (key_of d) w') parts rs).
  - apply (rg_par answers G). intros part Hpart. apply for_devices_tasks. intros d Hd. apply H.
    rewrite <- Hc. apply list_elem_of_In, in_concat. exists part. by rewrite <- !list_elem_of_In.
  - intros rs w1 Hall w2 Hw2 E d Hd. specialize (Hall w2 Hw2).
    rewrite <- Hc in Hd. apply list_elem_of_In, in_concat in Hd as (part & Hpart & Hd).
    apply list_elem_of_In in Hpart, Hd. apply list_elem_of_lookup in Hpart as [i Hi].
    destruct (Forall2_lookup_l _ _ _ _ _ Hall Hi) as (es & Hes & Hr). apply Hr; [|done].
    apply list_elem_of_lookup_2, list_elem_of_split in Hes as (l1 & l2 & ->).
    rewrite concat_app in E. apply app_nil in E as [_ E]. simpl in E. by apply app_nil in E as [? _].
Qed.
End tasks.

(** ** The survey of the devices *)
Lemma workload_selector_matches name s ls :
  LabelSelectorAsSelector (Some (workload_selector name)) = Ok s →
  sel_matches s ls = bool_decide (ls !! WorkloadLabel name = Some "true"%string).
Proof.
  unfold LabelSelectorAsSelector, workload_selector. simpl. rewrite map_to_list_singleton. simpl.
  destruct (NewRequirement _ _ _) as [r|e] eqn:E; [|done]. intros [= <-].
  apply NewRequirement_ok in E as [-> _]. simpl. rewrite andb_true_r. unfold req_matches. simpl.
  destruct (ls !! WorkloadLabel name) as [v|].
  - apply bool_decide_ext. rewrite list_elem_of_singleton. split; [by intros ->|by intros [= ->]].
  - by rewrite bool_decide_eq_false_2.
Qed.

Section reconcile.
Context {W : Type} `{AS : ApiServer W} {AL : ApiServerLaws W}.
Context (Concurrency : Z) (HC : (0 < Concurrency < 2 ^ 63)%Z).

(** [ds] are the stored devices of a namespace that satisfy [P]. *)
Definition all_of (w : W) (ns : string) (P : EdgeDevice → bool) (ds : list EdgeDevice) : Prop :=
  ∀ d, d ∈ ds ↔ ∃ n, devices_of w !! (ns, n) = Some d ∧ P d = true.

Lemma list_swp sel ns w :
  swp answers (edgedevice.ListForSelector sel ns) w (λ tr r w',
    devices_of w' = devices_of w ∧ Forall read_op (ev_op <$> tr) ∧
    ∀ ds, tolerate r = Ok ds → ∃ s, LabelSelectorAsSelector sel = Ok s ∧
      all_of w ns (λ d, sel_matches s (map_of (device_labels d))) ds).
Proof.
  unfold edgedevice.ListForSelector. destruct (LabelSelectorAsSelector sel) as [s|e] eqn:Es.
  - apply (swp_ask (ListEdgeDevices ns s)). intros a w1 Ha. split_and!; [by eapply reads_keep|by repeat constructor|].
    pose proof (list_devices _ _ _ _ _ Ha) as Hl. intros ds Hds. exists s. split; [done|].
    destruct a as [ds'|e]; simpl in Hds; [by injection Hds as <-|].
    destruct (IsNotFound e) eqn:He; [|done]. injection Hds as <-. intros d. rewrite elem_of_nil.
    split; [done|]. intros (n & Hn & _). rewrite Hl in Hn; done.
  - apply swp_ret. split_and!; [done|constructor|]. intros ds Hds. simpl in Hds.
    by rewrite (LabelSelectorAsSelector_error _ _ Es) in Hds.
Qed.

Lemma labelled_swp dep w :
  swp answers (getLabelledEdgeDevices (dep_name dep) (dep_namespace dep)) w (λ tr r w',
    devices_of w' = devices_of w ∧ Forall read_op (ev_op <$> tr) ∧
    ∀ ds, tolerate r = Ok ds → well_keyed (devices_of w) → all_of w (dep_namespace dep) (labelled dep) ds).
Proof.
  eapply swp_mono; [apply list_swp|]. simpl. intros tr r w' (Hw & Hr & Hds). split_and!; [done..|].
  intros ds E Hk. destruct (Hds ds E) as (s & Hs & Hall). intros d. rewrite (Hall d).
  split; intros (n & Hn & Hp); exists n; (split; [done|]).
  - unfold labelled. apply Hk in Hn. injection Hn as <- _. rewrite String.eqb_refl. simpl.
    by rewrite <- (workload_selector_matches _ s).
  - apply andb_true_iff in Hp as [_ Hp]. by rewrite (workload_selector_matches (dep_name dep)).
Qed.

Lemma matching_swp dep w :
  swp answers (getMatchingEdgeDevices dep) w (λ tr r w',
    devices_of w' = devices_of w ∧ Forall read_op (ev_op <$> tr) ∧
    ∀ ds, tolerate r = Ok ds → well_keyed (devices_of w) → all_of w (dep_namespace dep) (meant_for dep) ds).
Proof.
  unfold getMatchingEdgeDevices, meant_for. destruct (negb _) eqn:Edev.
  - apply swp_bind, (swp_ask (GetEdgeDevice (dep_namespace dep) (dep_device dep))). intros a w1 Ha. pose proof (get_device _ _ _ _ _ Ha) as Hg.
    assert (Hw : devices_of w1 = devices_of w) by (by eapply reads_keep).
    destruct a as [d|e]; apply swp_ret; (split_and!; [done|by repeat constructor|]); simpl.
    + intros ds [= <-] Hk d'. rewrite list_elem_of_singleton. split.
      * intros ->. exists (dep_device dep). split; [done|]. apply Hk in Hg. injection Hg as <- <-.
        by rewrite !String.eqb_refl.
      * intros (n & Hn & [_ Hp]%andb_true_iff). apply String.eqb_eq in Hp. pose proof (Hk _ _ Hn) as Hkey.
        injection Hkey as _ Hkey. rewrite <- Hkey, Hp in Hn. congruence.
    + destruct (IsNotFound e) eqn:He; [|done]. intros ds [= <-] Hk d. rewrite elem_of_nil. split; [done|].
      intros (n & Hn & [_ Hp]%andb_true_iff). apply String.eqb_eq in Hp. pose proof (Hk _ _ Hn) as Hkey.
      injection Hkey as _ Hkey. rewrite <- Hkey, Hp in Hn. rewrite Hg in Hn; done.
  - destruct (dep_selector dep) as [sel|] eqn:Es.
    + eapply swp_mono; [apply list_swp|]. simpl. intros tr r w' (Hw & Hr & Hds). split_and!; [done..|].
      intros ds E Hk. destruct (Hds ds E) as (s & Hs & Hall). intros d. rewrite (Hall d), Hs.
      split; intros (n & Hn & Hp); exists n; (split; [done|]).
      * apply Hk in Hn. injection Hn as <- _. by rewrite String.eqb_refl.
      * by apply andb_true_iff in Hp as [_ Hp].
    + apply swp_ret. split_and!; [done|constructor|]. simpl. intros ds [= <-] _ d. rewrite elem_of_nil.
      split; [done|]. intros (n & _ & Hp). by rewrite andb_false_r in Hp.
Qed.

(** *** The two phases *)
Section phases.
Context (dep : EdgeDeployment) (w0 : W) (Hkeyed : well_keyed (devices_of w0)).

Definition belongs (k : key) : Prop :=
  DeletionTimestamp (EdgeDeployment_Meta dep) = None ∧
  ∃ d, devices_of w0 !! k = Some d ∧ meant_for dep d = true.
Definition concerned (k : key) : Prop :=
  ∃ d, devices_of w0 !! k = Some d ∧ (meant_for dep d = true ∨ labelled dep d = true).

#[local] Abbreviation Gd := (G (dep_name dep) belongs concerned).
#[local] Abbreviation right := (right_in (dep_name dep) belongs).

Lemma all_of_stored ns P ds d :
  all_of w0 ns P ds → d ∈ ds → devices_of w0 !! key_of d = Some d ∧ key_of d = (ns, device_name d) ∧ P d = true.
Proof.
  intros H Hd. apply H in Hd as (n & Hn & HP). pose proof (Hkeyed _ _ Hn) as E.
  rewrite E. split_and!; [done| |done]. by injection E as _ ->.
Qed.

Lemma concerned_covered ns matching labelled_ k :
  all_of w0 ns (meant_for dep) matching → all_of w0 ns (labelled dep) labelled_ →
  ns = dep_namespace dep → concerned k →
  ∃ d, d ∈ matching ++ labelled_ ∧ key_of d = k.
Proof.
  intros Hm Hl -> (d & Hd & Hc). pose proof (Hkeyed _ _ Hd) as <-. exists d. split; [|done].
  assert (Hns : key_of d = (dep_namespace dep, device_name d)).
  { unfold key_of. f_equal. destruct Hc as [[E _]%andb_true_iff|[E _]%andb_true_iff]; by apply String.eqb_eq in E. }
  rewrite Hns in Hd. apply elem_of_app. destruct Hc; [left; apply Hm|right; apply Hl]; eauto.
Qed.

Lemma errors_none errs : errors_to_error errs = None → errs = [].
Proof. by destruct errs. Qed.

Lemma concurrent_swp w body ds :
  Gd w0 w → (∀ d, d ∈ ds → task (dep_name dep) belongs concerned (body d) (key_of d) w) →
  swp answers (executeConcurrent Concurrency (for_devices body []) ds) w
    (λ _ errs w', Gd w0 w' ∧ Gd w w' ∧ (errors_to_error errs = None → ∀ d, d ∈ ds → right (key_of d) w')).
Proof.
  intros Hw Ht. eapply swp_mono.
  - apply (rg_swp answers Gd). by apply executeConcurrent_tasks.
  - simpl. intros tr errs w' [H Hw']. split_and!; [by etrans|done|]. intros E%errors_none. by apply H.
Qed.

Section settle.
Context (labelled_ matching : list EdgeDevice) (w : W).
Context (Ew : devices_of w = devices_of w0).
Context (Hl : all_of w0 (dep_namespace dep) (labelled dep) labelled_).
Context (Hm : all_of w0 (dep_namespace dep) (meant_for dep) matching).

#[local] Abbreviation done_in r w' :=
  (r = (no_requeue, None) →
   HasFinalizer (EdgeDeployment_Meta dep) YggdrasilDeviceReferenceFinalizer = true →
   ∀ k, concerned k → right k w').

Lemma stored_either d :
  d ∈ matching ++ labelled_ →
  devices_of w0 !! key_of d = Some d ∧ key_of d = (dep_namespace dep, device_name d) ∧ concerned (key_of d).
Proof.
  intros [Hd|Hd]%elem_of_app; [apply (all_of_stored _ _ _ _ Hm) in Hd|apply (all_of_stored _ _ _ _ Hl) in Hd];
    destruct Hd as (Hd & Hk & HP); (split_and!; [done..|]); exists d; auto.
Qed.

Lemma removal_task d w1 :
  ¬ belongs (key_of d) → d ∈ matching ++ labelled_ → Gd w w1 →
  task (dep_name dep) belongs concerned (removeDeploymentFromDevice (dep_name dep) d) (key_of d) w1.
Proof.
  intros Hb (Hd & _ & Hc)%stored_either Hw1. eapply (rg_stable answers Gd); [exact Hw1|].
  apply remove_task; [done..|]. by rewrite Ew.
Qed.

(** A deployment under deletion leaves all devices. *)
Lemma finalizeRemoval_swp :
  DeletionTimestamp (EdgeDeployment_Meta dep) ≠ None →
  swp answers (finalizeRemoval Concurrency (merge matching labelled_) dep) w
    (λ _ r w', Gd w0 w' ∧ (r = None → ∀ k, concerned k → right k w')).
Proof.
  intros Hdel. assert (Hnb : ∀ k, ¬ belongs k) by (intros k [H _]; congruence).
  destruct (merge_spec matching labelled_) as (rest & Hmerge & Hrest & Hnames & _).
  assert (Hin : ∀ d, d ∈ merge matching labelled_ → d ∈ matching ++ labelled_).
  { intros d. rewrite Hmerge, !elem_of_app. intros [?|Hd]; [by left|right].
    by apply (sublist_subseteq _ _ Hrest). }
  unfold finalizeRemoval. apply swp_bind. eapply swp_mono.
  { apply (concurrent_swp w (removeDeploymentFromDevice (dep_name dep))); [by apply G_same|].
    intros d Hd. apply removal_task; [apply Hnb|by apply Hin|done]. }
  intros tr errs w1 (H0 & H1 & Hr). destruct (errors_to_error errs) as [err|].
  { by apply swp_ret. }
  apply swp_bind, swp_bind, (swp_ask (PatchEdgeDeployment _ _)). intros a w2 Ha.
  assert (Hend : Gd w0 w2 ∧ ∀ k, concerned k → right k w2).
  { assert (Gd w1 w2) as H12 by (apply G_same; by eapply reads_keep). split; [by etrans|].
    intros k Hk. eapply right_in_G; [exact H12|].
    destruct (concerned_covered _ _ _ _ Hm Hl eq_refl Hk) as (d & Hd & <-).
    assert (device_name d ∈ device_name <$> merge matching labelled_) as (d2 & E & Hd2)%list_elem_of_fmap.
    { apply Hnames. rewrite <- elem_of_app, <- fmap_app. by apply list_elem_of_fmap_2. }
    assert (key_of d = key_of d2) as ->.
    { pose proof (stored_either _ Hd) as (_ & -> & _). pose proof (stored_either _ (Hin _ Hd2)) as (_ & -> & _).
      by rewrite E. }
    by apply Hr. }
  destruct a; do 2 apply swp_ret; destruct Hend; auto.
Qed.

Lemma settle_swp :
  swp answers (settle Concurrency dep labelled_ matching) w (λ _ r w', Gd w0 w' ∧ done_in r w').
Proof.
  assert (Hw : Gd w0 w) by (by apply G_same).
  unfold settle. destruct (DeletionTimestamp _) as [ts|] eqn:Edel.
  { destruct (HasFinalizer _ _) eqn:Efin; [|by apply swp_ret].
    apply swp_bind. eapply swp_mono; [apply finalizeRemoval_swp; congruence|].
    intros tr r w' [H0 Hr]. destruct r as [err|]; apply swp_ret; (split; [done|]); [by intros [=]|].
    intros _ _. by apply Hr. }
  assert (Hbel : ∀ d, d ∈ matching → belongs (key_of d) ∧ concerned (key_of d)).
  { intros d Hd. apply (all_of_stored _ _ _ _ Hm) in Hd as (Hd & _ & HP). split; [split; [done|]|]; exists d; auto. }
  apply swp_bind. unfold addDeploymentsToDevices. apply swp_bind. eapply swp_mono.
  { apply (concurrent_swp w (add_to_device (dep_name dep))); [done|].
    intros d Hd. destruct (Hbel d Hd). apply add_task; [done..|].
    rewrite Ew. by apply (all_of_stored _ _ _ _ Hm). }
  intros tr errs w1 (H0 & H1 & Hr). destruct (errors_to_error errs) as [err|]; apply swp_ret.
  { apply swp_ret. split; [done|]. by intros [=]. }
  apply swp_bind. unfold removeDeploymentFromNonMatchingDevices. cbv zeta. apply swp_bind. eapply swp_mono.
  { apply (concurrent_swp w1); [done|]. intros d Hd. unfold remove_if_not_matching. case_decide as Hn.
    - apply elem_of_list_to_set, list_elem_of_fmap in Hn as (d2 & E & Hd2).
      assert (key_of d = key_of d2) as ->.
      { pose proof (stored_either d) as (_ & -> & _); [apply elem_of_app; by right|].
        pose proof (stored_either d2) as (_ & -> & _); [apply elem_of_app; by left|]. by rewrite E. }
      intros w' Hw' _. eapply right_in_G; [exact Hw'|]. by apply Hr.
    - apply removal_task; [|apply elem_of_app; by right|done]. intros [_ (d2 & Hd2 & Hp)].
      apply Hn, elem_of_list_to_set. apply list_elem_of_fmap.
      pose proof (stored_either d) as (Hd' & _ & _); [apply elem_of_app; by right|].
      exists d2. rewrite Hd' in Hd2. injection Hd2 as <-. split; [done|].
      apply Hm. exists (device_name d). split; [|done].
      pose proof (stored_either d) as (_ & E & _); [apply elem_of_app; by right|]. by rewrite <- E. }
  intros tr2 errs2 w2 (H02 & H12 & Hr2). destruct (errors_to_error errs2) as [err|]; apply swp_ret.
  { apply swp_ret. split; [done|]. by intros [=]. }
  apply swp_ret. split; [done|]. intros _ _ k Hk.
  destruct (concerned_covered _ _ _ _ Hm Hl eq_refl Hk) as (d & [Hd|Hd]%elem_of_app & <-); [|by apply Hr2].
  eapply right_in_G; [exact H12|]. by apply Hr.
Qed.
End settle.
End phases.

Lemma reconcile_devices_swp dep w0 w :
  well_keyed (devices_of w0) → devices_of w = devices_of w0 →
  swp answers (reconcile_devices Concurrency dep) w (λ _ r w',
    G (dep_name dep) (belongs dep w0) (concerned dep w0) w0 w' ∧
    (r = (no_requeue, None) →
     HasFinalizer (EdgeDeployment_Meta dep) YggdrasilDeviceReferenceFinalizer = true →
     ∀ k, concerned dep w0 k → right_in (dep_name dep) (belongs dep w0) k w')).
Proof.
  intros Hkeyed Ew. unfold reconcile_devices. apply swp_bind. eapply swp_mono; [apply labelled_swp|].
  intros tr r w1 (E1 & _ & Hl). destruct (tolerate r) as [labelled_|e].
  2:{ apply swp_ret. split; [apply G_same; congruence|by intros [=]]. }
  apply swp_bind. eapply swp_mono; [apply matching_swp|].
  intros tr2 r2 w2 (E2 & _ & Hm). destruct (tolerate r2) as [matching|e].
  2:{ apply swp_ret. split; [apply G_same; congruence|by intros [=]]. }
  assert (all_of w0 (dep_namespace dep) (labelled dep) labelled_).
  { unfold all_of in *. rewrite <- Ew. apply Hl; [done|]. by rewrite Ew. }
  assert (all_of w0 (dep_namespace dep) (meant_for dep) matching).
  { unfold all_of in *. rewrite <- Ew, <- E1. apply Hm; [done|]. by rewrite E1, Ew. }
  apply settle_swp; [done|congruence|done|done].
Qed.

Lemma Reconcile_swp req dep w0 :
  well_keyed (devices_of w0) →
  deployments_of w0 !! (req_Namespace req, req_Name req) = Some dep → phase_of dep = Devices →
  swp answers (Reconcile Concurrency req) w0 (λ _ r w',
    G (dep_name dep) (belongs dep w0) (concerned dep w0) w0 w' ∧
    (r = (no_requeue, None) →
     HasFinalizer (EdgeDeployment_Meta dep) YggdrasilDeviceReferenceFinalizer = true →
     ∀ k, concerned dep w0 k → right_in (dep_name dep) (belongs dep w0) k w')).
Proof.
  intros Hkeyed Hdep Hphase. unfold Reconcile. apply swp_bind, (swp_ask (GetEdgeDeployment _ _)).
  intros r w1 Ha. assert (E1 : devices_of w1 = devices_of w0) by (by eapply reads_keep).
  apply get_deployment in Ha. destruct r as [dep'|e].
  2:{ destruct (IsNotFound e) eqn:He; [rewrite Ha in Hdep; done|].
      apply swp_ret. split; [by apply G_same|by intros [=]]. }
  rewrite Ha in Hdep. injection Hdep as ->. unfold phase_of in Hphase.
  destruct (DeletionTimestamp _) as [ts|]; [by apply reconcile_devices_swp|].
  destruct (negb _); [done|]. unfold updateLabelsFromSelector, stale in *. destruct (_ || _); [|done].
  by apply reconcile_devices_swp.
Qed.
End reconcile.

Lemma allowed_iff name keep keep' touch touch' d d' :
  (keep ↔ keep') → (touch ↔ touch') → allowed name keep touch d d' → allowed name keep' touch' d d'.
Proof. intros Hk Ht []. split; intuition. Qed.

(** What becomes of one device. *)
Definition stays (dep : EdgeDeployment) (d : EdgeDevice) : Prop :=
  DeletionTimestamp (EdgeDeployment_Meta dep) = None ∧ meant_for dep d = true.
Definition handled (dep : EdgeDeployment) (d : EdgeDevice) : Prop :=
  meant_for dep d = true ∨ labelled dep d = true.

Record reconciled_device (dep : EdgeDeployment) (d d' : EdgeDevice) : Prop := {
  rd_on : stays dep d → on_device (dep_name dep) d';
  rd_off : handled dep d → ¬ stays dep d → off_device (dep_name dep) d';
  rd_same : ¬ handled dep d → d' = d;
}.

(** C1: The deployment controller reaches the desired state. In every world that
    keeps the documented behaviour of the API server, start a reconciliation of
    a deployment whose finalizer and selector labels are in place. Whatever it
    answers, no device appears or disappears, a device that the deployment
    neither matches nor labels is left as it is, and of the others nothing
    changes but the entry and the label of this deployment, which never go the
    wrong way. When it reports success, every device the deployment is meant for
    has the entry and the label, and every other device that had the label, or
    every device when the deployment is being deleted, has neither. This holds
    for every interleaving of the goroutines. *)
Theorem Reconcile_converges {W} `{ApiServer W} `{!ApiServerLaws W} Concurrency req dep (w : W) :
  (0 < Concurrency < 2 ^ 63)%Z → well_keyed (devices_of w) →
  deployments_of w !! (req_Namespace req, req_Name req) = Some dep → phase_of dep = Devices →
  HasFinalizer (EdgeDeployment_Meta dep) YggdrasilDeviceReferenceFinalizer = true →
  swp answers (Reconcile Concurrency req) w (λ _ r w',
    stores (λ _ d d', allowed (dep_name dep) (stays dep d) (handled dep d) d d') (devices_of w) (devices_of w') ∧
    (r = (no_requeue, None) → stores (λ _, reconciled_device dep) (devices_of w) (devices_of w'))).
Proof.
  intros HC Hk Hdep Hphase Hfin. eapply swp_mono; [by apply Reconcile_swp|].
  intros tr r w' [HG Hr].
  assert (Hiff : ∀ k d, devices_of w !! k = Some d →
    (belongs dep w k ↔ stays dep d) ∧ (concerned dep w k ↔ handled dep d)).
  { intros k d Hd. unfold belongs, concerned, stays, handled. rewrite Hd. naive_solver. }
  split.
  - intros k. specialize (HG k). specialize (Hiff k).
    destruct (devices_of w !! k) as [d|], (devices_of w' !! k) as [d'|]; try done.
    destruct (Hiff d eq_refl). by eapply allowed_iff.
  - intros E k. specialize (HG k). specialize (Hiff k). specialize (Hr E Hfin k). unfold right_in in Hr.
    destruct (devices_of w !! k) as [d|], (devices_of w' !! k) as [d'|]; try done.
    destruct (Hiff d eq_refl) as [Hb Hc]. destruct HG as [_ _ _ _ _ _ _ Hsame]. rewrite Hc in Hr, Hsame.
    assert (Hd' : handled dep d → entry_right (dep_name dep) (belongs dep w) k d' ∧
                                  label_right (dep_name dep) (belongs dep w) k d').
    { intros Hh. destruct (Hr Hh) as (? & [= <-] & ?). done. }
    unfold entry_right, label_right in Hd'. rewrite Hb in Hd'. split.
    + intros Hs. destruct Hd' as [[He _] [Hl _]]; [left; apply Hs|]. by split; auto.
    + intros Hh Hs. destruct (Hd' Hh) as [[_ He] [_ Hl]]. by split; auto.
    + done.
Qed.

(** ** Nothing left to do *)
Lemma for_devices_nothing body errs ds :
  (∀ d, d ∈ ds → body d = Ret None) → for_devices body errs ds = Ret errs.
Proof.
  revert errs; induction ds as [|d ds IH]; intros errs H; simpl; [done|].
  rewrite H by left. simpl. apply IH. intros d' Hd'. apply H. by right.
Qed.

Lemma executeConcurrent_nothing Concurrency body ds :
  (0 < Concurrency < 2 ^ 63)%Z → (∀ d, d ∈ ds → body d = Ret None) →
  wp (executeConcurrent Concurrency (for_devices body []) ds) (λ tr out, tr = [] ∧ out = Returned []).
Proof.
  intros HC H. unfold executeConcurrent. destruct (Concurrency =? 1)%Z; [by rewrite for_devices_nothing|].
  eapply wp_mono; [by apply ExecuteConcurrent_wp|]. intros tr out (parts & [Hc _ _ _] & Hout).
  assert (Hpart : ∀ part, part ∈ parts → for_devices body [] part = Ret []).
  { intros part Hp. apply for_devices_nothing. intros d Hd. apply H. rewrite <- Hc.
    apply list_elem_of_In, in_concat. exists part. by rewrite <- !list_elem_of_In. }
  destruct out as [errs|c].
  - destruct Hout as (ts & rs & Hi & -> & H3).
    assert (concat ts = [] ∧ concat rs = []) as [Ht Hr].
    { clear -H3 Hpart. induction H3 as [|part t r parts ts rs He _ IH]; [done|]. simpl.
      rewrite Hpart in He by left. inversion He; simplify_eq. apply IH. intros p Hp. apply Hpart. by right. }
    rewrite Hr. split; [|done]. apply interleaves_perm in Hi. rewrite Ht in Hi. by apply Permutation_nil_r in Hi.
  - destruct Hout as (p & t & Hp & _ & He). rewrite Hpart in He by done. inversion He.
Qed.

Lemma reads_write_nothing (tr : list api_event) : Forall read_op (ev_op <$> tr) → writes tr = [].
Proof.
  induction tr as [|[o a] tr IH]; [done|]. csimpl. intros [Ho Htr]%Forall_cons.
  rewrite writes_cons, IH by done. by destruct o.
Qed.

(** A deployment that is where it belongs, and only there. *)
Definition in_place (dep : EdgeDeployment) (m : gmap key EdgeDevice) : Prop :=
  ∀ k d, m !! k = Some d →
    (meant_for dep d = true → on_device (dep_name dep) d) ∧
    (labelled dep d = true → meant_for dep d = true).

Section idle.
Context {W : Type} `{AS : ApiServer W} {AL : ApiServerLaws W}.
Context (Concurrency : Z) (HC : (0 < Concurrency < 2 ^ 63)%Z).

Lemma settle_idle dep (w : W) labelled_ matching :
  DeletionTimestamp (EdgeDeployment_Meta dep) = None → in_place dep (devices_of w) →
  well_keyed (devices_of w) →
  all_of w (dep_namespace dep) (labelled dep) labelled_ →
  all_of w (dep_namespace dep) (meant_for dep) matching →
  wp (settle Concurrency dep labelled_ matching) (λ tr out, tr = [] ∧ out = Returned (no_requeue, None)).
Proof.
  intros Hdel Hin Hk Hl Hm. unfold settle. rewrite Hdel. unfold addDeploymentsToDevices.
  apply wp_bind, wp_bind. eapply wp_mono.
  { apply executeConcurrent_nothing; [done|]. intros d Hd. apply Hm in Hd as (n & Hn & Hp).
    destruct (Hin _ _ Hn) as [[H1 H2] _]; [done|]. unfold add_to_device. rewrite H1. simpl. by rewrite H2. }
  intros tr out [-> ->]. simpl. unfold removeDeploymentFromNonMatchingDevices. cbv zeta.
  apply wp_bind, wp_bind. eapply wp_mono.
  { apply executeConcurrent_nothing; [done|]. intros d Hd. apply Hl in Hd as (n & Hn & Hp).
    unfold remove_if_not_matching. rewrite decide_True; [done|].
    apply elem_of_list_to_set, list_elem_of_fmap. exists d. split; [done|]. apply Hm. exists n.
    split; [done|]. by apply (Hin _ _ Hn). }
  by intros tr out [-> ->].
Qed.
End idle.

(** C16: The desired state is a fixpoint. When the deployment is on every device it
    is meant for and labels no other, a reconciliation writes nothing at all. *)
Theorem Reconcile_idle {W} `{ApiServer W} `{!ApiServerLaws W} Concurrency req dep (w : W) :
  (0 < Concurrency < 2 ^ 63)%Z → well_keyed (devices_of w) →
  deployments_of w !! (req_Namespace req, req_Name req) = Some dep → phase_of dep = Devices →
  DeletionTimestamp (EdgeDeployment_Meta dep) = None → in_place dep (devices_of w) →
  swp answers (Reconcile Concurrency req) w (λ tr _ w', writes tr = [] ∧ devices_of w' = devices_of w).
Proof.
  intros HC Hk Hdep Hphase Hdel Hin. unfold Reconcile. apply swp_bind, (swp_ask (GetEdgeDeployment _ _)).
  intros r w1 Ha. assert (E1 : devices_of w1 = devices_of w) by (by eapply reads_keep).
  apply get_deployment in Ha. destruct r as [dep'|e]; [|by destruct (IsNotFound e); apply swp_ret].
  rewrite Ha in Hdep. injection Hdep as ->. unfold phase_of in Hphase. rewrite Hdel in *.
  destruct (negb _); [done|]. unfold updateLabelsFromSelector, stale in *. destruct (_ || _); [|done].
  apply swp_bind, swp_ret. unfold reconcile_devices. apply swp_bind. eapply swp_mono; [apply labelled_swp|].
  intros tr r w2 (E2 & R2 & Hl).
  apply reads_write_nothing in R2. destruct (tolerate r) as [labelled_|e].
  2:{ apply swp_ret. split; [|congruence]. by rewrite !writes_app, R2. }
  apply swp_bind. eapply swp_mono; [apply matching_swp|].
  intros tr3 r3 w3 (E3 & R3 & Hm). apply reads_write_nothing in R3. destruct (tolerate r3) as [matching|e].
  2:{ apply swp_ret. split; [|congruence]. by rewrite !writes_app, R2, R3. }
  intros tr4 r4 w4 He Hev.
  unfold all_of in *. rewrite E2 in Hm. rewrite E1 in Hl, Hm.
  pose proof (settle_idle Concurrency HC dep w labelled_ matching Hdel Hin Hk (Hl _ eq_refl Hk) (Hm _ eq_refl Hk)) as Hi.
  apply (proj1 (wp_exec _ _) Hi) in He as [-> _].
  inversion Hev; simplify_eq. split; [|congruence]. by rewrite !writes_app, R2, R3.
Qed.

(** ** Examples *)

(** One device gets the deployment, the other loses it. *)
Lemma Reconcile_converges_witness :
  let c' := cluster_of (Reconcile 5 example_request) example_cluster in
  ((λ d, hasDeployment d "d") <$> devices c' !! ("ns", "in")) = Some true ∧
  stores (λ _, reconciled_device example_deployment) (devices example_cluster) (devices c').
Proof.
  split; [vm_compute; reflexivity|].
  refine (proj2 (run_swp (Reconcile 5 example_request) example_cluster _ (no_requeue, None)
    (Reconcile_converges 5 example_request example_deployment example_cluster _ _ _ _ _) _ _) _).
  - lia.
  - apply map_Forall_keyed. vm_compute. reflexivity.
  - vm_compute. reflexivity.
  - vm_compute. reflexivity.
  - vm_compute. reflexivity.
  - vm_compute. reflexivity.
  - vm_compute. reflexivity.
  - reflexivity.
Defined.

(** The state it reaches. *)
Definition calm_cluster : cluster := cluster_of (Reconcile 5 example_request) example_cluster.

Lemma Reconcile_idle_witness :
  trace_of (Reconcile 5 example_request) calm_cluster =
    trace_of (Reconcile 1 example_request) calm_cluster ∧
  writes (run server (Reconcile 5 example_request) calm_cluster).1.1 = [].
Proof.
  split; [vm_compute; reflexivity|].
  refine (proj1 (run_swp (Reconcile 5 example_request) calm_cluster _ (no_requeue, None)
    (Reconcile_idle 5 example_request example_deployment calm_cluster _ _ _ _ _ _) _ _)).
  - lia.
  - apply map_Forall_keyed. vm_compute. reflexivity.
  - vm_compute. reflexivity.
  - vm_compute. reflexivity.
  - vm_compute. reflexivity.
  - intros k d Hk.
    assert (map_Forall (λ _ d, (meant_for example_deployment d = true →
      hasDeployment d "d" = true ∧ hasLabelForDeployment d "d" = true) ∧
      (labelled example_deployment d = true → meant_for example_deployment d = true)) (devices calm_cluster)) as H
      by (apply (bool_decide_unpack _); vm_compute; exact I).
    exact (H k d Hk).
  - vm_compute. reflexivity.
  - vm_compute. reflexivity.
Defined.
