(* ===== verification/EdgeDeviceLabelsController.v ===== *)
(** * The labels controller ([controllers/edgedevicelabels_controller.go])

    When the labels of a device change, the deployments that match it are looked
    up through their selector labels and the device is brought in line. *)
From S2P Require Import Prelude Effects Interleave K8s Labels Utils V1alpha1 Calls Repositories EdgeDeploymentController Server.
From Stdlib Require Import Ascii.
Import v1alpha1.

Definition isDeploymentMatchDevice (deployment : EdgeDeployment) (device : EdgeDevice) : result bool :=
  if String.eqb (dep_device deployment) (device_name device) then Ok true
  else
    match dep_selector deployment with
    | Some _ =>
        match LabelSelectorAsSelector (dep_selector deployment) with
        | Err err => Err err
        | Ok selector => Ok (sel_matches selector (map_of (device_labels device)))
        end
    | None => Ok false
    end.

(** The loop over the device's labels. *)
Definition add_selector_label (result : labelmap) (deviceLabel : string) : labelmap :=
  if IsWorkloadLabel deviceLabel then result
  else <[CreateSelectorLabel deviceLabel := "true"]> result.

Definition createSelectorLabelsMap (device : EdgeDevice) : labelmap :=
  foldl add_selector_label
    (<[CreateSelectorLabel DeviceNameLabel := device_name device]>
       {[CreateSelectorLabel DoesNotExistLabel := "true"]})
    (map_to_list (map_of (device_labels device))).*1.

(** The state of the first loop of [createUpdatedDevice]: the deployments not
    yet found on the device, the new list, the labels, whether there is a change. *)
Record update := mkUpdate {
  upd_selected : gmap string bool;
  upd_deployments : list Deployment;
  upd_labels : labelmap;
  upd_changed : bool;
}.

Definition keep_deployment (u : update) (deployment : Deployment) : update :=
  match upd_selected u !! Deployment_Name deployment with
  | Some true =>
      mkUpdate (delete (Deployment_Name deployment) (upd_selected u))
        (upd_deployments u ++ [deployment]) (upd_labels u) (upd_changed u)
  | _ =>
      mkUpdate (upd_selected u) (upd_deployments u)
        (delete (WorkloadLabel (Deployment_Name deployment)) (upd_labels u)) true
  end.

Definition new_deployment (name : string) : Deployment :=
  mkDeployment name Deploying zero_time zero_time.

Definition add_selected (u : update) (entry : string * bool) : update :=
  let '(name, match_) := entry in
  if negb match_ then u
  else mkUpdate (upd_selected u) (upd_deployments u ++ [new_deployment name])
         (<[WorkloadLabel name := "true"]> (upd_labels u)) true.

Definition createUpdatedDevice (selectedDeployments : gmap string bool) (device : EdgeDevice)
    : go (option EdgeDevice) :=
  let u := foldl keep_deployment
             (mkUpdate selectedDeployments [] (map_of (device_labels device)) false)
             (device_deployments device) in
  entries ← permute (map_to_list (upd_selected u));
  let u := foldl add_selected u entries in
  Ret (if upd_changed u
       then Some (set_labels (Some (upd_labels u)) (set_deployments (upd_deployments u) device))
       else None).

(** One deployment of a list. *)
Fixpoint select_deployments (device : EdgeDevice) (selectedDeployments : gmap string bool)
    (deployments : list EdgeDeployment) : result (gmap string bool) :=
  match deployments with
  | [] => Ok selectedDeployments
  | deployment :: deployments =>
      match selectedDeployments !! dep_name deployment with
      | Some _ => select_deployments device selectedDeployments deployments
      | None =>
          match isDeploymentMatchDevice deployment device with
          | Err err => Err err
          | Ok match_ =>
              select_deployments device (<[dep_name deployment := match_]> selectedDeployments) deployments
          end
      end
  end.

Section reconciler.
Context {R : EdgeDeviceRepository} {DR : EdgeDeploymentRepository}.

Definition list_and_select (device : EdgeDevice) (selectedDeployments : gmap string bool)
    (selectorLabel : string * string) : go (result (gmap string bool)) :=
  deployments ←? edgedeployment_ListByLabel selectorLabel.1 selectorLabel.2;
  Ret (select_deployments device selectedDeployments deployments).

Definition updateDeployments (device : EdgeDevice) : go (option error) :=
  selectorLabels ← permute (map_to_list (createSelectorLabelsMap device));
  selectedDeployments ← foldR (list_and_select device) ∅ selectorLabels;
  match selectedDeployments with
  | Err err => Ret (Some err)
  | Ok selectedDeployments =>
      updatedDevice ← createUpdatedDevice selectedDeployments device;
      match updatedDevice with
      | None => Ret None
      | Some updatedDevice =>
          r ← edgedevice_PatchStatus updatedDevice device;
          match r with
          | Err err => Ret (Some err)
          | Ok updatedDevice =>
              r ← edgedevice_Patch device updatedDevice;
              Ret (match r with Ok _ => None | Err err => Some err end)
          end
      end
  end.

Definition Reconcile (req : Request) : go (Result * option error) :=
  edgeDevice ← edgedevice_Read (req_Name req) (req_Namespace req);
  match edgeDevice with
  | Err err => if IsNotFound err then Ret (no_requeue, None) else Ret (requeue, Some err)
  | Ok edgeDevice =>
      match DeletionTimestamp (EdgeDevice_Meta edgeDevice) with
      | Some _ => Ret (no_requeue, None)
      | None =>
          err ← updateDeployments edgeDevice;
          match err with
          | Some err => Ret (requeue, Some err)
          | None => Ret (no_requeue, None)
          end
      end
  end.
End reconciler.

(** ** [createUpdatedDevice] *)

(** The deployments that the device should have. *)
Definition selected (sel : gmap string bool) (n : string) : Prop := sel !! n = Some true.

#[export] Instance selected_dec sel n : Decision (selected sel n).
Proof. unfold selected. apply _. Defined.

(** The first loop. *)
Lemma keep_loop sel ls ds :
  NoDup (Deployment_Name <$> ds) →
  let u := foldl keep_deployment (mkUpdate sel [] ls false) ds in
  let kept := filter (λ d, selected sel (Deployment_Name d)) ds in
  upd_deployments u = kept ∧
  (∀ n, upd_selected u !! n = if decide (n ∈ Deployment_Name <$> kept) then None else sel !! n) ∧
  (∀ k, upd_labels u !! k =
     if decide (k ∈ (λ d, WorkloadLabel (Deployment_Name d)) <$>
                    filter (λ d, ¬ selected sel (Deployment_Name d)) ds)
     then None else ls !! k) ∧
  upd_changed u = negb (bool_decide (Forall (λ d, selected sel (Deployment_Name d)) ds)).
Proof.
  induction ds as [|d ds IH] using rev_ind; intros Hnd; simpl.
  { done. }
  rewrite fmap_app, NoDup_app in Hnd. destruct Hnd as (Hnd & Hx & _).
  destruct (IH Hnd) as (IHd & IHs & IHl & IHc). clear IH. rewrite foldl_app. simpl.
  set (u := foldl keep_deployment _ ds) in *.
  assert (Hd : upd_selected u !! Deployment_Name d = sel !! Deployment_Name d).
  { rewrite IHs, decide_False; [done|]. intros (x & E & Hx')%list_elem_of_fmap.
    apply list_elem_of_filter in Hx' as [_ Hx']. apply (Hx (Deployment_Name d)); [|csimpl; left].
    rewrite E. by apply list_elem_of_fmap_2. }
  unfold keep_deployment. rewrite Hd, !filter_app, fmap_app.
  destruct (decide (selected sel (Deployment_Name d))) as [Hsel|Hsel].
  - unfold selected in Hsel. rewrite Hsel. rewrite filter_cons_True by done.
    rewrite filter_cons_False by tauto. csimpl. split_and!.
    + by rewrite IHd.
    + intros n. destruct (decide (n = Deployment_Name d)) as [->|Hn].
      * rewrite lookup_delete_eq, decide_True; [done|]. apply elem_of_app. right. left.
      * rewrite lookup_delete_ne, IHs by done. apply decide_ext. set_solver.
    + intros k. by rewrite app_nil_r, IHl.
    + rewrite IHc. f_equal. apply bool_decide_ext. rewrite Forall_app. split; [|by intros [? _]]. intros H.
      split; [done|]. by repeat constructor.
  - assert (Hm : match sel !! Deployment_Name d with Some true => False | _ => True end).
    { unfold selected in Hsel. by destruct (sel !! Deployment_Name d) as [[]|]. }
    replace (match sel !! Deployment_Name d with Some true => _ | _ => _ end) with
      (mkUpdate (upd_selected u) (upd_deployments u)
        (delete (WorkloadLabel (Deployment_Name d)) (upd_labels u)) true)
      by (by destruct (sel !! Deployment_Name d) as [[]|]).
    rewrite filter_cons_False, filter_cons_True by done. csimpl. split_and!.
    + by rewrite IHd, app_nil_r.
    + intros n. by rewrite app_nil_r, IHs.
    + intros k. destruct (decide (k = WorkloadLabel (Deployment_Name d))) as [->|Hk].
      * rewrite lookup_delete_eq, decide_True; [done|]. rewrite fmap_app. apply elem_of_app. right. left.
      * rewrite lookup_delete_ne, IHl by done. apply decide_ext. rewrite fmap_app. set_solver.
    + symmetry. apply negb_true_iff, bool_decide_eq_false_2. intros [_ Hf]%Forall_app. by inversion Hf.
Qed.

Definition picked (entries : list (string * bool)) : list string :=
  omap (λ kv : string * bool, if kv.2 then Some kv.1 else None) entries.

(** The second loop. *)
Lemma add_loop u entries :
  let u' := foldl add_selected u entries in
  upd_deployments u' = upd_deployments u ++ (new_deployment <$> picked entries) ∧
  (∀ k, upd_labels u' !! k =
     if decide (k ∈ WorkloadLabel <$> picked entries) then Some "true"%string else upd_labels u !! k) ∧
  upd_changed u' = upd_changed u || negb (bool_decide (picked entries = [])).
Proof.
  revert u; induction entries as [|[n b] entries IH]; intros u.
  { simpl. rewrite app_nil_r, orb_false_r. done. }
  specialize (IH (add_selected u (n, b))).
  destruct b; simpl in *; destruct IH as (IHd & IHl & IHc); rewrite IHd, IHc; [|done].
  split_and!; [by rewrite <- app_assoc| |by rewrite orb_true_r].
  intros k. rewrite IHl. destruct (decide (k = WorkloadLabel n)) as [->|Hk].
  - rewrite lookup_insert_eq, (decide_True (P := WorkloadLabel n ∈ _ :: _)) by left. by case_decide.
  - rewrite lookup_insert_ne by done. apply decide_ext. set_solver.
Qed.

(** What [createUpdatedDevice] makes of a device. *)
Record in_line (sel : gmap string bool) (d d' : EdgeDevice) : Prop := {
  in_line_deployments : ∀ n, n ∈ Deployment_Name <$> device_deployments d' ↔ selected sel n;
  in_line_nodup : NoDup (Deployment_Name <$> device_deployments d');
  (** the entries of the deployments that stay are kept as they are, first *)
  in_line_kept : ∃ new, device_deployments d' =
    filter (λ x, selected sel (Deployment_Name x)) (device_deployments d) ++ (new_deployment <$> new);
  in_line_added : ∀ n, selected sel n → n ∉ Deployment_Name <$> device_deployments d →
    map_of (device_labels d') !! WorkloadLabel n = Some "true"%string;
  in_line_removed : ∀ n, n ∈ Deployment_Name <$> device_deployments d → ¬ selected sel n →
    map_of (device_labels d') !! WorkloadLabel n = None;
  in_line_others : ∀ k,
    (∀ n, k = WorkloadLabel n → (n ∈ Deployment_Name <$> device_deployments d ↔ selected sel n)) →
    map_of (device_labels d') !! k = map_of (device_labels d) !! k;
}.

Lemma elem_of_picked m entries n :
  entries ≡ₚ map_to_list m → n ∈ picked entries ↔ selected m n.
Proof.
  intros Hp. unfold picked, selected. rewrite list_elem_of_omap. setoid_rewrite Hp. split.
  - intros ([n' []] & Hin & [= ->]). by apply elem_of_map_to_list in Hin.
  - intros Hn. exists (n, true). by rewrite elem_of_map_to_list.
Qed.

Lemma picked_nodup m entries : entries ≡ₚ map_to_list m → NoDup (picked entries).
Proof.
  intros Hp. assert (Hnd : NoDup entries.*1) by (rewrite Hp; apply NoDup_fst_map_to_list).
  clear Hp. induction entries as [|[n b] entries IH]; simpl; [constructor|].
  csimpl in Hnd. apply NoDup_cons in Hnd as [Hn Hnd]. destruct b; simpl; [|by apply IH].
  constructor; [|by apply IH]. unfold picked. rewrite list_elem_of_omap.
  intros ([n' []] & Hin & [= ->]). apply Hn. by apply (list_elem_of_fmap_2 fst) in Hin.
Qed.

(** The difference between the deployments a device has and those selected for
    it: nothing when the two agree, otherwise a device that lists exactly the
    selected deployments and differs in nothing but entries and labels. *)
Lemma createUpdatedDevice_wp sel d :
  NoDup (Deployment_Name <$> device_deployments d) →
  wp (createUpdatedDevice sel d) (λ tr out, tr = [] ∧
    match out with
    | Returned None => ∀ n, n ∈ Deployment_Name <$> device_deployments d ↔ selected sel n
    | Returned (Some d') => in_line sel d d' ∧
        d' = set_labels (device_labels d') (set_deployments (device_deployments d') d) ∧
        ¬ (∀ n, n ∈ Deployment_Name <$> device_deployments d ↔ selected sel n)
    | Crashed _ => False
    end).
Proof.
  intros Hnd. unfold createUpdatedDevice.
  destruct (keep_loop sel (map_of (device_labels d)) (device_deployments d) Hnd) as (Hd & Hs & Hl & Hc).
  set (u := foldl keep_deployment _ _) in *. cbv zeta. apply wp_bind, wp_permute. intros entries Hp. simpl.
  destruct (add_loop u entries) as (Hd' & Hl' & Hc'). set (u' := foldl add_selected u entries) in *.
  split; [done|].
  set (names := Deployment_Name <$> device_deployments d) in *.
  set (kept := filter (λ x, selected sel (Deployment_Name x)) (device_deployments d)) in *.
  assert (Hkept : ∀ n, n ∈ Deployment_Name <$> kept ↔ n ∈ names ∧ selected sel n).
  { intros n. unfold kept, names. rewrite !list_elem_of_fmap. setoid_rewrite list_elem_of_filter.
    split; [intros (x & -> & ? & ?); eauto|intros [(x & -> & ?) ?]; eauto]. }
  assert (Hpick : ∀ n, n ∈ picked entries ↔ selected sel n ∧ n ∉ names).
  { intros n. rewrite elem_of_picked by done. unfold selected at 1. rewrite Hs. case_decide as Hk.
    - split; [done|]. apply Hkept in Hk. tauto.
    - rewrite Hkept in Hk. unfold selected in *. tauto. }
  assert (Hsame : upd_changed u' = false ↔ ∀ n, n ∈ names ↔ selected sel n).
  { rewrite Hc', Hc, orb_false_iff, !negb_false_iff, !bool_decide_eq_true. split.
    - intros [Hall Hnil] n. split.
      + intros (x & -> & Hx)%list_elem_of_fmap. rewrite Forall_forall in Hall. by apply Hall.
      + intros Hsel. destruct (decide (n ∈ names)); [done|].
        assert (n ∈ picked entries) as Hin by (by apply Hpick). rewrite Hnil in Hin. by apply elem_of_nil in Hin.
    - intros Hiff. split.
      + apply Forall_forall. intros x Hx. apply Hiff. by apply list_elem_of_fmap_2.
      + apply elem_of_nil_inv. intros n Hn. apply Hpick in Hn as [? ?]. by apply H0, Hiff. }
  destruct (upd_changed u') eqn:Ech; [|by apply Hsame].
  assert (Hdep : upd_deployments u' = kept ++ (new_deployment <$> picked entries)) by (by rewrite Hd', Hd).
  assert (Hnames : Deployment_Name <$> upd_deployments u' =
                   (Deployment_Name <$> kept) ++ picked entries).
  { rewrite Hdep, fmap_app, <- list_fmap_compose. by rewrite list_fmap_id. }
  split; [|split; [done|intros Hiff; apply Hsame in Hiff; congruence]].
  set (d' := set_labels _ _).
  assert (Hdd : device_deployments d' = upd_deployments u') by done.
  assert (Hll : map_of (device_labels d') = upd_labels u') by done. clearbody d'.
  split; fold names; rewrite ?Hdd, ?Hll, ?Hnames.
  - intros n. rewrite elem_of_app, Hkept, Hpick. destruct (decide (n ∈ names)); tauto.
  - apply NoDup_app. split_and!.
    + apply (sublist_NoDup _ names); [done|by apply fmap_sublist, sublist_filter].
    + intros n Hn%Hkept Hn'%Hpick. tauto.
    + by eapply picked_nodup.
  - by exists (picked entries).
  - intros n Hsel Hn. rewrite Hl', decide_True; [done|]. apply list_elem_of_fmap_2. by apply Hpick.
  - intros n Hn Hsel. rewrite Hl', decide_False.
    + rewrite Hl, decide_True; [done|]. apply list_elem_of_fmap in Hn as (x & -> & Hx).
      apply list_elem_of_fmap. exists x. split; [done|]. by apply list_elem_of_filter.
    + intros (n' & ->%(inj WorkloadLabel) & Hn'%Hpick)%list_elem_of_fmap. tauto.
  - intros k Hk. rewrite Hl', decide_False.
    + rewrite Hl, decide_False; [done|]. intros (x & Hkx & [Hsel Hx]%list_elem_of_filter)%list_elem_of_fmap.
      apply Hsel, (Hk _ Hkx). by apply list_elem_of_fmap_2.
    + intros (n & Hkn & Hn%Hpick)%list_elem_of_fmap. specialize (Hk n Hkn). tauto.
Qed.

(** ** The selector labels of a device *)
(** The keys under which the labels of a device are looked up. *)
Definition label_keys (d : EdgeDevice) : list string :=
  CreateSelectorLabel <$> filter (λ l, IsWorkloadLabel l = false) (map_to_list (map_of (device_labels d))).*1.

Lemma elem_of_label_keys d l :
  CreateSelectorLabel l ∈ label_keys d ↔
  l ∈ dom (map_of (device_labels d)) ∧ IsWorkloadLabel l = false.
Proof.
  unfold label_keys. rewrite list_elem_of_fmap. setoid_rewrite list_elem_of_filter.
  assert (Hdom : ∀ x, x ∈ (map_to_list (map_of (device_labels d))).*1 ↔ x ∈ dom (map_of (device_labels d))).
  { intros x. rewrite elem_of_dom, list_elem_of_fmap. split.
    - intros ([k v] & -> & Hin). apply elem_of_map_to_list in Hin. by exists v.
    - intros [v Hv]. exists (x, v). by rewrite elem_of_map_to_list. }
  setoid_rewrite Hdom. split.
  - intros (x & ->%(inj CreateSelectorLabel) & ? & ?). done.
  - intros [??]. by exists l.
Qed.

Lemma createSelectorLabelsMap_lookup d k :
  createSelectorLabelsMap d !! k =
    if decide (k ∈ label_keys d) then Some "true"%string
    else if decide (k = CreateSelectorLabel DeviceNameLabel) then Some (device_name d)
    else if decide (k = CreateSelectorLabel DoesNotExistLabel) then Some "true"%string else None.
Proof.
  unfold createSelectorLabelsMap, label_keys.
  assert (Hgen : ∀ ls (m : labelmap), foldl add_selector_label m ls !! k =
    if decide (k ∈ CreateSelectorLabel <$> filter (λ l, IsWorkloadLabel l = false) ls)
    then Some "true"%string else m !! k).
  { induction ls as [|l ls IH]; intros m; [done|].
    change (foldl add_selector_label m (l :: ls)) with (foldl add_selector_label (add_selector_label m l) ls).
    rewrite IH. unfold add_selector_label. destruct (IsWorkloadLabel l) eqn:El.
    - by rewrite (filter_cons_False _ l) by congruence.
    - rewrite (filter_cons_True _ l) by done. csimpl.
      destruct (decide (k = CreateSelectorLabel l)) as [->|Hk].
      + rewrite lookup_insert_eq, (decide_True (P := CreateSelectorLabel l ∈ _ :: _)) by left.
        by case_decide.
      + rewrite lookup_insert_ne by done. apply decide_ext. set_solver. }
  rewrite Hgen. case_decide; [done|].
  destruct (decide (k = CreateSelectorLabel DeviceNameLabel)) as [->|Hk]; [by rewrite lookup_insert_eq|].
  rewrite lookup_insert_ne by done. case_decide as Hd; [subst; by rewrite lookup_singleton_eq|].
  by rewrite lookup_singleton_ne.
Qed.

(** ** The survey of the deployments *)
Lemma select_deployments_spec d sel ds sel' :
  select_deployments d sel ds = Ok sel' →
  sel ⊆ sel' ∧ (∀ dep, dep ∈ ds → is_Some (sel' !! dep_name dep)) ∧
  ∀ n b, sel' !! n = Some b → sel !! n = Some b ∨
    ∃ dep, dep ∈ ds ∧ dep_name dep = n ∧ isDeploymentMatchDevice dep d = Ok b.
Proof.
  revert sel; induction ds as [|dep ds IH]; intros sel; simpl.
  { intros [= <-]. split_and!; [done| |by left]. intros dep Hd. by apply elem_of_nil in Hd. }
  destruct (sel !! dep_name dep) as [b0|] eqn:E.
  - intros H. destruct (IH _ H) as (Hs & Hd & Hb). split_and!; [done| |].
    + intros dep' [->|Hin]%elem_of_cons; [|by apply Hd]. exists b0. by eapply lookup_weaken.
    + intros n b Hn. destruct (Hb n b Hn) as [?|(dep' & ? & ? & ?)]; [by left|].
      right. exists dep'. split_and!; [by right|done|done].
  - destruct (isDeploymentMatchDevice dep d) as [m|e] eqn:Em; [|done].
    intros H. destruct (IH _ H) as (Hs & Hd & Hb).
    assert (sel ⊆ sel') by (etrans; [by apply insert_subseteq|exact Hs]). split_and!; [done| |].
    + intros dep' [->|Hin]%elem_of_cons; [|by apply Hd]. exists m. eapply lookup_weaken; [|exact Hs].
      by rewrite lookup_insert_eq.
    + intros n b Hn. destruct (Hb n b Hn) as [Hi|(dep' & ? & ? & ?)].
      * apply lookup_insert_Some in Hi as [[<- <-]|[_ ?]]; [|by left]. right. exists dep.
        split_and!; [left|done|done].
      * right. exists dep'. split_and!; [by right|done|done].
Qed.

(** The server answered [ds] to the query for the deployments labelled [kv]. *)
Definition deployments_listed (tr : list api_event) (kv : string * string) (ds : list EdgeDeployment) : Prop :=
  ∃ req, NewRequirement kv.1 OpEquals [kv.2] = Ok req ∧
    Ev (S := api) (ListEdgeDeployments None (InternalSelector [req])) (Ok ds) ∈ tr.

Lemma deployments_listed_mono tr tr' kv ds :
  tr ⊆ tr' → deployments_listed tr kv ds → deployments_listed tr' kv ds.
Proof. intros Hs (req & ? & ?). exists req. auto. Qed.

(** [sel] tells of every deployment listed for [kvs] whether it matches. *)
Definition surveyed (d : EdgeDevice) (kvs : list (string * string)) (sel : gmap string bool)
    (tr : list api_event) : Prop :=
  (∀ kv, kv ∈ kvs → ∃ ds, deployments_listed tr kv ds ∧ ∀ dep, dep ∈ ds → is_Some (sel !! dep_name dep)) ∧
  (∀ n b, sel !! n = Some b → ∃ kv ds dep, kv ∈ kvs ∧ deployments_listed tr kv ds ∧ dep ∈ ds ∧
     dep_name dep = n ∧ isDeploymentMatchDevice dep d = Ok b).

(** The same, for a device whatever its deployments. *)
Lemma createUpdatedDevice_any sel d :
  wp (createUpdatedDevice sel d) (λ tr out, tr = [] ∧
    match out with
    | Returned r => NoDup (Deployment_Name <$> device_deployments d) →
        match r with
        | None => ∀ n, n ∈ Deployment_Name <$> device_deployments d ↔ selected sel n
        | Some d' => in_line sel d d' ∧ d' = set_labels (device_labels d') (set_deployments (device_deployments d') d)
        end
    | Crashed _ => False
    end).
Proof.
  destruct (decide (NoDup (Deployment_Name <$> device_deployments d))) as [Hnd|Hnd].
  - eapply wp_mono; [by apply createUpdatedDevice_wp|].
    intros tr [[d'|]|c] [-> Hout]; split; [done|tauto|done|done|done|done].
  - unfold createUpdatedDevice. cbv zeta. apply wp_bind, wp_permute. intros entries _. simpl. done.
Qed.

Section reconcile.
Context {R : EdgeDeviceRepository} {L : EdgeDeviceRepositoryLaws R}.
Context {DR : EdgeDeploymentRepository} {DL : EdgeDeploymentRepositoryLaws DR}.

Lemma list_and_select_wp d kvs sel kv tr :
  surveyed d kvs sel tr → writes tr = [] →
  wp (list_and_select d sel kv) (λ tr' out, writes (tr ++ tr') = [] ∧
    match out with
    | Returned (Ok sel') => surveyed d (kvs ++ [kv]) sel' (tr ++ tr')
    | Returned (Err _) => True
    | Crashed _ => False
    end).
Proof.
  intros [Hkv Hsel] Hw. unfold list_and_select. apply wp_bind_ok, ListByLabel_law.
  { intros e _. rewrite app_nil_r. done. }
  intros req [ds|e] Hreq; cbn [wp]; go_simpl; rewrite Hw; [|done]. split; [done|].
  destruct (select_deployments d sel ds) as [sel'|e] eqn:Es; [|done].
  apply select_deployments_spec in Es as (Hsub & Hds & Hb).
  set (ev := Ev _ _ : api_event).
  assert (Hl : deployments_listed (tr ++ [ev]) kv ds).
  { exists req. split; [done|]. apply elem_of_app. right. left. }
  split.
  - intros kv' [Hin|Hin%list_elem_of_singleton]%elem_of_app; [|subst; by exists ds].
    destruct (Hkv kv' Hin) as (ds' & Hl' & Hd'). exists ds'.
    split; [by eapply deployments_listed_mono; [|done]|].
    intros dep Hdep. destruct (Hd' dep Hdep) as [b ?]. exists b. by eapply lookup_weaken.
  - intros n b Hn. destruct (Hb n b Hn) as [Ho|(dep & ? & ? & ?)].
    + destruct (Hsel n b Ho) as (kv' & ds' & dep & Hin & Hl' & ?). exists kv', ds', dep.
      split_and!; [by apply elem_of_app; left|by eapply deployments_listed_mono; [|done]|tauto..].
    + exists kv, ds, dep. split_and!; [apply elem_of_app; right; left|done..].
Qed.

Lemma survey_wp d kvs :
  wp (foldR (list_and_select d) ∅ kvs) (λ tr out, writes tr = [] ∧
    match out with
    | Returned (Ok sel) => surveyed d kvs sel tr
    | Returned (Err _) => True
    | Crashed _ => False
    end).
Proof.
  eapply wp_mono; [apply (wp_foldR (list_and_select d)
    (λ dn sel tr, writes tr = [] ∧ surveyed d dn sel tr) (λ _ tr, writes tr = []) (λ _ _, False))|].
  - split; [done|]. split; [intros kv Hk; by apply elem_of_nil in Hk|]. intros n b Hn.
    by rewrite lookup_empty in Hn.
  - intros dn kv todo sel tr _ [Hw Hs]. eapply wp_mono; [by apply list_and_select_wp|].
    intros tr' [[sel'|e]|c] [Hw' Hout]; done.
  - by intros tr [[sel|e]|c]; tauto.
Qed.

(** What the controller did about the device [d]. *)
Definition labels_post (d : EdgeDevice) (tr : list api_event) (oe : option error) : Prop :=
  ∃ kvs, kvs ≡ₚ map_to_list (createSelectorLabelsMap d) ∧
    (oe = None → (∃ sel tr', surveyed d kvs sel tr' ∧ tr' ⊆ tr ∧
       (writes tr = [] ∧ (∀ n, n ∈ Deployment_Name <$> device_deployments d ↔ selected sel n) ∨
        ∃ d' a, in_line sel d d' ∧ writes tr = [PatchEdgeDeviceStatus d d'; PatchEdgeDevice d a] ∧
          Ev (S := api) (PatchEdgeDeviceStatus d d') (Ok a) ∈ tr))).

Lemma updateDeployments_wp d :
  wp (updateDeployments d) (λ tr out,
    (∀ from new, PatchEdgeDevice from new ∈ writes tr →
       from = d ∧ ∃ d', Ev (S := api) (PatchEdgeDeviceStatus d d') (Ok new) ∈ tr) ∧
    match out with
    | Returned oe =>
        (NoDup (Deployment_Name <$> device_deployments d) → labels_post d tr oe) ∧
        ((∃ k v, createSelectorLabelsMap d !! k = Some v ∧ IsQualifiedName k = false) →
         writes tr = [] ∧ oe ≠ None)
    | Crashed _ => False
    end).
Proof.
  unfold updateDeployments. apply wp_bind, wp_permute. intros kvs Hperm. simpl.
  apply wp_bind. eapply wp_mono; [apply survey_wp|].
  intros tr [[sel|e]|c] [Hw Hs]; [| |done].
  2:{ simpl. rewrite app_nil_r, Hw. split; [by intros ?? ?%elem_of_nil|]. split; [|done].
      intros _. by exists kvs. }
  assert (Hbad : ¬ ∃ k v, createSelectorLabelsMap d !! k = Some v ∧ IsQualifiedName k = false).
  { intros (k & v & Hk & Hq). destruct Hs as [Hs _]. destruct (Hs (k, v)) as (ds & (req & Hreq & _) & _).
    - rewrite Hperm. by apply elem_of_map_to_list.
    - apply NewRequirement_ok in Hreq as [_ Hq']. simpl in Hq'. congruence. }
  apply wp_bind. eapply wp_mono; [apply createUpdatedDevice_any|].
  intros tr1 [r|c] [-> Hr]; [|done].
  assert (Hsub : ∀ tr', tr ⊆ tr ++ tr') by auto.
  destruct r as [d'|]; simpl.
  2:{ autorewrite with go. rewrite Hw. split; [by intros ?? ?%elem_of_nil|]. split; [|done].
      intros Hnd. exists kvs. split; [done|]. intros _. exists sel, tr.
      split_and!; [done|done|left]. split; [done|by apply Hr]. }
  apply wp_bind, PatchStatus_law. intros [a|e]; simpl.
  2:{ go_simpl. rewrite Hw. simpl. split; [by intros ?? [?|?%elem_of_nil]%elem_of_cons|].
      split; [|done]. intros Hnd. by exists kvs. }
  apply wp_bind, Patch_law. intros a2. cbn [wp]. go_simpl. rewrite Hw. simpl.
  set (ev := Ev (PatchEdgeDeviceStatus d d') _ : api_event).
  assert (Hev : ∀ e, ev ∈ tr ++ [ev; e]) by (intros; set_solver).
  split.
  { intros from new [?|[[= -> ->]|?%elem_of_nil]%elem_of_cons]%elem_of_cons; [done| |done].
    split; [done|]. exists d'. apply Hev. }
  split; [|done]. intros Hnd. exists kvs. split; [done|]. intros _. exists sel, tr.
  split_and!; [done|auto|]. right. exists d', a. go_simpl. rewrite Hw. split_and!; [by apply Hr|done|apply Hev].
Qed.

Lemma labels_Reconcile_wp req :
  wp (Reconcile req) (λ tr out, ∃ r tr',
    tr = Ev (S := api) (GetEdgeDevice (req_Namespace req) (req_Name req)) r :: tr' ∧
    match r with
    | Err e => tr' = [] ∧
        out = Returned (if IsNotFound e then (no_requeue, None) else (requeue, Some e))
    | Ok d =>
        match DeletionTimestamp (EdgeDevice_Meta d) with
        | Some _ => tr' = [] ∧ out = Returned (no_requeue, None)
        | None =>
            (∀ from new, PatchEdgeDevice from new ∈ writes tr' →
               from = d ∧ ∃ d', Ev (S := api) (PatchEdgeDeviceStatus d d') (Ok new) ∈ tr') ∧
            ∃ oe, out = Returned (match oe with Some _ => requeue | None => no_requeue end, oe) ∧
              (NoDup (Deployment_Name <$> device_deployments d) → labels_post d tr' oe) ∧
              ((∃ k v, createSelectorLabelsMap d !! k = Some v ∧ IsQualifiedName k = false) →
               writes tr' = [] ∧ oe ≠ None)
        end
    end).
Proof.
  unfold Reconcile. apply wp_bind, Read_law. intros [d|e].
  2:{ simpl. destruct (IsNotFound e) eqn:E; simpl; exists (Err e), []; by rewrite E. }
  destruct (DeletionTimestamp _) eqn:E; simpl.
  { exists (Ok d), []. by rewrite E. }
  apply wp_bind. eapply wp_mono; [apply updateDeployments_wp|].
  intros tr [oe|c] [Hp Hout]; [|done].
  destruct Hout as [H1 H2].
  destruct oe as [e|]; simpl; (exists (Ok d), tr); rewrite app_nil_r, E; (split; [done|]);
    (split; [exact Hp|]); [by exists (Some e)|by exists None].
Qed.
End reconcile.

(** ** The index of deployments by selector labels *)

(** The labels of [dep] are the ones [UpdateSelectorLabels] leaves. *)
Definition in_sync (dep : EdgeDeployment) : Prop :=
  ∀ k, IsSelectorLabel k = true → map_of (dep_labels dep) !! k = selector_labels dep !! k.

Lemma in_sync_fixpoint dep : update_selector_labels dep = dep → in_sync dep.
Proof. intros <- k Hk. rewrite update_selector_labels_lookup, Hk. done. Qed.

(** The controller finds [dep] when it looks up the labels of [d]. *)
Definition indexed (dep : EdgeDeployment) (d : EdgeDevice) : Prop :=
  ∃ k v, createSelectorLabelsMap d !! k = Some v ∧ map_of (dep_labels dep) !! k = Some v.

(** The device [d] is looked up under the selector label of [k]. *)
Definition looked_up (d : EdgeDevice) (k : string) : Prop :=
  (k ∈ dom (map_of (device_labels d)) ∧ IsWorkloadLabel k = false) ∨ k = DoesNotExistLabel ∨
  (k = DeviceNameLabel ∧ device_name d = "true"%string).

Lemma looked_up_spec d k :
  createSelectorLabelsMap d !! CreateSelectorLabel k = Some "true"%string ↔ looked_up d k.
Proof.
  rewrite createSelectorLabelsMap_lookup. unfold looked_up. rewrite <- elem_of_label_keys.
  destruct (decide (_ ∈ _)) as [|Hk]; [tauto|].
  destruct (decide (CreateSelectorLabel k = CreateSelectorLabel DeviceNameLabel))
    as [->%(inj CreateSelectorLabel)|Hn].
  { split; [intros [= ?]; tauto|]. intros [?|[H|[_ H]]]; [done|done|by rewrite H]. }
  destruct (decide (CreateSelectorLabel k = CreateSelectorLabel DoesNotExistLabel))
    as [->%(inj CreateSelectorLabel)|Hd]; [tauto|].
  split; [done|]. intros [?|[->|[-> _]]]; done.
Qed.

Lemma createSelectorLabelsMap_selector d k v :
  createSelectorLabelsMap d !! k = Some v → ∃ l, k = CreateSelectorLabel l.
Proof.
  rewrite createSelectorLabelsMap_lookup. repeat case_decide; intros; simplify_eq; eauto.
  unfold label_keys in *. apply list_elem_of_fmap in H as (l & -> & _). eauto.
Qed.

(** The key a requirement of the selector is indexed under. *)
Definition index_key (r : LabelSelectorRequirement) : string :=
  if decide (req_Operator r = LabelSelectorOpDoesNotExist) then DoesNotExistLabel else req_Key r.

Lemma requirement_label_key r : requirement_label r = CreateSelectorLabel (index_key r).
Proof. unfold requirement_label, index_key. by case_decide. Qed.

Lemma indexed_spec dep d s :
  in_sync dep → dep_device dep = ""%string → dep_selector dep = Some s →
  indexed dep d ↔
    (∃ k, k ∈ dom (MatchLabels s) ∧ looked_up d k) ∨
    (∃ r, r ∈ MatchExpressions s ∧ looked_up d (index_key r)).
Proof.
  intros Hs Hd Hsel.
  assert (Hlab : ∀ l v, map_of (dep_labels dep) !! CreateSelectorLabel l = Some v ↔
    v = "true"%string ∧ (l ∈ dom (MatchLabels s) ∨ ∃ r, r ∈ MatchExpressions s ∧ l = index_key r)).
  { intros l v. rewrite Hs by apply IsSelectorLabel_CreateSelectorLabel.
    unfold selector_labels. rewrite Hd, Hsel. simpl.
    rewrite lookup_gset_to_gmap_Some, elem_of_list_to_set, elem_of_app, !list_elem_of_fmap.
    assert (Hdom : l ∈ dom (MatchLabels s) ↔ l ∈ (map_to_list (MatchLabels s)).*1).
    { rewrite elem_of_dom, list_elem_of_fmap. split.
      - intros [x Hx]. exists (l, x). by rewrite elem_of_map_to_list.
      - intros ([a b] & -> & Hin). apply elem_of_map_to_list in Hin. by exists b. }
    rewrite Hdom. setoid_rewrite requirement_label_key. split.
    - intros [[(x & ->%(inj CreateSelectorLabel) & Hx)|(r & ->%(inj CreateSelectorLabel) & Hr)] <-];
        (split; [done|]); [by left|right; eauto].
    - intros [-> [Hin|(r & Hr & ->)]]; (split; [|done]); [left; eauto|right; eauto]. }
  unfold indexed. split.
  - intros (k & v & Hk & Hv). destruct (createSelectorLabelsMap_selector _ _ _ Hk) as [l ->].
    apply Hlab in Hv as [-> [Hin|(r & Hr & ->)]]; apply looked_up_spec in Hk; eauto.
  - intros [(k & Hin & Hk%looked_up_spec)|(r & Hr & Hk%looked_up_spec)];
      do 2 eexists; (split; [exact Hk|]); apply Hlab; eauto.
Qed.

(** The requirements a matching device is sure to be looked up under. *)
Definition indexable (s : LabelSelector) : Prop :=
  (∃ k, k ∈ dom (MatchLabels s) ∧ IsWorkloadLabel k = false) ∨
  (∃ r, r ∈ MatchExpressions s ∧
     match req_Operator r with
     | LabelSelectorOpDoesNotExist => True
     | LabelSelectorOpIn | LabelSelectorOpExists => IsWorkloadLabel (req_Key r) = false
     | _ => False
     end).

Lemma requirement_present r ls :
  match lr_operator r with OpIn | OpEquals | OpExists => True | _ => False end →
  req_matches r ls = true → lr_key r ∈ dom ls.
Proof.
  unfold req_matches. rewrite elem_of_dom.
  destruct (lr_operator r), (ls !! lr_key r); simpl; try done; eauto.
Qed.

(** A device matched by a selector satisfies the selector's requirements. *)
Lemma selector_parts s sel ls :
  LabelSelectorAsSelector (Some s) = Ok sel → sel_matches sel ls = true →
  (∀ k v, MatchLabels s !! k = Some v → k ∈ dom ls) ∧
  (∀ r, r ∈ MatchExpressions s → ∃ lr, requirement_of r = Ok lr ∧ req_matches lr ls = true).
Proof.
  unfold LabelSelectorAsSelector.
  destruct (all_ok _ (map_to_list _)) as [rs1|] eqn:E1; [|done].
  destruct (all_ok requirement_of _) as [rs2|] eqn:E2; [|done]. intros [= <-]. simpl.
  rewrite forallb_app, andb_true_iff, !forallb_forall. setoid_rewrite <- list_elem_of_In.
  intros [H1 H2]. apply all_ok_Forall2 in E1, E2. split.
  - intros k v Hk. apply elem_of_map_to_list in Hk.
    destruct (list_elem_of_lookup_1 _ _ Hk) as [i Hi].
    destruct (Forall2_lookup_l _ _ _ _ _ E1 Hi) as (lr & Hlr & Hreq).
    apply NewRequirement_ok in Hreq as [-> _].
    apply list_elem_of_lookup_2 in Hlr.
    apply (requirement_present (mkLabelRequirement k OpEquals [v])); [exact I|]. by apply H1.
  - intros r Hr. destruct (list_elem_of_lookup_1 _ _ Hr) as [i Hi].
    destruct (Forall2_lookup_l _ _ _ _ _ E2 Hi) as (lr & Hlr & Hreq).
    exists lr. split; [done|]. apply H2. by eapply list_elem_of_lookup_2.
Qed.

(** A deployment that names a device is indexed under the name alone, and a device
    is looked up under its name, unless it has a label of the index's own key. *)
Lemma indexed_by_name dep d :
  in_sync dep → dep_device dep ≠ ""%string →
  indexed dep d ↔ dep_device dep =
    if decide (DeviceNameLabel ∈ dom (map_of (device_labels d))) then "true"%string else device_name d.
Proof.
  intros Hs Hn.
  assert (Hlab : ∀ l v, map_of (dep_labels dep) !! CreateSelectorLabel l = Some v ↔
    l = DeviceNameLabel ∧ v = dep_device dep).
  { intros l v. rewrite Hs by apply IsSelectorLabel_CreateSelectorLabel. unfold selector_labels.
    destruct (String.eqb_spec (dep_device dep) "") as [?|_]; [done|]. cbn [negb].
    rewrite lookup_singleton_Some. split; [by intros [<-%(inj CreateSelectorLabel) <-]|by intros [-> ->]]. }
  assert (Hmap : createSelectorLabelsMap d !! CreateSelectorLabel DeviceNameLabel =
    Some (if decide (DeviceNameLabel ∈ dom (map_of (device_labels d))) then "true"%string else device_name d)).
  { rewrite createSelectorLabelsMap_lookup. pose proof (elem_of_label_keys d DeviceNameLabel) as Hk.
    destruct (decide (_ ∈ label_keys d)) as [H|H], (decide (_ ∈ dom _)) as [H'|H']; try done;
      [by apply Hk in H as [? _]|by destruct H; apply Hk]. }
  unfold indexed. split.
  - intros (k & v & Hk & Hv). destruct (createSelectorLabelsMap_selector _ _ _ Hk) as [l ->].
    apply Hlab in Hv as [-> ->]. rewrite Hmap in Hk. by injection Hk.
  - intros E. exists (CreateSelectorLabel DeviceNameLabel), (dep_device dep).
    split; [by rewrite Hmap, E|by apply Hlab].
Qed.

(** C21: The two controllers agree on the index, where it can lead to a deployment.
    Take a deployment whose selector labels are up to date. If it names a
    device, the device controller finds it, looking the deployments up by the
    labels of a device, exactly for the device of this name, whatever its
    selector says; but a device that has a label [devicename] of its own is
    looked up as if it were called [true]. If the deployment names no device,
    has a selector, and the selector matches the device, it is found, provided
    that the selector names a label to be present (by value, In or Exists) that
    is not a workload label, or a label to be absent. *)
Theorem index_complete dep d :
  in_sync dep →
  (dep_device dep ≠ ""%string →
   indexed dep d ↔ dep_device dep =
     if decide (DeviceNameLabel ∈ dom (map_of (device_labels d))) then "true"%string else device_name d) ∧
  (∀ s sel, dep_device dep = ""%string → dep_selector dep = Some s →
   LabelSelectorAsSelector (Some s) = Ok sel → sel_matches sel (map_of (device_labels d)) = true →
   indexable s → indexed dep d).
Proof.
  intros Hs. split; [by apply indexed_by_name|]. intros s sel Hd Hsel Hok Hm Hi.
  apply (indexed_spec dep d s); [done..|].
  destruct (selector_parts s sel _ Hok Hm) as [Hml Hex].
  destruct Hi as [(k & Hk & Hw)|(r & Hr & Hop)].
  - left. exists k. split; [done|]. left. split; [|done]. apply elem_of_dom in Hk as [v Hk]. eauto.
  - right. exists r. split; [done|]. destruct (Hex r Hr) as (lr & Hlr & Hmatch).
    unfold index_key, requirement_of in *.
    destruct (req_Operator r) eqn:Eop; try done; simpl; [| |by right; left];
      apply NewRequirement_ok in Hlr as [-> _]; left; (split; [|done]);
      by apply (λ H, requirement_present _ _ H Hmatch).
Qed.

(** C22: The gap in the index. Take a deployment that names no device, whose
    selector labels are up to date, and whose selector is made of NotIn
    requirements only, on keys other than the two that the index uses itself
    ([doesnotexist] and [devicename]). A device that has none of these labels is
    matched by the selector, yet no label of the device leads to the deployment:
    the device controller does not find it (and takes it off the device, as the
    run in the witness shows). *)
Theorem index_misses_NotIn dep d s :
  in_sync dep → dep_device dep = ""%string → dep_selector dep = Some s →
  MatchLabels s = ∅ →
  (∀ r, r ∈ MatchExpressions s → req_Operator r = LabelSelectorOpNotIn ∧
     (req_Key r ∉ dom (map_of (device_labels d))) ∧
     req_Key r ≠ DoesNotExistLabel ∧ req_Key r ≠ DeviceNameLabel) →
  (¬ indexed dep d) ∧
  ∀ sel, LabelSelectorAsSelector (Some s) = Ok sel → sel_matches sel (map_of (device_labels d)) = true.
Proof.
  intros Hs Hd Hsel Hml Hex. split.
  - rewrite (indexed_spec dep d s) by done. rewrite Hml, dom_empty_L.
    intros [(k & Hk & _)|(r & Hr & Hl)]; [set_solver|].
    destruct (Hex r Hr) as (Hop & Hdom & H1 & H2). unfold index_key in Hl.
    rewrite decide_False in Hl by congruence. destruct Hl as [[? _]|[?|[? _]]]; done.
  - unfold LabelSelectorAsSelector. rewrite Hml, map_to_list_empty. simpl.
    destruct (all_ok requirement_of _) as [rs|] eqn:E; [|done]. intros sel [= <-]. simpl.
    apply all_ok_Forall2 in E. apply forallb_forall. setoid_rewrite <- list_elem_of_In.
    intros lr Hlr. destruct (list_elem_of_lookup_1 _ _ Hlr) as [i Hi].
    destruct (Forall2_lookup_r _ _ _ _ _ E Hi) as (r & Hr & Hreq).
    apply list_elem_of_lookup_2 in Hr. destruct (Hex r Hr) as (Hop & Hdom & _).
    unfold requirement_of in Hreq. rewrite Hop in Hreq. apply NewRequirement_ok in Hreq as [-> _].
    unfold req_matches. simpl. apply not_elem_of_dom in Hdom. by rewrite Hdom.
Qed.

Section theorems.
Context {R : EdgeDeviceRepository} {L : EdgeDeviceRepositoryLaws R}.
Context {DR : EdgeDeploymentRepository} {DL : EdgeDeploymentRepositoryLaws DR}.

(** What success of the device label controller means, for a device that is not
    being deleted and lists no deployment twice: the deployments carrying each
    of the device's selector labels were listed and each was judged by its
    device name or selector; then either nothing was written because the device
    has exactly the deployments that match, or its status was patched to a
    device that is in line with them (same entries for those that stay, new ones
    for those that came, the workload labels of both kinds set or removed, all
    other labels kept), followed by one patch of the device. *)
Theorem labels_Reconcile_success req :
  wp (Reconcile req) (λ tr out, ∃ r tr',
    tr = Ev (S := api) (GetEdgeDevice (req_Namespace req) (req_Name req)) r :: tr' ∧
    ∀ d, r = Ok d → DeletionTimestamp (EdgeDevice_Meta d) = None →
      NoDup (Deployment_Name <$> device_deployments d) → out = Returned (no_requeue, None) →
      ∃ kvs sel tr0, kvs ≡ₚ map_to_list (createSelectorLabelsMap d) ∧
        surveyed d kvs sel tr0 ∧ tr0 ⊆ tr' ∧
        (writes tr' = [] ∧ (∀ n, n ∈ Deployment_Name <$> device_deployments d ↔ selected sel n) ∨
         ∃ d' a, in_line sel d d' ∧ writes tr' = [PatchEdgeDeviceStatus d d'; PatchEdgeDevice d a] ∧
           Ev (S := api) (PatchEdgeDeviceStatus d d') (Ok a) ∈ tr')).
Proof.
  eapply wp_mono; [apply labels_Reconcile_wp|]. intros tr out (r & tr' & -> & Hr).
  exists r, tr'. split; [done|]. intros d -> Hd Hnd ->. rewrite Hd in Hr.
  destruct Hr as (_ & oe & Hout & Hpost & _).
  destruct oe as [e|]; [by destruct (Hpost Hnd); injection Hout|].
  destruct (Hpost Hnd) as (kvs & Hkvs & H). destruct (H eq_refl) as (sel & tr0 & Hs & Hsub & Hw).
  exists kvs, sel, tr0. split_and!; done.
Qed.

(** What the label controller patches. The object it sends in the patch of a device
    is always the one that the status patch just before it left in memory, the
    server's answer decoded into what the controller computed: which of the
    labels it added or removed are sent depends on that ([LabelsConvergence]). *)
Theorem labels_patch_is_status_answer req :
  wp (Reconcile req) (λ tr out, ∃ r tr',
    tr = Ev (S := api) (GetEdgeDevice (req_Namespace req) (req_Name req)) r :: tr' ∧
    ∀ from new, PatchEdgeDevice from new ∈ writes tr' →
      r = Ok from ∧ ∃ d', Ev (S := api) (PatchEdgeDeviceStatus from d') (Ok new) ∈ tr').
Proof.
  eapply wp_mono; [apply labels_Reconcile_wp|]. intros tr out (r & tr' & -> & Hr).
  exists r, tr'. split; [done|]. intros from new Hin.
  assert (Hnil : tr' = [] → False) by (intros ->; rewrite writes_nil in Hin; by apply elem_of_nil in Hin).
  destruct r as [d|e]; [|by destruct Hr as [? _]].
  destruct (DeletionTimestamp _); [by destruct Hr as [? _]|].
  destruct Hr as (Hp & _). by destruct (Hp from new Hin) as [-> ?].
Qed.

(** A device with a label key of the form prefix/name (other than a workload label)
    is never brought up to date: the controller makes a selector label with two
    slashes of it, which is no label key, and every reconciliation of the device
    writes nothing and fails. *)
Theorem prefixed_label_blocks req :
  wp (Reconcile req) (λ tr out, ∃ r tr',
    tr = Ev (S := api) (GetEdgeDevice (req_Namespace req) (req_Name req)) r :: tr' ∧
    ∀ d l, r = Ok d → DeletionTimestamp (EdgeDevice_Meta d) = None →
      l ∈ dom (map_of (device_labels d)) → IsWorkloadLabel l = false → ("/"%char ∈ chars l) →
      writes tr' = [] ∧ ∃ e, out = Returned (requeue, Some e)).
Proof.
  eapply wp_mono; [apply labels_Reconcile_wp|]. intros tr out (r & tr' & -> & Hr).
  exists r, tr'. split; [done|]. intros d l -> Hd Hl Hw Hslash. rewrite Hd in Hr.
  destruct Hr as (_ & oe & -> & _ & Hbad). destruct Hbad as [Hwr Hoe].
  - exists (CreateSelectorLabel l), "true"%string. split.
    + apply looked_up_spec. by left.
    + apply not_true_is_false. rewrite CreateSelectorLabel_valid. by intros [? _].
  - split; [done|]. destruct oe as [e|]; [by exists e|done].
Qed.
End theorems.

(** ** Examples *)
Definition notin_selector : LabelSelector :=
  mkLabelSelector ∅ [mkRequirement "zone" LabelSelectorOpNotIn ["b"]].
Definition notin_deployment : EdgeDeployment :=
  some_deployment "d" "ns" {["selector/zone" := "true"]} [] (Some notin_selector) "".
Definition busy_device : EdgeDevice :=
  set_deployments [new_deployment "d"] (some_device "dev" "ns" {[WorkloadLabel "d" := "true"; "os" := "linux"]}).

(** A device without the label [zone] matches, but the controller takes the
    deployment off it. *)
Lemma index_misses_NotIn_witness :
  device_deployments busy_device = [new_deployment "d"] ∧
  (device_deployments <$> devices (cluster_of (Reconcile (mkRequest "dev" "ns"))
     (put_deployment notin_deployment (put_device busy_device empty_cluster))) !! ("ns", "dev"))
    = Some [] ∧
  (¬ indexed notin_deployment busy_device) ∧
  ∀ sel, LabelSelectorAsSelector (Some notin_selector) = Ok sel →
    sel_matches sel (map_of (device_labels busy_device)) = true.
Proof.
  split; [reflexivity|]. split; [vm_compute; reflexivity|].
  apply (index_misses_NotIn notin_deployment busy_device notin_selector); [|done..|].
  - apply in_sync_fixpoint. vm_compute. reflexivity.
  - intros r [->|Hr%elem_of_nil]%elem_of_cons; [|done]. split_and!; [done| |done|done].
    by vm_compute.
Defined.

Definition named_deployment : EdgeDeployment :=
  some_deployment "n" "ns" {["selector/devicename" := "in"]} [] (Some notin_selector) "in".

Lemma index_complete_witness :
  indexed example_deployment (some_device "in" "ns" {["zone" := "a"]}) ∧
  indexed named_deployment (some_device "in" "ns" {["zone" := "b"]}) ∧
  (¬ indexed named_deployment (some_device "out" "ns" ∅)) ∧
  isDeploymentMatchDevice named_deployment (some_device "out" "ns" ∅) = Ok true ∧
  (¬ indexed named_deployment (some_device "in" "ns" {["devicename" := "x"]})).
Proof.
  assert (Hn : in_sync named_deployment) by (apply in_sync_fixpoint; vm_compute; reflexivity).
  split_and!.
  - apply (index_complete example_deployment (some_device "in" "ns" {["zone" := "a"]})
      ltac:(apply in_sync_fixpoint; vm_compute; reflexivity)) with (s := example_selector)
      (sel := InternalSelector [mkLabelRequirement "zone" OpEquals ["a"]]); [reflexivity..|vm_compute; reflexivity|vm_compute; reflexivity|].
    left. exists "zone"%string. split; [|reflexivity]. apply elem_of_dom. by exists "a"%string.
  - apply (proj1 (index_complete named_deployment (some_device "in" "ns" {["zone" := "b"]}) Hn)); [discriminate|].
    vm_compute. reflexivity.
  - intros H%(proj1 (index_complete named_deployment (some_device "out" "ns" ∅) Hn)); [|discriminate].
    vm_compute in H. discriminate H.
  - vm_compute. reflexivity.
  - intros H%(proj1 (index_complete named_deployment (some_device "in" "ns" {["devicename" := "x"]}) Hn)); [|discriminate].
    vm_compute in H. discriminate H.
Defined.

Lemma labels_Reconcile_success_witness :
  outcome_of (Reconcile (mkRequest "dev" "ns")) (put_device busy_device empty_cluster) =
    Returned (no_requeue, None) ∧
  wp (Reconcile (mkRequest "dev" "ns")) (λ tr out, ∃ r tr',
    tr = Ev (S := api) (GetEdgeDevice "ns" "dev") r :: tr' ∧
    (r = Ok busy_device → out = Returned (no_requeue, None) →
     ∃ kvs sel tr0, kvs ≡ₚ map_to_list (createSelectorLabelsMap busy_device) ∧
       surveyed busy_device kvs sel tr0)).
Proof.
  split; [vm_compute; reflexivity|].
  eapply wp_mono; [apply (labels_Reconcile_success (mkRequest "dev" "ns"))|].
  intros tr out (r & tr' & -> & H). exists r, tr'. split; [done|]. intros -> Hout.
  destruct (H _ eq_refl eq_refl) as (kvs & sel & tr0 & ? & ? & _); [|done|by exists kvs, sel, tr0].
  repeat constructor. by intros ?%elem_of_nil.
Defined.

Lemma labels_patch_is_status_answer_witness :
  wp (Reconcile (mkRequest "dev" "ns")) (λ tr out, ∃ r tr',
    tr = Ev (S := api) (GetEdgeDevice "ns" "dev") r :: tr' ∧
    ∀ from new, PatchEdgeDevice from new ∈ writes tr' →
      r = Ok from ∧ ∃ d', Ev (S := api) (PatchEdgeDeviceStatus from d') (Ok new) ∈ tr').
Proof. exact (labels_patch_is_status_answer (mkRequest "dev" "ns")). Defined.

Lemma prefixed_label_blocks_witness :
  is_returned (outcome_of (Reconcile (mkRequest "dev" "ns"))
    (put_device (some_device "dev" "ns" {["kubernetes.io/os" := "linux"]}) empty_cluster)) = true ∧
  wp (Reconcile (mkRequest "dev" "ns")) (λ tr out, ∃ r tr',
    tr = Ev (S := api) (GetEdgeDevice "ns" "dev") r :: tr' ∧
    (r = Ok (some_device "dev" "ns" {["kubernetes.io/os" := "linux"]}) → writes tr' = [])).
Proof.
  split; [vm_compute; reflexivity|].
  eapply wp_mono; [apply (prefixed_label_blocks (mkRequest "dev" "ns"))|].
  intros tr out (r & tr' & -> & H). exists r, tr'. split; [done|]. intros ->.
  apply (H _ "kubernetes.io/os"%string eq_refl eq_refl); [|reflexivity|].
  - apply elem_of_dom. by exists "linux"%string.
  - apply (bool_decide_unpack _). by vm_compute.
Defined.
