(* ===== verification/LabelsConvergence.v ===== *)
(** * The label controller in a world

    What a successful reconciliation of a device by
    [EdgeDeviceLabelsController] does to the stored device: its entries become
    those of the deployments that match it, and the workload labels of the
    deployments that came are added; those of the ones that went stay.
    The matching is compared with that of the deployment controller. *)
From S2P Require Import Prelude Effects Interleave Rely K8s Labels Utils V1alpha1 Calls ApiServer Server Repositories EdgeDeploymentController Convergence EdgeDeviceLabelsController.
Import v1alpha1.

(** The deployment names the device, or has a selector that its labels match. *)
Definition matches_device (dep : EdgeDeployment) (d : EdgeDevice) : Prop :=
  dep_device dep = device_name d ∨
  ∃ ls sel, dep_selector dep = Some ls ∧ LabelSelectorAsSelector (Some ls) = Ok sel ∧
    sel_matches sel (map_of (device_labels d)) = true.

Lemma isDeploymentMatchDevice_true dep d : isDeploymentMatchDevice dep d = Ok true ↔ matches_device dep d.
Proof.
  unfold isDeploymentMatchDevice, matches_device.
  destruct (String.eqb_spec (dep_device dep) (device_name d)); [by split; [left|]|].
  destruct (dep_selector dep) as [ls|]; [|split; [done|by intros [?|(? & ? & ? & _)]]].
  destruct (LabelSelectorAsSelector (Some ls)) as [sel|e] eqn:E.
  - split; [intros [= Hm]; right; by exists ls, sel|]. intros [?|(ls' & sel' & [= <-] & Hs & Hm)]; [done|].
    rewrite E in Hs. injection Hs as ->. by rewrite Hm.
  - split; [done|]. intros [?|(ls' & sel' & [= <-] & Hs & _)]; congruence.
Qed.

(** This is what the deployment controller means by it as well, within one
    namespace and when a deployment does not have both a name and a selector. *)
Lemma matches_device_meant_for dep d :
  device_namespace d = dep_namespace dep → device_name d ≠ ""%string →
  (dep_device dep = ""%string ∨ dep_selector dep = None) →
  matches_device dep d ↔ meant_for dep d = true.
Proof.
  intros Hns Hname Hone. unfold matches_device, meant_for. rewrite Hns, String.eqb_refl, andb_true_l.
  destruct (String.eqb_spec (dep_device dep) "") as [Hd|Hd]; cbn [negb].
  - destruct (dep_selector dep) as [ls|]; [|split; [by intros [?|(? & ? & ? & _)]; [congruence|]|done]].
    destruct (LabelSelectorAsSelector (Some ls)) as [sel|e] eqn:E.
    + split; [|intros Hm; right; by exists ls, sel].
      intros [?|(ls' & sel' & [= <-] & Hs & Hm)]; [congruence|]. rewrite E in Hs. by injection Hs as ->.
    + split; [|done]. intros [?|(ls' & sel' & [= <-] & Hs & _)]; congruence.
  - destruct Hone as [?|Hs]; [done|]. rewrite Hs, String.eqb_eq. split; [|by left].
    by intros [?|(? & ? & ? & _)].
Qed.

(** The stored deployments are found under the device's labels when they match
    it, and no two of them have one name. *)
Record well_indexed (deps : gmap key EdgeDeployment) (d : EdgeDevice) : Prop := {
  wi_found : ∀ k dep, deps !! k = Some dep → matches_device dep d → indexed dep d;
  wi_unique : ∀ k1 k2 dep1 dep2, deps !! k1 = Some dep1 → deps !! k2 = Some dep2 →
    dep_name dep1 = dep_name dep2 → dep1 = dep2;
}.

(** A stored deployment of this name matches the device. *)
Definition wanted (deps : gmap key EdgeDeployment) (d : EdgeDevice) (n : string) : Prop :=
  ∃ k dep, deps !! k = Some dep ∧ dep_name dep = n ∧ matches_device dep d.

(** The labels of [d2] are those of [d], and the workload labels of the wanted
    deployments that [d] had no entry of. *)
Definition labels_grown (deps : gmap key EdgeDeployment) (d d2 : EdgeDevice) : Prop := ∀ k,
  match map_of (device_labels d) !! k with
  | Some v => map_of (device_labels d2) !! k = Some v
  | None => ∀ v, map_of (device_labels d2) !! k = Some v ↔
      v = "true"%string ∧ ∃ n, wanted deps d n ∧ n ∉ Deployment_Name <$> device_deployments d ∧ k = WorkloadLabel n
  end.

(** What is computed without the answer's labels, laid under them. *)
Lemma in_line_grown deps sel d d' d2 :
  in_line sel d d' → (∀ n, selected sel n ↔ wanted deps d n) →
  map_of (device_labels d2) = map_of (device_labels d) ∪ map_of (device_labels d') →
  labels_grown deps d d2.
Proof.
  intros [_ _ _ Hadd Hrem Hoth] Hsel E k. rewrite E. set (names := Deployment_Name <$> device_deployments d) in *.
  destruct (map_of (device_labels d) !! k) as [v|] eqn:Ek; [by apply lookup_union_Some_l|].
  rewrite lookup_union_r by done. intros v. destruct (IsWorkloadLabel k) eqn:Ew.
  - apply prefix_spec in Ew as [n Hn]. change (k = WorkloadLabel n) in Hn. subst k.
    destruct (decide (n ∈ names)) as [Hin|Hin], (decide (selected sel n)) as [Hs|Hs].
    2:{ rewrite Hrem by done. split; [done|]. by intros (_ & n' & ? & ? & ->%(inj WorkloadLabel)). }
    2:{ rewrite Hadd by done. split; [|by intros [-> _]]. intros [= <-]. split; [done|]. exists n. by rewrite <- Hsel. }
    all: rewrite Hoth by (intros n' ->%(inj WorkloadLabel); done); rewrite Ek; split; [done|];
      intros (_ & n' & Hw & Hnew & ->%(inj WorkloadLabel)); apply Hsel in Hw; done.
  - rewrite Hoth, Ek; [|intros n' ->; by rewrite IsWorkloadLabel_WorkloadLabel in Ew].
    split; [done|]. intros (_ & n & _ & _ & ->). by rewrite IsWorkloadLabel_WorkloadLabel in Ew.
Qed.

Section labels.
Context {W : Type} `{AS : ApiServer W} {AL : ApiServerLaws W}.

(** What the survey found, in terms of the world it looked at. *)
Lemma surveyed_world d kvs sel tr (w : W) :
  kvs ≡ₚ map_to_list (createSelectorLabelsMap d) → surveyed d kvs sel tr →
  (∀ e, e ∈ tr → ∃ w1 w2, happened w1 e w2 ∧ devices_of w1 = devices_of w ∧ deployments_of w1 = deployments_of w) →
  well_indexed (deployments_of w) d →
  ∀ n, selected sel n ↔ wanted (deployments_of w) d n.
Proof.
  intros Hkvs [Hfound Hsound] Hev [Hidx Huniq].
  assert (Hlist : ∀ kv ds, deployments_listed tr kv ds → ∀ dep, dep ∈ ds ↔
    ∃ k, deployments_of w !! k = Some dep ∧ map_of (dep_labels dep) !! kv.1 = Some kv.2).
  { intros [l v] ds (req & Hreq & Hin) dep. apply NewRequirement_ok in Hreq as [-> _].
    destruct (Hev _ Hin) as (w1 & w2 & Ha & _ & <-). apply list_deployments in Ha. rewrite (Ha dep).
    simpl. unfold req_matches. simpl. setoid_rewrite andb_true_r. split.
    - intros (k & Hk & _ & Hm). exists k. split; [done|]. destruct (_ !! l) as [v'|]; [|done].
      apply bool_decide_eq_true in Hm. by apply list_elem_of_singleton in Hm as ->.
    - intros (k & Hk & Hm). exists k. split_and!; [done..|]. rewrite Hm.
      apply bool_decide_eq_true_2, list_elem_of_singleton. done. }
  intros n. unfold selected, wanted. setoid_rewrite <- isDeploymentMatchDevice_true. split.
  - intros Hn. destruct (Hsound n true Hn) as (kv & ds & dep & _ & Hl & Hin & Hname & Hm).
    apply (Hlist _ _ Hl) in Hin as (k & Hk & _). by exists k, dep.
  - intros (k & dep & Hk & <- & Hm). destruct (Hidx k dep Hk) as (l & v & Hlv & Hlab); [by apply isDeploymentMatchDevice_true|].
    assert ((l, v) ∈ kvs) as Hin by (rewrite Hkvs; by apply elem_of_map_to_list).
    destruct (Hfound _ Hin) as (ds & Hl & Hds).
    assert (dep ∈ ds) as Hd by (apply (Hlist _ _ Hl); by exists k).
    destruct (Hds dep Hd) as [b Hb]. destruct b; [done|].
    destruct (Hsound _ _ Hb) as (kv' & ds' & dep' & _ & Hl' & Hin' & Hname & Hm').
    apply (Hlist _ _ Hl') in Hin' as (k' & Hk' & _).
    rewrite (Huniq _ _ _ _ Hk' Hk Hname) in Hm'. congruence.
Qed.

(** The two patches of [updateDeployments]. *)
Lemma two_patches_swp d d' (w : W) :
  devices_of w !! key_of d = Some d → Finalizers (EdgeDevice_Meta d') = Finalizers (EdgeDevice_Meta d) →
  swp answers
    (r ← edgedevice.PatchStatus d' d;
     match r with
     | Err err => Ret (Some err)
     | Ok updatedDevice =>
         r ← edgedevice.Patch d updatedDevice;
         Ret (match r with Ok _ => None | Err err => Some err end)
     end) w
    (λ _ r w', r = None → ∃ d2, devices_of w' = <[key_of d := d2]> (devices_of w) ∧
       device_deployments d2 = device_deployments d' ∧
       map_of (device_labels d2) = map_of (device_labels d) ∪ map_of (device_labels d')).
Proof.
  intros Hd Hf. apply swp_bind, (swp_ask (PatchEdgeDeviceStatus d d')). intros [a|e] w1 Ha; [|by apply swp_ret].
  apply patch_status in Ha as (d0 & d1 & Hd0 & [Hkey Hlab Hdep Hfin _ _ _] & [_ Hla Hfa _ _] & Hw1). simplify_eq.
  apply swp_bind, (swp_ask (PatchEdgeDevice d a)). intros r w2 Ha. apply patch_device in Ha.
  2:{ by rewrite Hfa, Hfin, Hf, list_into_same. }
  apply swp_ret. destruct r as [a2|e]; [|done]. intros _.
  destruct Ha as (d1' & d2 & Hd1 & [_ Hlab2 Hst _ _ _] & _ & Hw2). rewrite Hw1, lookup_insert_eq in Hd1. injection Hd1 as <-.
  exists d2. rewrite Hw2, Hw1, insert_insert_eq. split_and!; [done| |].
  - unfold device_deployments in *. rewrite Hst, Hdep. unfold merge_field. by case_decide.
  - by rewrite Hlab2, Hla, Hlab, merge_labels_stored.
Qed.

Lemma updateDeployments_swp d (w : W) :
  devices_of w !! key_of d = Some d → NoDup (Deployment_Name <$> device_deployments d) →
  well_indexed (deployments_of w) d →
  swp answers (updateDeployments d) w (λ _ r w', r = None → ∃ d2,
    devices_of w' = <[key_of d := d2]> (devices_of w) ∧
    (∀ n, n ∈ Deployment_Name <$> device_deployments d2 ↔ wanted (deployments_of w) d n) ∧
    labels_grown (deployments_of w) d d2).
Proof.
  intros Hd Hnd Hidx. unfold updateDeployments. apply swp_bind. eapply swp_mono.
  { apply (swp_silent _ w (λ out, ∃ kvs, out = Returned kvs ∧ kvs ≡ₚ map_to_list (createSelectorLabelsMap d))).
    apply wp_permute. eauto. }
  intros tr kvs w1 (-> & -> & kvs' & [= <-] & Hkvs).
  apply swp_bind. eapply swp_mono; [apply swp_reads, survey_wp|].
  intros tr r w1 (Hs & Ew & Ed & Hev). destruct r as [sel|e]; [|by apply swp_ret].
  pose proof (surveyed_world d kvs sel tr w Hkvs Hs Hev Hidx) as Hsel.
  apply swp_bind. eapply swp_mono; [apply swp_silent, createUpdatedDevice_any|].
  intros tr1 r1 w2 (-> & -> & Hr1). specialize (Hr1 Hnd). destruct r1 as [d'|].
  - destruct Hr1 as [Hr1 Hshape]. eapply swp_mono.
    { apply two_patches_swp; [by rewrite Ew|]. by rewrite Hshape. }
    intros tr2 r2 w3 H Hr2. destruct (H Hr2) as (d2 & Hw & Hdep & Hlab). exists d2.
    rewrite Hw, Ew, Hdep. split_and!; [done| |by eapply in_line_grown].
    intros n. rewrite <- Hsel. apply (in_line_deployments _ _ _ Hr1).
  - apply swp_ret. intros _. exists d. rewrite Ew, insert_id by done. split_and!; [done| |].
    + intros n. rewrite <- Hsel. apply Hr1.
    + intros k. destruct (map_of (device_labels d) !! k); [done|]. intros v. split; [done|].
      intros (_ & n & Hn & Hnew & _). destruct Hnew. by apply Hr1, Hsel.
Qed.
End labels.

(** C17: The device label controller in a world with the documented behaviour of the
    API server, when nobody else writes meanwhile. For a device that is not
    being deleted and lists no deployment twice, whose matching deployments can
    be found by its labels and have names of their own, success means that the
    stored device has an entry for exactly the deployments that match it by its
    name or their selector. Its labels are those it had, and the workload labels
    of the deployments that came: the labels of deployments that went are still
    there, since the answer of the status patch puts them back into the object
    that is then sent. No other device changes. *)
Theorem labels_Reconcile_converges {W} `{ApiServer W} `{!ApiServerLaws W} req (w : W) d :
  well_keyed (devices_of w) → devices_of w !! (req_Namespace req, req_Name req) = Some d →
  DeletionTimestamp (EdgeDevice_Meta d) = None → NoDup (Deployment_Name <$> device_deployments d) →
  well_indexed (deployments_of w) d →
  swp answers (Reconcile req) w (λ _ r w', r = (no_requeue, None) → ∃ d2,
    devices_of w' = <[key_of d := d2]> (devices_of w) ∧
    (∀ n, n ∈ Deployment_Name <$> device_deployments d2 ↔ wanted (deployments_of w) d n) ∧
    labels_grown (deployments_of w) d d2).
Proof.
  intros Hk Hd Hdel Hnd Hidx. unfold Reconcile. apply swp_bind, (swp_ask (GetEdgeDevice _ _)).
  intros r w1 Ha. assert (E1 : devices_of w1 = devices_of w) by (by eapply reads_keep).
  assert (E2 : deployments_of w1 = deployments_of w) by (by eapply deployments_keep).
  apply get_device in Ha. destruct r as [d'|e].
  2:{ destruct (IsNotFound e) eqn:He; [rewrite Ha in Hd; done|]. by apply swp_ret. }
  rewrite Ha in Hd. injection Hd as ->. rewrite Hdel. apply swp_bind.
  eapply swp_mono; [apply updateDeployments_swp; [|done|by rewrite E2]|].
  - rewrite E1. by rewrite (Hk _ _ Ha).
  - rewrite E1, E2. intros tr oe w2 Hoe. destruct oe as [e|]; apply swp_ret; [done|]. intros _. by apply Hoe.
Qed.

(** ** Example *)

(** A device with the entry and the label of a deployment that is gone, in a
    cluster with one deployment that matches it. *)
Definition zoned_device : EdgeDevice :=
  set_deployments [new_deployment "gone"]
    (some_device "in" "ns" {["zone" := "a"; WorkloadLabel "gone" := "true"]}).
Definition zoned_cluster : cluster :=
  put_deployment example_deployment (put_device zoned_device empty_cluster).

Lemma zoned_deployments k dep : deployments zoned_cluster !! k = Some dep → dep = example_deployment.
Proof.
  change (deployments zoned_cluster) with (<[("ns", "d")%string := example_deployment]> (∅ : gmap key EdgeDeployment)).
  intros [[_ <-]|[_ H]]%lookup_insert_Some; [done|]. by rewrite lookup_empty in H.
Qed.

Lemma zoned_indexed : well_indexed (deployments zoned_cluster) zoned_device.
Proof.
  split.
  - intros k dep ->%zoned_deployments _. exists "selector/zone"%string, "true"%string. split; by vm_compute.
  - by intros k1 k2 dep1 dep2 ->%zoned_deployments ->%zoned_deployments.
Qed.

Lemma labels_Reconcile_converges_witness :
  let c' := cluster_of (Reconcile (mkRequest "in" "ns")) zoned_cluster in
  ((λ d, (Deployment_Name <$> device_deployments d, map_of (device_labels d))) <$> devices c' !! ("ns", "in")) =
    Some (["d"], {["zone" := "a"; WorkloadLabel "gone" := "true"; WorkloadLabel "d" := "true"]})%string ∧
  ∃ d2, devices c' = <[key_of zoned_device := d2]> (devices zoned_cluster) ∧
    labels_grown (deployments zoned_cluster) zoned_device d2.
Proof.
  split; [vm_compute; reflexivity|].
  destruct (run_swp (Reconcile (mkRequest "in" "ns")) zoned_cluster _ (no_requeue, None)
    (labels_Reconcile_converges (mkRequest "in" "ns") zoned_cluster zoned_device
       ltac:(apply map_Forall_keyed; vm_compute; reflexivity) eq_refl eq_refl
       ltac:(repeat constructor; by intros ?%elem_of_nil) zoned_indexed)
    ltac:(vm_compute; reflexivity) ltac:(vm_compute; reflexivity) eq_refl) as (d2 & H1 & _ & H2).
  exists d2. split; [exact H1|exact H2].
Defined.
