(* ===== verification/Base64.v ===== *)
(** * [base64.StdEncoding.EncodeToString]

    Used for the S3 credentials and the certificate bundle ([internal/storage])
    and the values of Secrets sent to a device ([internal/yggdrasil]). A byte
    slice is a string; [decode64] is what the receiving device does. *)
From S2P Require Import Prelude Labels.
From Stdlib Require Import Ascii.
#[local] Open Scope Z_scope.

Definition alphabet : list ascii :=
  chars "ABCDEFGHIJKLMNOPQRSTUVWXYZabcdefghijklmnopqrstuvwxyz0123456789+/".

Definition enc (i : Z) : ascii := nth (Z.to_nat i) alphabet "="%char.

Definition dec (c : ascii) : option Z :=
  Z.of_nat <$> (fst <$> list_find (λ a, a = c) alphabet).

Definition byte (c : ascii) : Z := Z.of_N (N_of_ascii c).
Definition char_of (b : Z) : ascii := ascii_of_N (Z.to_N b).

(** Three bytes make four digits; the last group is padded. *)
Fixpoint encode (s : list ascii) : list ascii :=
  match s with
  | [] => []
  | [a] => [enc (byte a / 4); enc (byte a mod 4 * 16); "="; "="]%char
  | [a; b] =>
      [enc (byte a / 4); enc (byte a mod 4 * 16 + byte b / 16); enc (byte b mod 16 * 4); "="%char]
  | a :: b :: c :: s =>
      enc (byte a / 4) :: enc (byte a mod 4 * 16 + byte b / 16)
        :: enc (byte b mod 16 * 4 + byte c / 64) :: enc (byte c mod 64) :: encode s
  end.

Definition EncodeToString (s : string) : string := String.string_of_list_ascii (encode (chars s)).

(** The standard decoder, strict about padding. *)
Fixpoint decode64 (s : list ascii) : option (list ascii) :=
  match s with
  | [] => Some []
  | a :: b :: c :: d :: s =>
      x ← dec a; y ← dec b;
      match dec c, dec d with
      | Some z, Some w =>
          rest ← decode64 s;
          Some (char_of (x * 4 + y / 16) :: char_of (y mod 16 * 16 + z / 4)
                  :: char_of (z mod 4 * 64 + w) :: rest)
      | Some z, None =>
          if decide (d = "="%char ∧ s = []) then
            Some [char_of (x * 4 + y / 16); char_of (y mod 16 * 16 + z / 4)]
          else None
      | None, _ =>
          if decide (c = "="%char ∧ d = "="%char ∧ s = []) then Some [char_of (x * 4 + y / 16)] else None
      end
  | _ => None
  end.

Lemma byte_bound c : 0 ≤ byte c < 256.
Proof. unfold byte. pose proof (N_ascii_bounded c). lia. Qed.

Lemma char_of_byte c b : b = byte c → char_of b = c.
Proof. intros ->. unfold char_of, byte. rewrite N2Z.id. apply ascii_N_embedding. Qed.

Lemma dec_enc i : 0 ≤ i < 64 → dec (enc i) = Some i.
Proof.
  intros Hi. assert (Hall : Forall (λ i, dec (enc (Z.of_nat i)) = Some (Z.of_nat i)) (seq 0 64)).
  { apply (bool_decide_unpack _). vm_compute. reflexivity. }
  rewrite Forall_forall in Hall. specialize (Hall (Z.to_nat i)).
  rewrite Z2Nat.id in Hall by lia. apply Hall, elem_of_seq. lia.
Qed.

Lemma dec_pad : dec "=" = None.
Proof. reflexivity. Qed.

Ltac b64 := repeat match goal with
  | c : ascii |- _ => lazymatch goal with H : 0 ≤ byte c < 256 |- _ => fail | _ => pose proof (byte_bound c) end
  end.

Lemma decode_encode s : decode64 (encode s) = Some s.
Proof.
  induction s as [s IH] using (induction_ltof1 _ (@List.length ascii)). unfold ltof in IH.
  destruct s as [|a [|b [|c s]]]; [done|..]; simpl; b64;
    rewrite !dec_enc by (Z.to_euclidean_division_equations; lia); simpl; rewrite ?dec_pad; simpl.
  - do 2 f_equal. apply char_of_byte. Z.to_euclidean_division_equations; lia.
  - f_equal. f_equal; [|f_equal]; apply char_of_byte; Z.to_euclidean_division_equations; lia.
  - rewrite IH by (simpl; lia). simpl. f_equal.
    f_equal; [|f_equal; [|f_equal]]; apply char_of_byte; Z.to_euclidean_division_equations; lia.
Qed.

(** The Base64 text of a byte string decodes to exactly that byte string. *)
Lemma EncodeToString_decode s : decode64 (chars (EncodeToString s)) = Some (chars s).
Proof.
  unfold EncodeToString, chars. rewrite String.list_ascii_of_string_of_list_ascii. apply decode_encode.
Qed.
