(* ===== verification/Storage.v ===== *)
(** * Object storage of a device ([internal/storage/storage.go])

    Claiming a bucket for a device, and the S3 configuration sent to it, from
    its bucket claim or from the objects its specification names. *)
From S2P Require Import Prelude Effects K8s Labels Models V1alpha1 Calls Base64 Server.
From Stdlib Require Import Ascii.
Import v1alpha1.

(** ** [ParsePort] of [k8s.io/utils/net], not allowing zero *)

(** [strconv.ParseUint(s, 10, 16)]; the texts of its errors are abbreviated. *)
Fixpoint parse_digits (n : Z) (s : list ascii) : result Z :=
  match s with
  | [] => Ok n
  | c :: s =>
      if is_digit c then
        let n := (n * 10 + (byte c - 48))%Z in
        if (65535 <? n)%Z then Err (ErrorString "value out of range") else parse_digits n s
      else Err (ErrorString "invalid syntax")
  end.

Definition ParseUint16 (s : string) : result Z :=
  match chars s with
  | [] => Err (ErrorString "invalid syntax")
  | cs => parse_digits 0 cs
  end.

Definition ParsePort (port : string) : result Z :=
  match ParseUint16 port with
  | Err err => Err err
  | Ok portInt =>
      if (portInt =? 0)%Z then Err (ErrorString "0 is not a valid port number") else Ok portInt
  end.

(** ** The claimer *)
Definition GetClaim (name namespace : string) : go (result ObjectBucketClaim) :=
  ask (GetObjectBucketClaim namespace name).

Definition CreateClaim (device : EdgeDevice) : go (result ObjectBucketClaim) :=
  ask (CreateObjectBucketClaim
    (mkObjectBucketClaim (new_meta (device_name device) (device_namespace device))
       (device_name device) "openshift-storage.noobaa.io")).

(** A missing key, as an error. *)
Definition field {A} (data : gmap string A) (key message : string) : result A :=
  match data !! key with Some v => Ok v | None => Err (ErrorString message) end.

Definition obc_name (o : ObjectBucketClaim) : string := Name (obc_Meta o).

Definition GetStorageConfiguration (device : option EdgeDevice)
    : go (result models.S3StorageConfiguration) :=
  match device with
  | None => Ret (Err (ErrorString "Cannot get device"))
  | Some device =>
      match EdgeDeviceStatus_DataOBC (EdgeDevice_Status device) with
      | None => Ret (Err (ErrorString "Cannot get device OBC config"))
      | Some dataOBC =>
          obc ←? GetClaim dataOBC (device_namespace device);
          cm ←? ask (GetConfigMap (device_namespace device) (obc_name obc));
          s3route ←? ask (GetRoute "openshift-storage" "s3");
          secret ←? ask (GetSecret (device_namespace device) (obc_name obc));
          awsAccessKeyID ←? Ret (field (secret_Data secret) "AWS_ACCESS_KEY_ID"
                                  "Cannot get AWS_ACCESS_KEY_ID");
          awsSecretAccessKey ←? Ret (field (secret_Data secret) "AWS_SECRET_ACCESS_KEY"
                                      "Cannot get AWS_SECRET_ACCESS_KEY_ID");
          ca ←? ask (GetSecret "openshift-ingress-operator" "router-ca");
          Ret (Ok (models.mkS3StorageConfiguration
            (EncodeToString awsAccessKeyID)
            (match secret_Data ca !! "tls.crt" with Some caBundle => EncodeToString caBundle | None => "" end)
            (EncodeToString awsSecretAccessKey)
            (route_Host s3route)
            (default "" (cm_Data cm !! "BUCKET_NAME"))
            443 "ignore"))
      end
  end.

(** [types.NamespacedName.String()] *)
Definition full_name (namespace name : string) : string := namespace +:+ "/" +:+ name.

Definition missingFieldMessage (key resource : string) : string :=
  "Missing field " +:+ key +:+ " in resource " +:+ resource.

(** [Spec.Storage] is dereferenced without a test: callers make sure of it. *)
Definition GetExternalStorageConfig (device : EdgeDevice) : go (result models.S3StorageConfiguration) :=
  storage ← lift (deref_ptr (EdgeDeviceSpec_Storage (EdgeDevice_Spec device)));
  match Storage_S3 storage with
  | None => Ret (Err (ErrorString
              ("missing storage in device configuration. Device name: " +:+ device_name device)))
  | Some config =>
      cm ←? ask (GetConfigMap (device_namespace device) (S3Storage_ConfigMapName config));
      secret ←? ask (GetSecret (device_namespace device) (S3Storage_SecretName config));
      let configMapFullName := full_name (device_namespace device) (S3Storage_ConfigMapName config) in
      let secretFullName := full_name (device_namespace device) (S3Storage_SecretName config) in
      let of_cm key := field (cm_Data cm) key (missingFieldMessage key configMapFullName) in
      let of_secret key := field (secret_Data secret) key (missingFieldMessage key secretFullName) in
      bucketName ←? Ret (of_cm "BUCKET_NAME");
      bucketHost ←? Ret (of_cm "BUCKET_HOST");
      bucketPort ←? Ret (of_cm "BUCKET_PORT");
      bucketRegion ←? Ret (of_cm "BUCKET_REGION");
      accessKeyID ←? Ret (of_secret "AWS_ACCESS_KEY_ID");
      secretAccessKey ←? Ret (of_secret "AWS_SECRET_ACCESS_KEY");
      bucketPortNumeric ←? Ret (ParsePort bucketPort);
      Ret (Ok (models.mkS3StorageConfiguration
        (EncodeToString accessKeyID)
        (EncodeToString (default "" (secret_Data secret !! "tls.crt")))
        (EncodeToString secretAccessKey)
        bucketHost bucketName bucketPortNumeric bucketRegion))
  end.

Definition getS3 (device : EdgeDevice) : option S3Storage :=
  match EdgeDeviceSpec_Storage (EdgeDevice_Spec device) with
  | Some storageObj => Storage_S3 storageObj
  | None => None
  end.

Definition ShouldUseExternalConfig (device : EdgeDevice) : bool :=
  match getS3 device with
  | Some s3Obj =>
      negb (String.eqb (S3Storage_ConfigMapName s3Obj) "") || negb (String.eqb (S3Storage_SecretName s3Obj) "")
  | None => false
  end.

Definition ShouldCreateOBC (device : EdgeDevice) : bool :=
  match getS3 device with
  | Some s3Obj => if negb (ShouldUseExternalConfig device) then S3Storage_CreateOBC s3Obj else false
  | None => false
  end.

(** ** Ports *)

(** The number a list of digits denotes. *)
Definition decimal (s : list ascii) : Z := foldl (λ n c, n * 10 + (byte c - 48))%Z 0%Z s.

Lemma is_digit_range c : is_digit c = true → (48 ≤ byte c ≤ 57)%Z.
Proof.
  unfold is_digit, in_range, byte. rewrite andb_true_iff, !N.leb_le.
  change (N_of_ascii "0"%char) with 48%N. change (N_of_ascii "9"%char) with 57%N. lia.
Qed.

Lemma decimal_mono n s :
  (0 ≤ n)%Z → forallb is_digit s = true → (n ≤ foldl (λ n c, n * 10 + (byte c - 48))%Z n s)%Z.
Proof.
  revert n; induction s as [|c s IH]; intros n Hn; simpl; [lia|].
  rewrite andb_true_iff. intros [Hc%is_digit_range Hs]. etrans; [|apply IH; [lia|done]]. lia.
Qed.

Lemma parse_digits_spec n s m :
  (0 ≤ n ≤ 65535)%Z →
  parse_digits n s = Ok m ↔
  forallb is_digit s = true ∧ m = foldl (λ n c, n * 10 + (byte c - 48))%Z n s ∧ (m ≤ 65535)%Z.
Proof.
  revert n; induction s as [|c s IH]; intros n Hn; simpl; [naive_solver|].
  destruct (is_digit c) eqn:Ec; simpl; [|naive_solver]. apply is_digit_range in Ec.
  destruct (Z.ltb_spec 65535 (n * 10 + (byte c - 48)))%Z as [Hlt|Hle].
  - split; [done|]. intros (Hd & -> & Hm). exfalso.
    pose proof (decimal_mono (n * 10 + (byte c - 48)) s ltac:(lia) Hd). lia.
  - apply IH. lia.
Qed.

Lemma ParsePort_ok port p :
  ParsePort port = Ok p ↔
  chars port ≠ [] ∧ forallb is_digit (chars port) = true ∧ p = decimal (chars port) ∧ (1 ≤ p ≤ 65535)%Z.
Proof.
  unfold ParsePort, ParseUint16. destruct (chars port) as [|c cs] eqn:E; [naive_solver|].
  pose proof (λ m, parse_digits_spec 0 (c :: cs) m ltac:(lia)) as H.
  destruct (parse_digits 0 (c :: cs)) as [m|e].
  - destruct (proj1 (H m) eq_refl) as (Hd & -> & Hm).
    pose proof (decimal_mono 0 (c :: cs) ltac:(lia) Hd) as H0. fold (decimal (c :: cs)) in *.
    destruct (Z.eqb_spec (decimal (c :: cs)) 0) as [->|Hn]; split; [done|lia| |].
    + intros [= <-]. split_and!; [done..|lia|lia].
    + by intros (_ & _ & -> & _).
  - split; [done|]. intros (_ & Hd & -> & Hr).
    pose proof (proj2 (H _) (conj Hd (conj eq_refl (proj2 Hr)))). done.
Qed.

(** C39: A bucket port is accepted exactly when it is a non-empty string of decimal
    digits whose value, leading zeros allowed, is between 1 and 65535, so its
    conversion to a 32-bit integer is exact. *)
Theorem ParsePort_spec port p :
  ParsePort port = Ok p ↔
  chars port ≠ [] ∧ forallb is_digit (chars port) = true ∧ p = decimal (chars port) ∧ (1 ≤ p ≤ 65535)%Z.
Proof. apply ParsePort_ok. Qed.

Lemma ParsePort_spec_witness : ParsePort "00443" = Ok 443%Z ∧ ParsePort "65536" = Err (ErrorString "value out of range").
Proof.
  split; [|reflexivity]. apply (proj2 (ParsePort_spec "00443" 443)). split_and!; [done|reflexivity|reflexivity|lia|lia].
Defined.

(** ** Configurations *)

(** The configuration [c] says what the ConfigMap and the Secret say. *)
Record external_config (cm : ConfigMap) (secret : Secret) (c : models.S3StorageConfiguration) : Prop := {
  external_name : cm_Data cm !! "BUCKET_NAME"%string = Some (models.S3_BucketName c);
  external_host : cm_Data cm !! "BUCKET_HOST"%string = Some (models.S3_BucketHost c);
  external_port : ∃ port, cm_Data cm !! "BUCKET_PORT"%string = Some port ∧
    ParsePort port = Ok (models.S3_BucketPort c);
  external_region : cm_Data cm !! "BUCKET_REGION"%string = Some (models.S3_BucketRegion c);
  external_key : ∃ k, secret_Data secret !! "AWS_ACCESS_KEY_ID"%string = Some k ∧
    models.S3_AwsAccessKeyID c = EncodeToString k;
  external_secret : ∃ k, secret_Data secret !! "AWS_SECRET_ACCESS_KEY"%string = Some k ∧
    models.S3_AwsSecretAccessKey c = EncodeToString k;
  external_ca : models.S3_AwsCaBundle c = EncodeToString (default "" (secret_Data secret !! "tls.crt"%string));
}.

Lemma field_ok {A} (data : gmap string A) k m v : field data k m = Ok v ↔ data !! k = Some v.
Proof. unfold field. destruct (data !! k); naive_solver. Qed.

(** The chain of required fields. *)
Lemma wp_field {A B} (data : gmap string A) k m (f : A → go (result B)) Q :
  (∀ v, data !! k = Some v → wp (f v) Q) → (data !! k = None → Q [] (Returned (Err (ErrorString m)))) →
  wp (bind_ok (Ret (field data k m)) f) Q.
Proof.
  intros HS HN. unfold field. destruct (data !! k) as [v|] eqn:E; simpl; [by apply HS|by apply HN].
Qed.

(** The storage configuration given by the user. It is read without writing, from
    exactly the ConfigMap and then exactly the Secret that the device names, in
    its namespace; a configuration is answered only when all of the bucket's
    name, host, port and region and both keys are there and the port is a number
    of 16 bits, and it carries these values, the keys and the optional
    certificate in Base64; nothing panics for a device that asks for it. *)
Theorem GetExternalStorageConfig_spec device :
  ShouldUseExternalConfig device = true →
  wp (GetExternalStorageConfig device) (λ tr out, writes tr = [] ∧ ∃ r s3, out = Returned r ∧
    getS3 device = Some s3 ∧
    ∀ c, r = Ok c → ∃ cm secret, external_config cm secret c ∧
      tr = [Ev (S := api) (GetConfigMap (device_namespace device) (S3Storage_ConfigMapName s3)) (Ok cm);
            Ev (S := api) (GetSecret (device_namespace device) (S3Storage_SecretName s3)) (Ok secret)]).
Proof.
  unfold ShouldUseExternalConfig, getS3, GetExternalStorageConfig. intros Huse.
  destruct (EdgeDeviceSpec_Storage _) as [[s3]|]; [|done]. simpl in *.
  destruct s3 as [s3|]; [|done]. clear Huse.
  assert (Herr : ∀ e (tr : list api_event), writes tr = [] → writes tr = [] ∧ ∃ r s3', Returned (Err e) = Returned r ∧
    Some s3 = Some s3' ∧ ∀ c, r = Ok c → ∃ cm secret, external_config cm secret c ∧
      tr = [Ev (S := api) (GetConfigMap (device_namespace device) (S3Storage_ConfigMapName s3')) (Ok cm);
            Ev (S := api) (GetSecret (device_namespace device) (S3Storage_SecretName s3')) (Ok secret)]).
  { intros e tr Hw. split; [done|]. by eexists (Err e), s3. }
  intros [cm|e]; [|by apply Herr; go_simpl]. intros [secret|e]; [|by apply Herr; go_simpl].
  repeat (apply wp_field; [intros ? ?|intros _; by apply Herr; go_simpl]).
  simpl. destruct (ParsePort _) as [p|e] eqn:Ep; simpl; [|by apply Herr; go_simpl].
  go_simpl. split; [done|]. do 2 eexists. split; [done|]. split; [done|]. intros c [= <-].
  exists cm, secret. split; [|done]. split; simpl; eauto.
Qed.

Lemma GetExternalStorageConfig_spec_witness :
  let s3 := mkS3Storage "sec" "cm" false in
  let device := mkEdgeDevice (new_meta "dev" "ns")
    (mkEdgeDeviceSpec None None None (Some (mkStorage (Some s3))) None ∅) zero_status in
  ShouldUseExternalConfig device = true ∧
  wp (GetExternalStorageConfig device) (λ tr out, writes tr = []).
Proof.
  split; [reflexivity|].
  eapply wp_mono; [by apply GetExternalStorageConfig_spec|]. by intros tr out [? _].
Defined.
