(* ===== verification/EdgeDeviceController.v ===== *)
(** * The EdgeDevice controller ([controllers/edgedevice_controller.go])

    Gives a device its object bucket claim, once. *)
From S2P Require Import Prelude Effects K8s V1alpha1 Calls Repositories Storage Server.
Import v1alpha1.

Section reconciler.
Context {R : EdgeDeviceRepository} (ObcAutoCreate : bool).

Definition createOrGetObc (edgeDevice : EdgeDevice) : go (result ObjectBucketClaim) :=
  obc ← GetClaim (device_name edgeDevice) (device_namespace edgeDevice);
  match obc with
  | Ok obc => Ret (Ok obc)
  | Err err => if IsNotFound err then CreateClaim edgeDevice else Ret (Err err)
  end.

Definition addObcReference (edgeDevice : EdgeDevice) (obcName : string) : go (option error) :=
  r ← edgedevice_PatchStatus (set_obc (Some obcName) edgeDevice) edgeDevice;
  Ret (match r with Ok _ => None | Err err => Some err end).

(** [DataOBC == nil || len( *DataOBC ) == 0] *)
Definition no_obc (edgeDevice : EdgeDevice) : bool :=
  match EdgeDeviceStatus_DataOBC (EdgeDevice_Status edgeDevice) with
  | None => true
  | Some s => Nat.eqb (String.length s) 0
  end.

Definition Reconcile (req : Request) : go (Result * option error) :=
  edgeDevice ← edgedevice_Read (req_Name req) (req_Namespace req);
  match edgeDevice with
  | Err err => if IsNotFound err then Ret (no_requeue, None) else Ret (requeue, Some err)
  | Ok edgeDevice =>
      if negb ObcAutoCreate && negb (ShouldCreateOBC edgeDevice) then Ret (no_requeue, None)
      else if no_obc edgeDevice then
        obc ← createOrGetObc edgeDevice;
        match obc with
        | Err err => Ret (requeue, Some err)
        | Ok obc =>
            err ← addObcReference edgeDevice (obc_name obc);
            match err with
            | Some err => Ret (mkResult true (5 * 1000000000), Some err)
            | None => Ret (no_requeue, None)
            end
        end
      else Ret (no_requeue, None)
  end.
End reconciler.

(** ** The life of a claim *)
Definition wants_obc (ObcAutoCreate : bool) (d : EdgeDevice) : bool :=
  (ObcAutoCreate || ShouldCreateOBC d) && no_obc d.

(** The claim that the device asks for. *)
Definition claim_of (d : EdgeDevice) : ObjectBucketClaim :=
  mkObjectBucketClaim (new_meta (device_name d) (device_namespace d)) (device_name d)
    "openshift-storage.noobaa.io".

(** What a reconciliation that read [d] may do. *)
Record obc_step (auto : bool) (d : EdgeDevice) (tr : list api_event)
    (out : outcome (Result * option error)) : Prop := {
  (** a device that wants no claim, or has one, is left alone *)
  obc_idle : wants_obc auto d = false → tr = [] ∧ out = Returned (no_requeue, None);
  (** a claim is created only after the server said there is none *)
  obc_create : CreateObjectBucketClaim (claim_of d) ∈ writes tr → ∃ e tr',
    tr = Ev (S := api) (GetObjectBucketClaim (device_namespace d) (device_name d)) (Err e) :: tr' ∧
    IsNotFound e = true;
  (** nothing is written but the claim and the reference to the claim found or
      created *)
  obc_writes : ∀ o, o ∈ writes tr → o = CreateObjectBucketClaim (claim_of d) ∨
    ∃ obc, o = PatchEdgeDeviceStatus d (set_obc (Some (obc_name obc)) d) ∧
      (Ev (S := api) (GetObjectBucketClaim (device_namespace d) (device_name d)) (Ok obc) ∈ tr ∨
       Ev (S := api) (CreateObjectBucketClaim (claim_of d)) (Ok obc) ∈ tr);
  (** success means that the reference was accepted *)
  obc_done : wants_obc auto d = true → out = Returned (no_requeue, None) → ∃ obc d',
    Ev (S := api) (PatchEdgeDeviceStatus d (set_obc (Some (obc_name obc)) d)) (Ok d') ∈ tr;
}.

Section theorems.
Context {R : EdgeDeviceRepository} {L : EdgeDeviceRepositoryLaws R}.

(** The reference to a claim, after the trace that found or made the claim. *)
Lemma reference_wp auto d obc tr :
  wants_obc auto d = true →
  (writes tr = [] ∨ writes tr = [CreateObjectBucketClaim (claim_of d)] ∧ ∃ e tr', tr =
     Ev (S := api) (GetObjectBucketClaim (device_namespace d) (device_name d)) (Err e) :: tr' ∧
     IsNotFound e = true) →
  (Ev (S := api) (GetObjectBucketClaim (device_namespace d) (device_name d)) (Ok obc) ∈ tr ∨
   Ev (S := api) (CreateObjectBucketClaim (claim_of d)) (Ok obc) ∈ tr) →
  wp (err ← addObcReference d (obc_name obc);
      match err with
      | Some err => Ret (mkResult true (5 * 1000000000), Some err)
      | None => Ret (no_requeue, None)
      end) (λ tr' out, obc_step auto d (tr ++ tr') out).
Proof.
  intros Hw Hwr Hobc. apply wp_bind. unfold addObcReference. apply wp_bind, PatchStatus_law. intros a.
  set (ev := Ev (PatchEdgeDeviceStatus d _) a : api_event).
  assert (Hwr' : writes (tr ++ [ev]) = writes tr ++ [PatchEdgeDeviceStatus d (set_obc (Some (obc_name obc)) d)])
    by (by go_simpl).
  assert (Hstep : ∀ out, (∀ x, out = Returned (no_requeue, x) → is_ok a = true) →
                         obc_step auto d (tr ++ [ev]) out).
  { intros out Hout. split.
    - congruence.
    - rewrite Hwr'. intros [Hin|Hin%list_elem_of_singleton]%elem_of_app; [|done].
      destruct Hwr as [Hn|[_ (e & tr' & -> & He)]]; [rewrite Hn in Hin; by apply elem_of_nil in Hin|]. by eexists e, _.
    - rewrite Hwr'. intros o [Hin|Hin%list_elem_of_singleton]%elem_of_app.
      + destruct Hwr as [Hn|[Hn _]]; rewrite Hn in Hin; [by apply elem_of_nil in Hin|].
        apply list_elem_of_singleton in Hin. by left.
      + right. exists obc. split; [done|]. rewrite !elem_of_app. tauto.
    - intros _ Ho. specialize (Hout _ Ho). unfold ev. destruct a as [d'|e]; [|done].
      exists obc, d'. apply elem_of_app. right. left. }
  destruct a as [d'|e]; simpl; apply Hstep; [done|]. by intros x [=].
Qed.

Lemma obc_Reconcile_wp auto req :
  wp (Reconcile auto req) (λ tr out, ∃ r tr',
    tr = Ev (S := api) (GetEdgeDevice (req_Namespace req) (req_Name req)) r :: tr' ∧
    ∀ d, r = Ok d → obc_step auto d tr' out).
Proof.
  unfold Reconcile. apply wp_bind, Read_law. intros [d|e].
  2:{ destruct (IsNotFound e); simpl; (do 2 eexists; split; [done|]); by intros d. }
  eapply wp_mono with (Q := obc_step auto d);
    [|intros tr out H; exists (Ok d), tr; split; [done|]; by intros d' [= <-]].
  assert (Hidle : wants_obc auto d = false → obc_step auto d [] (Returned (no_requeue, None))).
  { intros Hw. split; rewrite ?Hw, ?writes_nil; [done| | |done].
    - by intros ?%elem_of_nil.
    - by intros o ?%elem_of_nil. }
  rewrite <- negb_orb. unfold wants_obc in Hidle.
  destruct (auto || ShouldCreateOBC d) eqn:Ea; simpl in *; [|by apply Hidle].
  destruct (no_obc d) eqn:Eno; simpl in *; [|by apply Hidle]. clear Hidle.
  assert (Hw : wants_obc auto d = true) by (unfold wants_obc; by rewrite Ea, Eno).
  intros [obc|e].
  - set (ev := Ev (GetObjectBucketClaim (device_namespace d) (device_name d)) (Ok obc) : api_event).
    eapply wp_mono; [apply (reference_wp auto d obc [ev]); [done|left; by go_simpl|left; left]|]. done.
  - destruct (IsNotFound e) eqn:Ee; simpl.
    + intros [obc|e'].
      * set (ev1 := Ev (GetObjectBucketClaim (device_namespace d) (device_name d)) (Err e) : api_event).
        set (ev2 := Ev (CreateObjectBucketClaim (claim_of d)) (Ok obc) : api_event).
        eapply wp_mono; [apply (reference_wp auto d obc [ev1; ev2]); [done|right|right; right; left]|];
          [|done]. split; [by go_simpl|]. by do 2 eexists.
      * simpl. split; go_simpl.
        -- congruence.
        -- intros _. by do 2 eexists.
        -- intros o ->%list_elem_of_singleton. by left.
        -- by intros _ [=].
    + split; go_simpl; [congruence|by intros ?%elem_of_nil|by intros o ?%elem_of_nil|by intros _ [=]].
Qed.

(** C33: The storage claim of a device. A device that wants no claim or has one is
    left alone; a claim is created only after the server said that there is
    none; nothing is written but the claim, named after the device and in its
    namespace, and the status reference to the claim that was found or created;
    and success for a device that wants one means that the server accepted the
    reference. *)
Theorem obc_Reconcile_spec auto req :
  wp (Reconcile auto req) (λ tr out, ∃ r tr',
    tr = Ev (S := api) (GetEdgeDevice (req_Namespace req) (req_Name req)) r :: tr' ∧
    ∀ d, r = Ok d → obc_step auto d tr' out).
Proof. apply obc_Reconcile_wp. Qed.
End theorems.

Lemma obc_Reconcile_spec_witness :
  trace_of (Reconcile true (mkRequest "dev" "ns")) (put_device (some_device "dev" "ns" ∅) empty_cluster) =
    [GetEdgeDevice "ns" "dev"; GetObjectBucketClaim "ns" "dev";
     CreateObjectBucketClaim (claim_of (some_device "dev" "ns" ∅));
     PatchEdgeDeviceStatus (some_device "dev" "ns" ∅) (set_obc (Some "dev"%string) (some_device "dev" "ns" ∅))] ∧
  wp (Reconcile true (mkRequest "dev" "ns")) (λ tr out, ∃ r tr',
    tr = Ev (S := api) (GetEdgeDevice "ns" "dev") r :: tr' ∧ ∀ d, r = Ok d → obc_step true d tr' out).
Proof.
  split; [vm_compute; reflexivity|]. exact (obc_Reconcile_spec true (mkRequest "dev" "ns")).
Defined.
