(* ===== verification/Lookups.v ===== *)
(** * Small look-ups of the message handlers

    The interfaces that the handlers of [internal/yggdrasil] use besides the
    repositories, with the implementations of [internal/devicemetrics],
    [internal/images]; [internal/configmaps] and [internal/mtls] have files of
    their own. *)
From S2P Require Import Prelude Effects K8s Models V1alpha1 Calls.

(** [devicemetrics.AllowListGenerator] *)
Class AllowListGenerator := {
  GenerateFromConfigMap : string → string → go (result models.MetricsAllowList);
}.

(** [images.RegistryAuthAPI] *)
Class RegistryAuthAPI := {
  GetAuthFileFromSecret : string → string → go (result string);
}.

(** [configmaps.ConfigMap] *)
Class ConfigMapAPI := {
  Fetch : v1alpha1.EdgeDeployment → string → go (result models.ConfigmapList);
}.

(** The part of [mtls.TLSConfig] that the handlers use. *)
Class CSRSigner := {
  SignCSR : string → string → go (result string);
}.

Module devicemetrics.
Definition GenerateFromConfigMap (name namespace : string) : go (result models.MetricsAllowList) :=
  cm ←? ask (GetConfigMap namespace name);
  match cm_Data cm !! "metrics_list.yaml"%string with
  | None => Ret (Err (ErrorString ("metrics_list.yaml not found in " +:+ namespace +:+ "/" +:+ name
                                   +:+ " config map")))
  | Some metricsList => ask (UnmarshalAllowList metricsList)
  end.
End devicemetrics.

Module images.
Definition GetAuthFileFromSecret (namespace name : string) : go (result string) :=
  secret ←? ask (GetSecret namespace name);
  match secret_Data secret !! ".dockerconfigjson"%string with
  | None => Ret (Err (ErrorString (".dockerconfigjson not found in " +:+ namespace +:+ "/" +:+ name
                                   +:+ " Secret")))
  | Some authFile => Ret (Ok authFile)
  end.
End images.

#[export] Instance allowListGenerator : AllowListGenerator :=
  { GenerateFromConfigMap := devicemetrics.GenerateFromConfigMap }.
#[export] Instance RegistryAuth : RegistryAuthAPI :=
  { GetAuthFileFromSecret := images.GetAuthFileFromSecret }.

(** Calls that read objects or use a library: they change nothing. *)
Definition quiet (o : api_op) : Prop :=
  is_write o = false ∧ is_record o = false ∧ match o with IncCounter _ => False | _ => True end.

Lemma allowList_quiet name ns : within quiet (devicemetrics.GenerateFromConfigMap name ns).
Proof. unfold devicemetrics.GenerateFromConfigMap. within_go. Qed.
Lemma authFile_quiet ns name : within quiet (images.GetAuthFileFromSecret ns name).
Proof. unfold images.GetAuthFileFromSecret. within_go. Qed.

(** What the handlers rely on: the look-ups change nothing. *)
Class LookupLaws (AL : AllowListGenerator) (RA : RegistryAuthAPI) (CM : ConfigMapAPI) (TLS : CSRSigner)
    : Prop := {
  AllowList_law name ns : within quiet (GenerateFromConfigMap name ns);
  AuthFile_law ns name : within quiet (GetAuthFileFromSecret ns name);
  Fetch_law dep ns : within quiet (Fetch dep ns);
  SignCSR_law csr cn : within quiet (SignCSR csr cn);
}.

(** The calls of a quiet program. *)
Lemma quiet_calls tr :
  Forall quiet (ev_op (S := api) <$> tr) →
  writes tr = [] ∧ calls is_record tr = [] ∧ counted tr = [].
Proof.
  intros Hq. split_and!.
  - rewrite writes_calls. apply calls_none. eapply Forall_impl; [exact Hq|]. by intros o (? & _).
  - apply calls_none. eapply Forall_impl; [exact Hq|]. by intros o (_ & ? & _).
  - induction tr as [|[o a] tr IH]; [done|]. csimpl in Hq. apply Forall_cons in Hq as [(_ & _ & Ho) Hq].
    rewrite counted_cons, IH by done. by destruct o.
Qed.

Lemma wp_quiet {A} (p : go A) Q :
  within quiet p → wp p Q →
  wp p (λ tr out, (writes tr = [] ∧ calls is_record tr = [] ∧ counted tr = []) ∧ Q tr out).
Proof.
  intros Hp HQ. apply wp_and; [|done]. eapply wp_mono; [by apply within_wp|].
  intros tr out. apply quiet_calls.
Qed.
