(* ===== verification/ConfigMaps.v ===== *)
(** * The ConfigMaps of a deployment ([internal/configmaps/configmaps.go])

    Which ConfigMaps the pod of a deployment refers to, with which keys, and
    their texts. *)
From S2P Require Import Prelude Effects Interleave K8s Utils Models V1alpha1 Calls Lookups Server.
Import v1alpha1.

Definition configmap_ref (e : EnvFromSource) : bool * option bool * string :=
  match ConfigMapRef e with
  | Some r => (true, ref_Optional r, ref_Name r)
  | None => (false, None, ""%string)
  end.

(** [env.ValueFrom] is dereferenced without a test. *)
Definition configmap_key_ref (env : EnvVar) : deref (bool * option bool * string * string) :=
  match ValueFrom env with
  | None => NilDeref
  | Some from =>
      match ConfigMapKeyRef from with
      | Some r => Val (true, key_Optional r, key_Name r, key_Key r)
      | None => Val (false, None, ""%string, ""%string)
      end
  end.

Definition configmap_volume (volume : Volume) : bool * option bool * string :=
  match volume_ConfigMap volume with
  | Some r => (true, ref_Optional r, ref_Name r)
  | None => (false, None, ""%string)
  end.

Definition extractConfigMapsFromEnv (container : Container) (configmapMap : MapType) : deref MapType :=
  ExtractInfoFromEnv (Env container)
    (ExtractInfoFromEnvFrom (EnvFrom container) configmapMap configmap_ref) configmap_key_ref.

(** The loop of [Fetch] over the containers; the volumes are collected again for
    every container. *)
Fixpoint collect_configmaps (containers : list Container) (volumes : list Volume) (cmMap : MapType)
    : deref MapType :=
  match containers with
  | [] => Val cmMap
  | c :: containers =>
      match extractConfigMapsFromEnv c cmMap with
      | NilDeref => NilDeref
      | Val cmMap => collect_configmaps containers volumes (ExtractInfoFromVolume volumes cmMap configmap_volume)
      end
  end.

(** The first key, in the order of the iteration, that the data lacks. *)
Definition missing_key {A} (keys : list string) (data : gmap string A) : option string :=
  head (filter (λ k, data !! k = None) keys).

Definition readAndValidateConfigMap (name namespace : string) (keys : StringSet)
    : go (result (option ConfigMap)) :=
  r ← ask (GetConfigMap namespace name);
  match r with
  | Err err => Ret (if IsNotFound err && is_nil keys then Ok None else Err err)
  | Ok cm =>
      order ← permute (elements (default ∅ keys));
      match missing_key order (cm_Data cm) with
      | Some key => Ret (Err (ErrorString ("missing configmap key. configmap: " +:+ name +:+ ". key: "
                              +:+ key +:+ ". Namespace: " +:+ namespace)))
      | None => Ret (Ok (Some cm))
      end
  end.

(** One iteration of the loop over the required ConfigMaps. *)
Definition fetch_configmap (namespace : string) (list_ : models.ConfigmapList)
    (entry : string * StringSet) : go (result models.ConfigmapList) :=
  let '(name, keys) := entry in
  r ← readAndValidateConfigMap name namespace keys;
  match r with
  | Err err => Ret (Err (ErrorString ("Can't fetch the configmap " +:+ name +:+ "/" +:+ namespace
                                      +:+ ": " +:+ Error err)))
  | Ok None => Ret (Ok list_)
  | Ok (Some cm) =>
      obj ←? ask (MarshalConfigMap (mkConfigMap (new_meta name "") (cm_Data cm)));
      Ret (Ok (list_ ++ [obj]))
  end.

Module configmaps.
Definition Fetch (deployment : EdgeDeployment) (namespace : string) : go (result models.ConfigmapList) :=
  let podSpec := EdgeDeploymentSpec_Pod (EdgeDeployment_Spec deployment) in
  cmMap ← lift (collect_configmaps (allContainers podSpec) (Volumes podSpec) ∅);
  entries ← permute (map_to_list cmMap);
  foldR (fetch_configmap namespace) [] entries.
End configmaps.

#[export] Instance configMap : ConfigMapAPI := { Fetch := configmaps.Fetch }.

(** ** What is collected *)
Definition envfrom_usages (c : Container) : list usage :=
  omap (λ e, (λ r, Usage (ref_Name r) None (default false (ref_Optional r))) <$> ConfigMapRef e) (EnvFrom c).
Definition env_usages (c : Container) : list usage :=
  omap (λ e, from ← ValueFrom e; r ← ConfigMapKeyRef from;
             Some (Usage (key_Name r) (Some (key_Key r)) (default false (key_Optional r)))) (Env c).
Definition volume_usages (vs : list Volume) : list usage :=
  omap (λ v, (λ r, Usage (ref_Name r) None (default false (ref_Optional r))) <$> volume_ConfigMap v) vs.

(** All references of a pod to ConfigMaps. *)
Definition configmap_usages (p : PodSpec) : list usage :=
  c ← allContainers p; envfrom_usages c ++ env_usages c ++ volume_usages (Volumes p).

Lemma envfrom_mark es m :
  ExtractInfoFromEnvFrom es m configmap_ref =
  foldl mark m (omap (λ e, (λ r, Usage (ref_Name r) None (default false (ref_Optional r))) <$> ConfigMapRef e) es).
Proof.
  revert m; induction es as [|e es IH]; intros m; simpl; [done|].
  unfold configmap_ref at 1. destruct (ConfigMapRef e) as [r|]; simpl; apply IH.
Qed.

Lemma volume_mark vs m :
  ExtractInfoFromVolume vs m configmap_volume = foldl mark m (volume_usages vs).
Proof.
  unfold volume_usages. revert m; induction vs as [|v vs IH]; intros m; simpl; [done|].
  unfold configmap_volume at 1. destruct (volume_ConfigMap v) as [r|]; simpl; apply IH.
Qed.

(** The environment of a container is collected unless a variable has no
    [ValueFrom]. *)
Lemma env_mark es m :
  ExtractInfoFromEnv es m configmap_key_ref =
  if decide (Forall (λ e, ValueFrom e ≠ None) es) then
    Val (foldl mark m (omap (λ e, from ← ValueFrom e; r ← ConfigMapKeyRef from;
           Some (Usage (key_Name r) (Some (key_Key r)) (default false (key_Optional r)))) es))
  else NilDeref.
Proof.
  revert m; induction es as [|e es IH]; intros m; simpl; [done|].
  unfold configmap_key_ref at 1. destruct (ValueFrom e) as [from|] eqn:Ev; simpl.
  2:{ rewrite decide_False; [done|]. intros H. by inversion H. }
  assert (Forall (λ e, ValueFrom e ≠ None) (e :: es) ↔ Forall (λ e, ValueFrom e ≠ None) es) as Hiff.
  { rewrite Forall_cons, Ev. naive_solver. }
  rewrite (decide_ext _ _ _ _ Hiff).
  destruct (ConfigMapKeyRef from) as [r|]; simpl; rewrite IH; by case_decide.
Qed.

(** No variable of the pod's environments has a plain value. *)
Definition all_referenced (cs : list Container) : Prop :=
  Forall (λ c, Forall (λ e, ValueFrom e ≠ None) (Env c)) cs.

Lemma collect_mark cs vs m :
  collect_configmaps cs vs m =
  if decide (all_referenced cs) then
    Val (foldl mark m (c ← cs; envfrom_usages c ++ env_usages c ++ volume_usages vs))
  else NilDeref.
Proof.
  unfold all_referenced. revert m; induction cs as [|c cs IH]; intros m; [done|].
  cbn [collect_configmaps]. unfold extractConfigMapsFromEnv. rewrite env_mark, envfrom_mark.
  destruct (decide (Forall _ (Env c))) as [Hc|Hc].
  - rewrite volume_mark, IH.
    assert (Forall (λ c, Forall (λ e, ValueFrom e ≠ None) (Env c)) (c :: cs) ↔
            Forall (λ c, Forall (λ e, ValueFrom e ≠ None) (Env c)) cs) as Hiff by (rewrite Forall_cons; tauto).
    rewrite (decide_ext _ _ _ _ Hiff). case_decide; [|done]. f_equal. csimpl.
    by rewrite !foldl_app.
  - rewrite decide_False; [done|]. rewrite Forall_cons. tauto.
Qed.

(** ** What is fetched *)

(** The texts that an entry of the requirement map contributes. *)
Definition fetched (namespace : string) (entry : string * StringSet) (texts : list string)
    (tr : list api_event) : Prop :=
  ∃ r, Ev (S := api) (GetConfigMap namespace entry.1) r ∈ tr ∧
    match r with
    | Err e => IsNotFound e = true ∧ entry.2 = None ∧ texts = []
    | Ok cm => default ∅ entry.2 ⊆ dom (cm_Data cm) ∧ ∃ text, texts = [text] ∧
        Ev (S := api) (MarshalConfigMap (mkConfigMap (new_meta entry.1 "") (cm_Data cm))) (Ok text) ∈ tr
    end.

Lemma fetched_mono ns entry texts tr tr' :
  tr ⊆ tr' → fetched ns entry texts tr → fetched ns entry texts tr'.
Proof.
  intros Hs (r & Hr & H). exists r. split; [auto|]. destruct r as [cm|e]; [|done].
  destruct H as (? & text & ? & ?). eauto 10.
Qed.

Lemma missing_key_None {A} (order : list string) (keys : gset string) (data : gmap string A) :
  order ≡ₚ elements keys → missing_key order data = None → keys ⊆ dom data.
Proof.
  unfold missing_key. intros Hp Hh k Hk. rewrite head_None in Hh.
  apply elem_of_dom. destruct (data !! k) as [v|] eqn:E; [by exists v|].
  assert (k ∈ filter (λ k, data !! k = None) order) as Hin.
  { apply list_elem_of_filter. split; [done|]. rewrite Hp. by apply elem_of_elements. }
  rewrite Hh in Hin. by apply elem_of_nil in Hin.
Qed.

Lemma fetch_configmap_wp ns acc entry :
  wp (fetch_configmap ns acc entry) (λ tr out, match out with
    | Returned (Ok acc') => ∃ ys, acc' = acc ++ ys ∧ fetched ns entry ys tr
    | Returned (Err _) => True
    | Crashed _ => False
    end).
Proof.
  destruct entry as [name keys]. unfold fetch_configmap, readAndValidateConfigMap. simpl.
  intros [cm|e]; simpl.
  - apply wp_bind, wp_bind, wp_permute. intros order Hp.
    destruct (missing_key order (cm_Data cm)) eqn:Em; simpl; [done|].
    intros [text|e]; [|done]. exists [text]. split; [done|]. exists (Ok cm). split; [left|].
    split; [by eapply missing_key_None|]. exists text. split; [done|]. right; left.
  - destruct (IsNotFound e && is_nil keys) eqn:E; simpl; [|done]. exists []. rewrite app_nil_r.
    split; [done|]. exists (Err e). apply andb_true_iff in E as [He Hk]. split; [left|].
    split_and!; [done| |done]. by destruct keys.
Qed.

(** C30: The ConfigMaps of a deployment, when every environment variable of its
    containers refers to something. The look-up returns, and when it succeeds
    the texts are, for every ConfigMap that the pod refers to (through whole
    environments, single variables or volumes), in some order, the serialized
    ConfigMap, which exists and has every required key; a ConfigMap that is only
    referred to as optional may be missing and is then skipped. *)
Theorem Fetch_spec dep ns :
  let pod := EdgeDeploymentSpec_Pod (EdgeDeployment_Spec dep) in
  all_referenced (allContainers pod) →
  wp (configmaps.Fetch dep ns) (λ tr out, ∃ r, out = Returned r ∧
    ∀ texts, r = Ok texts → ∃ entries outs,
      entries ≡ₚ map_to_list (requirements (configmap_usages pod)) ∧
      Forall2 (λ entry ys, fetched ns entry ys tr) entries outs ∧ texts = concat outs).
Proof.
  intros pod Hall. unfold configmaps.Fetch. fold pod. rewrite collect_mark, decide_True by done.
  fold (configmap_usages pod). change (foldl mark ∅ ?us) with (requirements us).
  apply wp_bind. simpl. apply wp_bind, wp_permute. intros entries Hp.
  eapply wp_mono; [apply (wp_collect _ (fetched ns) (λ _, False))|].
  - intros. by eapply fetched_mono.
  - intros. apply fetch_configmap_wp.
  - intros tr [[l|e]|c] H; [|by exists (Err e)|done]. exists (Ok l). split; [done|].
    intros texts [= <-]. destruct H as (outs & H2 & ->). by exists entries, outs.
Qed.

(** C31: A deployment one of whose containers has an environment variable with a
    plain value makes the look-up of its ConfigMaps panic before any call,
    whatever the cluster holds. *)
Theorem Fetch_panics dep ns :
  ¬ all_referenced (allContainers (EdgeDeploymentSpec_Pod (EdgeDeployment_Spec dep))) →
  wp (configmaps.Fetch dep ns) (λ tr out, tr = [] ∧ out = Crashed Panic).
Proof. intros Hn. unfold configmaps.Fetch. rewrite collect_mark, decide_False by done. done. Qed.

Definition plain_container : Container :=
  mkContainer "c" [] [mkEnvVar "LOG_LEVEL" "debug" None] ∅ ∅ [] None None None None "".
Definition referring_container : Container :=
  mkContainer "c" [mkEnvFromSource "" (Some (mkSourceRef "all" (Some true))) None]
    [mkEnvVar "A" "" (Some (mkEnvVarSource None None (Some (mkKeySelector "cfg" "k" None)) None))]
    ∅ ∅ [] None None None None "".
Definition deployment_of (c : Container) : EdgeDeployment :=
  mkEdgeDeployment (new_meta "d" "ns")
    (mkEdgeDeploymentSpec None "" PodDeploymentType (mkPodSpec [] [] [c] "") None None None "").

Lemma Fetch_panics_witness :
  outcome_of (configmaps.Fetch (deployment_of plain_container) "ns") empty_cluster = Crashed Panic ∧
  wp (configmaps.Fetch (deployment_of plain_container) "ns") (λ tr out, tr = [] ∧ out = Crashed Panic).
Proof.
  split; [vm_compute; reflexivity|]. apply (Fetch_panics (deployment_of plain_container) "ns").
  intros H. inversion H as [|? ? Hc]; subst. by inversion Hc.
Defined.

Lemma Fetch_spec_witness :
  outcome_of (configmaps.Fetch (deployment_of referring_container) "ns")
    (put_configmap (mkConfigMap (new_meta "cfg" "ns") {["k" := "v"]}) empty_cluster) =
    Returned (Ok ["configmap: cfg"%string]) ∧
  wp (configmaps.Fetch (deployment_of referring_container) "ns") (λ tr out, ∃ r, out = Returned r).
Proof.
  split; [vm_compute; reflexivity|].
  eapply wp_mono; [apply (Fetch_spec (deployment_of referring_container) "ns")|].
  - repeat constructor; done.
  - intros tr out (r & -> & _). by exists r.
Defined.

Lemma Fetch_quiet dep ns : within quiet (configmaps.Fetch dep ns).
Proof.
  unfold configmaps.Fetch. apply within_bind; [apply within_lift|]. intros m.
  apply within_bind; [apply within_permute|]. intros entries. apply within_foldR.
  intros acc [name keys] _. unfold fetch_configmap, readAndValidateConfigMap.
  apply within_bind; [|within_go]. apply within_bind; [by repeat split|].
  intros [cm|e]; [|done]. apply within_bind; [apply within_permute|]. intros order.
  by destruct (missing_key _ _).
Qed.
