(* ===== verification/Secrets.v ===== *)
(** * The Secrets of a device ([createSecretList] of [internal/yggdrasil])

    Which Secrets the pods of a device's deployments refer to, with which keys,
    and their contents as they are sent to the device. *)
From S2P Require Import Prelude Effects Interleave K8s Labels Utils Models V1alpha1 Calls Base64 Lookups ConfigMaps Server.
Import v1alpha1.

Abbreviation keyMapType := (option (gset string)).
Abbreviation secretMapType := (gmap string keyMapType).

Fixpoint extractSecretsFromEnvFrom (envFrom : list EnvFromSource) (secretMap : secretMapType)
    : secretMapType :=
  match envFrom with
  | [] => secretMap
  | e :: envFrom =>
      match SecretRef e with
      | None => extractSecretsFromEnvFrom envFrom secretMap
      | Some ref =>
          let optional := default false (ref_Optional ref) in
          extractSecretsFromEnvFrom envFrom
            (match secretMap !! ref_Name ref with
             | Some keys =>
                 if negb optional && is_nil keys then <[ref_Name ref := Some ∅]> secretMap else secretMap
             | None =>
                 if optional then <[ref_Name ref := None]> secretMap
                 else <[ref_Name ref := Some ∅]> secretMap
             end)
      end
  end.

(** [envVar.ValueFrom == nil || envVar.ValueFrom.SecretKeyRef == nil] *)
Definition secret_key_ref (envVar : EnvVar) : option KeySelector :=
  match ValueFrom envVar with None => None | Some from => SecretKeyRef from end.

Fixpoint extractSecretsFromEnv (env : list EnvVar) (secretMap : secretMapType) : secretMapType :=
  match env with
  | [] => secretMap
  | envVar :: env =>
      match secret_key_ref envVar with
      | None => extractSecretsFromEnv env secretMap
      | Some keyRef =>
          let optional := default false (key_Optional keyRef) in
          extractSecretsFromEnv env
            (match secretMap !! key_Name keyRef with
             | Some keys =>
                 if negb optional then
                   match keys with
                   | None => <[key_Name keyRef := Some {[key_Key keyRef]}]> secretMap
                   | Some ks => <[key_Name keyRef := Some ({[key_Key keyRef]} ∪ ks)]> secretMap
                   end
                 else secretMap
             | None =>
                 if optional then <[key_Name keyRef := None]> secretMap
                 else <[key_Name keyRef := Some {[key_Key keyRef]}]> secretMap
             end)
      end
  end.

Definition extractSecretsFromContainer (secretMap : secretMapType) (container : Container)
    : secretMapType :=
  extractSecretsFromEnv (Env container) (extractSecretsFromEnvFrom (EnvFrom container) secretMap).

(** The loops over the deployments and their containers. *)
Definition collect_secrets (deployments : list EdgeDeployment) : secretMapType :=
  foldl (λ m deployment,
    foldl extractSecretsFromContainer m
      (allContainers (EdgeDeploymentSpec_Pod (EdgeDeployment_Spec deployment)))) ∅ deployments.

Definition readAndValidateSecret (secretName secretNamespace : string) (secretKeys : keyMapType)
    : go (result (option Secret)) :=
  r ← ask (GetSecret secretNamespace secretName);
  match r with
  | Err err => Ret (if IsNotFound err && is_nil secretKeys then Ok None else Err err)
  | Ok secretObj =>
      order ← permute (elements (default ∅ secretKeys));
      match missing_key order (secret_Data secretObj) with
      | Some key => Ret (Err (ErrorString ("missing secret key. secret: " +:+ secretName +:+ ". key: "
                              +:+ key +:+ ". Namespace: " +:+ secretNamespace)))
      | None => Ret (Ok (Some secretObj))
      end
  end.

Definition addSecretToSecretList (secretList : models.SecretList) (secret : Secret)
    : go (result models.SecretList) :=
  dataJson ←? ask (MarshalStringMap (EncodeToString <$> secret_Data secret));
  Ret (Ok (secretList ++ [models.mkSecret dataJson (Name (secret_Meta secret))])).

Definition add_required_secret (namespace : string) (list_ : models.SecretList)
    (entry : string * keyMapType) : go (result models.SecretList) :=
  let '(name, keys) := entry in
  secretObj ←? readAndValidateSecret name namespace keys;
  match secretObj with
  | None => Ret (Ok list_)
  | Some secretObj => addSecretToSecretList list_ secretObj
  end.

Definition createSecretList (deployments : list EdgeDeployment) (device : EdgeDevice)
    : go (result models.SecretList) :=
  entries ← permute (map_to_list (collect_secrets deployments));
  foldR (add_required_secret (device_namespace device)) [] entries.

(** ** What is collected *)
Definition secret_envfrom_usages (c : Container) : list usage :=
  omap (λ e, (λ r, Usage (ref_Name r) None (default false (ref_Optional r))) <$> SecretRef e) (EnvFrom c).
Definition secret_env_usages (c : Container) : list usage :=
  omap (λ e, (λ r, Usage (key_Name r) (Some (key_Key r)) (default false (key_Optional r))) <$>
             secret_key_ref e) (Env c).

(** All references of the pods of some deployments to Secrets. *)
Definition secret_usages (deployments : list EdgeDeployment) : list usage :=
  d ← deployments; c ← allContainers (EdgeDeploymentSpec_Pod (EdgeDeployment_Spec d));
  secret_envfrom_usages c ++ secret_env_usages c.

Lemma secret_container_mark m c :
  extractSecretsFromContainer m c = foldl mark m (secret_envfrom_usages c ++ secret_env_usages c).
Proof.
  unfold extractSecretsFromContainer, secret_envfrom_usages, secret_env_usages. rewrite foldl_app.
  assert (H1 : ∀ es m, extractSecretsFromEnvFrom es m = foldl mark m
    (omap (λ e, (λ r, Usage (ref_Name r) None (default false (ref_Optional r))) <$> SecretRef e) es)).
  { induction es as [|e es IH]; intros m'; simpl; [done|]. destruct (SecretRef e); simpl; apply IH. }
  assert (H2 : ∀ es m, extractSecretsFromEnv es m = foldl mark m
    (omap (λ e, (λ r, Usage (key_Name r) (Some (key_Key r)) (default false (key_Optional r))) <$>
                secret_key_ref e) es)).
  { induction es as [|e es IH]; intros m'; simpl; [done|]. destruct (secret_key_ref e); simpl; apply IH. }
  by rewrite H1, H2.
Qed.

Lemma collect_secrets_requirements deployments :
  collect_secrets deployments = requirements (secret_usages deployments).
Proof.
  unfold collect_secrets, requirements, secret_usages. generalize (∅ : secretMapType).
  induction deployments as [|d ds IH]; intros m; [done|]. cbn [foldl]. rewrite IH. csimpl.
  rewrite foldl_app. f_equal. clear IH.
  revert m; induction (allContainers _) as [|c cs IH]; intros m; [done|]. cbn [foldl]. rewrite IH. csimpl.
  by rewrite foldl_app, secret_container_mark.
Qed.

(** The map of required Secrets is independent of the order in which the references
    are visited: it has an entry exactly for the Secrets referred to; the entry
    is optional exactly if every reference is, and otherwise carries exactly the
    keys of the mandatory references. *)
Theorem collect_secrets_spec deployments n :
  let refs := λ u, u ∈ secret_usages deployments ∧ use_name u = n in
  match collect_secrets deployments !! n with
  | None => ¬ ∃ u, refs u
  | Some None => (∃ u, refs u) ∧ ∀ u, refs u → use_optional u = true
  | Some (Some ks) => (∃ u, refs u ∧ use_optional u = false) ∧
      ∀ k, k ∈ ks ↔ ∃ u, refs u ∧ use_optional u = false ∧ use_key u = Some k
  end.
Proof.
  simpl. rewrite collect_secrets_requirements, requirements_lookup.
  pose proof (needed_spec (secret_usages deployments) n) as H. destruct (needed _ n) as [[ks|]|].
  - destruct H as [(u & ? & ? & ?) Hk]. split; [by exists u|]. intros k. rewrite Hk.
    split; intros (v & Hv); exists v; tauto.
  - destruct H as [(u & ? & ?) Ho]. split; [by exists u|]. intros v [? ?]. by apply Ho.
  - intros (u & Hu & Hn). by apply (H u).
Qed.

(** ** What is sent *)
Definition sent (namespace : string) (entry : string * keyMapType) (ss : models.SecretList)
    (tr : list api_event) : Prop :=
  ∃ r, Ev (S := api) (GetSecret namespace entry.1) r ∈ tr ∧
    match r with
    | Err e => IsNotFound e = true ∧ entry.2 = None ∧ ss = []
    | Ok s => default ∅ entry.2 ⊆ dom (secret_Data s) ∧ ∃ json,
        ss = [models.mkSecret json (Name (secret_Meta s))] ∧
        Ev (S := api) (MarshalStringMap (EncodeToString <$> secret_Data s)) (Ok json) ∈ tr
    end.

Lemma sent_mono ns entry ss tr tr' : tr ⊆ tr' → sent ns entry ss tr → sent ns entry ss tr'.
Proof.
  intros Hs (r & Hr & H). exists r. split; [auto|]. destruct r as [s|e]; [|done].
  destruct H as (? & json & ? & ?). eauto 10.
Qed.

Lemma add_required_secret_wp ns acc entry :
  wp (add_required_secret ns acc entry) (λ tr out, match out with
    | Returned (Ok acc') => ∃ ys, acc' = acc ++ ys ∧ sent ns entry ys tr
    | Returned (Err _) => True
    | Crashed _ => False
    end).
Proof.
  destruct entry as [name keys]. unfold add_required_secret, readAndValidateSecret.
  apply wp_bind_ok. simpl. intros [s|e]; simpl.
  - apply wp_bind, wp_permute. intros order Hp.
    destruct (missing_key order (secret_Data s)) eqn:Em; simpl; [done|].
    intros [json|e]; [|done]. eexists. split; [done|]. exists (Ok s). split; [left|].
    split; [by eapply missing_key_None|]. exists json. split; [done|]. right; left.
  - destruct (IsNotFound e && is_nil keys) eqn:E; simpl; [|done]. exists []. rewrite app_nil_r.
    split; [done|]. exists (Err e). apply andb_true_iff in E as [He Hk]. split; [left|].
    split_and!; [done| |done]. by destruct keys.
Qed.

Lemma createSecretList_wp deployments device :
  wp (createSecretList deployments device) (λ tr out, ∃ r, out = Returned r ∧
    ∀ ss, r = Ok ss → ∃ entries outs,
      entries ≡ₚ map_to_list (collect_secrets deployments) ∧
      Forall2 (λ entry ys, sent (device_namespace device) entry ys tr) entries outs ∧ ss = concat outs).
Proof.
  unfold createSecretList. apply wp_bind, wp_permute. intros entries Hp. simpl.
  eapply wp_mono; [apply (wp_collect _ (sent (device_namespace device)) (λ _, False))|].
  - intros. by eapply sent_mono.
  - intros. apply add_required_secret_wp.
  - intros tr [[l|e]|c] H; [|by exists (Err e)|done]. exists (Ok l). split; [done|].
    intros ss [= <-]. destruct H as (outs & H2 & ->). by exists entries, outs.
Qed.

(** The list of Secrets is built without panicking. When it is built, every required
    Secret was read in the device's namespace: one that exists has all its
    mandatory keys and is sent whole, every value in Base64; one that does not
    exist is optional and left out. Nothing else is sent. *)
Theorem createSecretList_spec deployments device :
  wp (createSecretList deployments device) (λ tr out, ∃ r, out = Returned r ∧
    ∀ ss, r = Ok ss → ∃ entries outs,
      entries ≡ₚ map_to_list (collect_secrets deployments) ∧
      Forall2 (λ entry ys, sent (device_namespace device) entry ys tr) entries outs ∧ ss = concat outs).
Proof. apply createSecretList_wp. Qed.

(** A Secret goes to the device unchanged: the one map that is serialized has
    exactly the keys of the Secret, and every text in it decodes from Base64 to
    exactly the bytes the Secret holds under that key; the serialized map is
    appended to the list under the name of the Secret, and a serialization error
    is passed on. *)
Theorem addSecretToSecretList_roundtrip secretList secret :
  wp (addSecretToSecretList secretList secret) (λ tr out, ∃ dataMap r,
    tr = [Ev (S := api) (MarshalStringMap dataMap) r] ∧ dom dataMap = dom (secret_Data secret) ∧
    (∀ k v, dataMap !! k = Some v → ∃ bytes, secret_Data secret !! k = Some bytes ∧
       decode64 (chars v) = Some (chars bytes)) ∧
    out = Returned ((λ json, secretList ++ [models.mkSecret json (Name (secret_Meta secret))]) <$> r)).
Proof.
  assert (Hv : ∀ k v, (EncodeToString <$> secret_Data secret) !! k = Some v → ∃ bytes,
    secret_Data secret !! k = Some bytes ∧ decode64 (chars v) = Some (chars bytes)).
  { intros k v Hkv. rewrite lookup_fmap in Hkv. destruct (secret_Data secret !! k) as [w|]; simplify_eq/=.
    exists w. split; [done|]. apply EncodeToString_decode. }
  simpl. intros r. destruct r as [json|e]; simpl;
    eexists _, _; (split_and!; [reflexivity|apply dom_fmap_L|exact Hv|done]).
Qed.

Lemma createSecretList_quiet deployments device : within quiet (createSecretList deployments device).
Proof.
  unfold createSecretList. apply within_bind; [apply within_permute|]. intros entries.
  apply within_foldR. intros acc [name keys] _. unfold add_required_secret, readAndValidateSecret.
  apply within_bind_ok; [|within_go]. apply within_bind; [by repeat split|].
  intros [s|e]; [|done]. apply within_bind; [apply within_permute|]. intros order.
  by destruct (missing_key _ _).
Qed.
