(* ===== verification/Yggdrasil.v ===== *)
(** * The message handlers ([internal/yggdrasil/yggdrasil.go])

    The HTTP endpoints the devices talk to: control and data messages in both
    directions, with the registration of devices and the configuration sent to
    them. The handlers are written against the interfaces of the repositories
    and look-ups; [initialNamespace] is their configuration. *)
From S2P Require Import Prelude Effects Interleave K8s Labels Utils Models V1alpha1 Normalize Hardware Calls Repositories Heartbeat Storage Lookups ConfigMaps Secrets.
From Stdlib Require Import Ascii.
Import v1alpha1.

Definition YggdrasilConnectionFinalizer : string := "yggdrasil-connection-finalizer".
Definition YggdrasilWorkloadFinalizer : string := "yggdrasil-workload-finalizer".
Definition YggdrasilRegisterAuth : Z := 1.
Definition YggdrasilCompleteAuth : Z := 0.

Definition defaultHeartbeatConfiguration : models.HeartbeatConfiguration :=
  models.mkHeartbeatConfiguration (Some (models.mkHardwareProfileConfiguration false "")) 60.

(** The responses of the generated package [operations]. *)
Inductive Responder (P : Type) : Type :=
  | OK (payload : option P)
  | NotFound
  | BadRequest
  | InternalServerError.
Arguments OK {_} _.
Arguments NotFound {_}.
Arguments BadRequest {_}.
Arguments InternalServerError {_}.

(** ** Authentication of a request *)

(** [url.Path] is the path of the request. *)
Definition isRegistrationURL (path : string) : bool :=
  match last (split "/"%char (chars path)) with
  | None => false
  | Some last_ => bool_decide (last_ = chars "registration")
  end.

Definition GetAuthType (path : string) : Z :=
  if isRegistrationURL path then YggdrasilRegisterAuth else YggdrasilCompleteAuth.

(** ** Parts of the configuration that need no interface *)
Definition createDisconnectCommand : go models.Message :=
  id ← ask NewUUID;
  now ← ask Now;
  Ret (models.mkMessage (models.CommandContent "disconnect" ∅) "" id now models.MessageTypeCommand 1).

Definition heartbeat_configuration (spec : EdgeDeviceSpec) : models.HeartbeatConfiguration :=
  match EdgeDeviceSpec_Heartbeat spec with
  | Some hb =>
      models.mkHeartbeatConfiguration
        (match HeartbeatConfiguration_HardwareProfile hb with
         | Some hp => Some (models.mkHardwareProfileConfiguration
                        (HardwareProfileConfiguration_Include hp) (HardwareProfileConfiguration_Scope hp))
         | None => models.HeartbeatConfiguration_HardwareProfile defaultHeartbeatConfiguration
         end)
        (HeartbeatConfiguration_PeriodSeconds hb)
  | None => defaultHeartbeatConfiguration
  end.

Definition to_OsInformation (o : OsInformation) : models.OsInformation :=
  models.mkOsInformation (OsInformation_AutomaticallyUpgrade o) (OsInformation_CommitID o)
    (OsInformation_HostedObjectsURL o).

Definition getDeviceSyslogLogConfig (edgeDevice : EdgeDevice) (syslogConfig : NameRef)
    : go (result models.LogsCollectionInformationSyslogConfig) :=
  r ← ask (GetConfigMap (device_namespace edgeDevice) (NameRef_Name syslogConfig));
  match r with
  | Err err => Ret (Err (ErrorString ("cannot get syslogconfig from configmap "
                     +:+ NameRef_Name syslogConfig +:+ ": " +:+ Error err)))
  | Ok cm =>
      let proto := "tcp"%string in
      match cm_Data cm !! "Protocol"%string with
      | Some cmproto =>
          if String.eqb cmproto "tcp" || String.eqb cmproto "udp" then
            Ret (Ok (models.mkSyslogConfig (default "" (cm_Data cm !! "Address"%string)) cmproto))
          else Ret (Err (ErrorString ("Protocol '" +:+ proto +:+ "' is not valid for syslog server")))
      | None => Ret (Ok (models.mkSyslogConfig (default "" (cm_Data cm !! "Address"%string)) proto))
      end
  end.

Definition add_log_config (edgeDevice : EdgeDevice) (res : gmap string models.LogsCollectionInformation)
    (entry : string * option LogCollectionConfig) : go (result (gmap string models.LogsCollectionInformation)) :=
  val ← lift (deref_ptr entry.2);
  syslog ←? (match LogCollectionConfig_SyslogConfig val with
             | None => Ret (Ok None)
             | Some syslogConfig =>
                 c ←? getDeviceSyslogLogConfig edgeDevice syslogConfig; Ret (Ok (Some c))
             end);
  Ret (Ok (<[entry.1 := models.mkLogsCollectionInformation (LogCollectionConfig_BufferSize val)
                          (LogCollectionConfig_Kind val) syslog]> res)).

Definition getDeviceLogConfig (edgeDevice : EdgeDevice)
    : go (result (option (gmap string models.LogsCollectionInformation))) :=
  let logs := EdgeDeviceSpec_LogCollection (EdgeDevice_Spec edgeDevice) in
  if Nat.eqb (size logs) 0 then Ret (Ok None)
  else
    entries ← permute (map_to_list logs);
    res ←? foldR (add_log_config edgeDevice) ∅ entries;
    Ret (Ok (Some res)).

(** [setStorageConfiguration]: the configuration to set, if any, and the error. *)
Definition setStorageConfiguration (edgeDevice : EdgeDevice)
    : go (result (option models.StorageConfiguration)) :=
  if match EdgeDeviceStatus_DataOBC (EdgeDevice_Status edgeDevice) with
     | Some obc => Nat.ltb 0 (String.length obc) | None => false end
  then storageConf ←? GetStorageConfiguration (Some edgeDevice);
       Ret (Ok (Some (models.mkStorageConfiguration (Some storageConf))))
  else if ShouldUseExternalConfig edgeDevice
  then storageConf ←? GetExternalStorageConfig edgeDevice;
       Ret (Ok (Some (models.mkStorageConfiguration (Some storageConf))))
  else Ret (Ok None).

Definition container_metrics (m : MetricsConfigEntity) : models.ContainerMetrics :=
  models.mkContainerMetrics (MetricsConfigEntity_Disabled m) (MetricsConfigEntity_Path m)
    (MetricsConfigEntity_Port m).

Definition metric_containers (containers : gmap string (option MetricsConfigEntity))
    : deref (option (gmap string models.ContainerMetrics)) :=
  let entity (kv : string * option MetricsConfigEntity) : deref (string * models.ContainerMetrics) :=
    (λ m, (kv.1, container_metrics m)) <$> deref_ptr kv.2 in
  match deref_map entity (map_to_list containers) with
  | NilDeref => NilDeref
  | Val [] => Val None
  | Val entries => Val (Some (list_to_map entries))
  end.

Section handlers.
Context {R : EdgeDeviceRepository} {DR : EdgeDeploymentRepository}.
Context {AL : AllowListGenerator} {RA : RegistryAuthAPI} {CM : ConfigMapAPI} {TLS : CSRSigner}.
Context {U : UnicodeTables} (initialNamespace : string).

(** ** [GET /control] *)
Definition GetControlMessageForDevice (deviceID : string) : go (Responder models.Message) :=
  r ← edgedevice_Read deviceID initialNamespace;
  match r with
  | Err err => Ret (if IsNotFound err then NotFound else InternalServerError)
  | Ok edgeDevice =>
      if negb (is_nil (DeletionTimestamp (EdgeDevice_Meta edgeDevice)))
         && negb (HasFinalizer (EdgeDevice_Meta edgeDevice) YggdrasilWorkloadFinalizer)
      then
        ok ← (if HasFinalizer (EdgeDevice_Meta edgeDevice) YggdrasilConnectionFinalizer then
                e ← edgedevice_RemoveFinalizer edgeDevice YggdrasilConnectionFinalizer;
                match e.1 with
                | Some _ => Ret false
                | None => _ ← ask (IncCounter EdgeDeviceUnregistration); Ret true
                end
              else Ret true);
        if ok : bool then
          message ← createDisconnectCommand;
          Ret (OK (Some message))
        else Ret InternalServerError
      else Ret (OK None)
  end.

(** ** [GET /data] *)

(** The deployments of the device that exist and are not being deleted. *)
Fixpoint read_deployments (namespace : string) (statuses : list Deployment) (acc : list EdgeDeployment)
    : go (result (list EdgeDeployment)) :=
  match statuses with
  | [] => Ret (Ok acc)
  | deployment :: statuses =>
      r ← edgedeployment_Read (Deployment_Name deployment) namespace;
      match r with
      | Err err => if IsNotFound err then read_deployments namespace statuses acc else Ret (Err err)
      | Ok edgeDeployment =>
          read_deployments namespace statuses
            (if is_nil (DeletionTimestamp (EdgeDeployment_Meta edgeDeployment))
             then acc ++ [edgeDeployment] else acc)
      end
  end.

Definition getAuthFile (imageRegistries : option ImageRegistriesConfiguration) (namespace : string)
    : go (result string) :=
  match imageRegistries with
  | Some (mkImageRegistriesConfiguration (Some secretRef)) =>
      GetAuthFileFromSecret namespace (NameRef_Name secretRef)
  | _ => Ret (Ok ""%string)
  end.

(** The name in the event about a missing file; the pointers are not nil there. *)
Definition auth_secret_name (imageRegistries : option ImageRegistriesConfiguration) : string :=
  match imageRegistries with
  | Some (mkImageRegistriesConfiguration (Some secretRef)) => NameRef_Name secretRef
  | _ => ""
  end.

Definition workload_data (data : option DataConfiguration) : option models.DataConfiguration :=
  match data with
  | Some d =>
      if Nat.ltb 0 (length (DataConfiguration_Paths d)) then
        Some (models.mkDataConfiguration
          ((λ p, models.mkDataPath (DataPath_Source p) (DataPath_Target p)) <$> DataConfiguration_Paths d))
      else None
  | None => None
  end.

Definition workload_metrics (deployment : EdgeDeployment) : go (result (option models.Metrics)) :=
  match EdgeDeploymentSpec_Metrics (EdgeDeployment_Spec deployment) with
  | Some m =>
      if (0 <? ContainerMetricsConfiguration_Port m)%Z then
        allowList ←?
          match ContainerMetricsConfiguration_AllowList m with
          | None => Ret (Ok None)
          | Some allowListSpec =>
              r ← GenerateFromConfigMap (NameRef_Name allowListSpec) (dep_namespace deployment);
              match r with
              | Err err => Ret (Err (ErrorString ("Cannot get AllowList Metrics Confimap for "
                             +:+ dep_name deployment +:+ ": " +:+ Error err)))
              | Ok l => Ret (Ok (Some l))
              end
          end;
        containers ← lift (metric_containers (ContainerMetricsConfiguration_Containers m));
        Ret (Ok (Some (models.mkMetrics allowList containers (ContainerMetricsConfiguration_Interval m)
                         (ContainerMetricsConfiguration_Path m) (ContainerMetricsConfiguration_Port m))))
      else Ret (Ok None)
  | None => Ret (Ok None)
  end.

(** One iteration of [toWorkloadList]. *)
Definition add_workload (device : EdgeDevice) (list_ : models.WorkloadList) (deployment : EdgeDeployment)
    : go (result models.WorkloadList) :=
  let spec := EdgeDeployment_Spec deployment in
  if negb (is_nil (DeletionTimestamp (EdgeDeployment_Meta deployment))) then Ret (Ok list_)
  else
    podSpec ← ask (MarshalPodSpec (EdgeDeploymentSpec_Pod spec));
    match podSpec with
    | Err _ => Ret (Ok list_)
    | Ok podSpec =>
        authFile ← getAuthFile (EdgeDeploymentSpec_ImageRegistries spec) (dep_namespace deployment);
        match authFile with
        | Err err =>
            _ ← ask (RecordEvent device EventTypeWarning "Misconfiguration"
                  ("Auth file secret " +:+ auth_secret_name (EdgeDeploymentSpec_ImageRegistries spec)
                   +:+ " used by deployment " +:+ dep_namespace deployment +:+ "/" +:+ dep_name deployment
                   +:+ " is missing"));
            Ret (Err err)
        | Ok authFile =>
            metrics ←? workload_metrics deployment;
            configmapList ←? Fetch deployment (device_namespace device);
            Ret (Ok (list_ ++ [models.mkWorkload configmapList
              (workload_data (EdgeDeploymentSpec_Data spec))
              (if String.eqb authFile "" then None else Some (models.mkImageRegistries authFile))
              (EdgeDeploymentSpec_LogCollection spec) metrics (dep_name deployment) podSpec]))
        end
    end.

Definition toWorkloadList (deployments : list EdgeDeployment) (device : EdgeDevice)
    : go (result models.WorkloadList) :=
  foldR (add_workload device) [] deployments.

Definition getDeviceMetricsConfiguration (edgeDevice : EdgeDevice)
    : go (result (option models.MetricsConfiguration)) :=
  match EdgeDeviceSpec_Metrics (EdgeDevice_Spec edgeDevice) with
  | None => Ret (Ok None)
  | Some metricsConfigSpec =>
      let retention := (λ r, models.mkMetricsRetention (Retention_MaxHours r) (Retention_MaxMiB r))
                         <$> MetricsConfiguration_Retention metricsConfigSpec in
      match MetricsConfiguration_SystemMetrics metricsConfigSpec with
      | None => Ret (Ok (Some (models.mkMetricsConfiguration retention None)))
      | Some systemMetrics =>
          allowList ←?
            match SystemMetricsConfiguration_AllowList systemMetrics with
            | None => Ret (Ok None)
            | Some allowListSpec =>
                l ←? GenerateFromConfigMap (NameRef_Name allowListSpec) (device_namespace edgeDevice);
                Ret (Ok (Some l))
            end;
          Ret (Ok (Some (models.mkMetricsConfiguration retention
            (Some (models.mkSystemMetricsConfiguration allowList
                     (SystemMetricsConfiguration_Disabled systemMetrics)
                     (SystemMetricsConfiguration_Interval systemMetrics))))))
      end
  end.

(** The workloads and Secrets of a device that stays, or the first step of the
    goodbye of a device under deletion. *)
Definition device_workloads (edgeDevice : EdgeDevice)
    : go (result (models.WorkloadList * models.SecretList)) :=
  match DeletionTimestamp (EdgeDevice_Meta edgeDevice) with
  | None =>
      edgeDeployments ←? read_deployments (device_namespace edgeDevice) (device_deployments edgeDevice) [];
      workloadList ←? toWorkloadList edgeDeployments edgeDevice;
      secretList ←? createSecretList edgeDeployments edgeDevice;
      Ret (Ok (workloadList, secretList))
  | Some _ =>
      if HasFinalizer (EdgeDevice_Meta edgeDevice) YggdrasilWorkloadFinalizer then
        e ← edgedevice_RemoveFinalizer edgeDevice YggdrasilWorkloadFinalizer;
        match e.1 with
        | Some err => Ret (Err err)
        | None => Ret (Ok ([], []))
        end
      else Ret (Ok ([], []))
  end.

(** The rest of [GetDataMessageForDevice], once the lists are known. *)
Definition send_configuration (deviceID : string) (edgeDevice : EdgeDevice)
    (lists : result (models.WorkloadList * models.SecretList)) : go (Responder models.Message) :=
  match lists with
  | Err _ => Ret InternalServerError
  | Ok (workloadList, secretList) =>
      storage ← setStorageConfiguration edgeDevice;
      metrics ← getDeviceMetricsConfiguration edgeDevice;
      match metrics with
      | Err _ => Ret InternalServerError
      | Ok metrics =>
          logs ← getDeviceLogConfig edgeDevice;
          match logs with
          | Err _ => Ret InternalServerError
          | Ok logs =>
              let dc := models.mkDeviceConfigurationMessage
                (models.mkDeviceConfiguration
                   (Some (heartbeat_configuration (EdgeDevice_Spec edgeDevice)))
                   logs metrics
                   (to_OsInformation <$> EdgeDeviceSpec_OsInformation (EdgeDevice_Spec edgeDevice))
                   (match storage with Ok s => s | Err _ => None end))
                deviceID secretList (ResourceVersion (EdgeDevice_Meta edgeDevice)) workloadList 0 in
              id ← ask NewUUID;
              now ← ask Now;
              Ret (OK (Some (models.mkMessage (models.ConfigurationContent dc) "device" id now
                               models.MessageTypeData 1)))
          end
      end
  end.

Definition GetDataMessageForDevice (deviceID : string) : go (Responder models.Message) :=
  r ← edgedevice_Read deviceID initialNamespace;
  match r with
  | Err err => Ret (if IsNotFound err then NotFound else InternalServerError)
  | Ok edgeDevice =>
      lists ← device_workloads edgeDevice;
      send_configuration deviceID edgeDevice lists
  end.

(** ** [POST /control] *)
Definition PostControlMessageForDevice (deviceID : string) (message : models.Message)
    : go (Responder models.MessageResponse) :=
  Ret (OK None).

(** ** [POST /data] *)

(** The retry loop; [err] is the outer error, which the loop's own shadows. *)
Fixpoint retry_status (todo : list Z) (name namespace : string) (updateFunc : EdgeDevice → deref EdgeDevice)
    (err : error) : go (option error) :=
  match todo with
  | [] => Ret (Some err)
  | i :: todo =>
      _ ← ask (Sleep (i * 50));
      device2 ← edgedevice_Read name namespace;
      match device2 with
      | Err _ => retry_status todo name namespace updateFunc err
      | Ok device2 =>
          updated ← lift (updateFunc device2);
          r ← edgedevice_PatchStatus updated device2;
          match r with
          | Ok _ => Ret None
          | Err _ => retry_status todo name namespace updateFunc err
          end
      end
  end.

Definition updateDeviceStatus (device : EdgeDevice) (updateFunc : EdgeDevice → deref EdgeDevice)
    : go (option error * EdgeDevice) :=
  updated ← lift (updateFunc device);
  r ← edgedevice_PatchStatus updated device;
  match r with
  | Ok device => Ret (None, device)
  | Err err =>
      e ← retry_status [1; 2; 3]%Z (device_name updated) (device_namespace updated) updateFunc err;
      Ret (e, updated)
  end.

(** The status a new device starts with. *)
Definition initial_status (hw : option models.HardwareInfo) (device : EdgeDevice) : deref EdgeDevice :=
  (λ h, set_status (mkEdgeDeviceStatus "" zero_time "" h [] None None) device) <$> MapHardware hw.

Definition new_device (deviceID : string) (now : Timestamp) : EdgeDevice :=
  mkEdgeDevice
    (meta_set_finalizers [YggdrasilConnectionFinalizer; YggdrasilWorkloadFinalizer]
       (new_meta deviceID initialNamespace))
    (mkEdgeDeviceSpec None (Some now) None None None ∅) zero_status.

(** The certificate of the response; [None] when the request carries none. *)
Definition sign_request (info : models.RegistrationInfo) (deviceID : string) : go (result (option string)) :=
  if negb (String.eqb (models.RegistrationInfo_CertificateRequest info) "") then
    cert ←? SignCSR (models.RegistrationInfo_CertificateRequest info) deviceID;
    Ret (Ok (Some cert))
  else Ret (Ok None).

Definition failed_registration : go (Responder models.MessageResponse) :=
  _ ← ask (IncCounter EdgeDeviceFailedRegistration); Ret InternalServerError.

Definition response (msg : models.Message) (content : option models.RegistrationResponse)
    : Responder models.MessageResponse :=
  OK (Some (models.mkMessageResponse content (models.Message_Directive msg) (models.Message_MessageID msg))).

(** The creation of a device whose certificate, if it asked for one, is signed. *)
Definition create_device (deviceID : string) (msg : models.Message) (info : models.RegistrationInfo)
    (cert : option string) : go (Responder models.MessageResponse) :=
  now ← ask Now;
  device ← edgedevice_Create (new_device deviceID now);
  match device with
  | Err _ => failed_registration
  | Ok device =>
      r ← updateDeviceStatus device (initial_status (models.RegistrationInfo_Hardware info));
      match r with
      | (Some _, _) => failed_registration
      | (None, device) =>
          r ← edgedevice_UpdateLabels device (MapLabels (models.RegistrationInfo_Hardware info));
          match r.1 with
          | Some _ => failed_registration
          | None =>
              _ ← ask (IncCounter EdgeDeviceSuccessfulRegistration);
              Ret (response msg (models.mkRegistrationResponse <$> cert))
          end
      end
  end.

Definition register (deviceID : string) (msg : models.Message) (info : models.RegistrationInfo)
    : go (Responder models.MessageResponse) :=
  r ← edgedevice_Read deviceID initialNamespace;
  match r with
  | Ok _ =>
      cert ← sign_request info deviceID;
      match cert with
      | Err _ => Ret BadRequest
      | Ok cert => Ret (response msg (Some (models.mkRegistrationResponse (default "" cert))))
      end
  | Err err =>
      if negb (IsNotFound err) then Ret InternalServerError
      else
        cert ← sign_request info deviceID;
        match cert with
        | Err _ => Ret BadRequest
        | Ok cert => create_device deviceID msg info cert
        end
  end.

Definition PostDataMessageForDevice (deviceID : string) (msg : models.Message)
    : go (Responder models.MessageResponse) :=
  if String.eqb (models.Message_Directive msg) "heartbeat" then
    hb ← ask (UnmarshalHeartbeat (models.Message_Content msg));
    match hb with
    | Err _ => Ret BadRequest
    | Ok hb =>
        err ← Process (mkNotification deviceID initialNamespace hb 0);
        match err with
        | Some err => Ret (if IsNotFound err then NotFound else InternalServerError)
        | None => Ret (OK None)
        end
    end
  else if String.eqb (models.Message_Directive msg) "registration" then
    info ← ask (UnmarshalRegistrationInfo (models.Message_Content msg));
    match info with
    | Err _ => Ret BadRequest
    | Ok info => register deviceID msg info
    end
  else Ret BadRequest.
End handlers.

(** ** Theorems *)

(** The patch that removes one finalizer of a device. *)
Definition without (finalizer : string) (d : EdgeDevice) : EdgeDevice :=
  set_finalizers (without_finalizer finalizer (Finalizers (EdgeDevice_Meta d))) d.

Definition under_deletion (d : EdgeDevice) : bool := negb (is_nil (DeletionTimestamp (EdgeDevice_Meta d))).
Definition has (finalizer : string) (d : EdgeDevice) : bool := HasFinalizer (EdgeDevice_Meta d) finalizer.

(** The path of a registration ends in the segment [registration]. *)
Lemma isRegistrationURL_iff path :
  isRegistrationURL path = true ↔ path = "registration"%string ∨ ∃ p, path = p +:+ "/registration".
Proof.
  set (w := chars "registration").
  assert (Hw : ("/"%char ∉ w)) by (apply (bool_decide_unpack _); by vm_compute).
  assert (isRegistrationURL path = true ↔ last (split "/" (chars path)) = Some w) as ->.
  { unfold isRegistrationURL. destruct (last _); rewrite ?bool_decide_eq_true; naive_solver. }
  rewrite last_split. split.
  - intros [_ [H|[p H]]].
    + left. by apply (inj chars).
    + right. exists (String.string_of_list_ascii p). apply (inj chars). rewrite H, chars_app.
      unfold chars at 2. by rewrite String.list_ascii_of_string_of_list_ascii.
  - intros [->|[p ->]]; (split; [done|]); [by left|]. right. exists (chars p).
    by rewrite chars_app.
Qed.

Section theorems.
Context {R : EdgeDeviceRepository} {L : EdgeDeviceRepositoryLaws R}.
Context {DR : EdgeDeploymentRepository} {DL : EdgeDeploymentRepositoryLaws DR}.
Context {AL : AllowListGenerator} {RA : RegistryAuthAPI} {CM : ConfigMapAPI} {TLS : CSRSigner}.
Context {LL : LookupLaws AL RA CM TLS} {U : UnicodeTables} (initialNamespace : string).

(** The goodbye of a device. A device under deletion that no longer has the workload
    finalizer is told to disconnect, and if it still has the connection
    finalizer exactly one patch is sent, which removes it, and the
    unregistration is counted, whether or not the server accepted the patch;
    every other device that exists gets an empty answer, without any further
    call. *)
Theorem GetControl_disconnects deviceID :
  wp (GetControlMessageForDevice initialNamespace deviceID) (λ tr out, ∃ r tr',
    tr = Ev (S := api) (GetEdgeDevice initialNamespace deviceID) r :: tr' ∧
    ∀ d, r = Ok d →
      (under_deletion d = true ∧ has YggdrasilWorkloadFinalizer d = false →
         (∃ m, out = Returned (OK (Some m)) ∧
               models.Message_Content m = models.CommandContent "disconnect" ∅) ∧
         writes tr' = (if has YggdrasilConnectionFinalizer d
                       then [PatchEdgeDevice d (without YggdrasilConnectionFinalizer d)] else []) ∧
         counted tr' = (if has YggdrasilConnectionFinalizer d then [EdgeDeviceUnregistration] else [])) ∧
      (under_deletion d = false ∨ has YggdrasilWorkloadFinalizer d = true →
         tr' = [] ∧ out = Returned (OK None))).
Proof.
  unfold GetControlMessageForDevice. apply wp_bind, Read_law. intros [d|e].
  2:{ destruct (IsNotFound e); simpl; (do 2 eexists; split; [done|]); by intros d. }
  fold (under_deletion d) (has YggdrasilWorkloadFinalizer d) (has YggdrasilConnectionFinalizer d).
  destruct (under_deletion d && negb (has YggdrasilWorkloadFinalizer d)) eqn:E.
  - apply andb_true_iff in E as [E1 E2%negb_true_iff].
    destruct (has YggdrasilConnectionFinalizer d) eqn:E3.
    + apply wp_bind, wp_bind, RemoveFinalizer_law. intros a d'. simpl. intros [] id now.
      do 2 eexists. split; [done|]. intros d0 [= <-]. rewrite E1, E2, E3. go_simpl.
      split; [|by intros [?|?]]. intros _. split; [by eexists|]. done.
    + simpl. intros id now. do 2 eexists. split; [done|]. intros d0 [= <-]. rewrite E1, E2, E3. go_simpl.
      split; [|by intros [?|?]]. intros _. split; [by eexists|]. done.
  - simpl. do 2 eexists. split; [done|]. intros d0 [= <-]. apply andb_false_iff in E.
    split; [|done]. intros [H1 H2]. rewrite H1, H2 in E. by destruct E.
Qed.

(** *** The configuration of a device *)

(** Calls that leave the objects and the counters alone. *)
Definition reading (o : api_op) : Prop :=
  is_write o = false ∧ match o with IncCounter _ => False | _ => True end.

Lemma quiet_reading o : quiet o → reading o.
Proof. intros (? & _ & ?). by split. Qed.

Lemma reading_calls tr :
  Forall reading (ev_op (S := api) <$> tr) → writes tr = [] ∧ counted tr = [].
Proof.
  intros Hq. split.
  - rewrite writes_calls. apply calls_none. eapply Forall_impl; [exact Hq|]. by intros o (? & _).
  - induction tr as [|[o a] tr IH]; [done|]. csimpl in Hq. apply Forall_cons in Hq as [(_ & Ho) Hq].
    rewrite counted_cons, IH by done. by destruct o.
Qed.

(** What [read_deployments] answers. *)
Definition readable (namespace : string) (st : Deployment) (a : result EdgeDeployment)
    (tr : list api_event) : Prop :=
  Ev (S := api) (GetEdgeDeployment namespace (Deployment_Name st)) a ∈ tr ∧
  ∀ e, a = Err e → IsNotFound e = true.

Definition staying (a : result EdgeDeployment) : option EdgeDeployment :=
  match a with
  | Ok dep => if is_nil (DeletionTimestamp (EdgeDeployment_Meta dep)) then Some dep else None
  | Err _ => None
  end.

Lemma read_deployments_wp ns sts acc :
  wp (read_deployments ns sts acc) (λ tr out, Forall reading (ev_op <$> tr) ∧
    match out with
    | Returned (Ok deps) => ∃ answers,
        Forall2 (λ st a, readable ns st a tr) sts answers ∧ deps = acc ++ omap staying answers
    | Returned (Err _) => True
    | Crashed _ => False
    end).
Proof.
  revert acc; induction sts as [|st sts IH]; intros acc.
  { split; [constructor|]. exists []. split; [constructor|]. by rewrite app_nil_r. }
  apply wp_bind, dep_Read_law. intros a. simpl.
  set (ev := Ev (GetEdgeDeployment ns (Deployment_Name st)) a : api_event).
  assert (Hstep : (∀ e, a = Err e → IsNotFound e = true) →
    wp (read_deployments ns sts (acc ++ option_list (staying a))) (λ tr out,
      Forall reading (ev_op <$> ev :: tr) ∧
      match out with
      | Returned (Ok deps) => ∃ answers,
          Forall2 (λ st a, readable ns st a (ev :: tr)) (st :: sts) answers ∧ deps = acc ++ omap staying answers
      | Returned (Err _) => True
      | Crashed _ => False
      end)).
  { intros Ha. eapply wp_mono; [apply IH|]. intros tr out [Hr Hout]. split; [by constructor|].
    destruct out as [[deps|e]|c]; [|done|done]. destruct Hout as (answers & H2 & ->).
    exists (a :: answers). split.
    - constructor; [split; [left|done]|]. eapply Forall2_impl; [exact H2|].
      intros x y [??]. split; [by right|done].
    - rewrite <- app_assoc. f_equal. simpl. by destruct (staying a). }
  destruct a as [dep|e]; simpl in *.
  - destruct (is_nil _); simpl in *; [by apply Hstep|].
    rewrite app_nil_r in Hstep. by apply Hstep.
  - destruct (IsNotFound e) eqn:E; [|by split; [repeat constructor|]].
    rewrite app_nil_r in Hstep. apply Hstep. by intros e' [= <-].
Qed.

(** The metrics sent for a workload: they need a positive port, and there is one
    entry for each container that is configured. *)
Record metrics_of (c : ContainerMetricsConfiguration) (m : models.Metrics) : Prop := {
  metrics_port : models.Metrics_Port m = ContainerMetricsConfiguration_Port c ∧ (0 < models.Metrics_Port m)%Z;
  metrics_path : models.Metrics_Path m = ContainerMetricsConfiguration_Path c;
  metrics_interval : models.Metrics_Interval m = ContainerMetricsConfiguration_Interval c;
  metrics_containers : ∀ k x, default ∅ (models.Metrics_Containers m) !! k = Some x ↔ ∃ e,
    ContainerMetricsConfiguration_Containers c !! k = Some (Some e) ∧ x = container_metrics e;
}.

(** The workload sent for a deployment. *)
Record workload_of (dep : EdgeDeployment) (tr : list api_event) (w : models.Workload) : Prop := {
  workload_name : models.Workload_Name w = dep_name dep;
  workload_spec : Ev (S := api) (MarshalPodSpec (EdgeDeploymentSpec_Pod (EdgeDeployment_Spec dep)))
                    (Ok (models.Workload_Specification w)) ∈ tr;
  workload_paths : models.Workload_Data w = workload_data (EdgeDeploymentSpec_Data (EdgeDeployment_Spec dep));
  workload_logs : models.Workload_LogCollection w = EdgeDeploymentSpec_LogCollection (EdgeDeployment_Spec dep);
  workload_metrics_spec : ∀ m, models.Workload_Metrics w = Some m → ∃ c,
    EdgeDeploymentSpec_Metrics (EdgeDeployment_Spec dep) = Some c ∧
    metrics_of c m;
}.

(** What a deployment contributes: nothing when its pod has no YAML. *)
Definition contributes (dep : EdgeDeployment) (ws : models.WorkloadList) (tr : list api_event) : Prop :=
  (∃ w, ws = [w] ∧ workload_of dep tr w) ∨
  (ws = [] ∧ (DeletionTimestamp (EdgeDeployment_Meta dep) ≠ None ∨
     ∃ e, Ev (S := api) (MarshalPodSpec (EdgeDeploymentSpec_Pod (EdgeDeployment_Spec dep))) (Err e) ∈ tr)).

Lemma contributes_mono dep ws tr tr' : tr ⊆ tr' → contributes dep ws tr → contributes dep ws tr'.
Proof.
  intros Hs [(w & -> & [????])|[-> [?|(e & ?)]]]; [left|right; auto|right; eauto].
  exists w. split; [done|]. by split; auto.
Qed.

Lemma deref_map_entries {A B} (f : A → B) (l : list (string * option A)) entries :
  deref_map (λ kv, (λ m, (kv.1, f m)) <$> deref_ptr kv.2) l = Val entries →
  ∀ k x, (k, x) ∈ entries ↔ ∃ e, (k, Some e) ∈ l ∧ x = f e.
Proof.
  revert entries. induction l as [|[k0 [e0|]] l IH]; intros entries; simpl.
  - intros [= <-] k x. setoid_rewrite elem_of_nil. naive_solver.
  - destruct (deref_map _ l) as [es|] eqn:E; simpl; [|done]. intros [= <-] k x.
    specialize (IH es eq_refl k x). rewrite elem_of_cons, IH. setoid_rewrite elem_of_cons. naive_solver.
  - done.
Qed.

Lemma deref_map_keys {A B} (f : A → B) (l : list (string * option A)) entries :
  deref_map (λ kv, (λ m, (kv.1, f m)) <$> deref_ptr kv.2) l = Val entries → entries.*1 = l.*1.
Proof.
  revert entries. induction l as [|[k0 [e0|]] l IH]; intros entries; simpl; [by intros [= <-]| |done].
  destruct (deref_map _ l) as [es|] eqn:E; simpl; [|done]. intros [= <-]. csimpl. f_equal. by apply IH.
Qed.

Lemma metric_containers_Val containers cs :
  metric_containers containers = Val cs → ∀ k x, default ∅ cs !! k = Some x ↔ ∃ e,
    containers !! k = Some (Some e) ∧ x = container_metrics e.
Proof.
  unfold metric_containers.
  destruct (deref_map _ _) as [entries|] eqn:E; [|done]. intros Hcs k x.
  setoid_rewrite <- elem_of_map_to_list. rewrite <- (deref_map_entries container_metrics _ _ E).
  assert (Hnd : NoDup entries.*1).
  { rewrite (deref_map_keys container_metrics _ _ E).
    apply NoDup_fst_map_to_list. }
  rewrite elem_of_map_to_list, (elem_of_list_to_map _ _ _ Hnd). by destruct entries; simplify_eq/=.
Qed.

Lemma workload_metrics_wp dep :
  wp (workload_metrics dep) (λ tr out, Forall reading (ev_op <$> tr) ∧
    ∀ m, out = Returned (Ok (Some m)) → ∃ c,
      EdgeDeploymentSpec_Metrics (EdgeDeployment_Spec dep) = Some c ∧ metrics_of c m).
Proof.
  unfold workload_metrics. destruct (EdgeDeploymentSpec_Metrics _) as [c|]; [|by split; [constructor|]].
  destruct (Z.ltb_spec 0 (ContainerMetricsConfiguration_Port c)) as [Hp|]; [|by split; [constructor|]].
  set (rest := λ al : option models.MetricsAllowList, _).
  assert (Hrest : ∀ al tr0, Forall reading (ev_op <$> tr0) →
    wp (rest al) (λ tr out, Forall reading (ev_op (S := api) <$> tr0 ++ tr) ∧
      ∀ m, out = Returned (Ok (Some m)) → ∃ c', Some c = Some c' ∧ metrics_of c' m)).
  { intros al tr0 Htr. unfold rest. apply wp_bind.
    destruct (metric_containers _) as [cs|] eqn:Ecs; simpl; rewrite app_nil_r; (split; [done|]); [|done].
    intros m [= <-]. exists c. split; [done|]. split; [done|done|done|]. by apply metric_containers_Val. }
  apply wp_bind_ok. destruct (ContainerMetricsConfiguration_AllowList c) as [al|]; [|by apply (Hrest None [])].
  apply wp_bind. eapply wp_mono; [apply within_wp, AllowList_law|]. intros tr [[l|e]|c0] Hq; simpl; rewrite ?app_nil_r.
  - apply Hrest. eapply Forall_impl; [exact Hq|]. apply quiet_reading.
  - split; [|done]. eapply Forall_impl; [exact Hq|]. apply quiet_reading.
  - split; [|done]. eapply Forall_impl; [exact Hq|]. apply quiet_reading.
Qed.

Lemma reading_app (tr tr' : list api_event) :
  Forall reading (ev_op <$> tr) → Forall reading (ev_op <$> tr') → Forall reading (ev_op <$> tr ++ tr').
Proof. intros. rewrite fmap_app. by apply Forall_app_2. Qed.

Lemma getAuthFile_quiet ir ns : within quiet (getAuthFile ir ns).
Proof. unfold getAuthFile. destruct ir as [[[ref|]]|]; [apply AuthFile_law|done|done]. Qed.

Lemma quiet_within_reading {A} (p : go A) :
  within quiet p → wp p (λ tr _, Forall reading (ev_op <$> tr)).
Proof.
  intros Hp. eapply wp_mono; [by apply within_wp|]. intros tr out Hq.
  eapply Forall_impl; [exact Hq|]. apply quiet_reading.
Qed.

Lemma add_workload_wp d acc dep :
  wp (add_workload d acc dep) (λ tr out, Forall reading (ev_op <$> tr) ∧
    ∀ acc', out = Returned (Ok acc') → ∃ ws, acc' = acc ++ ws ∧ contributes dep ws tr).
Proof.
  unfold add_workload. destruct (negb (is_nil (DeletionTimestamp _))) eqn:Ed.
  { split; [constructor|]. intros acc' [= <-]. exists []. rewrite app_nil_r. split; [done|].
    right. split; [done|]. left. by destruct (DeletionTimestamp _). }
  apply wp_bind. simpl. intros [y|e].
  2:{ simpl. split; [by repeat constructor|]. intros acc' [= <-]. exists []. rewrite app_nil_r.
      split; [done|]. right. split; [done|]. right. exists e. left. }
  simpl. set (ev := Ev (MarshalPodSpec _) (Ok y) : api_event).
  apply wp_bind. eapply wp_mono; [apply quiet_within_reading, getAuthFile_quiet|].
  intros tr1 [[af|e]|c] Hq1; simpl; [| |by split; [constructor|]].
  2:{ split; [|done]. constructor; [done|]. apply reading_app; [done|by repeat constructor]. }
  apply wp_bind_ok. eapply wp_mono; [apply workload_metrics_wp|].
  intros tr2 [[m|e]|c] [Hq2 Hm]; [| |]; try (split; [constructor; [done|by apply reading_app]|done]).
  apply wp_bind_ok. eapply wp_mono; [apply quiet_within_reading, Fetch_law|].
  intros tr3 [[cms|e]|c] Hq3; simpl;
    (split; [constructor; [done|repeat apply reading_app; rewrite ?app_nil_r; done]|]); [|done|done].
  intros acc' [= <-]. eexists. split; [done|]. left. eexists. split; [done|].
  split; simpl; [done|left|done|done|]. intros m' ->. by apply Hm.
Qed.

Lemma toWorkloadList_wp deps d :
  wp (toWorkloadList deps d) (λ tr out, Forall reading (ev_op <$> tr) ∧
    ∀ ws, out = Returned (Ok ws) → ∃ outs,
      Forall2 (λ dep ys, contributes dep ys tr) deps outs ∧ ws = concat outs).
Proof.
  apply wp_and.
  - eapply wp_mono; [apply (wp_foldR _ (λ _ _ tr, Forall reading (ev_op <$> tr))
      (λ _ tr, Forall reading (ev_op <$> tr)) (λ _ tr, Forall reading (ev_op <$> tr)))|].
    + constructor.
    + intros dn dep todo acc tr _ Htr. eapply wp_mono; [apply add_workload_wp|].
      intros tr' [[?|?]|?] [Hq _]; by apply reading_app.
    + by intros tr [[?|?]|?].
  - eapply wp_mono; [apply (wp_collect _ contributes (λ _, True))|].
    + intros. by eapply contributes_mono.
    + intros acc dep. eapply wp_mono; [apply add_workload_wp|].
      intros tr [[acc'|e]|c] [_ H]; [by apply H|done|done].
    + intros tr out H ws ->. exact H.
Qed.

(** The workloads and Secrets of the message, for a device that stays. *)
Definition lists_of (d : EdgeDevice) (ws : models.WorkloadList) (ss : models.SecretList)
    (tr : list api_event) : Prop :=
  ∃ answers outs entries souts,
    Forall2 (λ st a, readable (device_namespace d) st a tr) (device_deployments d) answers ∧
    Forall2 (λ dep ys, contributes dep ys tr) (omap staying answers) outs ∧ ws = concat outs ∧
    entries ≡ₚ map_to_list (collect_secrets (omap staying answers)) ∧
    Forall2 (λ entry ys, sent (device_namespace d) entry ys tr) entries souts ∧ ss = concat souts.

Definition goodbye (d : EdgeDevice) (tr : list api_event) : Prop :=
  ∃ a, tr = [Ev (S := api) (PatchEdgeDevice d (without YggdrasilWorkloadFinalizer d)) a].

Lemma device_workloads_wp d :
  wp (device_workloads d) (λ tr out,
    (if under_deletion d && has YggdrasilWorkloadFinalizer d then goodbye d tr
     else Forall reading (ev_op <$> tr)) ∧
    ∀ ws ss, out = Returned (Ok (ws, ss)) →
      if under_deletion d then ws = [] ∧ ss = [] else lists_of d ws ss tr).
Proof.
  unfold device_workloads, under_deletion. destruct (DeletionTimestamp _) as [ts|]; simpl.
  - fold (has YggdrasilWorkloadFinalizer d). destruct (has YggdrasilWorkloadFinalizer d).
    + apply wp_bind, RemoveFinalizer_law. intros a d'. simpl. split; [by exists a|]. by intros ws ss [= <- <-].
    + simpl. split; [constructor|]. by intros ws ss [= <- <-].
  - apply wp_bind_ok. eapply wp_mono; [apply read_deployments_wp|].
    intros tr [[deps|e]|c] [Hq Hd]; [|done|done].
    apply wp_bind_ok. eapply wp_mono; [apply toWorkloadList_wp|].
    intros tr1 [[ws|e]|c] [Hq1 Hw]; try (split; [by apply reading_app|done]).
    apply wp_bind_ok. eapply wp_mono; [apply wp_and; [apply quiet_within_reading, createSecretList_quiet|
                                                      apply createSecretList_wp]|].
    intros tr2 out [Hq2 (r & -> & Hs)]. destruct r as [ss|e]; simpl; rewrite ?app_nil_r;
      (split; [by repeat apply reading_app|]); [|done].
    intros ws' ss' [= <- <-]. destruct Hd as (answers & Ha & ->). simpl in *.
    destruct (Hw ws eq_refl) as (outs & Ho & ->). destruct (Hs ss eq_refl) as (entries & souts & He & Hso & ->).
    exists answers, outs, entries, souts. split_and!; [| |done|done| |done].
    + eapply Forall2_impl; [exact Ha|]. intros st a [Hin Hn]. split; [|done]. set_solver.
    + eapply Forall2_impl; [exact Ho|]. intros dep ys. apply contributes_mono. set_solver.
    + eapply Forall2_impl; [exact Hso|]. intros en ys. apply sent_mono. set_solver.
Qed.

Lemma getDeviceSyslogLogConfig_quiet d s : within quiet (getDeviceSyslogLogConfig d s).
Proof. unfold getDeviceSyslogLogConfig. within_go. Qed.

Lemma getDeviceLogConfig_quiet d : within quiet (getDeviceLogConfig d).
Proof.
  unfold getDeviceLogConfig. destruct (Nat.eqb _ _); [done|]. apply within_bind; [apply within_permute|].
  intros entries. apply within_bind_ok; [|done]. apply within_foldR. intros acc [k v] _.
  unfold add_log_config. apply within_bind; [apply within_lift|]. intros val.
  apply within_bind_ok; [|done]. destruct (LogCollectionConfig_SyslogConfig val); [|done].
  apply within_bind_ok; [apply getDeviceSyslogLogConfig_quiet|done].
Qed.

(** The log collection sent for an entry of the device: its syslog server, if it
    names one, is that of the ConfigMap, over TCP unless that says otherwise. *)
Definition log_of (d : EdgeDevice) (v : LogCollectionConfig) (l : models.LogsCollectionInformation)
    (tr : list api_event) : Prop :=
  models.LogsCollectionInformation_BufferSize l = LogCollectionConfig_BufferSize v ∧
  models.LogsCollectionInformation_Kind l = LogCollectionConfig_Kind v ∧
  match LogCollectionConfig_SyslogConfig v with
  | None => models.LogsCollectionInformation_SyslogConfig l = None
  | Some ref => ∃ cm s,
      Ev (S := api) (GetConfigMap (device_namespace d) (NameRef_Name ref)) (Ok cm) ∈ tr ∧
      models.LogsCollectionInformation_SyslogConfig l = Some s ∧
      models.SyslogConfig_Address s = default ""%string (cm_Data cm !! "Address"%string) ∧
      models.SyslogConfig_Protocol s = default "tcp"%string (cm_Data cm !! "Protocol"%string) ∧
      models.SyslogConfig_Protocol s ∈ ["tcp"; "udp"]%string
  end.

Lemma log_of_mono d v l tr tr' : tr ⊆ tr' → log_of d v l tr → log_of d v l tr'.
Proof.
  intros Hs (? & ? & H). split_and!; [done..|]. destruct (LogCollectionConfig_SyslogConfig v); [|done].
  destruct H as (cm & s & ? & ?). exists cm, s. auto.
Qed.

(** Every entry of the device is sent, and nothing else. *)
Definition logs_of (d : EdgeDevice) (logs : option (gmap string models.LogsCollectionInformation))
    (tr : list api_event) : Prop :=
  ∀ k, match default ∅ logs !! k, EdgeDeviceSpec_LogCollection (EdgeDevice_Spec d) !! k with
       | Some l, Some (Some v) => log_of d v l tr
       | None, None => True
       | _, _ => False
       end.

Lemma add_log_config_wp d res k (v : option LogCollectionConfig) :
  wp (add_log_config d res (k, v)) (λ tr out, ∀ res', out = Returned (Ok res') → ∃ v' l,
    v = Some v' ∧ res' = <[k := l]> res ∧ log_of d v' l tr).
Proof.
  unfold add_log_config. destruct v as [v|]; simpl; [|done]. apply wp_bind_ok.
  destruct (LogCollectionConfig_SyslogConfig v) as [ref|] eqn:Eref; simpl.
  2:{ intros res' [= <-]. exists v. eexists. unfold log_of. rewrite Eref. by split_and!. }
  unfold getDeviceSyslogLogConfig. intros [cm|e]; simpl; [|done].
  assert (Hlog : ∀ p, default "tcp"%string (cm_Data cm !! "Protocol"%string) = p → p ∈ ["tcp"; "udp"]%string →
    log_of d v (models.mkLogsCollectionInformation (LogCollectionConfig_BufferSize v) (LogCollectionConfig_Kind v)
      (Some (models.mkSyslogConfig (default ""%string (cm_Data cm !! "Address"%string)) p)))
      [Ev (S := api) (GetConfigMap (device_namespace d) (NameRef_Name ref)) (Ok cm)]).
  { intros p <- Hp. split_and!; [done..|]. rewrite Eref. exists cm. eexists. by split_and!; [left|..]. }
  destruct (cm_Data cm !! "Protocol"%string) as [p|] eqn:Ep; simpl in *.
  - destruct (_ || _) eqn:E; simpl; [|done]. intros res' [= <-]. exists v. eexists. split_and!; [done..|].
    apply Hlog; [done|]. apply orb_true_iff in E as [->%String.eqb_eq| ->%String.eqb_eq]; set_solver.
  - intros res' [= <-]. exists v. eexists. split_and!; [done..|]. apply Hlog; [done|]. set_solver.
Qed.

Lemma getDeviceLogConfig_wp d :
  wp (getDeviceLogConfig d) (λ tr out, ∀ logs, out = Returned (Ok logs) → logs_of d logs tr).
Proof.
  unfold getDeviceLogConfig, logs_of. set (spec := EdgeDeviceSpec_LogCollection _).
  destruct (Nat.eqb_spec (size spec) 0) as [->%map_size_empty_iff|_].
  { simpl. intros logs [= <-] k. by rewrite !lookup_empty. }
  apply wp_bind, wp_permute. intros entries Hp.
  assert (Hnd : NoDup entries.*1) by (rewrite Hp; apply NoDup_fst_map_to_list).
  apply wp_bind_ok. eapply wp_mono.
  { apply (wp_foldR _ (λ dn acc tr,
      (∀ k, is_Some (acc !! k) → k ∈ dn.*1) ∧
      (∀ k v, (k, v) ∈ dn → ∃ v' l, v = Some v' ∧ acc !! k = Some l ∧ log_of d v' l tr))
      (λ _ _, True) (λ _ _, True)).
    - split; [|by setoid_rewrite elem_of_nil]. intros k [x Hx]. by rewrite lookup_empty in Hx.
    - intros dn [k v] todo acc tr -> [Hk Hv]. eapply wp_mono; [apply add_log_config_wp|].
      intros tr' [[acc'|e]|c] H; [|done|done]. destruct (H acc' eq_refl) as (v' & l & -> & -> & Hl).
      assert (Hfresh : k ∉ dn.*1).
      { rewrite fmap_app in Hnd. apply NoDup_app in Hnd as (_ & Hnd & _). csimpl in Hnd. set_solver. }
      rewrite fmap_app. split.
      + intros k' Hk'. csimpl. destruct (decide (k' = k)) as [->|]; [set_solver|].
        rewrite lookup_insert_ne in Hk' by done. set_solver.
      + intros k' v'' [Hin| [= -> ->]%list_elem_of_singleton]%elem_of_app.
        * destruct (Hv _ _ Hin) as (x & y & -> & Hy & Hxy). exists x, y. split_and!; [done| |].
          -- rewrite lookup_insert_ne; [done|]. intros <-. apply Hfresh, list_elem_of_fmap. by exists (k, Some x).
          -- eapply log_of_mono; [|exact Hxy]. set_solver.
        * exists v', l. split_and!; [done|by rewrite lookup_insert_eq|]. eapply log_of_mono; [|exact Hl]. set_solver. }
  intros tr [[res|e]|c]; [|done|done]. simpl. intros [Hk Hv] logs [= <-] k. rewrite app_nil_r. simpl.
  destruct (spec !! k) as [v|] eqn:E.
  - destruct (Hv k v) as (v' & l & -> & -> & Hl); [|done].
    rewrite Hp. by apply elem_of_map_to_list.
  - destruct (res !! k) as [l|] eqn:Er; [|done]. exfalso.
    assert (k ∈ entries.*1) as [[k' v] [-> Hin]]%list_elem_of_fmap by (apply Hk; by eexists).
    rewrite Hp in Hin. apply elem_of_map_to_list in Hin. simpl in *. congruence.
Qed.

Lemma getDeviceMetricsConfiguration_quiet d : within quiet (getDeviceMetricsConfiguration d).
Proof.
  unfold getDeviceMetricsConfiguration. destruct (EdgeDeviceSpec_Metrics _) as [m|]; [|done].
  destruct (MetricsConfiguration_SystemMetrics m) as [sm|]; [|done]. apply within_bind_ok; [|done].
  destruct (SystemMetricsConfiguration_AllowList sm); [|done]. apply within_bind_ok; [apply AllowList_law|done].
Qed.

Lemma setStorageConfiguration_quiet d : within quiet (setStorageConfiguration d).
Proof.
  unfold setStorageConfiguration. destruct (match EdgeDeviceStatus_DataOBC _ with Some _ => _ | None => _ end).
  - apply within_bind_ok; [|done]. unfold GetStorageConfiguration, GetClaim, field. within_go.
  - destruct (ShouldUseExternalConfig d); [|done]. apply within_bind_ok; [|done].
    unfold GetExternalStorageConfig, field. within_go.
Qed.

(** The configuration sent for a device. *)
Record configuration_of (d : EdgeDevice) (dc : models.DeviceConfigurationMessage) (tr : list api_event) : Prop := {
  conf_heartbeat : models.DeviceConfiguration_Heartbeat (models.DeviceConfigurationMessage_Configuration dc)
    = Some (heartbeat_configuration (EdgeDevice_Spec d));
  conf_os : models.DeviceConfiguration_Os (models.DeviceConfigurationMessage_Configuration dc)
    = to_OsInformation <$> EdgeDeviceSpec_OsInformation (EdgeDevice_Spec d);
  conf_logs : logs_of d (models.DeviceConfiguration_LogCollection (models.DeviceConfigurationMessage_Configuration dc)) tr;
  conf_interval : models.DeviceConfigurationMessage_WorkloadsMonitoringInterval dc = 0%Z;
}.

Lemma logs_of_mono d logs tr tr' : tr ⊆ tr' → logs_of d logs tr → logs_of d logs tr'.
Proof.
  intros Hs H k. specialize (H k). destruct (_ !! k), (_ !! k) as [[v|]|]; try done. by eapply log_of_mono.
Qed.

Lemma configuration_of_mono d dc tr tr' : tr ⊆ tr' → configuration_of d dc tr → configuration_of d dc tr'.
Proof. intros Hs []. split; [done..| |done]. by eapply logs_of_mono. Qed.

Lemma send_configuration_wp deviceID d lists :
  wp (send_configuration deviceID d lists) (λ tr out, Forall reading (ev_op <$> tr) ∧
    ∀ m, out = Returned (OK (Some m)) → ∃ ws ss dc, lists = Ok (ws, ss) ∧
      models.Message_Content m = models.ConfigurationContent dc ∧
      models.DeviceConfigurationMessage_DeviceID dc = deviceID ∧
      models.DeviceConfigurationMessage_Version dc = ResourceVersion (EdgeDevice_Meta d) ∧
      models.DeviceConfigurationMessage_Workloads dc = ws ∧
      models.DeviceConfigurationMessage_Secrets dc = ss ∧ configuration_of d dc tr ∧
      models.Message_Type m = models.MessageTypeData).
Proof.
  unfold send_configuration. destruct lists as [[ws ss]|e]; [|by split; [constructor|]].
  apply wp_bind. eapply wp_mono; [apply quiet_within_reading, setStorageConfiguration_quiet|].
  intros tr1 [st|c] H1; [|done].
  apply wp_bind. eapply wp_mono; [apply quiet_within_reading, getDeviceMetricsConfiguration_quiet|].
  intros tr2 [[ms|e]|c] H2; simpl; rewrite ?app_nil_r; try (by split; [apply reading_app|]).
  apply wp_bind. eapply wp_mono.
  { apply wp_and; [apply quiet_within_reading, getDeviceLogConfig_quiet|apply getDeviceLogConfig_wp]. }
  intros tr3 [[ls|e]|c] [H3 Hl]; simpl; rewrite ?app_nil_r; try (by split; [repeat apply reading_app|]).
  intros id now. split; [repeat apply reading_app; [done..|by repeat constructor]|].
  intros m [= <-]. do 3 eexists. split; [done|]. split_and!; [done..| |done]. split; [done|done| |done].
  eapply logs_of_mono; [|by apply Hl]. simpl. set_solver.
Qed.

(** A configuration, or a failure. *)
Lemma send_configuration_some deviceID d lists :
  wp (send_configuration deviceID d lists) (λ _ out, out ≠ Returned (OK None)).
Proof.
  unfold send_configuration. destruct lists as [[ws ss]|e]; [|done].
  apply wp_bind. eapply wp_mono; [apply quiet_within_reading, setStorageConfiguration_quiet|]. intros tr1 [st|c] _; [|done].
  apply wp_bind. eapply wp_mono; [apply quiet_within_reading, getDeviceMetricsConfiguration_quiet|].
  intros tr2 [[ms|e]|c] _; [|done..].
  apply wp_bind. eapply wp_mono; [apply quiet_within_reading, getDeviceLogConfig_quiet|].
  by intros tr3 [[ls|e]|c] _.
Qed.

(** C11: The configuration a device fetches. The only write such a request can make
    is the removal of the workload finalizer of a device under deletion that
    still has it, and no counter moves. A configuration is addressed to the
    device and carries the version of the device that was read; for a device
    under deletion it has no workloads and no secrets; otherwise its workloads
    are, in the order of the device's status, one for each deployment there that
    exists and is not being deleted and whose pod could be serialized, with the
    name, specification, data paths and log collection of the deployment and a
    metrics port only when positive, and its secrets are those that these
    deployments require, each read from the namespace of the device. *)
Theorem GetData_spec deviceID :
  wp (GetDataMessageForDevice initialNamespace deviceID) (λ tr out, ∃ r tr',
    tr = Ev (S := api) (GetEdgeDevice initialNamespace deviceID) r :: tr' ∧
    ∀ d, r = Ok d →
      writes tr' = (if under_deletion d && has YggdrasilWorkloadFinalizer d
                    then [PatchEdgeDevice d (without YggdrasilWorkloadFinalizer d)] else []) ∧
      counted tr' = [] ∧
      ∀ m, out = Returned (OK (Some m)) → ∃ dc,
        models.Message_Content m = models.ConfigurationContent dc ∧
        models.DeviceConfigurationMessage_DeviceID dc = deviceID ∧
        models.DeviceConfigurationMessage_Version dc = ResourceVersion (EdgeDevice_Meta d) ∧
        configuration_of d dc tr' ∧ models.Message_Type m = models.MessageTypeData ∧
        if under_deletion d
        then models.DeviceConfigurationMessage_Workloads dc = [] ∧
             models.DeviceConfigurationMessage_Secrets dc = []
        else lists_of d (models.DeviceConfigurationMessage_Workloads dc)
               (models.DeviceConfigurationMessage_Secrets dc) tr').
Proof.
  unfold GetDataMessageForDevice. apply wp_bind, Read_law. intros [d|e].
  2:{ destruct (IsNotFound e); simpl; (do 2 eexists; split; [done|]); by intros d. }
  apply wp_bind. eapply wp_mono; [apply device_workloads_wp|]. intros tr1 out1 [H1 Hl].
  assert (Hw : writes tr1 = (if under_deletion d && has YggdrasilWorkloadFinalizer d
                    then [PatchEdgeDevice d (without YggdrasilWorkloadFinalizer d)] else []) ∧
               counted tr1 = []).
  { destruct (_ && _); [destruct H1 as [a ->]; by go_simpl|by apply reading_calls]. }
  destruct out1 as [lists|c].
  2:{ do 2 eexists. split; [done|]. intros d' [= <-]. destruct Hw. by split_and!. }
  eapply wp_mono; [apply send_configuration_wp|]. intros tr2 out [H2 Hm].
  do 2 eexists. split; [done|]. intros d' [= <-]. apply reading_calls in H2 as [Hw2 Hc2].
  destruct Hw as [Hw Hc]. go_simpl. rewrite Hw, Hc, Hw2, Hc2, app_nil_r. split_and!; [done..|].
  intros m Hout. destruct (Hm m Hout) as (ws & ss & dc & -> & Hcont & Hid & Hv & <- & <- & Hconf & Hty).
  exists dc. split_and!; [done..| |done|]; [eapply configuration_of_mono; [|exact Hconf]; set_solver|]. specialize (Hl _ _ eq_refl). destruct (under_deletion d); [done|].
  destruct Hl as (answers & outs & entries & souts & Ha & Ho & Hws & He & Hs & Hss).
  exists answers, outs, entries, souts. split_and!; [| |done|done| |done].
  - eapply Forall2_impl; [exact Ha|]. intros st a [Hin Hn]. split; [set_solver|done].
  - eapply Forall2_impl; [exact Ho|]. intros dep ys. apply contributes_mono. auto.
  - eapply Forall2_impl; [exact Hs|]. intros en ys. apply sent_mono. auto.
Qed.
End theorems.
