(* ===== verification/Registration.v ===== *)
(** * Registration of devices: theorems

    What [POST /data] does with a registration and with a directive it does
    not know. The handlers are those of [Yggdrasil]; the theorems hold for
    every implementation of the repositories and look-ups that keeps the laws
    of [Repositories] and [Lookups]. *)
From S2P Require Import Prelude Effects K8s Labels Utils Models V1alpha1 Normalize Hardware Calls Repositories Heartbeat Lookups Yggdrasil.
Import v1alpha1.

Section registration.
Context {R : EdgeDeviceRepository} {L : EdgeDeviceRepositoryLaws R}.
Context {AL : AllowListGenerator} {RA : RegistryAuthAPI} {CM : ConfigMapAPI} {TLS : CSRSigner}.
Context {LL : LookupLaws AL RA CM TLS} {U : UnicodeTables} (initialNamespace : string).

(** A status patch that [updateFunc] computes from the version it is based on. *)
Definition status_patch (updateFunc : EdgeDevice → deref EdgeDevice) (o : api_op) : Prop :=
  match o with
  | PatchEdgeDeviceStatus from new => updateFunc from = Val new
  | _ => False
  end.

(** The API server accepted such a patch. *)
Definition status_accepted (updateFunc : EdgeDevice → deref EdgeDevice) (tr : list api_event) : Prop :=
  ∃ from new d, Ev (S := api) (PatchEdgeDeviceStatus from new) (Ok d) ∈ tr ∧ updateFunc from = Val new.

Lemma status_accepted_mono f tr tr' : tr ⊆ tr' → status_accepted f tr → status_accepted f tr'.
Proof. intros Hs (from & new & d & H & E). exists from, new, d. auto. Qed.

Lemma retry_status_wp todo name ns f err :
  wp (retry_status todo name ns f err) (λ tr out,
    Forall (status_patch f) (writes tr) ∧ length (writes tr) ≤ length todo ∧ counted tr = [] ∧
    match out with
    | Returned None => status_accepted f tr
    | Returned (Some e) => e = err
    | Crashed c => c = Panic ∧ ∃ seen, f seen = NilDeref
    end).
Proof.
  induction todo as [|i todo IH]; simpl; [by go_simpl; split_and!; [constructor|simpl; lia|..]|].
  assert (Hcons : ∀ (es : list api_event) (w : list api_op), writes es = w → counted es = [] →
    Forall (status_patch f) w → length w ≤ 1 →
    wp (retry_status todo name ns f err) (λ tr out,
      Forall (status_patch f) (writes (es ++ tr)) ∧ length (writes (es ++ tr)) ≤ S (length todo) ∧
      counted (es ++ tr) = [] ∧
      match out with
      | Returned None => status_accepted f (es ++ tr)
      | Returned (Some e) => e = err
      | Crashed c => c = Panic ∧ ∃ seen, f seen = NilDeref
      end)).
  { intros es w <- Hc Hf Hl. eapply wp_mono; [apply IH|]. intros tr out (H1 & H2 & H3 & H4).
    go_simpl. rewrite length_app, Forall_app, Hc, H3. split_and!; [done|done|lia|done|].
    destruct out as [[?|]|]; [done| |done]. eapply status_accepted_mono; [|exact H4]. auto. }
  intros []. apply wp_bind, Read_law. intros [d2|e].
  2:{ eapply wp_mono; [apply (Hcons [Ev (S := api) (Sleep (i * 50)) tt;
        Ev (S := api) (GetEdgeDevice ns name) (Err e)] []); go_simpl; first [done | lia | by constructor]|]. done. }
  destruct (f d2) as [new|] eqn:Ef; simpl.
  2:{ go_simpl. split_and!; [constructor|lia|done|done|by exists d2]. }
  apply wp_bind, PatchStatus_law. intros [d3|e]; simpl.
  - go_simpl. split_and!; [by repeat constructor|lia|done|]. exists d2, new, d3. split; [|done]. set_solver.
  - eapply wp_mono; [apply (Hcons [Ev (S := api) (Sleep (i * 50)) tt;
        Ev (S := api) (GetEdgeDevice ns name) (Ok d2);
        Ev (S := api) (PatchEdgeDeviceStatus d2 new) (Err e)] [PatchEdgeDeviceStatus d2 new]);
      go_simpl; first [done | lia | by repeat constructor]|]. done.
Qed.

Lemma updateDeviceStatus_wp d f :
  wp (updateDeviceStatus d f) (λ tr out,
    Forall (status_patch f) (writes tr) ∧ length (writes tr) ≤ 4 ∧ counted tr = [] ∧
    match out with
    | Returned (None, _) => status_accepted f tr
    | Returned (Some e, _) => ∃ new, head tr = Some (Ev (S := api) (PatchEdgeDeviceStatus d new) (Err e))
    | Crashed c => c = Panic ∧ ∃ seen, f seen = NilDeref
    end).
Proof.
  unfold updateDeviceStatus. remember [1; 2; 3]%Z as todo eqn:Htodo.
  destruct (f d) as [new|] eqn:Ef; simpl; [|go_simpl; split_and!; [constructor|lia|done|done|by exists d]].
  apply wp_bind, PatchStatus_law. intros [d'|e].
  { go_simpl. split_and!; [by repeat constructor|lia|done|]. exists d, new, d'. split; [left|done]. }
  apply wp_bind. eapply wp_mono; [apply retry_status_wp|].
  intros tr out (H1 & H2 & H3 & H4). subst todo; simpl in H2. destruct out as [oe|c]; go_simpl.
  - rewrite H3. split_and!; [by constructor|lia|done|]. destruct oe as [e'|]; [subst; by eexists|].
    eapply status_accepted_mono; [|exact H4]. set_solver.
  - rewrite H3. split_and!; [by constructor|lia|done|apply H4..].
Qed.

(** *** The answer to a registration *)
Lemma sign_request_wp info id :
  wp (sign_request info id) (λ tr out, (writes tr = [] ∧ counted tr = []) ∧
    ∀ c, out = Returned (Ok c) →
      is_nil c = String.eqb (models.RegistrationInfo_CertificateRequest info) "").
Proof.
  unfold sign_request. destruct (String.eqb _ ""); simpl.
  { go_simpl. split; [done|]. by intros c [= <-]. }
  apply wp_bind_ok. eapply wp_mono; [apply within_wp, SignCSR_law|].
  intros tr [[x|e]|c] Hq; apply quiet_calls in Hq as (? & _ & ?); simpl; rewrite ?app_nil_r;
    (split; [done|]); [|done|done]. by intros ? [= <-].
Qed.

Lemma label_ops_counted tr : Forall label_op (ev_op (S := api) <$> tr) → counted tr = [].
Proof.
  induction tr as [|[o a] tr IH]; [done|]. csimpl. intros [Ho Hl]%Forall_cons.
  rewrite counted_cons, IH by done. by destruct o.
Qed.

(** The writes of a registration after the device was created. *)
Definition setup_write (hw : option models.HardwareInfo) (o : api_op) : Prop :=
  status_patch (initial_status hw) o ∨ label_patch (MapLabels hw) o.

(** A device as a registration creates it: empty but for its name, the time of
    the request, and the finalizers that keep it until it said goodbye. *)
Record fresh (deviceID : string) (now : Timestamp) (d : EdgeDevice) : Prop := {
  fresh_name : device_name d = deviceID;
  fresh_namespace : device_namespace d = initialNamespace;
  fresh_finalizers : ∀ f, has f d = true ↔ f = YggdrasilConnectionFinalizer ∨ f = YggdrasilWorkloadFinalizer;
  fresh_labels : device_labels d = None;
  fresh_deployments : device_deployments d = [];
  fresh_alive : under_deletion d = false;
  fresh_time : EdgeDeviceSpec_RequestTime (EdgeDevice_Spec d) = Some now;
}.

Lemma new_device_fresh deviceID now : fresh deviceID now (new_device initialNamespace deviceID now).
Proof.
  split; try done. intros f. unfold has, HasFinalizer. rewrite has_finalizer_spec. simpl.
  rewrite !elem_of_cons, elem_of_nil. tauto.
Qed.

Record registered (deviceID : string) (hw : option models.HardwareInfo) (tr : list api_event) : Prop := {
  device_created : ∃ now d0 d, fresh deviceID now d0 ∧ Ev (S := api) (CreateEdgeDevice d0) (Ok d) ∈ tr;
  hardware_stored : status_accepted (initial_status hw) tr;
  labels_stored : ∃ d, labels_applied (MapLabels hw) d tr;
}.

(** What may follow once the certificate is settled. *)
Definition creation (deviceID : string) (msg : models.Message) (hw : option models.HardwareInfo)
    (content : option models.RegistrationResponse) (tr : list api_event)
    (out : outcome (Responder models.MessageResponse)) : Prop :=
  (∃ now d0 ws, fresh deviceID now d0 ∧ writes tr = CreateEdgeDevice d0 :: ws ∧
     Forall (setup_write hw) ws ∧ length ws ≤ 8) ∧
  match out with
  | Returned (OK m) => OK m = response msg content ∧ registered deviceID hw tr ∧
      counted tr = [EdgeDeviceSuccessfulRegistration]
  | Returned InternalServerError => counted tr = [EdgeDeviceFailedRegistration]
  | Returned _ => False
  | Crashed c => c = Panic ∧ counted tr = [] ∧ MapHardware hw = NilDeref
  end.

Lemma create_device_wp deviceID msg info cert :
  wp (create_device initialNamespace deviceID msg info cert)
    (creation deviceID msg (models.RegistrationInfo_Hardware info) (models.mkRegistrationResponse <$> cert)).
Proof.
  unfold create_device, creation. set (hw := models.RegistrationInfo_Hardware info). simpl. intros now.
  apply wp_bind, Create_law. intros [d|e]; simpl.
  2:{ intros []. go_simpl. split; [|done]. exists now, (new_device initialNamespace deviceID now), [].
    split_and!; [apply new_device_fresh|done|constructor|simpl; lia]. }
  apply wp_bind. eapply wp_mono; [apply updateDeviceStatus_wp|].
  intros tr1 [[[e|] d1]|c] (Hf1 & Hl1 & Hc1 & H1); simpl.
  - intros []. go_simpl. rewrite Hc1. split; [|done]. exists now, (new_device initialNamespace deviceID now), (writes tr1).
      split_and!; [apply new_device_fresh|done| |lia].
    eapply Forall_impl; [exact Hf1|]. intros o Ho. by left.
  - apply wp_bind. eapply wp_mono; [apply wp_and; [apply within_wp, UpdateLabels_ops|apply UpdateLabels_law]|].
    intros tr2 [[[e|] d2]|c] (Ho & Hf2 & Hl2 & H2); simpl; [| |done].
    all: apply label_ops_counted in Ho; intros []; go_simpl; rewrite Hc1, Ho.
    all: split; [exists now, (new_device initialNamespace deviceID now), (writes tr1 ++ writes tr2); split_and!;
      [apply new_device_fresh|done| |rewrite length_app; lia]; apply Forall_app; split;
      (eapply Forall_impl; [eassumption|]); intros o Ho'; (by left) || (by right)|].
    + done.
    + split_and!; [done| |done]. split.
      * exists now, (new_device initialNamespace deviceID now), d. split; [apply new_device_fresh|]. right. left.
      * eapply status_accepted_mono; [|exact H1]. set_solver.
      * exists d1. eapply labels_applied_mono; [|exact H2]. set_solver.
  - go_simpl. rewrite Hc1. split.
    + exists now, (new_device initialNamespace deviceID now), (writes tr1).
      split_and!; [apply new_device_fresh|done| |lia]. eapply Forall_impl; [exact Hf1|]. intros o Ho. by left.
    + destruct H1 as (-> & seen & H1). split_and!; [done|done|]. unfold initial_status in H1.
      fold hw. by destruct (MapHardware hw).
Qed.

(** C4: The registration of a device. When the device is there already, or the API
    server cannot tell, nothing is written and nothing is counted: the answer to
    a known device is a fresh certificate (an empty one when the device sent no
    request) or, when signing fails, a bad request. A new device whose request
    cannot be signed is refused without a write. Otherwise the first write
    creates the device in the namespace of the operator, with both finalizers,
    the time of the request and nothing else, and at most eight patches follow,
    each the hardware status or the hardware labels laid over the version read;
    the answer is a success only when the creation, a status patch and the
    labels all went through, and then exactly the counter of successful
    registrations moves; every failure moves exactly the other counter. A
    certificate is in the answer to a new device exactly when it asked for one.
    The only crash after the creation is the panic on a null disk, and it is
    counted nowhere. *)
Theorem register_spec deviceID msg info :
  wp (register initialNamespace deviceID msg info) (λ tr out, ∃ r tr',
    tr = Ev (S := api) (GetEdgeDevice initialNamespace deviceID) r :: tr' ∧
    (∀ d, r = Ok d → writes tr' = [] ∧ counted tr' = [] ∧ ∀ a, out = Returned a →
       a = BadRequest ∨
       ∃ cert, a = response msg (Some (models.mkRegistrationResponse (default "" cert))) ∧
         is_nil cert = String.eqb (models.RegistrationInfo_CertificateRequest info) "") ∧
    (∀ e, r = Err e → IsNotFound e = false → tr' = [] ∧ out = Returned InternalServerError) ∧
    (∀ e, r = Err e → IsNotFound e = true →
       (writes tr' = [] ∧ counted tr' = [] ∧ ∀ a, out = Returned a → a = BadRequest) ∨
       ∃ cert, creation deviceID msg (models.RegistrationInfo_Hardware info)
                 (models.mkRegistrationResponse <$> cert) tr' out ∧
         is_nil cert = String.eqb (models.RegistrationInfo_CertificateRequest info) "")).
Proof.
  unfold register. apply wp_bind, Read_law. intros [d|e].
  - apply wp_bind. eapply wp_mono; [apply sign_request_wp|].
    intros tr [[c|e]|c] [[Hw Hc] Hs]; simpl; rewrite ?app_nil_r; (do 2 eexists; split; [done|]);
      (split; [|split; by intros]); intros d' _; (split_and!; [done|done|]); intros a [= <-]; [right|by left].
    exists c. split; [done|]. by apply Hs.
  - destruct (IsNotFound e) eqn:He; simpl.
    2:{ do 2 eexists. split; [done|]. split_and!; [done|done|]. intros e' [= <-]. congruence. }
    apply wp_bind. eapply wp_mono; [apply sign_request_wp|].
    intros tr [[c|e']|c] [[Hw Hc] Hs]; [cbv beta iota|simpl; rewrite ?app_nil_r..].
    + eapply wp_mono; [apply create_device_wp|]. intros tr2 out [(now & d0 & ws & Hfr & Hw2 & Hf & Hl) Hout].
      do 2 eexists. split; [done|]. split_and!; [done|intros ? [= <-]; congruence|]. intros _ _ _. right.
      exists c. split; [|by apply Hs]. unfold creation. go_simpl. rewrite Hw, Hc. simpl. split; [by exists now, d0, ws|].
      destruct out as [[m| | |]|k]; [|done|done|done|done]. destruct Hout as (H1 & [H2 H3 [d H4]] & H5).
      split_and!; [done| |done]. destruct H2 as (now' & d1 & d' & Hf' & H2). split.
      * exists now', d1, d'. split; [done|]. set_solver.
      * eapply status_accepted_mono; [|exact H3]. auto.
      * exists d. eapply labels_applied_mono; [|exact H4]. auto.
    + do 2 eexists. split; [done|]. split_and!; [done|intros ? [= <-]; congruence|]. intros _ _ _. left.
      split_and!; [done|done|]. by intros a [= <-].
    + do 2 eexists. split; [done|]. split_and!; [done|intros ? [= <-]; congruence|]. intros _ _ _. by left.
Qed.

End registration.
