(* ===== verification/DeviceSide.v ===== *)
(** * The device's requests in a world

    What a heartbeat and a registration leave in the API server, in every world
    with the laws of [ApiServer] and as long as nobody else writes meanwhile.
    The traces of [Heartbeat] and [Registration] say which calls are made; here
    their effects are composed, through the retries, into the stored device. *)
From S2P Require Import Prelude Effects Interleave Rely K8s Labels Utils Models V1alpha1 Normalize Hardware Calls ApiServer Server Repositories Heartbeat Lookups Yggdrasil Registration.
Import v1alpha1.

(** ** Versions of one device *)

(** All but labels and status. *)
Record same_object (d d' : EdgeDevice) : Prop := {
  so_key : key_of d' = key_of d;
  so_spec : EdgeDevice_Spec d' = EdgeDevice_Spec d;
  so_finalizers : Finalizers (EdgeDevice_Meta d') = Finalizers (EdgeDevice_Meta d);
  so_deletion : DeletionTimestamp (EdgeDevice_Meta d') = DeletionTimestamp (EdgeDevice_Meta d);
}.

#[export] Instance same_object_preorder : PreOrder same_object.
Proof. split; [by split|]. intros d1 d2 d3 [] []. split; congruence. Qed.

Record relabelled (labels : option labelmap) (d d' : EdgeDevice) : Prop := {
  rl_object : same_object d d';
  rl_labels : map_of (device_labels d') = map_of labels ∪ map_of (device_labels d);
  rl_status : EdgeDevice_Status d' = EdgeDevice_Status d;
}.

Record restatused (s : EdgeDeviceStatus) (d d' : EdgeDevice) : Prop := {
  rs_object : same_object d d';
  rs_labels : map_of (device_labels d') = map_of (device_labels d);
  rs_status : alike (EdgeDevice_Status d') s;
}.

(** From one world to the other, no device changed. *)
Definition unchanged {W} `{ApiServer W} (w w' : W) : Prop := devices_of w' = devices_of w.
Ltac same_devices := unfold unchanged in *; congruence.

Section world.
Context {W : Type} `{AS : ApiServer W} {AL : ApiServerLaws W}.

(** From [w] to [w'], only the device at [k] changed, into one with [P]. *)
Definition becomes (k : key) (P : EdgeDevice → Prop) (w w' : W) : Prop :=
  ∃ d, devices_of w' = <[k := d]> (devices_of w) ∧ P d.

Lemma becomes_refl k d P (w w' : W) :
  unchanged w w' → devices_of w !! k = Some d → P d → becomes k P w w'.
Proof. intros E Hd HP. exists d. rewrite E, insert_id by done. done. Qed.

Lemma becomes_trans k P Q (w w1 w2 : W) :
  becomes k P w w1 → (∀ d, P d → devices_of w1 !! k = Some d → becomes k Q w1 w2) → becomes k Q w w2.
Proof.
  intros (d & E & HP) H. destruct (H d HP) as (d' & E' & HQ); [by rewrite E, lookup_insert_eq|].
  exists d'. split; [|done]. by rewrite E', E, insert_insert_eq.
Qed.

Lemma becomes_mono k (P Q : EdgeDevice → Prop) (w w' : W) : (∀ d, P d → Q d) → becomes k P w w' → becomes k Q w w'.
Proof. intros H (d & E & HP). exists d. auto. Qed.

Lemma becomes_from k P (w w1 w2 : W) : unchanged w w1 → becomes k P w1 w2 → becomes k P w w2.
Proof. intros E (d & Hw & HP). exists d. by rewrite Hw, E. Qed.

(** A call that writes no device. *)
Lemma swp_aside (o : api_op) (w : W) (Q : list api_event → api_ans o → W → Prop) :
  is_device_write o = false →
  (∀ (a : api_ans o) w1, unchanged w w1 → Q [Ev (S := api) o a] a w1) → swp answers (ask o) w Q.
Proof. intros Ho HQ. apply swp_ask. intros a w1 Ha. apply HQ. by eapply reads_keep. Qed.

(** The stored device, read again. *)
Lemma swp_reread d (w : W) (Q : list api_event → result EdgeDevice → W → Prop) :
  devices_of w !! key_of d = Some d →
  (∀ r w1, unchanged w w1 → (∀ d', r = Ok d' → d' = d) → Q [Ev (S := api) (GetEdgeDevice (device_namespace d) (device_name d)) r] r w1) →
  swp answers (ask (GetEdgeDevice (device_namespace d) (device_name d))) w Q.
Proof.
  intros Hd HQ. apply swp_ask. intros r w1 Ha. apply HQ; [by eapply reads_keep|].
  intros d' ->. apply get_device in Ha. unfold key_of in Hd. congruence.
Qed.

Lemma evolves_aside (w : W) tr w' :
  evolves answers w tr w' → Forall (λ o, is_device_write o = false) (ev_op (S := api) <$> tr) → unchanged w w'.
Proof.
  induction 1 as [w|w o a w1 tr w2 Ha _ IH]; [done|]. csimpl. intros [Ho Htr]%Forall_cons.
  unfold unchanged in *. rewrite IH by done. by eapply reads_keep.
Qed.

(** A program that writes no device, alone and with what is known of its executions. *)
Lemma swp_within {A} (p : go A) (w : W) :
  within (λ o, is_device_write o = false) p → swp answers p w (λ _ _ w', unchanged w w').
Proof.
  intros Hp tr r w' He Hev. eapply evolves_aside; [done|].
  exact (proj1 (wp_exec _ _) (within_wp _ _ Hp) _ _ He).
Qed.

Lemma swp_beside {A} (p : go A) (w : W) Q :
  within (λ o, is_device_write o = false) p → wp p Q →
  swp answers p w (λ tr r w', Q tr (Returned r) ∧ unchanged w w').
Proof. intros Hp HQ. apply swp_wp; [done|]. by apply swp_within. Qed.

(** *** Labels *)

(** [d], in memory, has the name and the labels of the stored [d0]. *)
Record agrees (d d0 : EdgeDevice) : Prop := {
  ag_key : key_of d = key_of d0;
  ag_labels : map_of (device_labels d) = map_of (device_labels d0);
}.

Lemma agrees_refl d : agrees d d.
Proof. by split. Qed.

(** An answer that is decoded into an object with the labels that are stored. *)
Lemma agrees_decoded d0 d' m a :
  decoded d' m a → map_of (device_labels d') = map_of (device_labels d0) → agrees m d0 → agrees a d'.
Proof. intros [Hk Hl _ _ _] E [_ Hm]. split; [done|]. rewrite Hl, Hm, E. apply map_union_idemp. Qed.

Lemma updateLabels_swp d d0 labels (w : W) :
  devices_of w !! key_of d = Some d0 → agrees d d0 →
  swp answers (edgedevice.updateLabels d labels) w (λ _ r w',
    match r.1 with
    | None => becomes (key_of d) (relabelled labels d0) w w'
    | Some _ => unchanged w w' ∧ r.2 = d
    end).
Proof.
  intros Hd [Hk0 Hl0]. unfold edgedevice.updateLabels. case_bool_decide as Hl.
  - apply swp_ret. simpl. eapply becomes_refl; [done..|]. split; [done| |done].
    apply (f_equal map_of) in Hl. by rewrite <- Hl0.
  - apply swp_bind, (swp_ask (PatchEdgeDevice _ _)). intros r w1 Ha. apply patch_device in Ha; [|done].
    destruct r as [a|e]; apply swp_ret; simpl; [|done].
    destruct Ha as (d1 & d' & Hd1 & [Hk Hlab Hst Hdel Hfin Hspec] & _ & Hw).
    rewrite Hd in Hd1. injection Hd1 as <-. exists d'. split; [done|].
    split; [|by rewrite Hlab, <- Hl0, merge_labels_stored|done].
    split; [done|by apply Hspec| |done]. rewrite Hfin. unfold merge_field. by case_decide.
Qed.

Lemma retryLabels_swp todo d labels err (w : W) :
  devices_of w !! key_of d = Some d →
  swp answers (edgedevice.retryLabels todo (device_name d) (device_namespace d) labels err) w (λ _ r w',
    match r with
    | None => becomes (key_of d) (relabelled labels d) w w'
    | Some _ => unchanged w w'
    end).
Proof.
  revert w; induction todo as [|i todo IH]; intros w Hd; cbn [edgedevice.retryLabels]; [by apply swp_ret|].
  assert (Hagain : ∀ w1, unchanged w w1 →
    swp answers (edgedevice.retryLabels todo (device_name d) (device_namespace d) labels err) w1 (λ _ r w',
      match r with
      | None => becomes (key_of d) (relabelled labels d) w w'
      | Some _ => unchanged w w'
      end)).
  { intros w1 E. eapply swp_mono; [apply IH; by rewrite E|]. intros _ [e|] w2; [|by apply becomes_from].
    same_devices. }
  apply swp_bind, (swp_aside (Sleep _)); [done|]. intros _ w1 E1.
  apply swp_bind, (swp_reread d); [by rewrite E1|]. intros r w2 E2' Hr.
  assert (E2 : unchanged w w2) by (same_devices).
  destruct r as [d2|e]; [rewrite (Hr _ eq_refl)|by apply Hagain].
  apply swp_bind. eapply swp_mono; [apply (updateLabels_swp d d); [by rewrite E2|apply agrees_refl]|].
  intros _ [[e|] d3] w3 H; simpl in *.
  - apply Hagain. destruct H as [H _]. same_devices.
  - apply swp_ret. by eapply becomes_from.
Qed.

Lemma UpdateLabels_swp d d0 labels (w : W) :
  devices_of w !! key_of d = Some d0 → agrees d d0 →
  swp answers (edgedevice.UpdateLabels d labels) w (λ _ r w',
    match r.1 with
    | None => becomes (key_of d) (relabelled labels d0) w w'
    | Some _ => unchanged w w'
    end).
Proof.
  intros Hd Hag. unfold edgedevice.UpdateLabels. generalize [1; 2; 3]%Z as todo. intros todo.
  pose proof (eq_sym (ag_key _ _ Hag)) as Hk. injection Hk as Hns Hn.
  apply swp_bind. eapply swp_mono; [by apply (updateLabels_swp d d0)|].
  intros _ [[e|] d'] w1; simpl; [|intros H; by apply swp_ret].
  intros [E ->]. apply swp_bind. rewrite <- Hns, <- Hn. unfold key_of. rewrite <- Hns, <- Hn.
  eapply swp_mono; [apply (retryLabels_swp todo d0)|].
  { rewrite E. unfold key_of in *. by rewrite Hns, Hn. }
  intros tr [e'|] w2 H; apply swp_ret; simpl in *; [same_devices|by eapply becomes_from].
Qed.

(** *** Status *)
Lemma PatchStatus_swp d d0 s (w : W) :
  devices_of w !! key_of d = Some d0 → agrees d d0 → EdgeDevice_Status d = EdgeDevice_Status d0 →
  swp answers (edgedevice.PatchStatus (set_status s d) d) w (λ _ r w',
    match r with
    | Ok a => ∃ d', devices_of w' = <[key_of d := d']> (devices_of w) ∧ restatused s d0 d' ∧ agrees a d'
    | Err _ => unchanged w w'
    end).
Proof.
  intros Hd Hag Hst. apply (swp_ask (PatchEdgeDeviceStatus _ _)). intros r w1 Ha. apply patch_status in Ha.
  destruct r as [a|e]; [|done]. destruct Ha as (d1 & d' & Hd1 & [Hk Hlab _ Hfin Hspec Hdel Hnew] & Hdec & Hw).
  rewrite Hd in Hd1. injection Hd1 as <-. exists d'. split_and!; [done| |].
  - split; [by split|done|by apply Hnew].
  - eapply agrees_decoded; [exact Hdec|exact Hlab|]. by destruct Hag.
Qed.
End world.

(** ** Heartbeats *)

(** The deployments of a status by name and phase. *)
Definition phases (s : EdgeDeviceStatus) : list (string * string) :=
  (λ x, (Deployment_Name x, Deployment_Phase x)) <$> EdgeDeviceStatus_Deployments s.

(** The last report about a deployment decides its phase. *)
Definition phase_after (ws : list (option models.WorkloadStatus)) (p : string * string) : string * string :=
  (p.1, default p.2 (models.WorkloadStatus_Status <$> last (reports p.1 ws))).

Lemma phase_after_idemp ws p : phase_after ws (phase_after ws p) = phase_after ws p.
Proof. unfold phase_after. simpl. by destruct (last _). Qed.

Lemma phase_after_names ws ps : (phase_after ws <$> ps).*1 = ps.*1.
Proof. rewrite <- list_fmap_compose. by apply list_fmap_ext. Qed.

(** [s'] is [s] after the heartbeat [h]. *)
Record heard_status (h : models.Heartbeat) (s s' : EdgeDeviceStatus) : Prop := {
  heard_phase : EdgeDeviceStatus_Phase s' = models.Heartbeat_Status h;
  heard_version : EdgeDeviceStatus_LastSyncedResourceVersion s' = models.Heartbeat_Version h;
  heard_upgrade : EdgeDeviceStatus_UpgradeInformation s' = to_UpgradeInformation <$> models.Heartbeat_Upgrade h;
  heard_hardware :
    match models.Heartbeat_Hardware h with
    | None => EdgeDeviceStatus_Hardware s' = EdgeDeviceStatus_Hardware s
    | Some _ => MapHardware (models.Heartbeat_Hardware h) = Val (EdgeDeviceStatus_Hardware s')
    end;
  heard_deployments : phases s' ≡ₚ phase_after (models.Heartbeat_Workloads h) <$> phases s;
  heard_obc : EdgeDeviceStatus_DataOBC s' = EdgeDeviceStatus_DataOBC s;
}.

Lemma follows_phases ws tr ds ds' :
  Forall2 (λ d d', follows d (reports (Deployment_Name d) ws) tr d') ds ds' →
  (λ x, (Deployment_Name x, Deployment_Phase x)) <$> ds' =
  phase_after ws <$> ((λ x, (Deployment_Name x, Deployment_Phase x)) <$> ds).
Proof.
  induction 1 as [|d d' ds ds' H _ IH]; csimpl; [done|]. f_equal; [|done].
  unfold phase_after. simpl. by rewrite (follows_name _ _ _ _ H), (follows_phase _ _ _ _ H).
Qed.

Lemma updateDeploymentStatuses_phases old ws :
  NoDup (Deployment_Name <$> old) →
  wp (updateDeploymentStatuses old ws) (λ tr out, ∀ new, out = Returned new →
    (λ x, (Deployment_Name x, Deployment_Phase x)) <$> new ≡ₚ
    phase_after ws <$> ((λ x, (Deployment_Name x, Deployment_Phase x)) <$> old)).
Proof.
  intros Hnd. destruct (decide (Forall (λ w, is_nil w = false) ws)) as [H|H].
  - eapply wp_mono; [apply updateDeploymentStatuses_wp; [done|]|].
    + rewrite Forall_forall in H. by intros ?%H.
    + intros tr out (new & new' & -> & Hp & Hf) ? [= <-]. rewrite Hp. by rewrite (follows_phases _ _ _ _ Hf).
  - eapply wp_mono; [apply updateDeploymentStatuses_null|by intros tr out -> new].
    apply not_Forall_Exists, Exists_exists in H as ([w|] & Hw & Hn); [by destruct Hn|done|apply _].
Qed.

Section heartbeats.
Context {U : UnicodeTables}.

(** The device after a heartbeat, and after one whose labels were not stored. *)
Record heard (h : models.Heartbeat) (d d' : EdgeDevice) : Prop := {
  heard_object : same_object d d';
  heard_labels : map_of (device_labels d') = map_of (MapLabels (models.Heartbeat_Hardware h)) ∪ map_of (device_labels d);
  heard_state : heard_status h (EdgeDevice_Status d) (EdgeDevice_Status d');
}.

Record half_heard (h : models.Heartbeat) (d d' : EdgeDevice) : Prop := {
  half_object : same_object d d';
  half_labels : map_of (device_labels d') = map_of (device_labels d);
  half_state : heard_status h (EdgeDevice_Status d) (EdgeDevice_Status d');
}.

#[local] Instance heard_status_trans h : Transitive (heard_status h).
Proof.
  intros s1 s2 s3 [P1 V1 U1 H1 D1 O1] [P2 V2 U2 H2 D2 O2].
  split; [done|done|done| | |congruence].
  - destruct (models.Heartbeat_Hardware h); [done|congruence].
  - rewrite D2, D1, <- list_fmap_compose. apply Permutation_refl'. apply list_fmap_ext. intros i p _.
    apply phase_after_idemp.
Qed.

(** A heartbeat that is processed again leaves what it left the first time. *)
Lemma half_heard_trans h d1 d2 d3 : half_heard h d1 d2 → half_heard h d2 d3 → half_heard h d1 d3.
Proof. intros [] []. split; [by etrans|congruence|by etrans]. Qed.

Lemma half_heard_heard h d1 d2 d3 : half_heard h d1 d2 → heard h d2 d3 → heard h d1 d3.
Proof. intros [] []. split; [by etrans|congruence|by etrans]. Qed.

Lemma heard_names h s s' : heard_status h s s' → (phases s').*1 ≡ₚ (phases s).*1.
Proof. intros H. rewrite (heard_deployments _ _ _ H). by rewrite phase_after_names. Qed.

(** No deployment is listed twice. *)
Definition distinct (d : EdgeDevice) : Prop := NoDup (phases (EdgeDevice_Status d)).*1.

Lemma distinct_names d : distinct d → NoDup (Deployment_Name <$> device_deployments d).
Proof. unfold distinct, phases. by rewrite <- list_fmap_compose. Qed.

Lemma half_heard_distinct h d d' : half_heard h d d' → distinct d → distinct d'.
Proof. intros H. unfold distinct. by rewrite (heard_names _ _ _ (half_state _ _ _ H)). Qed.

Context {W : Type} `{AS : ApiServer W} {AL : ApiServerLaws W}.

Lemma updateStatus_swp d h (w : W) :
  devices_of w !! key_of d = Some d → distinct d →
  swp answers (updateStatus d h) w (λ _ r w',
    match r with
    | Ok a => ∃ d', devices_of w' = <[key_of d := d']> (devices_of w) ∧ half_heard h d d' ∧ agrees a d'
    | Err _ => unchanged w w'
    end).
Proof.
  intros Hd Hnd. unfold updateStatus. apply swp_bind, (swp_aside Now); [done|]. intros now w1 E1.
  apply swp_bind. eapply swp_mono.
  { apply (swp_silent _ w1 (λ out, ∀ hw, out = Returned hw →
      match models.Heartbeat_Hardware h with
      | None => hw = EdgeDeviceStatus_Hardware (EdgeDevice_Status d)
      | Some _ => MapHardware (models.Heartbeat_Hardware h) = Val hw
      end)).
    destruct (models.Heartbeat_Hardware h) as [hi|]; [|by split; [|intros hw [= <-]]].
    destruct (MapHardware (Some hi)); simpl; (split; [done|]); by intros hw' [= <-]. }
  intros tr hw w2 (_ & -> & Hhw). specialize (Hhw hw eq_refl).
  apply swp_bind. eapply swp_mono.
  { apply swp_beside; [by apply updateDeploymentStatuses_within|].
    apply (updateDeploymentStatuses_phases _ (models.Heartbeat_Workloads h)). by apply distinct_names. }
  intros tr' ds w3 [Hds E3]. specialize (Hds ds eq_refl).
  assert (E : unchanged w w3) by (same_devices).
  eapply swp_mono; [apply (PatchStatus_swp d d); [by rewrite E|apply agrees_refl|done]|].
  intros tr'' [a|e] w4; [|same_devices]. intros (d' & Hw & [Ho Hl [A1 A2 A3 A4 A5 A6]] & Hag).
  exists d'. split_and!; [by rewrite Hw, E| |done]. split; [done|done|]. split; simpl in *; [done..| | |done].
  - destruct (models.Heartbeat_Hardware h); [by rewrite A3|congruence].
  - unfold phases. by rewrite A4.
Qed.

Lemma processEvents_aside d events : within (λ o, is_device_write o = false) (processEvents d events).
Proof. induction events as [|[e|] events IH]; simpl; [done| |done]. by split. Qed.

(** One attempt, at the device [k]. *)
Lemma process_swp n d (w : W) :
  key_of d = (notification_Namespace n, DeviceID n) → devices_of w !! key_of d = Some d → distinct d →
  swp answers (process n) w (λ _ r w', becomes (key_of d) (λ d',
    match r.1 with
    | None => heard (notification_Heartbeat n) d d'
    | Some _ => d' = d ∨ half_heard (notification_Heartbeat n) d d'
    end) w w').
Proof.
  intros Hk Hd Hnd. set (h := notification_Heartbeat n).
  unfold process. apply swp_bind, (swp_ask (GetEdgeDevice _ _)). intros r w1 Ha.
  assert (E1 : unchanged w w1) by (by eapply reads_keep). apply get_device in Ha.
  destruct r as [d0|e]; [|apply swp_ret; eapply becomes_refl; [done..|by left]].
  rewrite <- Hk, Hd in Ha. injection Ha as <-.
  apply swp_bind. eapply swp_mono.
  { apply swp_within. destruct (Retry n =? 0)%Z; [apply processEvents_aside|done]. }
  intros tr [] w2 E2. assert (E : unchanged w w2) by (same_devices).
  apply swp_bind. eapply swp_mono; [apply updateStatus_swp; [by rewrite E|done]|].
  intros tr1 [d1|e] w3 H3.
  2:{ apply swp_ret. simpl. eapply becomes_refl; [|done|by left]. same_devices. }
  destruct H3 as (d0 & Hw3 & Hhalf & Hag).
  assert (Hk1 : key_of d1 = key_of d) by (rewrite (ag_key _ _ Hag); apply (half_object _ _ _ Hhalf)).
  unfold updateLabels. apply swp_bind. eapply swp_mono; [apply (UpdateLabels_swp d1 d0); [by rewrite Hk1, Hw3, lookup_insert_eq|done]|].
  intros tr2 [[e|] d2] w4 H4; simpl in *; apply swp_ret; simpl.
  - exists d0. split; [|by right]. by rewrite H4, Hw3, E.
  - rewrite Hk1 in H4. destruct H4 as (d' & Hw4 & [Ho Hl Hst]). exists d'.
    split; [by rewrite Hw4, Hw3, insert_insert_eq, E|]. destruct Hhalf as [Ho' Hl' Hst'].
    split; [by etrans|by rewrite Hl, Hl'|by rewrite Hst].
Qed.

Lemma attempts_swp todo err n d (w : W) :
  todo ≠ [] ∨ err ≠ None →
  key_of d = (notification_Namespace n, DeviceID n) → devices_of w !! key_of d = Some d → distinct d →
  swp answers (attempts todo err n) w (λ _ r w', becomes (key_of d) (λ d',
    match r with
    | None => heard (notification_Heartbeat n) d d'
    | Some _ => d' = d ∨ half_heard (notification_Heartbeat n) d d'
    end) w w').
Proof.
  revert err n d w; induction todo as [|i todo IH]; intros err n d w Hne Hk Hd Hnd; cbn [attempts].
  { apply swp_ret. destruct err; [|by destruct Hne]. eapply becomes_refl; [done..|by left]. }
  apply swp_bind. eapply swp_mono; [by apply process_swp|].
  intros tr [[e|] retry] w1 H1; cbn [fst snd] in *; [|by apply swp_ret]. destruct retry; [|by apply swp_ret].
  apply swp_bind, (swp_aside (Sleep _)); [done|]. intros [] w2 E2.
  assert (H2 : becomes (key_of d) (λ d', d' = d ∨ half_heard (notification_Heartbeat n) d d') w w2).
  { destruct H1 as (d1 & Hw1 & H1). exists d1. by rewrite E2. }
  destruct H2 as (d1 & Hw2 & Hd1). assert (Hk1 : key_of d1 = key_of d).
  { destruct Hd1 as [->|[[] _ _]]; done. }
  assert (Hlk : devices_of w2 !! key_of d1 = Some d1) by (by rewrite Hk1, Hw2, lookup_insert_eq).
  eapply swp_mono; [apply (IH (Some e) (next_retry n) d1); [by right|by rewrite Hk1|done|]|].
  { destruct Hd1 as [->|Hh]; [done|by eapply half_heard_distinct]. }
  intros tr2 r w3 (d2 & Hw3 & H3). exists d2. rewrite Hw3, Hw2, Hk1, insert_insert_eq. split; [done|].
  destruct Hd1 as [->|Hh]; [done|]. destruct r as [e'|]; [|by eapply half_heard_heard].
  right. destruct H3 as [->|H3]; [done|by eapply half_heard_trans].
Qed.

(** C6: A heartbeat in a world with the documented behaviour of the API server, when
    nobody else writes meanwhile. Success, after whichever attempt, means that
    the stored device has the phase, the version and the upgrade of the
    heartbeat, the hardware it reports (its own when it reports none), the
    hardware labels over its other labels, and each deployment the phase of the
    last report about it; its bucket, its finalizers and all that is not status
    or label are as before. After a failure the device is as it was or has the
    whole new status but not the labels, never a part of either. No other device
    changes. *)
Theorem Process_converges n d (w : W) :
  key_of d = (notification_Namespace n, DeviceID n) → devices_of w !! key_of d = Some d → distinct d →
  swp answers (Process n) w (λ _ r w', ∃ d', devices_of w' = <[key_of d := d']> (devices_of w) ∧
    match r with
    | None => heard (notification_Heartbeat n) d d'
    | Some _ => d' = d ∨ half_heard (notification_Heartbeat n) d d'
    end).
Proof. intros Hk Hd Hnd. apply attempts_swp; [by left|done..]. Qed.
End heartbeats.

(** ** Registrations *)
Section registrations.
Context {U : UnicodeTables} {W : Type} `{AS : ApiServer W} {AL : ApiServerLaws W}.

(** The status of a new device with the hardware [h]. *)
Definition first_status (h : option Hardware) : EdgeDeviceStatus := mkEdgeDeviceStatus "" zero_time "" h [] None None.

Definition equipped (hw : option models.HardwareInfo) (d d' : EdgeDevice) : Prop :=
  ∃ h, MapHardware hw = Val h ∧ restatused (first_status h) d d'.

Lemma initial_status_Val hw d d' :
  initial_status hw d = Val d' → ∃ h, MapHardware hw = Val h ∧ d' = set_status (first_status h) d.
Proof. unfold initial_status. destruct (MapHardware hw) as [h|]; simpl; [|done]. intros [= <-]. by exists h. Qed.

Lemma lift_swp {A B} (x : deref A) (f : A → go B) (w : W) Q :
  (∀ a, x = Val a → swp answers (f a) w Q) → swp answers (a ← lift x; f a) w Q.
Proof.
  intros H. destruct x as [a|]; [by apply (H a)|]. intros tr r w' He. inversion He.
Qed.

Lemma retry_status_swp todo hw err d (w : W) :
  devices_of w !! key_of d = Some d →
  swp answers (retry_status todo (device_name d) (device_namespace d) (initial_status hw) err) w (λ _ r w',
    match r with
    | None => becomes (key_of d) (equipped hw d) w w'
    | Some _ => unchanged w w'
    end).
Proof.
  revert w; induction todo as [|i todo IH]; intros w Hd; cbn [retry_status]; [by apply swp_ret|].
  assert (Hagain : ∀ w1, unchanged w w1 →
    swp answers (retry_status todo (device_name d) (device_namespace d) (initial_status hw) err) w1 (λ _ r w',
      match r with
      | None => becomes (key_of d) (equipped hw d) w w'
      | Some _ => unchanged w w'
      end)).
  { intros w1 E. eapply swp_mono; [apply IH; by rewrite E|]. intros _ [e|] w2; [|by apply becomes_from].
    same_devices. }
  apply swp_bind, (swp_aside (Sleep _)); [done|]. intros _ w1 E1.
  apply swp_bind, (swp_reread d); [by rewrite E1|]. intros r w2 E2' Hr.
  assert (E2 : unchanged w w2) by (same_devices).
  destruct r as [d2|e]; [rewrite (Hr _ eq_refl)|by apply Hagain].
  apply lift_swp. intros d' (h & Hh & ->)%initial_status_Val.
  apply swp_bind. eapply swp_mono; [apply (PatchStatus_swp d d); [by rewrite E2|apply agrees_refl|done]|].
  intros tr [a|e] w3 H.
  - apply swp_ret. destruct H as (d3 & Hw & H & _). exists d3. rewrite Hw, E2. split; [done|]. by exists h.
  - apply Hagain. same_devices.
Qed.

Lemma updateDeviceStatus_swp hw d d0 (w : W) :
  devices_of w !! key_of d = Some d0 → agrees d d0 → EdgeDevice_Status d = EdgeDevice_Status d0 →
  swp answers (updateDeviceStatus d (initial_status hw)) w (λ _ r w',
    match r with
    | (None, d') => becomes (key_of d) (λ d1, equipped hw d0 d1 ∧ agrees d' d1) w w'
    | (Some _, _) => unchanged w w'
    end).
Proof.
  intros Hd Hag Hst. unfold updateDeviceStatus. generalize [1; 2; 3]%Z as todo. intros todo.
  apply lift_swp. intros d' (h & Hh & ->)%initial_status_Val.
  apply swp_bind. eapply swp_mono; [by apply (PatchStatus_swp d d0)|]. intros tr [a|e] w1 H1.
  - destruct H1 as (d2 & Hw & H & Ha). apply swp_ret. exists d2. split; [done|]. split; [by exists h|done].
  - destruct Hag as [Hk Hl]. pose proof Hk as Hk'. injection Hk' as Hns Hn. apply swp_bind. simpl.
    change (device_name (set_status _ d)) with (device_name d). change (device_namespace (set_status _ d)) with (device_namespace d).
    rewrite Hk, Hns, Hn. eapply swp_mono; [apply (retry_status_swp todo hw e d0); by rewrite H1, <- Hk|].
    intros tr1 [e'|] w2 H2; apply swp_ret; [same_devices|].
    eapply becomes_from; [done|]. eapply becomes_mono; [|exact H2]. intros d1 H. split; [done|].
    destruct H as (h' & _ & [[Hk1 _ _ _] Hl1 _]). split; [by rewrite Hk1|by rewrite Hl1].
Qed.

Context {ALG : AllowListGenerator} {RA : RegistryAuthAPI} {CM : ConfigMapAPI} {TLS : CSRSigner}.
Context {LL : LookupLaws ALG RA CM TLS} (initialNamespace : string).

(** The device of a registration: as it is created, and as it is when all went well. *)
Record bare (deviceID : string) (d : EdgeDevice) : Prop := {
  bare_key : key_of d = (initialNamespace, deviceID);
  bare_finalizers : Finalizers (EdgeDevice_Meta d) = [YggdrasilConnectionFinalizer; YggdrasilWorkloadFinalizer];
  bare_alive : under_deletion d = false;
  bare_requested : is_nil (EdgeDeviceSpec_RequestTime (EdgeDevice_Spec d)) = false;
}.

Record enrolled (deviceID : string) (hw : option models.HardwareInfo) (d : EdgeDevice) : Prop := {
  enrolled_bare : bare deviceID d;
  enrolled_labels : map_of (device_labels d) = map_of (MapLabels hw);
  enrolled_hardware : MapHardware hw = Val (EdgeDeviceStatus_Hardware (EdgeDevice_Status d));
  enrolled_deployments : device_deployments d = [];
}.

Lemma bare_same deviceID d d' : same_object d d' → bare deviceID d → bare deviceID d'.
Proof.
  intros [Hk Hs Hf Hd] [B1 B2 B3 B4]. split; [congruence|congruence| |by rewrite Hs].
  unfold under_deletion in *. by rewrite Hd.
Qed.

Lemma counted_swp (c : counter) {A} (a : A) (w : W) (Q : A → W → Prop) :
  (∀ w1, unchanged w w1 → Q a w1) → swp answers (_ ← ask (IncCounter c); Ret a) w (λ _ r w', Q r w').
Proof. intros H. apply swp_bind, (swp_aside (IncCounter c)); [done|]. intros _ w1 E. apply swp_ret. by apply H. Qed.

Lemma created_bare deviceID now d :
  created (new_device initialNamespace deviceID now) d →
  bare deviceID d ∧ map_of (device_labels d) = ∅.
Proof.
  intros [Hk Hl Hr Hf Ha _]. split; [|by rewrite Hl]. split; [done|done| |by rewrite Hr].
  unfold under_deletion. by rewrite Ha.
Qed.

(** What a registration leaves at [k], by its answer. *)
Definition aftermath (deviceID : string) (hw : option models.HardwareInfo) (a : Responder models.MessageResponse)
    (w w' : W) : Prop :=
  match a with
  | OK _ => becomes (initialNamespace, deviceID) (enrolled deviceID hw) w w'
  | InternalServerError => unchanged w w' ∨ becomes (initialNamespace, deviceID) (bare deviceID) w w'
  | _ => unchanged w w'
  end.

Lemma create_device_swp deviceID msg info cert (w : W) :
  swp answers (create_device initialNamespace deviceID msg info cert) w (λ _ a w',
    aftermath deviceID (models.RegistrationInfo_Hardware info) a w w').
Proof.
  unfold create_device. set (hw := models.RegistrationInfo_Hardware info). set (k := (initialNamespace, deviceID)).
  apply swp_bind, (swp_aside Now); [done|]. intros now w1 E1.
  apply swp_bind, (swp_ask (CreateEdgeDevice _)). intros r w2 Ha. apply store_device in Ha. destruct r as [d|e].
  2:{ apply counted_swp. intros w3 E3. left. same_devices. }
  destruct Ha as (d0 & _ & Hc & [Hka Hla _ _ Hsa] & Hw2). change (key_of (new_device _ _ _)) with k in Hw2.
  pose proof (created_status _ _ Hc) as Hst. apply created_bare in Hc as [Hb Hl].
  pose proof (bare_key _ _ Hb) as Hk0. assert (Hk : key_of d = k) by (by rewrite Hka, Hk0).
  apply swp_bind. eapply swp_mono; [apply (updateDeviceStatus_swp hw d d0)|].
  { by rewrite Hk, Hw2, lookup_insert_eq. }
  { split; [done|]. rewrite Hla. apply (map_union_empty (M := gmap string)). }
  { apply Hsa. by rewrite Hst. }
  intros tr1 [[e|] d1] w3 H3; rewrite ?Hk in H3; cbv beta iota.
  { apply counted_swp. intros w4 E4. right. exists d0. split; [|done]. by rewrite E4, H3, Hw2, E1. }
  destruct H3 as (d2 & Hw3 & (h & Hh & [Ho2 Hl2 Hs2]) & Hag). apply (bare_same _ _ _ Ho2) in Hb as Hb2.
  assert (Hk1 : key_of d1 = k) by (etrans; [apply (ag_key _ _ Hag)|apply (bare_key _ _ Hb2)]).
  apply swp_bind. eapply swp_mono; [apply (UpdateLabels_swp d1 d2); [by rewrite Hk1, Hw3, lookup_insert_eq|done]|].
  intros tr2 [[e|] d3] w4 H4; rewrite ?Hk1 in H4; simpl in H4; cbn [fst].
  { apply counted_swp. intros w5 E5. right. exists d2. split; [|done].
    by rewrite E5, H4, Hw3, Hw2, insert_insert_eq, E1. }
  apply counted_swp. intros w5 E5. destruct H4 as (d4 & Hw4 & [Ho4 Hl4 Hs4]). exists d4.
  split; [by rewrite E5, Hw4, Hw3, Hw2, !insert_insert_eq, E1|]. split.
  - by eapply bare_same.
  - by rewrite Hl4, Hl2, Hl, map_union_empty.
  - rewrite Hs4. by rewrite (alike_hardware _ _ Hs2).
  - unfold device_deployments. rewrite Hs4. eapply fmap_nil_inv, (alike_deployments _ _ Hs2).
Qed.

Lemma sign_request_aside info deviceID : within (λ o, is_device_write o = false) (sign_request info deviceID).
Proof.
  unfold sign_request. destruct (negb _); [|done]. apply within_bind_ok; [|done].
  eapply within_mono; [|apply SignCSR_law]. intros o (Ho & _). by destruct o.
Qed.

Lemma register_swp deviceID msg info (w : W) :
  swp answers (register initialNamespace deviceID msg info) w (λ _ a w',
    match devices_of w !! (initialNamespace, deviceID) with
    | Some _ => unchanged w w'
    | None => aftermath deviceID (models.RegistrationInfo_Hardware info) a w w'
    end).
Proof.
  unfold register. apply swp_bind, (swp_ask (GetEdgeDevice _ _)). intros r w1 Ha.
  assert (E1 : unchanged w w1) by (by eapply reads_keep). apply get_device in Ha.
  assert (Hsign : ∀ f, (∀ c w2, unchanged w w2 → swp answers (f c) w2 (λ _ a w',
      match devices_of w !! (initialNamespace, deviceID) with
      | Some _ => unchanged w w'
      | None => aftermath deviceID (models.RegistrationInfo_Hardware info) a w w'
      end)) →
    swp answers (c ← sign_request info deviceID; f c) w1 (λ _ a w',
      match devices_of w !! (initialNamespace, deviceID) with
      | Some _ => unchanged w w'
      | None => aftermath deviceID (models.RegistrationInfo_Hardware info) a w w'
      end)).
  { intros f Hf. apply swp_bind. eapply swp_mono; [apply swp_within, sign_request_aside|].
    intros tr c w2 E2. apply Hf. same_devices. }
  destruct r as [d|e].
  - apply Hsign. intros [c|e] w2 E2; rewrite Ha; by apply swp_ret.
  - destruct (IsNotFound e); simpl negb; cbv iota.
    + rewrite Ha by done. rewrite Ha in Hsign by done. apply Hsign.
      intros [c|e'] w2 E2; [|by apply swp_ret]. eapply swp_mono; [apply create_device_swp|].
      intros tr [m| | |] w3; unfold aftermath, becomes, unchanged; by rewrite E2.
    + apply swp_ret. destruct (devices_of w !! _); [done|by left].
Qed.
(** C7: A registration in a world with the documented behaviour of the API server,
    when nobody else writes meanwhile. A success leaves, at the name of the
    device in the operator's namespace, a living device with both finalizers,
    the time of the request, the reported hardware, exactly the hardware labels
    and no deployment. A refusal changes nothing. After an internal error the
    device may have been created all the same, and from then on, as for every
    device that is there already, registering again changes nothing: what the
    first registration failed to store stays missing until a heartbeat brings
    it. No other device changes. *)
Theorem register_converges deviceID msg info (w : W) :
  swp answers (register initialNamespace deviceID msg info) w (λ _ a w',
    match devices_of w !! (initialNamespace, deviceID) with
    | Some _ => unchanged w w'
    | None => aftermath deviceID (models.RegistrationInfo_Hardware info) a w w'
    end).
Proof. apply register_swp. Qed.
End registrations.

(** ** Example *)
Lemma Process_converges_witness :
  let n := mkNotification "dev" "ns" some_heartbeat 0 in
  let p := @Process CRRepository latin1_tables n in
  ((λ d, phases (EdgeDevice_Status d)) <$>
     devices (cluster_of p (put_device deployed empty_cluster)) !! ("ns", "dev")) =
    Some [("d", "Running")]%string ∧
  ∃ d', devices (cluster_of p (put_device deployed empty_cluster)) =
          <[key_of deployed := d']> (devices (put_device deployed empty_cluster)) ∧
        @heard latin1_tables some_heartbeat deployed d'.
Proof.
  intros n p. split; [vm_compute; reflexivity|].
  destruct (run_swp p (put_device deployed empty_cluster) _ None
    (@Process_converges latin1_tables _ _ _ n deployed (put_device deployed empty_cluster)
       eq_refl (lookup_insert_eq _ _ _) ltac:(repeat constructor; by intros ?%elem_of_nil))
    ltac:(vm_compute; reflexivity) ltac:(vm_compute; reflexivity)) as (d' & H1 & H2).
  exists d'. split; [exact H1|exact H2].
Defined.
