(* ===== verification/CertUtils.v ===== *)
(** * Certificate groups ([internal/mtls/cert_utils.go])

    A certificate with its key, in memory and in PEM form. The fields are
    pointers or interfaces in the source, so all but the signed bytes may be
    nil. The cryptography is calls of the environment. *)
From S2P Require Import Prelude Effects K8s X509 Calls Lookups.

Definition ECPrivateKeyBlockType : string := "EC PRIVATE KEY".
Definition RSAPrivateKeyBlockType : string := "RSA PRIVATE KEY".
Definition caCertSecretKey : string := "ca.key".
Definition caCertCertKey : string := "ca.crt".
Definition certDefaultExpiration : Z := 1.
Definition serverCertOrganization : string := "flotta-operator".

Record CertificateGroup := mkCertificateGroup {
  cert : option Certificate;
  signedCert : option Certificate;
  privKey : option PrivateKey;
  certBytes : string;
  certPEM : option string;
  PrivKeyPEM : option string;
}.

(** A call that returns an error and changes the group it is called on. *)
Abbreviation updating := (go (result CertificateGroup)) (only parsing).

Definition unix (t : Timestamp) : Z := (t / 1000000000)%Z.

(** ** Reading PEM *)

(** [decodePrivKeyFromPEM]: the key. *)
Definition decodePrivKeyFromPEM (c : CertificateGroup) : go (result PrivateKey) :=
  pem ← lift (deref_ptr (PrivKeyPEM c));
  block ← ask (PemDecode pem);
  match block with
  | None => Ret (Err (ErrorString "Cannot get Certificate key"))
  | Some block =>
      if String.eqb (Block_Type block) ECPrivateKeyBlockType then ask (ParseECPrivateKey (Block_Bytes block))
      else if String.eqb (Block_Type block) RSAPrivateKeyBlockType then
        key ← ask (ParsePKCS1PrivateKey (Block_Bytes block));
        Ret (match key with
             | Ok key => Ok key
             | Err err => Err (ErrorString ("failing parsing key: " +:+ Error err))
             end)
      else Ret (Err (ErrorString "Cannot decode PEM cert key"))
  end.

Definition ImportFromPem (c : CertificateGroup) : updating :=
  pem ← lift (deref_ptr (certPEM c));
  block ← ask (PemDecode pem);
  match block with
  | None => Ret (Err (ErrorString "Cannot get CA certificate"))
  | Some block =>
      parsed ← ask (ParseCertificate (Block_Bytes block));
      match parsed with
      | Err err => Ret (Err (ErrorString ("Failing parsing cert: " +:+ Error err)))
      | Ok parsed =>
          key ←? decodePrivKeyFromPEM c;
          Ret (Ok (mkCertificateGroup (Some parsed) (Some parsed) (Some key) (certBytes c)
                     (certPEM c) (PrivKeyPEM c)))
      end
  end.

(** The group that holds just the two PEM texts. *)
Definition of_pem (cert_ key : string) : CertificateGroup :=
  mkCertificateGroup None None None "" (Some cert_) (Some key).

(** A missing key of the map reads as no bytes. *)
Definition NewCACertificateGroupFromSecret (secretData : gmap string string) : go (result CertificateGroup) :=
  ImportFromPem (of_pem (default "" (secretData !! caCertCertKey)) (default "" (secretData !! caCertSecretKey))).

(** ** Writing PEM *)
Definition marshalKeyToPem (c : CertificateGroup) : go (result string) :=
  match privKey c with
  | Some (EcdsaKey _ as t) =>
      res ←? ask (MarshalECPrivateKey t);
      ask (PemEncode (mkPemBlock ECPrivateKeyBlockType res))
  | Some (RsaKey _ as t) =>
      res ← ask (MarshalPKCS1PrivateKey t);
      ask (PemEncode (mkPemBlock RSAPrivateKeyBlockType res))
  | _ => Ret (Err (ErrorString "Provider key not supported"))
  end.

Definition CreatePem (c : CertificateGroup) : updating :=
  caPEM ←? ask (PemEncode (mkPemBlock "CERTIFICATE" (certBytes c)));
  privKeyPEM ← marshalKeyToPem c;
  match privKeyPEM with
  | Err err => Ret (Err (ErrorString ("Cannot marshal to PEM: " +:+ Error err)))
  | Ok privKeyPEM =>
      Ret (Ok (mkCertificateGroup (cert c) (signedCert c) (privKey c) (certBytes c)
                 (Some caPEM) (Some privKeyPEM)))
  end.

Definition GetNewKey (c : CertificateGroup) : go (result PrivateKey) :=
  match privKey c with
  | Some (EcdsaKey _) => ask GenerateECKey
  | Some (RsaKey _) => ask (GenerateRSAKey 4096)
  | _ => Ret (Err (ErrorString "unknown algorithm to create the key"))
  end.

Definition parseSignedCertificate (c : CertificateGroup) : updating :=
  signed ←? ask (ParseCertificate (certBytes c));
  Ret (Ok (mkCertificateGroup (cert c) (Some signed) (privKey c) (certBytes c) (certPEM c) (PrivKeyPEM c))).

Definition GetCertificate (c : CertificateGroup) : go (result Opaque) :=
  certPEM_ ← lift (deref_ptr (certPEM c));
  keyPEM ← lift (deref_ptr (PrivKeyPEM c));
  ask (X509KeyPair certPEM_ keyPEM).

Definition GetCert (c : CertificateGroup) : option Certificate := cert c.

(** ** Creating certificates *)

(** [fmt.Errorf] with a fixed text before the error. *)
Definition wrap {A} (text : string) (p : go (result A)) : go (result A) :=
  r ← p;
  Ret (match r with Ok a => Ok a | Err err => Err (ErrorString (text +:+ Error err)) end).

(** The end shared by the two functions that create a certificate. *)
Definition bundle (cert_ : Certificate) (key : PrivateKey) (der : string) : go (result CertificateGroup) :=
  g ←? wrap "Cannot encode certificate: "
         (CreatePem (mkCertificateGroup (Some cert_) None (Some key) der None None));
  wrap "Cannot parse PEM certificate: " (parseSignedCertificate g).

Definition getCACertificate : go (result CertificateGroup) :=
  serial ← ask Now;
  notBefore ← ask Now;
  notAfter ← (now ← ask Now; ask (AddDate now 10 0 0));
  let ca := mkCertificate (unix serial) (mkPkixName "" [serverCertOrganization] "" "") notBefore notAfter
              true true [] [KeyUsageDigitalSignature; KeyUsageCertSign]
              [ExtKeyUsageClientAuth; ExtKeyUsageServerAuth] [] [] "" "" in
  caPrivKey ← ask GenerateECKey;
  match caPrivKey with
  | Err _ => Ret (Err (ErrorString "Cannot generate CA Key"))
  | Ok caPrivKey =>
      pub ← ask (PublicOf caPrivKey);
      caBytes ←? ask (CreateCertificate ca ca pub (Some caPrivKey));
      bundle ca caPrivKey caBytes
  end.

Definition createKeyAndCSR (cert_ : Certificate) (caCert : CertificateGroup) : go (result CertificateGroup) :=
  certKey ←? wrap "Cannot generate cert Key: " (GetNewKey caCert);
  pub ← ask (PublicOf certKey);
  parent ← lift (deref_ptr (cert caCert));
  certBytes_ ←? wrap "cannot sign certificate: "
                  (ask (CreateCertificate cert_ parent pub (privKey caCert)));
  bundle cert_ certKey certBytes_.

(** [net.ParseIP("::1")] in its usual notation *)
Definition localhost_ips : list string := ["127.0.0.1"; "::1"].

Definition getServerCertificate (dnsNames : list string) (localhostEnabled : bool) (CACert : CertificateGroup)
    : go (result CertificateGroup) :=
  ca ← lift (deref_ptr (cert CACert));
  notBefore ← ask Now;
  notAfter ← (now ← ask Now; ask (AddDate now certDefaultExpiration 0 0));
  createKeyAndCSR
    (mkCertificate (cert_SerialNumber ca) (mkPkixName "*" [serverCertOrganization] "" "") notBefore notAfter
       false false [1; 2; 3; 4; 6]%Z [KeyUsageDigitalSignature]
       [ExtKeyUsageClientAuth; ExtKeyUsageServerAuth] dnsNames
       (if localhostEnabled then localhost_ips else []) "" "")
    CACert.


(** ** What the functions give *)
Lemma wp_wrap {A} text (p : go (result A)) Q :
  wp p (λ tr out, match out with
    | Returned (Ok a) => Q tr (Returned (Ok a))
    | Returned (Err e) => Q tr (Returned (Err (ErrorString (text +:+ Error e))))
    | Crashed c => Q tr (Crashed c)
    end) → wp (wrap text p) Q.
Proof.
  intros H. apply wp_bind. eapply wp_mono; [exact H|].
  intros tr [[a|e]|c]; simpl; by rewrite ?app_nil_r.
Qed.

(** A group that can sign and be served: nothing of it is nil. *)
Record complete (g : CertificateGroup) (c : Certificate) (crt key : string) : Prop := {
  complete_cert : cert g = Some c;
  complete_signed : is_Some (signedCert g);
  complete_privKey : is_Some (privKey g);
  complete_certPEM : certPEM g = Some crt;
  complete_keyPEM : PrivKeyPEM g = Some key;
}.

Lemma wrap_quiet {A} text (p : go (result A)) : within quiet p → within quiet (wrap text p).
Proof. intros Hp. apply within_bind; [done|]. intros [a|e]; done. Qed.

Lemma CreatePem_quiet g : within quiet (CreatePem g).
Proof. unfold CreatePem, marshalKeyToPem. within_go. Qed.

Lemma bundle_quiet c k der : within quiet (bundle c k der).
Proof.
  unfold bundle. apply within_bind_ok; [apply wrap_quiet, CreatePem_quiet|]. intros g.
  apply wrap_quiet. unfold parseSignedCertificate. within_go.
Qed.

Lemma getCACertificate_quiet : within quiet getCACertificate.
Proof.
  unfold getCACertificate. repeat (apply within_bind; [by within_go|intros ?]).
  destruct (_ : result _); [|done]. apply within_bind; [by within_go|]. intros pub.
  apply within_bind_ok; [by within_go|]. intros der. apply bundle_quiet.
Qed.

Lemma ImportFromPem_wp crt key :
  wp (ImportFromPem (of_pem crt key)) (λ tr out, Forall quiet (ev_op <$> tr) ∧
    match out with
    | Returned (Ok g) => ∃ c, complete g c crt key ∧ signedCert g = Some c
    | Returned (Err _) => True
    | Crashed _ => False
    end).
Proof.
  apply wp_and.
  { apply within_wp. unfold ImportFromPem, decodePrivKeyFromPEM. simpl. within_go. }
  simpl. intros [[ty bytes]|]; [|done]. intros [c|e]; [|done]. simpl. intros [[ty' bytes']|]; simpl; [|done].
  repeat case_match; simpl; try done; intros [k|e]; simpl; try done; exists c; by repeat split.
Qed.

Lemma CreatePem_wp g :
  wp (CreatePem g) (λ _ out, match out with
    | Returned (Ok g') => ∃ crt key,
        g' = mkCertificateGroup (cert g) (signedCert g) (privKey g) (certBytes g) (Some crt) (Some key)
    | Returned (Err _) => True
    | Crashed _ => False
    end).
Proof.
  unfold CreatePem, marshalKeyToPem. simpl. intros [crt|e]; [|done]. simpl.
  destruct (privKey g) as [[k|k|k]|] eqn:Hk; simpl; try done.
  - intros [res|e]; simpl; [|done]. intros [key|e]; simpl; [|done]. eauto.
  - intros res [key|e]; simpl; [|done]. eauto.
Qed.

Lemma bundle_wp c k der :
  wp (bundle c k der) (λ _ out, match out with
    | Returned (Ok g) => ∃ crt key, complete g c crt key
    | Returned (Err _) => True
    | Crashed _ => False
    end).
Proof.
  unfold bundle. apply wp_bind_ok, wp_wrap. eapply wp_mono; [apply CreatePem_wp|].
  intros tr [[g|e]|cr] H; [|done|done]. destruct H as (crt & key & ->). apply wp_wrap. simpl.
  intros [s|e]; simpl; [|done]. exists crt, key. by repeat split.
Qed.
#[global] Opaque ImportFromPem CreatePem bundle.

Lemma getCACertificate_wp :
  wp getCACertificate (λ tr out, Forall quiet (ev_op <$> tr) ∧
    match out with
    | Returned (Ok g) => ∃ c crt key, complete g c crt key ∧ IsCA c = true ∧ cert_PublicKey c = ""
    | Returned (Err _) => True
    | Crashed _ => False
    end).
Proof.
  apply wp_and; [apply within_wp, getCACertificate_quiet|].
  unfold getCACertificate. simpl. intros serial nb now na [k|e]; [|done]. simpl. intros pub [der|e]; [|done].
  simpl. eapply wp_mono; [apply bundle_wp|]. intros tr [[g|e]|cr] H; [|done|done].
  destruct H as (crt & key & H). eexists _, crt, key. by split_and!.
Qed.

Lemma GetNewKey_quiet g : within quiet (GetNewKey g).
Proof. unfold GetNewKey. within_go. Qed.

Lemma createKeyAndCSR_quiet c ca : within quiet (createKeyAndCSR c ca).
Proof.
  unfold createKeyAndCSR. apply within_bind_ok; [apply wrap_quiet, GetNewKey_quiet|]. intros k.
  apply within_bind; [by within_go|]. intros pub. apply within_bind; [by within_go|]. intros parent.
  apply within_bind_ok; [apply wrap_quiet; by within_go|]. intros der. apply bundle_quiet.
Qed.

(** A complete authority signs or fails, and gives complete groups. *)
Lemma createKeyAndCSR_wp c ca parent crt key :
  complete ca parent crt key →
  wp (createKeyAndCSR c ca) (λ tr out, Forall quiet (ev_op <$> tr) ∧
    match out with
    | Returned (Ok g) => (∃ crt key, complete g c crt key) ∧
        ∃ pub der, Ev (S := api) (CreateCertificate c parent pub (privKey ca)) (Ok der) ∈ tr
    | Returned (Err _) => True
    | Crashed _ => False
    end).
Proof.
  intros Hca. apply wp_and; [apply within_wp, createKeyAndCSR_quiet|].
  unfold createKeyAndCSR. apply wp_bind_ok, wp_wrap.
  assert (Hk : ∀ tr0 k, wp (pub ← ask (PublicOf k); parent ← lift (deref_ptr (cert ca));
      der ←? wrap "cannot sign certificate: " (ask (CreateCertificate c parent pub (privKey ca)));
      bundle c k der) (λ tr out, match out with
    | Returned (Ok g) => (∃ crt key, complete g c crt key) ∧
        ∃ pub der, Ev (S := api) (CreateCertificate c parent pub (privKey ca)) (Ok der) ∈ tr0 ++ tr
    | Returned (Err _) => True
    | Crashed _ => False
    end)).
  { intros tr0 k. simpl. intros pub. rewrite (complete_cert _ _ _ _ Hca). simpl.
    intros [der|e]; simpl; [|done]. eapply wp_mono; [apply bundle_wp|].
    intros tr [[g|e]|cr] H; [|done|done]. split; [done|]. exists pub, der. set_solver. }
  unfold GetNewKey. destruct (privKey ca) as [[k|k|k]|]; simpl; try done; intros [k'|e]; try done; apply (Hk [_]).
Qed.
#[global] Opaque getCACertificate createKeyAndCSR.
