(* ===== verification/Mtls.v ===== *)
(** * Mutual TLS ([internal/mtls/caprovider_secret.go], [internal/mtls/ca.go])

    The certificate authority kept in Secrets of the operator's namespace, the
    TLS configuration built from it, the signing of device certificates and the
    verification of requests. [latestCA] is the state of a provider: operations
    that set it answer the new provider. *)
From S2P Require Import Prelude Effects K8s X509 Calls Lookups CertUtils.

Definition CASecretName : string := "flotta-ca".
Definition HostTLSCertName : string := "flotta-host-certificate".
Definition providerName : string := "secret".
Definition serverSecretKey : string := "server.key".
Definition serverCert : string := "server.crt".
Definition clientCertSecretKey : string := "client.key".
Definition clientCertCertKey : string := "client.crt".
Definition certOrganization : string := "flotta-operator".
Definition certRegisterCN : string := "register".

(** [mtls.CAProvider], for providers of type [P]; the first three operations
    may change the provider. *)
Class CAProvider (P : Type) := {
  GetName : P → string;
  GetCACertificate : P → go (result CertificateGroup * P);
  GetServerCertificate : P → list string → bool → go (result CertificateGroup * P);
  CreateRegistrationCertificate : P → string → go (result (gmap string string) * P);
  provider_SignCSR : P → string → string → Timestamp → go (result string);
}.

(** ** The provider that keeps its authority in a Secret *)
Module CASecretProvider.

Record t := mk { namespace : string; latestCA : option CertificateGroup }.

Definition secret (config : t) (name : string) (data : gmap string string) : Secret :=
  mkSecret (new_meta name (namespace config)) data.

Definition GetCACertificate (config : t) : go (result CertificateGroup * t) :=
  r ← ask (GetSecret (namespace config) CASecretName);
  match r with
  | Ok found =>
      certGroup ← NewCACertificateGroupFromSecret (secret_Data found);
      match certGroup with
      | Err err => Ret (Err err, config)
      | Ok g => Ret (Ok g, mk (namespace config) (Some g))
      end
  | Err err =>
      if negb (IsNotFound err) then Ret (Err err, config)
      else
        certificateGroup ← getCACertificate;
        match certificateGroup with
        | Err _ => Ret (Err (ErrorString "cannot create sample certificate"), config)
        | Ok g =>
            crt ← lift (deref_ptr (certPEM g));
            key ← lift (deref_ptr (PrivKeyPEM g));
            e ← ask (CreateSecret (secret config CASecretName
                       {[ caCertCertKey := crt; caCertSecretKey := key ]}));
            match e with
            | Err err => Ret (Err err, config)
            | Ok _ => Ret (Ok g, mk (namespace config) (Some g))
            end
        end
  end.

Definition GetServerCertificate (config : t) (dnsNames : list string) (localhostEnabled : bool)
    : go (result CertificateGroup * t) :=
  r ← ask (GetSecret (namespace config) HostTLSCertName);
  match r with
  | Ok found =>
      g ← wrap "cannot import server cert from configmap: "
            (ImportFromPem (of_pem (default "" (secret_Data found !! serverCert))
                                   (default "" (secret_Data found !! serverSecretKey))));
      Ret (g, config)
  | Err err =>
      if negb (IsNotFound err)
      then Ret (Err (ErrorString ("cannot get Host TLS cert:" +:+ Error err)), config)
      else
        ca ← GetCACertificate config;
        match ca with
        | (Err err, config) => Ret (Err (ErrorString ("cannot get Host CA TLS cert:" +:+ Error err)), config)
        | (Ok CACert, config) =>
            cert_ ← getServerCertificate dnsNames localhostEnabled CACert;
            match cert_ with
            | Err err => Ret (Err (ErrorString ("cannot create host TLS cert:" +:+ Error err)), config)
            | Ok cert_ =>
                crt ← lift (deref_ptr (certPEM cert_));
                key ← lift (deref_ptr (PrivKeyPEM cert_));
                e ← ask (CreateSecret (secret config HostTLSCertName
                           {[ serverCert := crt; serverSecretKey := key ]}));
                match e with
                | Err err => Ret (Err (ErrorString ("cannot store server cert: " +:+ Error err)), config)
                | Ok _ => Ret (Ok cert_, config)
                end
            end
        end
  end.

Definition CreateRegistrationCertificate (config : t) (name : string)
    : go (result (gmap string string) * t) :=
  ca ← GetCACertificate config;
  match ca with
  | (Err _, config) => Ret (Err (ErrorString "Cannot retrieve caCert"), config)
  | (Ok CACert, config) =>
      parent ← lift (deref_ptr (cert CACert));
      notBefore ← ask Now;
      notAfter ← (now ← ask Now; ask (AddDate now certDefaultExpiration 0 0));
      certGroup ← wrap "Cannot sign certificate request: " (createKeyAndCSR
        (mkCertificate (cert_SerialNumber parent) (mkPkixName certRegisterCN [certOrganization] name "")
           notBefore notAfter false false [1; 2; 3; 4; 6]%Z [KeyUsageDigitalSignature]
           [ExtKeyUsageClientAuth; ExtKeyUsageServerAuth] [] [] "" "")
        CACert);
      match certGroup with
      | Err err => Ret (Err err, config)
      | Ok certGroup =>
          pem ← wrap "Cannot encode certs: " (CreatePem certGroup);
          match pem with
          | Err err => Ret (Err err, config)
          | Ok g =>
              crt ← lift (deref_ptr (certPEM g));
              key ← lift (deref_ptr (PrivKeyPEM g));
              Ret (Ok {[ clientCertCertKey := crt; clientCertSecretKey := key ]}, config)
          end
      end
  end.

(** The template of a device certificate. *)
Definition client_template (CSR : CertificateRequest) (commonName : string) (serial : Z)
    (notBefore expiration : Timestamp) : Certificate :=
  mkCertificate serial
    (mkPkixName commonName [certOrganization] (Subject_SerialNumber (csr_Subject CSR))
       (Subject_Rest (csr_Subject CSR)))
    notBefore expiration false false [] [KeyUsageDigitalSignature] [ExtKeyUsageClientAuth] [] []
    (csr_PublicKey CSR) (csr_Signature CSR).

Definition SignCSR (config : t) (CSRPem commonName : string) (expiration : Timestamp)
    : go (result string) :=
  match latestCA config with
  | None => Ret (Err (ErrorString "Cannot get CA certificate"))
  | Some ca =>
      decodecCert ← ask (PemDecode CSRPem);
      match decodecCert with
      | None => Ret (Err (ErrorString "cannot decode CSR certificate"))
      | Some block =>
          CSR ←? wrap "cannot parse CSR: " (ask (ParseCertificateRequest (Block_Bytes block)));
          serial ← ask Now;
          notBefore ← (now ← ask Now; ask (AddDate now 0 0 (-1)));
          parent ← lift (deref_ptr (cert ca));
          der ←? wrap "Cannot sign certificate reques: "
                   (ask (CreateCertificate (client_template CSR commonName (unix serial) notBefore expiration)
                           parent (csr_PublicKey CSR) (privKey ca)));
          pem ← ask (PemEncode (mkPemBlock "CERTIFICATE" der));
          Ret (Ok (match pem with Ok pem => pem | Err _ => ""%string end))
      end
  end.

End CASecretProvider.

#[export] Instance secret_provider : CAProvider CASecretProvider.t := {
  GetName := λ _, providerName;
  GetCACertificate := CASecretProvider.GetCACertificate;
  GetServerCertificate := CASecretProvider.GetServerCertificate;
  CreateRegistrationCertificate := CASecretProvider.CreateRegistrationCertificate;
  provider_SignCSR := CASecretProvider.SignCSR;
}.

(** ** The TLS configuration ([ca.go]) *)
Definition regClientSecretNameRandomLen : Z := 10.
Definition regClientSecretNamePrefix : string := "reg-client-ca".
Definition regClientSecretLabelKey : string := "reg-client-ca".
Definition YggdrasilRegisterAuth : Z := 1.
Definition YggdrasilCompleteAuth : Z := 0.
Definition defaultDaysToExpireClientCertificate : Z := 7.

(** [tls.Config], the fields the operator sets. *)
Inductive ClientAuthType := NoClientCert | RequireAnyClientCert.
Definition VersionTLS13 : Z := 0x0304.
Record TlsConfig := mkTlsConfig {
  Certificates : list Opaque;
  ClientCAs : CertPool;
  ClientAuth : ClientAuthType;
  MinVersion : Z;
}.

(** [isClientCertificateSigned]: the two loops, left at the first signature. *)
Fixpoint signed_by (cert_ : Certificate) (CAChain : list (option Certificate)) : go bool :=
  match CAChain with
  | [] => Ret false
  | caCert :: CAChain =>
      caCert ← lift (deref_ptr caCert);
      err ← ask (CheckSignatureFrom cert_ caCert);
      if is_ok err then Ret true else signed_by cert_ CAChain
  end.

Fixpoint isClientCertificateSigned (PeerCertificates : list Certificate)
    (CAChain : list (option Certificate)) : go bool :=
  match PeerCertificates with
  | [] => Ret false
  | cert_ :: PeerCertificates =>
      signed ← signed_by cert_ CAChain;
      if signed : bool then Ret true else isClientCertificateSigned PeerCertificates CAChain
  end.

(** The loop of [VerifyRequest]. *)
Fixpoint verify_peers (peers : list Certificate) (verifyOpts : VerifyOptions) : go bool :=
  match peers with
  | [] => Ret true
  | cert_ :: peers =>
      if String.eqb (CommonName (Subject cert_)) certRegisterCN then Ret false
      else
        err ← ask (VerifyCertificate cert_ verifyOpts);
        if is_ok err then verify_peers peers verifyOpts else Ret false
  end.

(** [VerifyRequest]; of the request, the certificates of its peer. *)
Definition VerifyRequest (peers : list Certificate) (verifyType : Z) (verifyOpts : VerifyOptions)
    (CACertChain : list (option Certificate)) : go bool :=
  match peers with
  | [] => Ret false
  | _ =>
      if (verifyType =? YggdrasilRegisterAuth)%Z then isClientCertificateSigned peers CACertChain
      else verify_peers peers verifyOpts
  end.

Module TLSConfig.

Record t (P : Type) := mk {
  caProvider : list P;
  Domains : list string;
  LocalhostEnabled : bool;
  namespace : string;
  clientExpirationDays : Z;
}.
Arguments mk {_} _ _ _ _ _.
Arguments caProvider {_} _.
Arguments Domains {_} _.
Arguments LocalhostEnabled {_} _.
Arguments namespace {_} _.
Arguments clientExpirationDays {_} _.

(** [NewMTLSConfig], with its one provider. *)
Definition NewMTLSConfig (namespace : string) (domains : list string) (localhostEnabled : bool)
    : t CASecretProvider.t :=
  mk [CASecretProvider.mk namespace None] domains localhostEnabled namespace
    defaultDaysToExpireClientCertificate.

Definition SetClientExpiration {P} (days : Z) (conf : t P) : option error * t P :=
  if (days <=? 0)%Z then (Some (ErrorString "Cannot set 1 day expiration time"), conf)
  else (None, mk (caProvider conf) (Domains conf) (LocalhostEnabled conf) (namespace conf) days).

Definition set_providers {P} (ps : list P) (conf : t P) : t P :=
  mk ps (Domains conf) (LocalhostEnabled conf) (namespace conf) (clientExpirationDays conf).

Section operations.
Context {P : Type} {CA : CAProvider P}.
(** how the library [go-multierror] presents the errors put together *)
Variable multierror : list error → error.

Definition SignCSR (conf : t P) (CSRPem commonName : string) : go (result string) :=
  match caProvider conf with
  | [] => Ret (Err (ErrorString "Cannot get caProvider to sign the CSR"))
  | p :: _ =>
      expiration ← (now ← ask Now; ask (AddDate now 0 0 (clientExpirationDays conf)));
      provider_SignCSR p CSRPem commonName expiration
  end.

(** The state of the loop of [InitCertificates]: the providers seen, the
    errors, the authorities ([caCerts]), their certificates and the pool. *)
Record collected := mkCollected {
  seen : list P;
  errors : list error;
  caCerts : list CertificateGroup;
  CACertChain : list (option Certificate);
  caCertPool : CertPool;
}.

Definition collect (s : collected) (p : P) : go collected :=
  r ← GetCACertificate p;
  match r with
  | (Err err, p') =>
      Ret (mkCollected (seen s ++ [p'])
             (errors s ++ [ErrorString ("cannot get CA certificate for provider "
                                        +:+ GetName p +:+ ": " +:+ Error err)])
             (caCerts s) (CACertChain s) (caCertPool s))
  | (Ok caCert, p') =>
      pem ← lift (deref_ptr (certPEM caCert));
      Ret (mkCollected (seen s ++ [p']) (errors s) (caCerts s ++ [caCert])
             (CACertChain s ++ [GetCert caCert]) (caCertPool s ++ [pem]))
  end.

(** [InitCertificates]: its results and the configuration it leaves. *)
Definition InitCertificates (conf : t P) : go (result (TlsConfig * list (option Certificate)) * t P) :=
  match caProvider conf with
  | [] => Ret (Err (ErrorString "no CA provider is set"), conf)
  | _ =>
      s ← foldM collect (mkCollected [] [] [] [] []) (caProvider conf);
      let conf := set_providers (seen s) conf in
      match errors s, caCerts s, caProvider conf with
      | _ :: _, _, _ => Ret (Err (multierror (errors s)), conf)
      | [], [], _ => Ret (Err (ErrorString "cannot get any CA certificate"), conf)
      | [], _ :: _, [] => Crash Panic
      | [], _ :: _, p :: ps =>
          r ← GetServerCertificate p (Domains conf) (LocalhostEnabled conf);
          let conf := set_providers (r.2 :: ps) conf in
          match r.1 with
          | Err err => Ret (Err err, conf)
          | Ok serverCert =>
              certificate ← wrap "Cannot create server certfificate: " (GetCertificate serverCert);
              Ret (match certificate with
                   | Err err => Err err
                   | Ok certificate =>
                       Ok (mkTlsConfig [certificate] (caCertPool s) RequireAnyClientCert VersionTLS13,
                           CACertChain s)
                   end, conf)
          end
      end
  end.

Definition CreateRegistrationClientCerts (conf : t P) : go (option error * t P) :=
  match caProvider conf with
  | [] => Ret (Some (ErrorString "Cannot get ca provider"), conf)
  | p :: ps =>
      suffix ← ask (RandString regClientSecretNameRandomLen);
      let name := regClientSecretNamePrefix +:+ "-" +:+ suffix in
      r ← CreateRegistrationCertificate p name;
      let conf := set_providers (r.2 :: ps) conf in
      match r.1 with
      | Err _ => Ret (Some (ErrorString "Cannot create client certificate"), conf)
      | Ok certData =>
          e ← ask (CreateSecret (mkSecret
                 (meta_set_labels (Some {[ regClientSecretLabelKey := "true"%string ]})
                    (new_meta name (namespace conf))) certData));
          Ret (match e with Ok _ => None | Err err => Some err end, conf)
      end
  end.
End operations.

End TLSConfig.

(** The signer that the message handlers are given. *)
Definition tls_signer {P} `{CAProvider P} (conf : TLSConfig.t P) : CSRSigner :=
  {| Lookups.SignCSR := TLSConfig.SignCSR conf |}.
