(* ===== verification/MtlsSpec.v ===== *)
(** * Mutual TLS: theorems

    What the operations of [Mtls] promise: when the authority is read and when
    it is created, what a signed device certificate says, and which requests
    are let through. *)
From S2P Require Import Prelude Effects K8s X509 Calls Lookups CertUtils Mtls.
Import CASecretProvider.

(** Quiet calls before and after a write. *)
Lemma quiet_writes tr : Forall quiet (ev_op (S := api) <$> tr) → writes tr = [].
Proof. intros H. by apply quiet_calls in H as (? & _). Qed.

(** The two PEM texts of the authority, under their keys. *)
Definition ca_data (crt key : string) : gmap string string :=
  {[ caCertCertKey := crt; caCertSecretKey := key ]}.

(** How [GetCACertificate] came by a group. *)
Definition ca_found (config : t) (g : CertificateGroup) (tr : list api_event) : Prop :=
  ∃ found c, head tr = Some (Ev (S := api) (GetSecret (namespace config) CASecretName) (Ok found)) ∧
    writes tr = [] ∧ signedCert g = Some c ∧
    complete g c (default "" (secret_Data found !! caCertCertKey)) (default "" (secret_Data found !! caCertSecretKey)).

Definition ca_created (config : t) (g : CertificateGroup) (tr : list api_event) : Prop :=
  ∃ e c crt key stored,
    head tr = Some (Ev (S := api) (GetSecret (namespace config) CASecretName) (Err e)) ∧ IsNotFound e = true ∧
    writes tr = [CreateSecret (secret config CASecretName (ca_data crt key))] ∧
    Ev (S := api) (CreateSecret (secret config CASecretName (ca_data crt key))) (Ok stored) ∈ tr ∧
    complete g c crt key ∧ IsCA c = true ∧ cert_PublicKey c = "".

Lemma GetCACertificate_wp config :
  wp (GetCACertificate config) (λ tr out,
    match out with
    | Returned (Ok g, config') =>
        config' = mk (namespace config) (Some g) ∧ (ca_found config g tr ∨ ca_created config g tr)
    | Returned (Err _, config') => config' = config ∧
        (writes tr = [] ∨ ∃ crt key, writes tr = [CreateSecret (secret config CASecretName (ca_data crt key))])
    | Crashed _ => False
    end).
Proof.
  unfold GetCACertificate. simpl. intros [found|e].
  - unfold NewCACertificateGroupFromSecret. apply wp_bind. eapply wp_mono; [apply ImportFromPem_wp|].
    intros tr [[g|e]|c] [Hq H]; simpl; [| |done].
    + destruct H as (c & H & Hs). split; [done|]. left. exists found, c. go_simpl.
      split_and!; [done|by apply quiet_writes|done|done].
    + go_simpl. split; [done|]. left. by apply quiet_writes.
  - destruct (IsNotFound e) eqn:He; simpl; [|by go_simpl; split; [|left]].
    apply wp_bind. eapply wp_mono; [apply getCACertificate_wp|].
    intros tr [[g|e']|c] [Hq H]; simpl; [| |done].
    2:{ go_simpl. split; [done|]. left. by apply quiet_writes. }
    destruct H as (c & crt & key & H & Hca & Hpk).
    rewrite (complete_certPEM _ _ _ _ H), (complete_keyPEM _ _ _ _ H). simpl. apply quiet_writes in Hq.
    fold (ca_data crt key). intros [stored|e']; simpl.
    + split; [done|]. right. exists e, c, crt, key, stored. go_simpl. rewrite Hq.
      split_and!; [done|done|done|set_solver|done|done|done].
    + go_simpl. rewrite Hq. split; [done|]. right. by exists crt, key.
Qed.

(** C28: Fetching the authority. The answer is the group in the Secret [flotta-ca]
    when the Secret is there (nothing is then written, and the certificate used
    is the one stored), and otherwise a new authority, stored under the two keys
    before it is used; in both cases the group becomes the provider's current
    one, and it lacks nothing: certificate, key and PEM texts are all set. A
    failure leaves the provider as it was and writes at most that Secret; no
    answer of the environment makes the code crash. The certificate kept for a
    new authority is the template, which has no public key: only the signed
    bytes in PEM do. *)
Theorem GetCACertificate_spec config :
  wp (GetCACertificate config) (λ tr out,
    match out with
    | Returned (Ok g, config') =>
        config' = mk (namespace config) (Some g) ∧ (ca_found config g tr ∨ ca_created config g tr)
    | Returned (Err _, config') => config' = config ∧
        (writes tr = [] ∨ ∃ crt key, writes tr = [CreateSecret (secret config CASecretName (ca_data crt key))])
    | Crashed _ => False
    end).
Proof. apply GetCACertificate_wp. Qed.

#[local] Opaque GetCACertificate.

(** *** Device certificates *)
Definition is_signing (o : api_op) : bool :=
  match o with CreateCertificate _ _ _ _ => true | _ => false end.

(** C24: Signing a request. A provider that has no authority refuses without a call.
    Otherwise signing changes nothing and signs at most one certificate; an
    answer is given only for a request that decoded and parsed, and the
    certificate signed for it, with the current authority and the request's own
    public key, carries the common name it was asked to carry and the operator's
    organization whatever the request said, is not an authority, expires when it
    was told to, and may be used for client authentication only. *)
Theorem SignCSR_spec config CSRPem commonName expiration :
  wp (CASecretProvider.SignCSR config CSRPem commonName expiration) (λ tr out,
    writes tr = [] ∧ (latestCA config = None → tr = [] ∧ out = Returned (Err (ErrorString "Cannot get CA certificate"))) ∧
    length (calls is_signing tr) ≤ 1 ∧
    ∀ pem, out = Returned (Ok pem) → ∃ ca parent block CSR template,
      latestCA config = Some ca ∧ cert ca = Some parent ∧
      Ev (S := api) (PemDecode CSRPem) (Some block) ∈ tr ∧
      Ev (S := api) (ParseCertificateRequest (Block_Bytes block)) (Ok CSR) ∈ tr ∧
      calls is_signing tr = [CreateCertificate template parent (csr_PublicKey CSR) (privKey ca)] ∧
      CommonName (Subject template) = commonName ∧ Organization (Subject template) = ["flotta-operator"%string] ∧
      cert_PublicKey template = csr_PublicKey CSR ∧ NotAfter template = expiration ∧
      IsCA template = false ∧ cert_ExtKeyUsage template = [ExtKeyUsageClientAuth]).
Proof.
  unfold CASecretProvider.SignCSR. destruct (latestCA config) as [ca|] eqn:Hca; simpl.
  2:{ go_simpl. split_and!; [done|done|lia|]. by intros pem. }
  intros [block|]; simpl; [|go_simpl; split_and!; [done|done|lia|done]].
  intros [CSR|e]; simpl; [|go_simpl; split_and!; [done|done|lia|done]].
  intros serial now notBefore. destruct (cert ca) as [parent|] eqn:Hp; simpl.
  2:{ go_simpl; split_and!; [done|done|lia|done]. }
  intros [der|e]; simpl; [|go_simpl; split_and!; [done|done|lia|done]].
  intros p. go_simpl. split_and!; [done|done|lia|]. intros pem _.
  exists ca, parent, block, CSR. eexists. split_and!; [done|done|set_solver|set_solver|done|done..].
Qed.

#[local] Opaque wrap.

(** *** Which requests are let through *)
Lemma signed_by_wp c chain :
  wp (signed_by c chain) (λ tr out, writes tr = [] ∧
    match out with
    | Returned true => ∃ ca, Some ca ∈ chain ∧ Ev (S := api) (CheckSignatureFrom c ca) (Ok tt) ∈ tr
    | Returned false => ∀ ca, ca ∈ chain → ∃ ca' e, ca = Some ca' ∧ Ev (S := api) (CheckSignatureFrom c ca') (Err e) ∈ tr
    | Crashed k => k = Panic ∧ None ∈ chain
    end).
Proof.
  induction chain as [|[ca|] chain IH]; simpl.
  - go_simpl. split; [done|]. intros ca []%elem_of_nil.
  - intros [[]|e]; simpl.
    + go_simpl. split; [done|]. exists ca. split; left.
    + eapply wp_mono; [exact IH|]. intros tr [[]|k] [Hw H]; go_simpl; (split; [done|]).
      * destruct H as (ca' & ? & ?). exists ca'. split; by right.
      * intros ca' [->|Hin]%elem_of_cons; [exists ca, e; split; [done|left]|].
        destruct (H ca' Hin) as (ca'' & e' & ? & ?). exists ca'', e'. split; [done|by right].
      * destruct H. split; [done|by right].
  - go_simpl. split; [done|]. split; [done|left].
Qed.

Lemma isClientCertificateSigned_wp peers chain :
  wp (isClientCertificateSigned peers chain) (λ tr out, writes tr = [] ∧
    match out with
    | Returned true => ∃ c ca, c ∈ peers ∧ Some ca ∈ chain ∧ Ev (S := api) (CheckSignatureFrom c ca) (Ok tt) ∈ tr
    | Returned false => ∀ c ca, c ∈ peers → ca ∈ chain →
        ∃ ca' e, ca = Some ca' ∧ Ev (S := api) (CheckSignatureFrom c ca') (Err e) ∈ tr
    | Crashed k => k = Panic ∧ None ∈ chain
    end).
Proof.
  induction peers as [|c peers IH]; simpl.
  { go_simpl. split; [done|]. intros c ca []%elem_of_nil. }
  apply wp_bind. eapply wp_mono; [apply signed_by_wp|]. intros tr [[]|k] [Hw H]; simpl; [| |done].
  - go_simpl. split; [done|]. destruct H as (ca & ? & ?). exists c, ca. split_and!; [left|done|done].
  - eapply wp_mono; [exact IH|]. intros tr' [[]|k] [Hw' H']; go_simpl; rewrite Hw, Hw'; (split; [done|]).
    + destruct H' as (c' & ca & ? & ? & ?). exists c', ca. set_solver.
    + intros c' ca [->|Hin]%elem_of_cons Hca.
      * destruct (H ca Hca) as (ca' & e & ? & ?). exists ca', e. set_solver.
      * destruct (H' c' ca Hin Hca) as (ca' & e & ? & ?). exists ca', e. set_solver.
    + done.
Qed.

Lemma verify_peers_wp peers opts :
  wp (verify_peers peers opts) (λ tr out, writes tr = [] ∧ ∃ b, out = Returned b ∧
    (if b then ∀ c, c ∈ peers → CommonName (Subject c) ≠ certRegisterCN ∧
                                Ev (S := api) (VerifyCertificate c opts) (Ok tt) ∈ tr
     else ∃ c, c ∈ peers ∧ (CommonName (Subject c) = certRegisterCN ∨
                            ∃ e, Ev (S := api) (VerifyCertificate c opts) (Err e) ∈ tr))).
Proof.
  induction peers as [|c peers IH]; simpl.
  { go_simpl. split; [done|]. exists true. split; [done|]. intros c []%elem_of_nil. }
  destruct (String.eqb_spec (CommonName (Subject c)) certRegisterCN) as [E|E]; simpl.
  { go_simpl. split; [done|]. exists false. split; [done|]. exists c. split; [left|by left]. }
  intros [[]|e]; simpl.
  - eapply wp_mono; [exact IH|]. intros tr out (Hw & b & -> & H). go_simpl. split; [done|].
    exists b. split; [done|]. destruct b.
    + intros c' [->|Hin]%elem_of_cons; [split; [done|left]|]. destruct (H c' Hin). split; [done|by right].
    + destruct H as (c' & Hin & H). exists c'. split; [by right|]. destruct H as [H|(e & H)]; [by left|].
      right. exists e. by right.
  - go_simpl. split; [done|]. exists false. split; [done|]. exists c. split; [left|]. right. exists e. left.
Qed.

Lemma VerifyRequest_wp peers ty opts chain :
  wp (VerifyRequest peers ty opts chain) (λ tr out, writes tr = [] ∧
    if (ty =? YggdrasilRegisterAuth)%Z then
      match out with
      | Returned true => ∃ c ca, c ∈ peers ∧ Some ca ∈ chain ∧ Ev (S := api) (CheckSignatureFrom c ca) (Ok tt) ∈ tr
      | Returned false => ∀ c ca, c ∈ peers → ca ∈ chain →
          ∃ ca' e, ca = Some ca' ∧ Ev (S := api) (CheckSignatureFrom c ca') (Err e) ∈ tr
      | Crashed k => k = Panic ∧ None ∈ chain
      end
    else ∃ b, out = Returned b ∧
      (if b then peers ≠ [] ∧ ∀ c, c ∈ peers → CommonName (Subject c) ≠ certRegisterCN ∧
                                Ev (S := api) (VerifyCertificate c opts) (Ok tt) ∈ tr
       else peers = [] ∨ ∃ c, c ∈ peers ∧ (CommonName (Subject c) = certRegisterCN ∨
                            ∃ e, Ev (S := api) (VerifyCertificate c opts) (Err e) ∈ tr))).
Proof.
  unfold VerifyRequest. destruct peers as [|c peers].
  { go_simpl. split; [done|]. destruct (_ =? _)%Z; [intros c ca []%elem_of_nil|]. exists false. auto. }
  destruct (_ =? _)%Z; [apply isClientCertificateSigned_wp|].
  eapply wp_mono; [apply verify_peers_wp|]. intros tr out (Hw & b & -> & H). split; [done|].
  exists b. split; [done|]. destruct b; [done|by right].
Qed.

(** C23: The verification of a request, exactly. For the registration authentication
    a request is let through when the library says that one of its certificates
    is signed by one of the authorities, and refused only after every pair was
    tried. For any other authentication it is let through when there is a
    certificate and all of them pass the library's verification with the given
    options and none is a registration certificate; otherwise it is refused. A
    nil authority is the only cause of a crash, and nothing is written. *)
Theorem VerifyRequest_spec peers ty opts chain :
  wp (VerifyRequest peers ty opts chain) (λ tr out, writes tr = [] ∧
    if (ty =? YggdrasilRegisterAuth)%Z then
      match out with
      | Returned true => ∃ c ca, c ∈ peers ∧ Some ca ∈ chain ∧ Ev (S := api) (CheckSignatureFrom c ca) (Ok tt) ∈ tr
      | Returned false => ∀ c ca, c ∈ peers → ca ∈ chain →
          ∃ ca' e, ca = Some ca' ∧ Ev (S := api) (CheckSignatureFrom c ca') (Err e) ∈ tr
      | Crashed k => k = Panic ∧ None ∈ chain
      end
    else ∃ b, out = Returned b ∧
      (if b then peers ≠ [] ∧ ∀ c, c ∈ peers → CommonName (Subject c) ≠ certRegisterCN ∧
                                Ev (S := api) (VerifyCertificate c opts) (Ok tt) ∈ tr
       else peers = [] ∨ ∃ c, c ∈ peers ∧ (CommonName (Subject c) = certRegisterCN ∨
                            ∃ e, Ev (S := api) (VerifyCertificate c opts) (Err e) ∈ tr))).
Proof. apply VerifyRequest_wp. Qed.

(** *** The configuration at start-up *)

(** The writes of these operations create Secrets of one namespace. *)
Definition secret_write (ns : string) (o : api_op) : Prop :=
  ∃ m data, o = CreateSecret (mkSecret m data) ∧ Namespace m = ns.

Lemma secret_write_secret config name data : secret_write (namespace config) (CreateSecret (secret config name data)).
Proof. by eexists _, _. Qed.
Hint Resolve secret_write_secret : core.

(** A provider that can sign: it has an authority, which lacks nothing. *)
Definition ready (config : t) : Prop :=
  ∃ g c crt key, latestCA config = Some g ∧ complete g c crt key.

Lemma ca_provider_wp config :
  wp (GetCACertificate config) (λ tr out, Forall (secret_write (namespace config)) (writes tr) ∧
    match out with
    | Returned (Ok g, config') => config' = mk (namespace config) (Some g) ∧ ∃ c crt key, complete g c crt key
    | Returned (Err _, config') => config' = config
    | Crashed _ => False
    end).
Proof.
  eapply wp_mono; [apply GetCACertificate_wp|]. intros tr [[[g|e] config']|k]; [| |done].
  - intros [-> [(found & c & _ & -> & _ & H)|(e & c & crt & key & st & _ & _ & -> & _ & H & _)]].
    + split; [constructor|]. split; [done|]. eauto.
    + split; [by repeat constructor|]. split; [done|]. eauto.
  - intros [-> [->|(crt & key & ->)]]; (split; [by repeat constructor|done]).
Qed.

Lemma getServerCertificate_wp dns lh g c crt key :
  complete g c crt key →
  wp (getServerCertificate dns lh g) (λ tr out, writes tr = [] ∧
    match out with
    | Returned (Ok g') => ∃ c crt key, complete g' c crt key
    | Returned (Err _) => True
    | Crashed _ => False
    end).
Proof.
  intros H. unfold getServerCertificate. rewrite (complete_cert _ _ _ _ H). simpl. intros nb now na.
  eapply wp_mono; [by eapply createKeyAndCSR_wp|]. intros tr [[g'|e]|k] [Hq H']; go_simpl;
    (split; [by apply quiet_writes|]); [|done|done]. destruct H' as [(crt' & key' & H') _]. eauto.
Qed.

#[local] Opaque getServerCertificate.

Lemma GetServerCertificate_wp config dns lh :
  wp (GetServerCertificate config dns lh) (λ tr out, Forall (secret_write (namespace config)) (writes tr) ∧
    match out with
    | Returned (r, config') => namespace config' = namespace config ∧ (ready config → ready config') ∧
        match r with Ok g => ∃ c crt key, complete g c crt key | Err _ => True end
    | Crashed _ => False
    end).
Proof.
  unfold GetServerCertificate. simpl. intros [found|e].
  - apply wp_bind, wp_wrap. eapply wp_mono; [apply ImportFromPem_wp|].
    intros tr [[g|e]|c] [Hq H]; simpl; [| |done]; apply quiet_writes in Hq; go_simpl; rewrite Hq;
      (split_and!; [constructor|done|done|]); [|done]. destruct H as (c & H & _). eauto.
  - destruct (IsNotFound e); simpl; [|go_simpl; by split_and!].
    apply wp_bind. eapply wp_mono; [apply ca_provider_wp|].
    intros tr [[[g|e'] config']|k] [Hw H]; simpl; [| |done].
    2:{ subst config'. go_simpl. by split_and!. }
    destruct H as [-> (c & crt & key & H)].
    assert (Hr : ready (mk (namespace config) (Some g))) by (by eexists _, _, _, _).
    apply wp_bind. eapply wp_mono; [by eapply getServerCertificate_wp|].
    intros tr' [[g'|e']|k] [Hw' H']; simpl; [| |done].
    + destruct H' as (c' & crt' & key' & H').
      rewrite (complete_certPEM _ _ _ _ H'), (complete_keyPEM _ _ _ _ H'). simpl.
      intros [st|e'']; simpl; go_simpl; rewrite Hw'; simpl;
        (split_and!; [rewrite Forall_app, Forall_singleton; split; [done|apply (secret_write_secret (mk _ _))]|done|auto|]); [|done]. eauto.
    + go_simpl. rewrite Hw', app_nil_r. by split_and!.
Qed.
#[local] Opaque GetServerCertificate.

(** The loop over the providers, all of them kept in Secrets of [ns]. *)
Definition in_namespace (ns : string) (p : t) : Prop := namespace p = ns.

Definition collected_ok (ns : string) (n : nat) (s : TLSConfig.collected (P := t)) : Prop :=
  length (TLSConfig.seen s) = n ∧ Forall (in_namespace ns) (TLSConfig.seen s) ∧
  (TLSConfig.errors s = [] → Forall ready (TLSConfig.seen s) ∧
     length (TLSConfig.CACertChain s) = n ∧ Forall is_Some (TLSConfig.CACertChain s)).

Lemma collect_wp ns ps :
  Forall (in_namespace ns) ps →
  wp (foldM TLSConfig.collect (TLSConfig.mkCollected [] [] [] [] []) ps) (λ tr out,
    Forall (secret_write ns) (writes tr) ∧
    match out with Returned s => collected_ok ns (length ps) s | Crashed _ => False end).
Proof.
  intros Hns. eapply wp_mono; [apply (wp_foldM _
    (λ dn s tr, Forall (secret_write ns) (writes tr) ∧ collected_ok ns (length dn) s)
    (λ _ _, False))|by intros tr [s|k]].
  - go_simpl. unfold collected_ok. simpl. by split_and!.
  - intros dn p todo s tr -> [Hw (Hl & Hn & Hs)]. unfold TLSConfig.collect.
    assert (Hp : namespace p = ns) by (by apply Forall_app in Hns as [_ [? _]%Forall_cons]).
    apply wp_bind. eapply wp_mono; [apply ca_provider_wp|].
    intros tr' [[[g|e] p']|k] [Hw' H]; [| |done].
    + destruct H as [-> (c & crt & key & H)]. simpl. rewrite (complete_certPEM _ _ _ _ H). simpl. go_simpl.
      rewrite Hp in Hw'. split; [by apply Forall_app|]. unfold collected_ok. simpl.
      rewrite !length_app, Hl. split_and!; [done|apply Forall_app; by repeat constructor|].
      intros He. destruct (Hs He) as (H1 & H2 & H3). rewrite H2. unfold GetCert.
      rewrite (complete_cert _ _ _ _ H). split_and!; [|done|].
      * apply Forall_app. split; [done|]. constructor; [|done]. by eexists _, _, _, _.
      * apply Forall_app. by repeat constructor.
    + subst p'. simpl. go_simpl. rewrite Hp in Hw'. split; [by apply Forall_app|].
      unfold collected_ok. simpl. rewrite !length_app, Hl.
      split_and!; [done|apply Forall_app; by repeat constructor|]. by intros [_ ?]%app_eq_nil.
Qed.

Section init.
Variable multierror : list error → error.

(** What a successful [InitCertificates] leaves and answers. *)
Definition initialised (ns : string) (n : nat) (conf' : TLSConfig.t t) (tls : TlsConfig)
    (chain : list (option Certificate)) : Prop :=
  length (TLSConfig.caProvider conf') = n ∧ Forall ready (TLSConfig.caProvider conf') ∧
  Forall (in_namespace ns) (TLSConfig.caProvider conf') ∧
  length chain = n ∧ Forall is_Some chain ∧
  ClientAuth tls = RequireAnyClientCert ∧ MinVersion tls = VersionTLS13 ∧ length (Certificates tls) = 1.

Lemma InitCertificates_wp ns (conf : TLSConfig.t t) :
  Forall (in_namespace ns) (TLSConfig.caProvider conf) →
  wp (TLSConfig.InitCertificates multierror conf) (λ tr out, Forall (secret_write ns) (writes tr) ∧
    ∃ r conf', out = Returned (r, conf') ∧
      TLSConfig.namespace conf' = TLSConfig.namespace conf ∧
      TLSConfig.clientExpirationDays conf' = TLSConfig.clientExpirationDays conf ∧
      ∀ tls chain, r = Ok (tls, chain) →
        initialised ns (length (TLSConfig.caProvider conf)) conf' tls chain ∧ chain ≠ []).
Proof.
  unfold TLSConfig.InitCertificates. intros Hns.
  destruct (TLSConfig.caProvider conf) as [|p0 ps0] eqn:Hps.
  { split; [constructor|]. eexists _, _. split; [done|]. by split_and!. }
  rewrite <- Hps in *. assert (Hne : length (TLSConfig.caProvider conf) ≠ 0) by (by rewrite Hps). clear Hps.
  apply wp_bind. eapply wp_mono; [by apply collect_wp|].
  intros tr [s|k] [Hw H]; [|done]. destruct H as (Hl & Hn & Hs). cbv zeta.
  destruct (TLSConfig.errors s) as [|e es].
  2:{ simpl. go_simpl. split; [done|]. eexists _, _. split; [done|]. by split_and!. }
  destruct (TLSConfig.caCerts s) as [|g gs].
  { simpl. go_simpl. split; [done|]. eexists _, _. split; [done|]. by split_and!. }
  destruct (Hs eq_refl) as (Hr & Hc & Hcs). simpl.
  destruct (TLSConfig.seen s) as [|p ps]; [simpl in Hl; lia|].
  apply Forall_cons in Hr as [Hp Hrs]. apply Forall_cons in Hn as [Hpn Hns'].
  apply wp_bind. eapply wp_mono; [apply GetServerCertificate_wp|].
  intros tr' [[r p']|k] [Hw' H]; [|done]. destruct H as (Hn' & Hp' & Hr). rewrite Hpn in Hw'.
  destruct r as [sc|e]; simpl.
  2:{ go_simpl. split; [by apply Forall_app|]. eexists _, _. split; [done|]. by split_and!. }
  destruct Hr as (c & crt & key & Hsc). apply wp_bind, wp_wrap. unfold GetCertificate.
  rewrite (complete_certPEM _ _ _ _ Hsc), (complete_keyPEM _ _ _ _ Hsc). simpl.
  assert (Hw2 : Forall (secret_write ns) (writes tr ++ writes tr')) by (by apply Forall_app).
  intros [kp|e]; go_simpl; (split; [done|]); eexists _, _; (split; [done|]); (split_and!; [done|done|]).
  - intros tls chain [= <- <-]. split; [|by destruct (TLSConfig.CACertChain s)].
    split_and!; [done|constructor; auto|constructor; [|done]|done|done|done|done|done].
    unfold in_namespace in *. congruence.
  - by intros tls chain.
Qed.

Lemma CreateRegistrationCertificate_wp config name :
  wp (CreateRegistrationCertificate config name) (λ tr out, Forall (secret_write (namespace config)) (writes tr) ∧
    match out with
    | Returned (r, config') => namespace config' = namespace config ∧ (ready config → ready config') ∧
        match r with Ok m => dom m = {[ clientCertCertKey; clientCertSecretKey ]} | Err _ => True end
    | Crashed _ => False
    end).
Proof.
  unfold CreateRegistrationCertificate. apply wp_bind. eapply wp_mono; [apply ca_provider_wp|].
  intros tr [[[g|e] config']|k] [Hw H]; simpl; [| |done].
  2:{ subst config'. go_simpl. by split_and!. }
  destruct H as [-> (c & crt & key & H)]. rewrite (complete_cert _ _ _ _ H). simpl. intros nb now na.
  assert (Hr : ready (mk (namespace config) (Some g))) by (by eexists _, _, _, _).
  apply wp_bind, wp_wrap. eapply wp_mono; [by eapply createKeyAndCSR_wp|].
  intros tr' [[g'|e]|k] [Hq H']; simpl; [| |done]; apply quiet_writes in Hq.
  2:{ go_simpl. rewrite Hq, app_nil_r. by split_and!. }
  apply wp_bind, wp_wrap. eapply wp_mono; [apply wp_and; [apply within_wp, CreatePem_quiet|apply CreatePem_wp]|].
  intros tr'' [[g''|e]|k] [Hq' H'']; simpl; [| |done]; apply quiet_writes in Hq'.
  - destruct H'' as (crt' & key' & ->). simpl. go_simpl. rewrite Hq, Hq', !app_nil_r.
    split_and!; [done|done|done|]. rewrite dom_insert_L, dom_singleton_L. set_solver.
  - go_simpl. rewrite Hq, Hq', !app_nil_r. by split_and!.
Qed.
End init.
#[local] Opaque CreateRegistrationCertificate.

(** The Secret with a registration certificate. *)
Definition registration_secret (ns suffix : string) (data : gmap string string) : Secret :=
  mkSecret (meta_set_labels (Some {[ "reg-client-ca" := "true"%string ]})
              (new_meta ("reg-client-ca-" +:+ suffix) ns)) data.

Lemma CreateRegistrationClientCerts_wp (conf : TLSConfig.t t) :
  Forall (in_namespace (TLSConfig.namespace conf)) (TLSConfig.caProvider conf) →
  wp (TLSConfig.CreateRegistrationClientCerts conf) (λ tr out,
    Forall (secret_write (TLSConfig.namespace conf)) (writes tr) ∧
    ∃ e conf', out = Returned (e, conf') ∧
      length (TLSConfig.caProvider conf') = length (TLSConfig.caProvider conf) ∧
      TLSConfig.clientExpirationDays conf' = TLSConfig.clientExpirationDays conf ∧
      (Forall ready (TLSConfig.caProvider conf) → Forall ready (TLSConfig.caProvider conf')) ∧
      (e = None → ∃ suffix data,
         dom data = {[ clientCertCertKey; clientCertSecretKey ]} ∧
         last (writes tr) = Some (CreateSecret (registration_secret (TLSConfig.namespace conf) suffix data)))).
Proof.
  unfold TLSConfig.CreateRegistrationClientCerts. intros Hns.
  destruct (TLSConfig.caProvider conf) as [|p ps] eqn:Hps.
  { split; [constructor|]. eexists _, _. split; [done|]. rewrite Hps. by split_and!. }
  apply Forall_cons in Hns as [Hp Hns]. unfold in_namespace in Hp.
  simpl. intros suffix. apply wp_bind. eapply wp_mono; [apply CreateRegistrationCertificate_wp|].
  intros tr [[r p']|k] [Hw H]; [|done]. destruct H as (Hn' & Hr & Hd). rewrite Hp in Hw.
  assert (Hready : Forall ready (p :: ps) → Forall ready (p' :: ps)).
  { intros [? ?]%Forall_cons. constructor; auto. }
  destruct r as [data|e]; simpl.
  - intros a. go_simpl. split.
    + rewrite Forall_app, Forall_singleton. split; [done|]. by eexists _, _.
    + eexists _, _. split; [done|]. simpl. split_and!; [done|done|done|]. intros _.
      exists suffix, data. split; [done|]. by rewrite last_snoc.
  - go_simpl. split; [done|]. eexists _, _. split; [done|]. by split_and!.
Qed.
