(* ===== verification/Main.v ===== *)
(** * Mutual TLS at the start, and the middleware ([main.go])

    The configuration, the goroutine that prepares mutual TLS, and the middleware
    in front of the message handlers. The rest of [main] is in [Startup]. *)
From S2P Require Import Prelude Effects K8s X509 Models Calls Concurrent Lookups CertUtils Mtls MtlsSpec Yggdrasil Labels Server.
From Stdlib Require Import Ascii.

(** [Config], as [envconfig] fills it in; [uint] is 64 bits wide. *)
Record Config := mkConfig {
  HttpPort : Z;
  HttpsPort : Z;
  Domain : string;
  TLSLocalhostEnabled : bool;
  MetricsAddr : string;
  ProbeAddr : string;
  EnableLeaderElection : bool;
  WebhookPort : Z;
  EnableObcAutoCreation : bool;
  LogLevel : string;
  EdgeDeploymentConcurrency : Z;
  ClientCertExpirationTime : Z;
  MaxConcurrentReconciles : Z;
}.

(** What the goroutine has in hand when it starts to serve. *)
Record served := mkServed {
  tlsConfig : TlsConfig;
  verify_options : VerifyOptions;
  chain : list (option Certificate);
  mtlsConfig : TLSConfig.t CASecretProvider.t;
}.

(** The goroutine, up to the handlers; an error of [SetClientExpiration] is
    only logged. *)
Definition prepare_tls (multierror : list error → error) (operatorNamespace : string) (config : Config)
    : go served :=
  let conf := TLSConfig.NewMTLSConfig operatorNamespace [Domain config] (TLSLocalhostEnabled config) in
  let conf := (TLSConfig.SetClientExpiration (to_int (ClientCertExpirationTime config)) conf).2 in
  r ← TLSConfig.InitCertificates multierror conf;
  match r with
  | (Err _, _) => Crash (Exit 1)
  | (Ok (tls, CACertChain), conf) =>
      r ← TLSConfig.CreateRegistrationClientCerts conf;
      match r with
      | (Some _, _) => Crash (Exit 1)
      | (None, conf) => Ret (mkServed tls (mkVerifyOptions (ClientCAs tls) [] []) CACertChain conf)
      end
  end.

(** ** The middleware *)

(** Of a request: its path, and its peer's certificates when it came over TLS. *)
Record HttpRequest := mkHttpRequest { url_Path : string; peer_certificates : option (list Certificate) }.

Inductive Answer (R : Type) := Unauthorized | Handled (r : R).
Arguments Unauthorized {_}.
Arguments Handled {_} _.

Definition InnerMiddleware {R} (s : served) (ServeHTTP : HttpRequest → go R) (r : HttpRequest)
    : go (Answer R) :=
  let serve := (x ← ServeHTTP r; Ret (Handled x)) in
  match peer_certificates r with
  | Some peers =>
      let authType := GetAuthType (url_Path r) in
      verified ← VerifyRequest peers authType (verify_options s) (chain s);
      if verified : bool then serve else Ret Unauthorized
  | None => serve
  end.

(** The endpoints of [swagger.yaml]: [/data] and [/control], in and out. *)
Inductive endpoint := DataIn | DataOut | ControlIn | ControlOut.
Definition basePath : string := "/api/flotta-management/v1".
Definition endpoint_path (e : endpoint) (device_id : string) : string :=
  basePath +:+
  match e with
  | DataIn => "/data/" +:+ device_id +:+ "/in"
  | DataOut => "/data/" +:+ device_id +:+ "/out"
  | ControlIn => "/control/" +:+ device_id +:+ "/in"
  | ControlOut => "/control/" +:+ device_id +:+ "/out"
  end.

(** ** Theorems *)
Lemma ready_signs (p : CASecretProvider.t) csr cn expiration :
  ready p →
  wp (CASecretProvider.SignCSR p csr cn expiration) (λ _ out,
    is_returned out = true ∧ out ≠ Returned (Err (ErrorString "Cannot get CA certificate"))).
Proof.
  intros (g & c & crt & key & Hg & H). unfold CASecretProvider.SignCSR. rewrite Hg. simpl.
  intros [block|]; simpl; [|done]. intros [CSR|e]; simpl; [|done]. intros serial now nb.
  rewrite (complete_cert _ _ _ _ H). simpl. intros [der|e]; simpl; [|done]. done.
Qed.

(** What the goroutine leaves prepared: one provider whose authority lacks nothing,
    so signing a request neither panics nor fails for want of an authority; the
    chain of that one authority; a server that asks every client for a
    certificate and speaks TLS 1.3; requests verified against the pool of the
    authorities, with no key usages asked for; and client certificates that live
    for the configured number of days, or seven when that number is zero or too
    large for an [int]. *)
Definition prepared (config : Config) (s : served) : Prop :=
  (∃ ca, chain s = [Some ca]) ∧
  ClientAuth (tlsConfig s) = RequireAnyClientCert ∧ MinVersion (tlsConfig s) = VersionTLS13 ∧
  verify_options s = mkVerifyOptions (ClientCAs (tlsConfig s)) [] [] ∧
  TLSConfig.clientExpirationDays (mtlsConfig s) =
    (if (0 <? to_int (ClientCertExpirationTime config))%Z
     then to_int (ClientCertExpirationTime config) else 7%Z) ∧
  ∀ csr cn, wp (TLSConfig.SignCSR (mtlsConfig s) csr cn) (λ _ out,
    is_returned out = true ∧ out ≠ Returned (Err (ErrorString "Cannot get CA certificate"))).

(** The preparation of mutual TLS either ends the process with status 1 or leaves
    the operator able to sign and to serve. All writes create Secrets in the
    operator's namespace. *)
Theorem prepare_tls_spec multierror operatorNamespace config :
  wp (prepare_tls multierror operatorNamespace config) (λ tr out,
    Forall (secret_write operatorNamespace) (writes tr) ∧
    match out with
    | Crashed c => c = Exit 1
    | Returned s => prepared config s
    end).
Proof.
  unfold prepare_tls. set (conf := (TLSConfig.SetClientExpiration _ _).2).
  assert (Hc : TLSConfig.caProvider conf = [CASecretProvider.mk operatorNamespace None] ∧
               TLSConfig.namespace conf = operatorNamespace ∧
               TLSConfig.clientExpirationDays conf =
                 (if (0 <? to_int (ClientCertExpirationTime config))%Z
                  then to_int (ClientCertExpirationTime config) else 7%Z)).
  { unfold conf, TLSConfig.SetClientExpiration. rewrite Z.leb_antisym.
    destruct (0 <? to_int _)%Z; by split_and!. }
  destruct Hc as (Hp & Hn & Hd). clearbody conf.
  apply wp_bind. eapply wp_mono; [apply (InitCertificates_wp multierror operatorNamespace)|].
  { rewrite Hp. by repeat constructor. }
  rewrite Hp, Hn, Hd. intros tr out (Hw & r & conf' & -> & Hn' & Hd' & Hok).
  destruct r as [[tls ch]|e]; simpl; [|by rewrite ?app_nil_r; split].
  destruct (Hok tls ch eq_refl) as [(Hlen & Hr & Hns & Hcl & Hcs & Hca & Hmv & _) _].
  apply wp_bind. eapply wp_mono; [apply CreateRegistrationClientCerts_wp; by rewrite Hn'|].
  intros tr' out (Hw' & e & conf'' & -> & Hlen' & Hd'' & Hr' & _). rewrite Hn' in Hw'.
  destruct e as [e|]; go_simpl; (split; [by apply Forall_app|]); [done|].
  unfold prepared; simpl. split_and!; [|done|done|done|congruence|].
  - destruct ch as [|ca [|]]; simpl in Hcl; try lia. apply Forall_singleton in Hcs as [x ->]. by exists x.
  - intros csr cn. unfold TLSConfig.SignCSR. specialize (Hr' Hr). rewrite Hlen in Hlen'.
    destruct (TLSConfig.caProvider conf'') as [|p ps]; [done|]. apply Forall_cons in Hr' as [Hrp _].
    apply wp_bind. simpl. intros now expiration. eapply wp_mono; [by apply ready_signs|]. done.
Qed.

(** The middleware stands in front of the handlers: an answer of a handler reaches a
    client that came over TLS only after [VerifyRequest] let its certificates
    through, with the authentication that the path of the request calls for; a
    client that is turned away causes no call of the handler; a request without
    TLS goes straight to the handler. *)
Theorem InnerMiddleware_spec {R} s (h : HttpRequest → go R) r tr out :
  exec (InnerMiddleware s h r) tr (Returned out) →
  match peer_certificates r with
  | None => ∃ x, out = Handled x ∧ exec (h r) tr (Returned x)
  | Some peers =>
      let verify := VerifyRequest peers (GetAuthType (url_Path r)) (verify_options s) (chain s) in
      (out = Unauthorized ∧ exec verify tr (Returned false)) ∨
      ∃ x tr1 tr2, out = Handled x ∧ tr = tr1 ++ tr2 ∧ exec verify tr1 (Returned true) ∧
        exec (h r) tr2 (Returned x)
  end.
Proof.
  assert (Hserve : ∀ tr, exec (x ← h r; Ret (Handled x)) tr (Returned out) →
    ∃ x, out = Handled x ∧ exec (h r) tr (Returned x)).
  { intros tr' [(x & t1 & t2 & -> & H1 & H2)|(c & [=] & _)]%exec_bind_inv.
    inversion H2; subst. rewrite app_nil_r. by exists x. }
  unfold InnerMiddleware. destruct (peer_certificates r) as [peers|]; [|apply Hserve].
  intros [(b & t1 & t2 & -> & H1 & H2)|(c & [=] & _)]%exec_bind_inv. destruct b.
  - right. apply Hserve in H2 as (x & -> & H2). by exists x, t1, t2.
  - left. inversion H2; subst. by rewrite app_nil_r.
Qed.

(** No endpoint's path ends in [registration]. *)
Lemma endpoint_auth e id : GetAuthType (endpoint_path e id) = Mtls.YggdrasilCompleteAuth.
Proof.
  unfold GetAuthType. destruct (isRegistrationURL _) eqn:E; [|done].
  apply isRegistrationURL_iff in E as [E|[p E]].
  - by destruct e.
  - exfalso. apply (f_equal (λ s, take 2 (reverse (chars s)))) in E. rewrite chars_app, reverse_app in E.
    unfold endpoint_path in E. destruct e; rewrite !chars_app, !reverse_app in E; vm_compute in E; congruence.
Qed.

(** A client that presents a registration certificate over TLS is turned away at
    every endpoint the operator has, whatever its identifier: no path of the
    interface ends in [registration], so the weaker authentication, which would
    accept it, is never chosen. *)
Theorem registration_certificate_refused {R} s (h : HttpRequest → go R) e id peers c :
  c ∈ peers → CommonName (Subject c) = certRegisterCN →
  wp (InnerMiddleware s h (mkHttpRequest (endpoint_path e id) (Some peers))) (λ tr out,
    writes tr = [] ∧ out = Returned Unauthorized).
Proof.
  intros Hin Hcn. unfold InnerMiddleware. simpl. rewrite endpoint_auth. apply wp_bind.
  eapply wp_mono; [apply VerifyRequest_wp|]. intros tr out (Hw & b & -> & H). destruct b; simpl.
  - destruct H as [_ H]. destruct (H c Hin). congruence.
  - by rewrite app_nil_r.
Qed.

(** What the documentation of [Certificate.Verify] says of key usages. *)
Definition verifies_usages (tr : list api_event) : Prop :=
  ∀ c opts, Ev (S := api) (VerifyCertificate c opts) (Ok tt) ∈ tr → usage_allowed c opts = true.

(** C27: A device that presents, over TLS, a certificate the operator signed for it
    is turned away at every endpoint: the certificate allows client
    authentication only, and the requests are verified without naming key
    usages, which the library documents to mean server authentication. *)
Theorem issued_certificate_refused {R} s (h : HttpRequest → go R) e id peers CSR cn serial nb na c :
  c = CASecretProvider.client_template CSR cn serial nb na → c ∈ peers →
  KeyUsages (verify_options s) = [] →
  wp (InnerMiddleware s h (mkHttpRequest (endpoint_path e id) (Some peers))) (λ tr out,
    verifies_usages tr → out = Returned Unauthorized).
Proof.
  intros -> Hin Hu. unfold InnerMiddleware. simpl. rewrite endpoint_auth. apply wp_bind.
  eapply wp_mono; [apply VerifyRequest_wp|]. intros tr out (Hw & b & -> & H). destruct b; [|done].
  destruct H as [_ H]. destruct (H _ Hin) as [_ Hv]. apply wp_exec. intros tr' out' _ Hok.
  specialize (Hok _ _ (incl_app_l tr tr' _ Hv)). unfold usage_allowed in Hok. rewrite Hu in Hok.
  by vm_compute in Hok.
Qed.

(** ** Witnesses *)
Definition some_served : served :=
  mkServed (mkTlsConfig ["cert"%string] ["ca"%string] RequireAnyClientCert VersionTLS13)
    (mkVerifyOptions ["ca"%string] [] []) [Some (Server.some_certificate "ca" [])]
    (TLSConfig.NewMTLSConfig "flotta" ["project-flotta.io"%string] true).

Definition hello (_ : HttpRequest) : go string := Ret "hello"%string.

(** The peer is verified and the handler answers. *)
Lemma InnerMiddleware_spec_witness :
  Server.outcome_of (InnerMiddleware some_served hello (mkHttpRequest "/x" (Some [Server.some_certificate "d" []])))
    Server.empty_cluster = Returned (Handled "hello"%string) ∧
  ∃ tr1 tr2, exec (VerifyRequest [Server.some_certificate "d" []] Mtls.YggdrasilCompleteAuth
                     (verify_options some_served) (chain some_served)) tr1 (Returned true) ∧
             exec (hello (mkHttpRequest "/x" (Some [Server.some_certificate "d" []]))) tr2 (Returned "hello"%string).
Proof.
  split; [by vm_compute|].
  set (req := mkHttpRequest "/x" (Some [Server.some_certificate "d" []])).
  destruct (InnerMiddleware_spec some_served hello req
    (run Server.server (InnerMiddleware some_served hello req) Server.empty_cluster).1.1 (Handled "hello"%string))
    as [[? _]|(x & tr1 & tr2 & [= <-] & _ & H1 & H2)].
  - exact (run_exec Server.server (InnerMiddleware some_served hello req) Server.empty_cluster eq_refl).
  - discriminate.
  - exists tr1, tr2. split; [exact H1|exact H2].
Defined.

Definition register_certificate : Certificate := Server.some_certificate "register" [].

Lemma registration_certificate_refused_witness :
  endpoint_path DataOut "device" = "/api/flotta-management/v1/data/device/out"%string ∧
  wp (InnerMiddleware some_served hello
        (mkHttpRequest (endpoint_path DataOut "device") (Some [register_certificate])))
     (λ tr out, writes tr = [] ∧ out = Returned Unauthorized).
Proof.
  split; [reflexivity|].
  apply (registration_certificate_refused some_served hello DataOut "device"
           [register_certificate] register_certificate); [left|reflexivity].
Defined.

Definition issued : Certificate :=
  CASecretProvider.client_template (mkCertificateRequest (mkPkixName "x" [] "" "") "pk" "sig") "device" 1 0 10.

(** The in-memory environment keeps the documented rule, and the device is turned away. *)
Lemma issued_certificate_refused_witness :
  Server.outcome_of (InnerMiddleware some_served hello
      (mkHttpRequest (endpoint_path DataIn "device") (Some [issued]))) Server.empty_cluster
    = Returned Unauthorized ∧
  wp (InnerMiddleware some_served hello (mkHttpRequest (endpoint_path DataIn "device") (Some [issued])))
     (λ tr out, verifies_usages tr → out = Returned Unauthorized).
Proof.
  split; [by vm_compute|].
  eapply (issued_certificate_refused some_served hello DataIn "device" [issued]);
    [reflexivity|left|reflexivity].
Defined.
