(* ===== verification/Startup.v ===== *)
(** * The start of the process ([main.go])

    [init] registers the types and finds the namespace; [main] reads the
    configuration, sets up the manager, the controllers, the webhook and the
    checks, starts the goroutine that serves devices ([prepare_tls] and the server
    of [Main] and [Rest]) and the watch on the ConfigMap ([Watcher]), and hands
    over to the manager. Here it is a program over the calls it makes of the
    libraries, each of which may fail. *)
From S2P Require Import Prelude Effects K8s Labels X509 Models Calls Concurrent Main.
From Stdlib Require Import Ascii.

(** The controllers, with the fields that [main] sets from the configuration. *)
Inductive controller :=
  | EdgeDeviceReconciler (ObcAutoCreate : bool) (MaxConcurrentReconciles : Z)
  | EdgeDeviceLabelsReconciler (MaxConcurrentReconciles : Z)
  | EdgeDeploymentReconciler (Concurrency MaxConcurrentReconciles : Z).

Record ManagerOptions := mkManagerOptions {
  MetricsBindAddress : string;
  Port : Z;
  HealthProbeBindAddress : string;
  LeaderElection : bool;
  LeaderElectionID : string;
}.

(** What [os.Stat] says of a path. *)
Inductive stat := Exists | NotExist | StatFailed.

Inductive start_op :=
  | AddToScheme (package : string)
  | Stat (path : string)
  | ReadFile (path : string)
  | EnvconfigProcess
  | UnmarshalLevel (text : string)
  | GetConfig
  | NewManager (options : ManagerOptions)
  | SetupWithManager (c : controller)
  | Getenv (name : string)
  | SetupWebhookWithManager
  | AddHealthzCheck (name : string)
  | AddReadyzCheck (name : string)
  | GoServe (namespace : string) (config : Config)
  | NewForConfig
  | GetOperatorConfigMap (namespace name : string)
  | GoWatchForChanges (namespace name dataField dataValue : string)
  | StartManager.

Definition start_ans (o : start_op) : Type :=
  match o with
  | AddToScheme _ | UnmarshalLevel _ | GetConfig | NewManager _ | SetupWithManager _
  | SetupWebhookWithManager | AddHealthzCheck _ | AddReadyzCheck _ | NewForConfig | StartManager => result unit
  | Stat _ => stat
  | ReadFile _ => result string
  | EnvconfigProcess => result Config
  | Getenv _ => string
  | GoServe _ _ | GoWatchForChanges _ _ _ _ => unit
  | GetOperatorConfigMap _ _ => result ConfigMap
  end.

Definition startup : signature := Signature start_op start_ans.
Abbreviation start := (prog startup).
Definition start_call (o : start_op) : start (start_ans o) := @call startup o.

(** [if err != nil { ...; os.Exit(1) }] *)
Definition or_exit {A} (p : start (result A)) : start A :=
  r ← p; match r with Ok a => Ret a | Err _ => Crash (Exit 1) end.

Definition initialDeviceNamespace : string := "default".
Definition defaultOperatorNamespace : string := "flotta".
Definition defaultConfigMapName : string := "flotta-operator-manager-config".
Definition logLevelLabel : string := "LOG_LEVEL".
Definition serviceaccount : string := "/var/run/secrets/kubernetes.io/serviceaccount".

(** [strings.TrimSpace] on ASCII text *)
Definition is_space (c : ascii) : bool :=
  let n := N_of_ascii c in ((n =? 32) || (9 <=? n) && (n <=? 13))%N.
Fixpoint trim_left (s : list ascii) : list ascii :=
  match s with c :: s' => if is_space c then trim_left s' else s | [] => [] end.
Definition TrimSpace (s : string) : string :=
  String.string_of_list_ascii (rev (trim_left (rev (trim_left (chars s))))).

(** Any error but [IsNotExist] counts as being in a cluster. *)
Definition isInCluster : start bool :=
  s ← start_call (Stat serviceaccount);
  Ret (match s with NotExist => false | Exists | StatFailed => true end).

Definition getOperatorNamespace : start (result string) :=
  in_cluster ← isInCluster;
  if negb in_cluster then Ret (Ok defaultOperatorNamespace)
  else
    ns ←? start_call (ReadFile (serviceaccount +:+ "/namespace"));
    Ret (Ok (TrimSpace ns)).

(** [utilruntime.Must] *)
Definition must_add (package : string) : start unit :=
  r ← start_call (AddToScheme package);
  match r with Ok _ => Ret tt | Err _ => Crash Panic end.

(** [init], with the namespace it stores. *)
Definition init : start string :=
  _ ← must_add "clientgoscheme";
  _ ← must_add "managementv1alpha1";
  _ ← must_add "obv1";
  _ ← must_add "routev1";
  or_exit getOperatorNamespace.

Definition manager_options (config : Config) : ManagerOptions :=
  mkManagerOptions (MetricsAddr config) (WebhookPort config) (ProbeAddr config) (EnableLeaderElection config)
    "b9eebab3.project-flotta.io".

Definition controllers (config : Config) : list controller :=
  [EdgeDeviceReconciler (EnableObcAutoCreation config) (to_int (MaxConcurrentReconciles config));
   EdgeDeviceLabelsReconciler (to_int (MaxConcurrentReconciles config));
   EdgeDeploymentReconciler (EdgeDeploymentConcurrency config) (to_int (MaxConcurrentReconciles config))].

Definition setup_controllers (cs : list controller) : start unit :=
  foldM (λ _ c, or_exit (start_call (SetupWithManager c))) tt cs.

(** The block [if isInCluster() { ... }]. A ConfigMap without the field is read
    as the empty text. *)
Definition watch_configmap (operatorNamespace : string) : start unit :=
  in_cluster ← isInCluster;
  if in_cluster : bool then
    _ ← or_exit (start_call NewForConfig);
    currentConfigMap ← or_exit (start_call (GetOperatorConfigMap operatorNamespace defaultConfigMapName));
    start_call (GoWatchForChanges operatorNamespace defaultConfigMapName logLevelLabel
      (default ""%string (cm_Data currentConfigMap !! logLevelLabel)))
  else Ret tt.

(** What [main] does once the controllers and the webhook are set up. *)
Definition run_manager (operatorNamespace : string) (config : Config) : start unit :=
  _ ← or_exit (start_call (AddHealthzCheck "healthz"));
  _ ← or_exit (start_call (AddReadyzCheck "readyz"));
  _ ← start_call (GoServe operatorNamespace config);
  _ ← watch_configmap operatorNamespace;
  or_exit (start_call StartManager).

Definition main (operatorNamespace : string) : start unit :=
  config ← or_exit (start_call EnvconfigProcess);
  if (EdgeDeploymentConcurrency config =? 0)%Z then Crash (Exit 1) else
  _ ← or_exit (start_call (UnmarshalLevel (LogLevel config)));
  _ ← or_exit (start_call GetConfig);
  _ ← or_exit (start_call (NewManager (manager_options config)));
  _ ← setup_controllers (controllers config);
  webhooks ← start_call (Getenv "ENABLE_WEBHOOKS");
  _ ← (if negb (String.eqb webhooks "false") then or_exit (start_call SetupWebhookWithManager) else Ret tt);
  run_manager operatorNamespace config.

(** ** Theorems *)

(** An answer that stops the process. *)
Definition refused (e : event startup) : bool :=
  match e with
  | Ev (AddToScheme _ | UnmarshalLevel _ | GetConfig | NewManager _ | SetupWithManager _
        | SetupWebhookWithManager | AddHealthzCheck _ | AddReadyzCheck _ | NewForConfig | StartManager) a => negb (is_ok a)
  | Ev (ReadFile _) a => negb (is_ok a)
  | Ev EnvconfigProcess a =>
      match a with Ok config => (EdgeDeploymentConcurrency config =? 0)%Z | Err _ => true end
  | Ev (GetOperatorConfigMap _ _) a => negb (is_ok a)
  | _ => false
  end.

(** The calls of a start, given what is answered on the way. *)
Definition webhook_calls (webhooks : string) : list start_op :=
  if String.eqb webhooks "false" then [] else [SetupWebhookWithManager].
Definition watch_calls (operatorNamespace : string) (in_cluster : stat) (cm : ConfigMap) : list start_op :=
  match in_cluster with
  | NotExist => []
  | _ => [NewForConfig; GetOperatorConfigMap operatorNamespace defaultConfigMapName;
          GoWatchForChanges operatorNamespace defaultConfigMapName logLevelLabel
            (default ""%string (cm_Data cm !! logLevelLabel))]
  end.
Definition serve_calls (operatorNamespace : string) (config : Config) (in_cluster : stat) (cm : ConfigMap)
    : list start_op :=
  [AddHealthzCheck "healthz"; AddReadyzCheck "readyz"; GoServe operatorNamespace config; Stat serviceaccount] ++
  watch_calls operatorNamespace in_cluster cm ++ [StartManager].
Definition main_calls (operatorNamespace : string) (config : Config) (webhooks : string) (in_cluster : stat)
    (cm : ConfigMap) : list start_op :=
  [EnvconfigProcess; UnmarshalLevel (LogLevel config); GetConfig; NewManager (manager_options config)] ++
  (SetupWithManager <$> controllers config) ++
  [Getenv "ENABLE_WEBHOOKS"] ++ webhook_calls webhooks ++ serve_calls operatorNamespace config in_cluster cm.

(** A call whose answer stops the process stops it so. *)
Definition stops (e : event startup) : crash :=
  match e with Ev (AddToScheme _) _ => Panic | _ => Exit 1 end.

(** The execution that goes through the calls in order up to the first answer
    that stops the process; every answer before is as [expected]. *)
Inductive follows {R} (expected : event startup → Prop) (r : R)
    : list start_op → list (event startup) → outcome R → Prop :=
  | follows_end : follows expected r [] [] (Returned r)
  | follows_stop o a cs :
      refused (Ev o a) = true → follows expected r (o :: cs) [Ev o a] (Crashed (stops (Ev o a)))
  | follows_next o a cs tr out :
      refused (Ev o a) = false → expected (Ev o a) → follows expected r cs tr out →
      follows expected r (o :: cs) (Ev o a :: tr) out.

(** The calls of [init], for an answer about the mount of the service account. *)
Definition init_calls (in_cluster : stat) : list start_op :=
  (AddToScheme <$> ["clientgoscheme"; "managementv1alpha1"; "obv1"; "routev1"]) ++ [Stat serviceaccount] ++
  match in_cluster with NotExist => [] | _ => [ReadFile (serviceaccount +:+ "/namespace")] end.
Definition init_answered (in_cluster : stat) (text : string) (e : event startup) : Prop :=
  match e with
  | Ev (Stat _) a => a = in_cluster
  | Ev (ReadFile _) a => a = Ok text
  | _ => True
  end.
Definition found_namespace (in_cluster : stat) (text : string) : string :=
  match in_cluster with NotExist => defaultOperatorNamespace | _ => TrimSpace text end.

(** The answers that decide how the start goes on. *)
Definition expected_answers (config : Config) (webhooks : string) (in_cluster : stat) (cm : ConfigMap)
    (e : event startup) : Prop :=
  match e with
  | Ev EnvconfigProcess a => a = Ok config
  | Ev (Getenv _) a => a = webhooks
  | Ev (Stat _) a => a = in_cluster
  | Ev (GetOperatorConfigMap _ _) a => a = Ok cm
  | _ => True
  end.

Definition no_config : Config := mkConfig 0 0 "" false "" "" false 0 false "" 0 0 0.
Definition no_configmap : ConfigMap := mkConfigMap (new_meta "" "") ∅.

Lemma follows_prefix {R} expected (r : R) cs tr out :
  follows expected r cs tr out → (ev_op (S := startup) <$> tr : list start_op) `prefix_of` cs.
Proof.
  induction 1 as [|o a cs H|o a cs tr out H He Hf IH]; simpl; [done| |by apply prefix_cons].
  by apply prefix_cons, prefix_nil.
Qed.

Lemma follows_cons {R} expected (r : R) o cs tr out :
  follows expected r (o :: cs) tr out →
  ∃ (a : start_ans o) tr', tr = Ev (S := startup) o a :: tr' ∧
    (refused (Ev (S := startup) o a) = true ∧ tr' = [] ∧ out = Crashed (stops (Ev (S := startup) o a)) ∨
     refused (Ev (S := startup) o a) = false ∧ expected (Ev (S := startup) o a) ∧ follows expected r cs tr' out).
Proof. inversion 1; subst; eauto 10. Qed.

Ltac follow_calls :=
  repeat first
    [ apply follows_end
    | apply follows_stop; first [done | by simpl; case_match]
    | apply follows_next; [first [done | by simpl; case_match]|done|] ].
(** The next answer: a refusal ends the execution, with the answers so far. *)
Ltac next_answer tac := intros [[]|?]; simpl; [|tac; by follow_calls].

Lemma run_manager_follows ns config webhooks :
  wp (run_manager ns config)
     (λ tr out, ∃ in_cluster cm, follows (expected_answers config webhooks in_cluster cm) tt
        (serve_calls ns config in_cluster cm) tr out).
Proof.
  unfold run_manager. simpl. do 2 next_answer ltac:(exists NotExist, no_configmap). intros [] in_cluster.
  destruct in_cluster; simpl;
    try (next_answer ltac:(eexists _, no_configmap); intros [cm|e]; simpl;
         [intros [] [[]|e]; simpl; eexists _, cm; by follow_calls
         |eexists _, no_configmap; by follow_calls]).
  intros [[]|e]; simpl; exists NotExist, no_configmap; by follow_calls.
Qed.

(** The next call of a followed execution, made by the program. *)
Ltac next_call H :=
  let a := fresh "a" in let tr := fresh "tr" in let Hr := fresh "Hr" in let Ha := fresh "Ha" in
  apply follows_cons in H as (a & tr & -> & [(Hr & -> & ->)|(Hr & Ha & H)]); simpl in Hr;
  [ first [discriminate Hr | destruct a; [discriminate Hr|]; apply exec_call; simpl; constructor]
  | simpl in Ha; first [subst a | destruct a as [[]|]; [|discriminate Hr] | destruct a]; apply exec_call; simpl ].

Lemma run_manager_complete ns config webhooks in_cluster cm tr out :
  follows (expected_answers config webhooks in_cluster cm) tt (serve_calls ns config in_cluster cm) tr out →
  exec (run_manager ns config) tr out.
Proof.
  intros H. unfold run_manager, serve_calls in *. simpl. do 3 next_call H.
  next_call H. destruct in_cluster; simpl in H |- *;
    repeat next_call H; inversion H; constructor.
Qed.

#[local] Opaque run_manager.

Lemma main_follows ns :
  wp (main ns) (λ tr out, ∃ config webhooks in_cluster cm,
    follows (expected_answers config webhooks in_cluster cm) tt (main_calls ns config webhooks in_cluster cm) tr out).
Proof.
  unfold main. simpl. intros [config|e]; simpl;
    [|exists no_config, ""%string, NotExist, no_configmap; by follow_calls].
  destruct (EdgeDeploymentConcurrency config =? 0)%Z eqn:E.
  { simpl. exists config, ""%string, NotExist, no_configmap. by follow_calls. }
  simpl. do 6 next_answer ltac:(exists config, ""%string, NotExist, no_configmap).
  intros webhooks. destruct (webhooks =? "false")%string eqn:Ew; simpl.
  - eapply wp_mono; [apply (run_manager_follows ns config webhooks)|].
    intros tr out (in_cluster & cm & H). exists config, webhooks, in_cluster, cm.
    unfold main_calls, webhook_calls. rewrite Ew. by follow_calls.
  - next_answer ltac:(exists config, webhooks, NotExist, no_configmap; unfold main_calls, webhook_calls; rewrite Ew).
    eapply wp_mono; [apply (run_manager_follows ns config webhooks)|].
    intros tr out (in_cluster & cm & H). exists config, webhooks, in_cluster, cm.
    unfold main_calls, webhook_calls. rewrite Ew. by follow_calls.
Qed.

Lemma main_complete ns config webhooks in_cluster cm tr out :
  follows (expected_answers config webhooks in_cluster cm) tt (main_calls ns config webhooks in_cluster cm) tr out →
  exec (main ns) tr out.
Proof.
  intros H. unfold main. simpl. unfold main_calls in H. simpl in H.
  apply follows_cons in H as (a & tr' & -> & [(Hr & -> & ->)|(Hr & Ha & H)]); simpl in Hr; apply exec_call; simpl.
  - destruct a as [c|]; [|constructor]. simpl. rewrite Hr. constructor.
  - simpl in Ha. subst a. simpl. rewrite Hr. do 6 next_call H. next_call H.
    unfold webhook_calls in H. destruct (webhooks =? "false")%string; simpl in H |- *.
    + by eapply run_manager_complete.
    + next_call H. by eapply run_manager_complete.
Qed.
#[local] Transparent run_manager.

(** [init] registers the types, where an error is a panic, and finds the
    namespace: the one of the service account's mount, without the white space
    around it, or [flotta] when there is no such mount. *)
Lemma init_spec tr out :
  exec init tr out ↔
  ∃ in_cluster text, follows (init_answered in_cluster text) (found_namespace in_cluster text)
    (init_calls in_cluster) tr out.
Proof.
  split; revert tr out.
  - apply wp_exec. unfold init, must_add. simpl.
    do 4 next_answer ltac:(exists NotExist, ""%string).
    intros in_cluster. destruct in_cluster; simpl.
    2: exists NotExist, ""%string; by follow_calls.
    all: intros [text|e]; simpl; [eexists _, text; by follow_calls|eexists _, ""%string; by follow_calls].
  - intros tr out (in_cluster & text & H). unfold init, must_add, init_calls in *. simpl in H |- *.
    do 5 next_call H. destruct in_cluster; simpl in H |- *; repeat next_call H; inversion H; constructor.
Qed.

(** C25: The start of the process, call by call. The executions of [main] are
    exactly those that make these calls, in this order, and stop with status 1
    right after the first answer that refuses: the configuration is read, the
    log level parsed, the cluster's configuration found, the manager made with
    the addresses of the configuration, the three controllers set up with its
    limits, the webhook only when [ENABLE_WEBHOOKS] is not [false], the two
    checks added, the goroutine that serves devices started, the watch started
    on the log level that the ConfigMap holds now, only inside a cluster, and
    last the manager started. A configuration without concurrency for
    deployments refuses like an error, so no controller is ever set up with
    none. *)
Theorem main_spec ns tr out :
  exec (main ns) tr out ↔
  ∃ config webhooks in_cluster cm,
    follows (expected_answers config webhooks in_cluster cm) tt (main_calls ns config webhooks in_cluster cm) tr out.
Proof.
  split; [|intros (? & ? & ? & ? & H); by eapply main_complete].
  revert tr out. apply wp_exec, main_follows.
Qed.
