(* ===== verification/Webhook.v ===== *)
(** * The validating webhook ([api/v1alpha1/edgedeployment_webhook.go])

    Which deployments the operator admits, and what it tells the user about
    the others. *)
From S2P Require Import Prelude K8s V1alpha1.
From Stdlib Require Import Ascii.
Import v1alpha1.

Definition containersMsg (container : Container) (field : string) : string :=
  "containers[" +:+ container_Name container +:+ "]." +:+ field.

Definition envMsg (container : Container) (envVar : EnvVar) (field : string) : string :=
  "containers[" +:+ container_Name container +:+ "].env[" +:+ env_Name envVar +:+ "].ValueFrom." +:+ field.

Definition newline : string := String (ascii_of_nat 10) EmptyString.

Definition collision (container : Container) : error :=
  ErrorString ("name collisions for containers within the same pod spec are not supported." +:+ newline +:+
    "container name: '" +:+ container_Name container +:+ "' has been reused").

(** [if c { notValidPaths = append(notValidPaths, msg) }] *)
Definition path_if (c : bool) (msg : string) : list string := if c then [msg] else [].

Definition env_paths (container : Container) (envVar : EnvVar) : list string :=
  match ValueFrom envVar with
  | None => []
  | Some source =>
      match FieldRef source, ResourceFieldRef source with
      | Some _, _ => [envMsg container envVar "fieldRef"]
      | None, Some _ => [envMsg container envVar "resourceFieldRef"]
      | None, None => []
      end
  end.

Definition set {A} (p : option A) : bool := match p with Some _ => true | None => false end.

(** The paths that one iteration over the containers adds. *)
Definition container_paths (c : Container) : list string :=
  path_if (set (Lifecycle c)) (containersMsg c "lifecycle") ++
  path_if (set (LivenessProbe c)) (containersMsg c "livenessProbe") ++
  path_if (set (ReadinessProbe c)) (containersMsg c "readinessProbe") ++
  path_if (set (StartupProbe c)) (containersMsg c "startupProbe") ++
  path_if (negb (Nat.eqb (length (VolumeDevices c)) 0)) (containersMsg c "volumeDevices") ++
  path_if (negb (Nat.eqb (size (Limits c)) 0)) (containersMsg c "resources.limits") ++
  path_if (negb (Nat.eqb (size (Requests c)) 0)) (containersMsg c "resources.requests") ++
  concat (env_paths c <$> Env c).

Fixpoint validate_containers (containers : list Container) (containersNames : gset string)
    (notValidPaths : list string) : result (list string) :=
  match containers with
  | [] => Ok notValidPaths
  | container :: containers =>
      let notValidPaths := notValidPaths ++ container_paths container in
      if decide (container_Name container ∈ containersNames) then Err (collision container)
      else validate_containers containers ({[ container_Name container ]} ∪ containersNames) notValidPaths
  end.

Definition volume_paths (volume : Volume) : list string :=
  path_if (negb (set (HostPath volume))) ("volumes[" +:+ volume_Name volume +:+ "]").

Definition not_supported (paths : list string) : error :=
  ErrorString ("the following paths in podSpec are not supported and should be removed: "
               +:+ String.concat "," paths).

Definition validate (r : EdgeDeployment) : option error :=
  let podSpec := EdgeDeploymentSpec_Pod (EdgeDeployment_Spec r) in
  match validate_containers (allContainers podSpec) ∅ [] with
  | Err e => Some e
  | Ok notValidPaths =>
      let notValidPaths := notValidPaths ++ concat (volume_paths <$> Volumes podSpec) in
      if Nat.eqb (length notValidPaths) 0 then None else Some (not_supported notValidPaths)
  end.

Definition ValidateCreate (r : EdgeDeployment) : option error := validate r.
Definition ValidateUpdate (r : EdgeDeployment) : option error := validate r.
Definition ValidateDelete (r : EdgeDeployment) : option error := None.

(** ** Theorems *)

(** What a container may use. *)
Definition env_supported (e : EnvVar) : Prop :=
  ∀ source, ValueFrom e = Some source → FieldRef source = None ∧ ResourceFieldRef source = None.

Record supported (c : Container) : Prop := {
  no_lifecycle : Lifecycle c = None;
  no_liveness : LivenessProbe c = None;
  no_readiness : ReadinessProbe c = None;
  no_startup : StartupProbe c = None;
  no_devices : VolumeDevices c = [];
  no_limits : Limits c = ∅;
  no_requests : Requests c = ∅;
  envs_supported : Forall env_supported (Env c);
}.

Lemma path_if_nil c msg : path_if c msg = [] ↔ c = false.
Proof. by destruct c. Qed.

Lemma set_false {A} (p : option A) : set p = false ↔ p = None.
Proof. by destruct p. Qed.

Lemma concat_nil {A B} (f : A → list B) xs : concat (f <$> xs) = [] ↔ Forall (λ x, f x = []) xs.
Proof.
  induction xs as [|x xs IH]; csimpl; [by rewrite Forall_nil|].
  rewrite Forall_cons, <- IH. split; [apply app_eq_nil|intros [-> ->]; done].
Qed.

Lemma env_paths_nil c e : env_paths c e = [] ↔ env_supported e.
Proof.
  unfold env_paths, env_supported. destruct (ValueFrom e) as [s|]; [|by split].
  split.
  - intros H s' [= <-]. by destruct (FieldRef s), (ResourceFieldRef s).
  - intros H. by destruct (H s eq_refl) as [-> ->].
Qed.

Lemma container_paths_nil c : container_paths c = [] ↔ supported c.
Proof.
  unfold container_paths. rewrite !app_nil, !path_if_nil, !set_false, !negb_false_iff, !Nat.eqb_eq, concat_nil.
  setoid_rewrite env_paths_nil. rewrite !map_size_empty_iff, length_zero_iff_nil.
  split; [intros (?&?&?&?&?&?&?&?); by split|intros []; by split_and!].
Qed.

Lemma validate_containers_ok cs names acc :
  NoDup (container_Name <$> cs) → (∀ c, c ∈ cs → container_Name c ∉ names) →
  validate_containers cs names acc = Ok (acc ++ concat (container_paths <$> cs)).
Proof.
  revert names acc; induction cs as [|c cs IH]; intros names acc; csimpl; [by rewrite app_nil_r|].
  intros [Hc Hnd]%NoDup_cons Hn. rewrite decide_False by (apply Hn; left). rewrite IH; [by rewrite app_assoc|done|].
  intros c' Hc'. rewrite elem_of_union, elem_of_singleton. intros [E|E].
  - apply Hc. rewrite <- E. by apply list_elem_of_fmap_2.
  - by apply (Hn c'); [right|].
Qed.

Lemma validate_containers_collision pre c post names acc :
  NoDup (container_Name <$> pre) → (∀ c, c ∈ pre → container_Name c ∉ names) →
  container_Name c ∈ names ∨ container_Name c ∈ container_Name <$> pre →
  validate_containers (pre ++ c :: post) names acc = Err (collision c).
Proof.
  revert names acc; induction pre as [|p pre IH]; intros names acc; csimpl.
  - intros _ _ [Hc|[]%elem_of_nil]. by rewrite decide_True.
  - intros [Hp Hnd]%NoDup_cons Hn Hc. rewrite decide_False by (apply Hn; left). apply IH; [done| |].
    + intros c' Hc'. rewrite elem_of_union, elem_of_singleton. intros [E|E].
      * apply Hp. rewrite <- E. by apply list_elem_of_fmap_2.
      * by apply (Hn c'); [right|].
    + rewrite elem_of_cons in Hc. set_solver.
Qed.

(** A list without repetition, or its first repeated element. *)
Lemma first_repeated (cs : list Container) :
  NoDup (container_Name <$> cs) ∨
  ∃ pre c post, cs = pre ++ c :: post ∧ NoDup (container_Name <$> pre) ∧
    container_Name c ∈ container_Name <$> pre.
Proof.
  induction cs as [|c cs IH] using rev_ind; [left; constructor|].
  destruct IH as [H|(pre & x & post & -> & H & Hx)].
  - destruct (decide (container_Name c ∈ container_Name <$> cs)) as [Hc|Hc].
    + right. by exists cs, c, [].
    + left. rewrite fmap_app. apply NoDup_app. split_and!; [done| |apply NoDup_singleton].
      intros x Hx. csimpl. intros ->%list_elem_of_singleton. done.
  - right. exists pre, x, (post ++ [c]). by rewrite <- app_assoc.
Qed.

Section deployment.
Variable r : EdgeDeployment.
Let podSpec := EdgeDeploymentSpec_Pod (EdgeDeployment_Spec r).
Let containers := allContainers podSpec.

Definition rejected_paths : list string :=
  concat (container_paths <$> containers) ++ concat (volume_paths <$> Volumes podSpec).

Lemma rejected_paths_nil :
  rejected_paths = [] ↔ Forall supported containers ∧ Forall (λ v, HostPath v ≠ None) (Volumes podSpec).
Proof.
  unfold rejected_paths. rewrite app_nil, !concat_nil. setoid_rewrite container_paths_nil.
  assert (∀ v, volume_paths v = [] ↔ HostPath v ≠ None) as Hv.
  { intros v. unfold volume_paths. rewrite path_if_nil, negb_false_iff. by destruct (HostPath v). }
  by setoid_rewrite Hv.
Qed.

Lemma validate_distinct :
  NoDup (container_Name <$> containers) →
  validate r = match rejected_paths with [] => None | paths => Some (not_supported paths) end.
Proof.
  intros H. unfold validate. rewrite validate_containers_ok by set_solver. unfold rejected_paths, containers, podSpec. simpl.
  by destruct (_ ++ _).
Qed.

(** C32: The webhook admits exactly the deployments whose containers, the initial
    ones included, have distinct names and use no lifecycle hook, probe, volume
    device, resource limit or request and no environment variable taken from a
    field or a resource, and whose volumes are all host paths; creation and
    update are judged alike, and every deletion is admitted. *)
Theorem validate_accepts :
  (ValidateCreate r = None ↔
     NoDup (container_Name <$> containers) ∧ Forall supported containers ∧
     Forall (λ v, HostPath v ≠ None) (Volumes podSpec)) ∧
  ValidateUpdate r = ValidateCreate r ∧ ValidateDelete r = None.
Proof.
  split; [|done]. unfold ValidateCreate. rewrite <- rejected_paths_nil. split.
  - destruct (first_repeated containers) as [H|(pre & c & post & Hcs & Hnd & Hc)].
    + rewrite validate_distinct by done. by destruct rejected_paths.
    + unfold validate. fold podSpec containers. rewrite Hcs.
      rewrite validate_containers_collision by set_solver. done.
  - intros [H1 H2]. rewrite validate_distinct by done. by rewrite H2.
Qed.

(** What the webhook says of the others: a repeated container name is reported
    first, naming the first container that repeats one, and hides every other
    complaint; with distinct names the report lists every unsupported path,
    container by container and then volume by volume, separated by commas. *)
Theorem validate_reports :
  (∀ pre c post, containers = pre ++ c :: post → NoDup (container_Name <$> pre) →
     container_Name c ∈ container_Name <$> pre → validate r = Some (collision c)) ∧
  (NoDup (container_Name <$> containers) → rejected_paths ≠ [] →
     validate r = Some (not_supported rejected_paths)).
Proof.
  split.
  - intros pre c post Hcs Hnd Hc. unfold validate. fold podSpec containers. rewrite Hcs.
    rewrite validate_containers_collision by set_solver. done.
  - intros H Hne. rewrite validate_distinct by done. by destruct rejected_paths.
Qed.
End deployment.
