(* ===== verification/Watcher.v ===== *)
(** * The watch on the operator's ConfigMap ([watchers/configmap_watcher.go])

    The process ends, to be restarted with the new value, when the watched
    field changes, or when no watcher can be created in ten attempts. A channel
    is the list of the events received until it is closed. The calls of [Watch]
    are answered by an error or by a channel; [WatchForChanges] loops forever, so
    it is run on the answers that have been given so far. *)
From S2P Require Import Prelude Effects K8s.

Inductive EventType := Added | Modified | Deleted | OtherEvent.

(** [event.Object], when it is a ConfigMap. *)
Record WatchEvent := mkWatchEvent { Event_Type : EventType; Event_Object : option ConfigMap }.

(** Does this event end the process? *)
Definition restarts (dataField dataValue : string) (event : WatchEvent) : bool :=
  match Event_Type event with
  | Added | Modified =>
      match Event_Object event with
      | Some updatedMap =>
          match cm_Data updatedMap !! dataField with
          | Some updatedValue => negb (String.eqb updatedValue dataValue)
          | None => false
          end
      | None => false
      end
  | Deleted | OtherEvent => false
  end.

Fixpoint checkConfigMapChanges (eventChannel : list WatchEvent) (dataField dataValue : string) : outcome unit :=
  match eventChannel with
  | [] => Returned tt
  | event :: eventChannel =>
      if restarts dataField dataValue event then Crashed (Exit 1)
      else checkConfigMapChanges eventChannel dataField dataValue
  end.

(** ** [createWatcher] *)

(** [wait.Backoff]; the random jitter only lengthens the pauses. *)
Record Backoff := mkBackoff { Steps : nat; Duration : Z; Factor : Z; Cap : Z }.
Definition Second : Z := 1000000000.
Definition backoff : Backoff := mkBackoff 10 (10 * Second) 2 (2 * 3600 * Second).

Definition Step (b : Backoff) : Backoff :=
  let next := (Duration b * Factor b)%Z in
  if ((0 <? Cap b) && (Cap b <? next))%Z then mkBackoff 0 (Cap b) (Factor b) (Cap b)
  else mkBackoff (pred (Steps b)) next (Factor b) (Cap b).

(** Every error can be retried. *)
Definition retriable (err : option error) : bool := match err with Some _ => true | None => false end.

Inductive created :=
  | Watching (eventChannel : list WatchEvent) (answers : list (result (list WatchEvent)))
  | GaveUp (err : option error)
  | Waiting.

(** [retry.OnError] around [Watch]; the fuel is above [Steps]. *)
Fixpoint OnError (fuel : nat) (b : Backoff) (lastErr : option error) (answers : list (result (list WatchEvent)))
    : created :=
  match fuel with
  | 0 => Waiting
  | S fuel =>
      if Nat.eqb (Steps b) 0 then GaveUp lastErr
      else
        match answers with
        | [] => Waiting
        | Ok eventChannel :: answers => Watching eventChannel answers
        | Err err :: answers =>
            if retriable (Some err) then
              if Nat.eqb (Steps b) 1 then GaveUp (Some err) else OnError fuel (Step b) (Some err) answers
            else GaveUp (Some err)
        end
  end.

Definition createWatcher (answers : list (result (list WatchEvent))) : created :=
  OnError (S (Steps backoff)) backoff None answers.

(** [Returned] when the answers given are used up means that the loop goes on. *)
Fixpoint watch_sessions (fuel : nat) (answers : list (result (list WatchEvent))) (dataField dataValue : string)
    : outcome unit :=
  match fuel with
  | 0 => Returned tt
  | S fuel =>
      match createWatcher answers with
      | Waiting => Returned tt
      | GaveUp _ => Crashed (Exit 1)
      | Watching eventChannel answers =>
          match checkConfigMapChanges eventChannel dataField dataValue with
          | Crashed c => Crashed c
          | Returned _ => watch_sessions fuel answers dataField dataValue
          end
      end
  end.

(** Every session uses up an answer. *)
Definition WatchForChanges (answers : list (result (list WatchEvent))) (dataField dataValue : string) : outcome unit :=
  watch_sessions (S (length answers)) answers dataField dataValue.

(** *** As one pass over the answers *)
Fixpoint first_watcher (attempts : nat) (answers : list (result (list WatchEvent))) {struct answers} : created :=
  match answers with
  | [] => Waiting
  | Ok eventChannel :: answers => Watching eventChannel answers
  | Err err :: answers =>
      match attempts with
      | 0 | 1 => GaveUp (Some err)
      | S attempts => first_watcher attempts answers
      end
  end.

(** The cap on the pauses is not reached in ten attempts. *)
Lemma createWatcher_attempts answers : createWatcher answers = first_watcher 10 answers.
Proof. do 10 (destruct answers as [|[?|?] answers]; [done|done|]). by destruct answers. Qed.

Fixpoint pass (n : nat) (answers : list (result (list WatchEvent))) (f v : string) : outcome unit :=
  match answers with
  | [] => Returned tt
  | Ok events :: answers =>
      if existsb (restarts f v) events then Crashed (Exit 1) else pass 10 answers f v
  | Err _ :: answers =>
      match n with 0 | 1 => Crashed (Exit 1) | S n => pass n answers f v end
  end.

Lemma checkConfigMapChanges_exit events f v :
  checkConfigMapChanges events f v =
    if existsb (restarts f v) events then Crashed (Exit 1) else Returned tt.
Proof. induction events as [|e es IH]; simpl; [done|]. by destruct (restarts f v e). Qed.

Lemma restarts_spec f v e :
  restarts f v e = true ↔
  (Event_Type e = Added ∨ Event_Type e = Modified) ∧
  ∃ m v', Event_Object e = Some m ∧ cm_Data m !! f = Some v' ∧ v' ≠ v.
Proof.
  unfold restarts. destruct e as [ty [m|]]; simpl.
  2:{ split; [by destruct ty|]. by intros (_ & m & v' & [=] & _). }
  destruct (cm_Data m !! f) as [v'|] eqn:E.
  - assert (Hne : negb (String.eqb v' v) = true ↔ v' ≠ v) by (by rewrite negb_true_iff, String.eqb_neq). split.
    + destruct ty; try done; rewrite Hne; intros H; (split; [auto|]); by exists m, v'.
    + intros [Hty (m' & w & [= <-] & Hw & H)]. rewrite E in Hw. simplify_eq.
      apply Hne in H. by destruct Hty as [-> | ->].
  - split; [by destruct ty|]. intros (_ & m' & w & [= <-] & Hw & _). congruence.
Qed.

Lemma pass_first n answers f v :
  pass n answers f v =
  match first_watcher n answers with
  | Waiting => Returned tt
  | GaveUp _ => Crashed (Exit 1)
  | Watching events answers => if existsb (restarts f v) events then Crashed (Exit 1) else pass 10 answers f v
  end.
Proof.
  revert n; induction answers as [|[events|e] answers IH]; intros n; cbn [pass first_watcher]; [by destruct n..|].
  destruct n as [|[|n]]; [done|done|apply IH].
Qed.

Lemma first_watcher_shorter n answers events rest :
  first_watcher n answers = Watching events rest → length rest < length answers.
Proof.
  revert n; induction answers as [|[ev|e] answers IH]; intros n; simpl; [done|intros [= <- <-]; lia|].
  destruct n as [|[|n]]; [done..|]. intros H%IH. lia.
Qed.

Lemma WatchForChanges_pass answers f v : WatchForChanges answers f v = pass 10 answers f v.
Proof.
  unfold WatchForChanges. assert (H : length answers < S (length answers)) by lia. revert H.
  generalize (S (length answers)) as fuel. intros fuel. revert answers.
  induction fuel as [|fuel IH]; intros answers Hf; [lia|]. rewrite pass_first. cbn [watch_sessions].
  rewrite createWatcher_attempts. destruct (first_watcher 10 answers) as [events rest| |] eqn:E; [|done|done].
  apply first_watcher_shorter in E. rewrite checkConfigMapChanges_exit.
  destruct (existsb _ events); [done|]. apply IH. lia.
Qed.

Abbreviation answers_ := (list (result (list WatchEvent))).

(** The first [n] answers are errors. *)
Definition failing (n : nat) (answers : answers_) : Prop :=
  ∃ es post, answers = es ++ post ∧ length es = n ∧ Forall (λ a, is_ok a = false) es.
(** Somewhere there are ten errors in a row. *)
Definition ten_failures (answers : answers_) : Prop :=
  ∃ pre rest, answers = pre ++ rest ∧ failing 10 rest.
Definition restarting (f v : string) (answers : answers_) : Prop :=
  ∃ events e, Ok events ∈ answers ∧ e ∈ events ∧ restarts f v e = true.

Lemma failing_err n e answers : failing (S n) (Err e :: answers) ↔ failing n answers.
Proof.
  split.
  - intros (es & post & E & Hl & H). destruct es as [|a es]; [done|]. simplify_eq/=. apply Forall_cons in H as [_ H].
    by exists es, post.
  - intros (es & post & -> & <- & H). exists (Err e :: es), post. split_and!; [done|done|by constructor].
Qed.

Lemma failing_ok n events answers : ¬ failing (S n) (Ok events :: answers).
Proof. intros (es & post & E & Hl & H). destruct es as [|a es]; [done|]. simplify_eq/=. by apply Forall_cons in H as [? _]. Qed.

Lemma failing_le n m answers : n ≤ m → failing m answers → failing n answers.
Proof.
  intros Hle (es & post & -> & <- & H). exists (take n es), (drop n es ++ post).
  rewrite app_assoc, take_drop, length_take. split_and!; [done|lia|by apply Forall_take].
Qed.

Lemma ten_failures_cons a answers : ten_failures (a :: answers) ↔ failing 10 (a :: answers) ∨ ten_failures answers.
Proof.
  split.
  - intros (pre & rest & E & H). destruct pre as [|x pre]; simplify_eq/=; [by left|]. right. by exists pre, rest.
  - intros [H|(pre & rest & -> & H)]; [by exists [], (a :: answers)|]. by exists (a :: pre), rest.
Qed.

Lemma restarting_cons f v a answers :
  restarting f v (a :: answers) ↔ (∃ events, a = Ok events ∧ existsb (restarts f v) events = true) ∨ restarting f v answers.
Proof.
  unfold restarting. setoid_rewrite elem_of_cons. setoid_rewrite existsb_exists. setoid_rewrite <- list_elem_of_In.
  split.
  - intros (ev & e & [<-|H] & He & Hr); [left|right]; eauto 10.
  - intros [(ev & -> & e & He & Hr)|(ev & e & H & He & Hr)]; eauto 10.
Qed.

Lemma pass_exit n answers f v :
  n < 10 → pass (S n) answers f v = Crashed (Exit 1) ↔
    failing (S n) answers ∨ ten_failures answers ∨ restarting f v answers.
Proof.
  revert n; induction answers as [|[events|e] answers IH]; intros n Hn.
  - simpl. split; [done|]. intros [(es & post & E & Hl & _)|[(pre & rest & E & es & post & E' & Hl & _)|(? & ? & []%elem_of_nil & _)]].
    + symmetry in E. apply app_eq_nil in E as [-> _]. done.
    + subst rest. symmetry in E. apply app_eq_nil in E as [_ E]. apply app_eq_nil in E as [-> _]. done.
  - rewrite ten_failures_cons, restarting_cons. cbn [pass]. destruct (existsb _ events) eqn:E.
    + split; [|done]. intros _. right. right. left. by exists events.
    + rewrite (IH 9) by lia. pose proof (failing_ok n events answers). pose proof (failing_ok 9 events answers).
      assert (failing 10 answers → ten_failures answers) by (intros; by exists [], answers). naive_solver congruence.
  - rewrite ten_failures_cons, restarting_cons, !failing_err. cbn [pass]. destruct n as [|n].
    + split; [|done]. intros _. left. by exists [], answers.
    + rewrite IH by lia. pose proof (failing_le (S n) 9 answers ltac:(lia)). naive_solver.
Qed.

(** C36: The watch ends the process, with status 1, exactly when a watcher could not
    be created in ten attempts in a row or an added or modified ConfigMap was
    seen whose field is there with another value than the one the process
    started with; fewer failures, deletions, other objects and a missing field
    are ignored, and a closed channel opens a new session, with ten attempts of
    its own. *)
Theorem WatchForChanges_spec answers f v :
  WatchForChanges answers f v = Crashed (Exit 1) ↔
  (∃ before failures after, answers = before ++ failures ++ after ∧ length failures = 10 ∧
     Forall (λ a, is_ok a = false) failures) ∨
  (∃ events e m v', Ok events ∈ answers ∧ e ∈ events ∧ (Event_Type e = Added ∨ Event_Type e = Modified) ∧
     Event_Object e = Some m ∧ cm_Data m !! f = Some v' ∧ v' ≠ v).
Proof.
  rewrite WatchForChanges_pass, (pass_exit 9) by lia.
  assert (Hten : failing 10 answers ∨ ten_failures answers ↔ ten_failures answers).
  { split; [|by right]. intros [H|H]; [by exists [], answers|done]. }
  assert (Hsplit : ten_failures answers ↔ ∃ before failures after, answers = before ++ failures ++ after ∧
    length failures = 10 ∧ Forall (λ a, is_ok a = false) failures).
  { split; [intros (pre & rest & -> & es & post & -> & ? & ?); by exists pre, es, post|].
    intros (pre & es & post & -> & ? & ?). exists pre, (es ++ post). split; [done|]. by exists es, post. }
  assert (Hr : restarting f v answers ↔ ∃ events e m v', Ok events ∈ answers ∧ e ∈ events ∧
    (Event_Type e = Added ∨ Event_Type e = Modified) ∧ Event_Object e = Some m ∧ cm_Data m !! f = Some v' ∧ v' ≠ v).
  { unfold restarting. setoid_rewrite restarts_spec. split.
    - intros (es & e & ? & ? & ? & m & v' & ? & ? & ?). by exists es, e, m, v'.
    - intros (es & e & m & v' & ? & ? & ? & ? & ? & ?). exists es, e. split_and!; [done..|]. by exists m, v'. }
  rewrite <- Hsplit, <- Hr. tauto.
Qed.

(** Nine failures are not enough. *)
Example nine_failures :
  WatchForChanges (replicate 9 (Err (ErrorString "down")) ++ [Ok []] ++ replicate 9 (Err (ErrorString "down"))) "f" "v" =
    Returned tt.
Proof. reflexivity. Qed.
