(* ===== verification/Validation.v ===== *)
(** * Validation of the wire data (the [Validate] methods of [src/models])

    One definition per [Validate] method and per field check, over the errors
    of [go-openapi/errors]. A check answers [None] when it finds nothing wrong.
    Checks that range over a map are programs, since the order in which they
    meet the entries decides which error they report; all others are pure. The
    registry of string formats is a parameter. The theorems say which values
    are accepted, by a predicate on the value that mentions no error. *)
From stdpp Require Import pretty.
From S2P Require Import Prelude Effects Interleave K8s Models Calls.
#[local] Set Warnings "-register-all".

(** ** Errors of [go-openapi/errors]

    The value and the text of an error are left out. *)
Inductive api_error :=
  | Validation (Name In : string) (code : Z)
  | ParseError (Name In : string)
  | ApiError (code : Z)
  | CompositeError (Errors : list api_error).

Definition InvalidTypeCode : Z := 601.
Definition RequiredFailCode : Z := 602.
Definition EnumFailCode : Z := 606.
Definition MinFailCode : Z := 609.

(** [if ve, ok := err.( *errors.Validation); ok { return ve.ValidateName(name) }] *)
Definition ValidateName (name : string) (err : option api_error) : option api_error :=
  match err with
  | Some (Validation n i c) => Some (Validation (if String.eqb n "" then name else n) i c)
  | _ => err
  end.

(** The end of a [Validate] method: the errors of its checks, in order. *)
Definition CompositeValidationError (res : list (option api_error)) : option api_error :=
  match omap id res with [] => None | es => Some (CompositeError es) end.

(** [validate.EnumCase] with strings that are compared as they are *)
Definition EnumCase (path location value : string) (enum : list string) : option api_error :=
  if existsb (String.eqb value) enum then None else Some (Validation path location EnumFailCode).

(** [validate.MinimumInt] *)
Definition MinimumInt (path location : string) (data min : Z) (exclusive : bool) : option api_error :=
  if (negb exclusive && (data <? min)%Z) || (exclusive && (data <=? min)%Z)
  then Some (Validation path location MinFailCode) else None.

(** [validate.Required], given whether the value is the zero of its type *)
Definition Required (path location : string) (zero : bool) : option api_error :=
  if zero then Some (Validation path location RequiredFailCode) else None.

(** The registry: is the text of a time a [date-time]? *)
Class Formats := date_time : Timestamp → bool.

(** [validate.FormatOf] of the format [date-time] on [data.String()] *)
Definition FormatOf {F : Formats} (path location : string) (data : Timestamp) : option api_error :=
  if date_time data then None else Some (Validation path location InvalidTypeCode).

Create Rewrite HintDb validate.

(** *** The shapes of field checks *)

(** A field that is a string with an enumeration; the empty string is absent. *)
Definition check_enum (name : string) (enum : list string) (value : string) : option api_error :=
  if String.eqb value "" then None else EnumCase name "body" value enum.

(** A field that is a pointer *)
Definition check_ptr {A} (name : string) (validate : A → option api_error) (p : option A) : option api_error :=
  match p with None => None | Some a => ValidateName name (validate a) end.

(** A field that is a list of pointers: the first error ends the loop. [i] is
    the index of the head. *)
Fixpoint check_items {A} (name : string) (validate : A → option api_error) (i : nat) (l : list (option A))
    : option api_error :=
  match l with
  | [] => None
  | None :: l => check_items name validate (S i) l
  | Some a :: l =>
      match validate a with
      | Some err => ValidateName (name +:+ pretty i) (Some err)
      | None => check_items name validate (S i) l
      end
  end.

(** A field that is a map whose values must not be zero, in the order met *)
Fixpoint check_entries {A} (name : string) (zero : A → bool) (validate : A → option api_error)
    (entries : list (string * A)) : option api_error :=
  match entries with
  | [] => None
  | (k, v) :: entries =>
      match Required (name +:+ k) "body" (zero v) with
      | Some err => Some err
      | None => match validate v with
                | Some err => Some err
                | None => check_entries name zero validate entries
                end
      end
  end.

(** ** Hardware reports: [Validate] finds nothing wrong in any part *)
Definition Boot_Validate (m : models.Boot) : option api_error := None.
Definition CPU_Validate (m : models.CPU) : option api_error := None.
Definition IoPerf_Validate (m : models.IoPerf) : option api_error := None.
Definition Disk_validateIoPerf (m : models.Disk) : option api_error :=
  check_ptr "io_perf" IoPerf_Validate (models.Disk_IoPerf m).
Definition Disk_Validate (m : models.Disk) : option api_error :=
  CompositeValidationError [Disk_validateIoPerf m].
Definition Gpu_Validate (m : models.Gpu) : option api_error := None.
Definition Interface_Validate (m : models.Interface) : option api_error := None.
Definition Memory_Validate (m : models.Memory) : option api_error := None.
Definition SystemVendor_Validate (m : models.SystemVendor) : option api_error := None.

Definition HardwareInfo_validateBoot (m : models.HardwareInfo) : option api_error :=
  check_ptr "boot" Boot_Validate (models.HardwareInfo_Boot m).
Definition HardwareInfo_validateCPU (m : models.HardwareInfo) : option api_error :=
  check_ptr "cpu" CPU_Validate (models.HardwareInfo_CPU m).
Definition HardwareInfo_validateDisks (m : models.HardwareInfo) : option api_error :=
  check_items "disks." Disk_Validate 0 (models.HardwareInfo_Disks m).
Definition HardwareInfo_validateGpus (m : models.HardwareInfo) : option api_error :=
  check_items "gpus." Gpu_Validate 0 (models.HardwareInfo_Gpus m).
Definition HardwareInfo_validateInterfaces (m : models.HardwareInfo) : option api_error :=
  check_items "interfaces." Interface_Validate 0 (models.HardwareInfo_Interfaces m).
Definition HardwareInfo_validateMemory (m : models.HardwareInfo) : option api_error :=
  check_ptr "memory" Memory_Validate (models.HardwareInfo_Memory m).
Definition HardwareInfo_validateSystemVendor (m : models.HardwareInfo) : option api_error :=
  check_ptr "system_vendor" SystemVendor_Validate (models.HardwareInfo_SystemVendor m).
Definition HardwareInfo_Validate (m : models.HardwareInfo) : option api_error :=
  CompositeValidationError [HardwareInfo_validateBoot m; HardwareInfo_validateCPU m;
    HardwareInfo_validateDisks m; HardwareInfo_validateGpus m; HardwareInfo_validateInterfaces m;
    HardwareInfo_validateMemory m; HardwareInfo_validateSystemVendor m].

(** ** What a device sends *)
Definition eventInfoTypeTypePropEnum : list string := ["info"; "warn"]%string.
Definition EventInfo_validateType (m : models.EventInfo) : option api_error :=
  check_enum "type" eventInfoTypeTypePropEnum (models.EventInfo_Type m).
Definition EventInfo_Validate (m : models.EventInfo) : option api_error :=
  CompositeValidationError [EventInfo_validateType m].

Definition upgradeStatusTypeLastUpgradeStatusPropEnum : list string := ["succeeded"; "failed"]%string.
Definition UpgradeStatus_validateLastUpgradeStatus (m : models.UpgradeStatus) : option api_error :=
  check_enum "last_upgrade_status" upgradeStatusTypeLastUpgradeStatusPropEnum
    (models.UpgradeStatus_LastUpgradeStatus m).
Definition UpgradeStatus_Validate (m : models.UpgradeStatus) : option api_error :=
  CompositeValidationError [UpgradeStatus_validateLastUpgradeStatus m].

Definition RegistrationInfo_validateHardware (m : models.RegistrationInfo) : option api_error :=
  check_ptr "hardware" HardwareInfo_Validate (models.RegistrationInfo_Hardware m).
Definition RegistrationInfo_Validate (m : models.RegistrationInfo) : option api_error :=
  CompositeValidationError [RegistrationInfo_validateHardware m].

Section dates.
Context {F : Formats}.

(** A field that is a time; the zero time is absent. *)
Definition check_time (name : string) (t : Timestamp) : option api_error :=
  if (t =? zero_time)%Z then None else FormatOf name "body" t.

Definition workloadStatusTypeStatusPropEnum : list string :=
  ["deploying"; "running"; "crashed"; "stopped"]%string.
Definition WorkloadStatus_validateLastDataUpload (m : models.WorkloadStatus) : option api_error :=
  check_time "last_data_upload" (models.WorkloadStatus_LastDataUpload m).
Definition WorkloadStatus_validateStatus (m : models.WorkloadStatus) : option api_error :=
  check_enum "status" workloadStatusTypeStatusPropEnum (models.WorkloadStatus_Status m).
Definition WorkloadStatus_Validate (m : models.WorkloadStatus) : option api_error :=
  CompositeValidationError [WorkloadStatus_validateLastDataUpload m; WorkloadStatus_validateStatus m].

Definition heartbeatTypeStatusPropEnum : list string := ["up"; "degraded"]%string.
Definition Heartbeat_validateEvents (m : models.Heartbeat) : option api_error :=
  check_items "events." EventInfo_Validate 0 (models.Heartbeat_Events m).
Definition Heartbeat_validateHardware (m : models.Heartbeat) : option api_error :=
  check_ptr "hardware" HardwareInfo_Validate (models.Heartbeat_Hardware m).
Definition Heartbeat_validateStatus (m : models.Heartbeat) : option api_error :=
  check_enum "status" heartbeatTypeStatusPropEnum (models.Heartbeat_Status m).
Definition Heartbeat_validateUpgrade (m : models.Heartbeat) : option api_error :=
  check_ptr "upgrade" UpgradeStatus_Validate (models.Heartbeat_Upgrade m).
Definition Heartbeat_validateWorkloads (m : models.Heartbeat) : option api_error :=
  check_items "workloads." WorkloadStatus_Validate 0 (models.Heartbeat_Workloads m).
Definition Heartbeat_Validate (m : models.Heartbeat) : option api_error :=
  CompositeValidationError [Heartbeat_validateEvents m; Heartbeat_validateHardware m;
    Heartbeat_validateStatus m; Heartbeat_validateUpgrade m; Heartbeat_validateWorkloads m].

(** [Content] is not looked at. *)
Definition messageTypeTypePropEnum : list string := ["connection-status"; "command"; "event"; "data"]%string.
Definition Message_validateSent (m : models.Message) : option api_error :=
  check_time "sent" (models.Message_Sent m).
Definition Message_validateType (m : models.Message) : option api_error :=
  check_enum "type" messageTypeTypePropEnum (models.Message_Type m).
Definition Message_Validate (m : models.Message) : option api_error :=
  CompositeValidationError [Message_validateSent m; Message_validateType m].
End dates.

(** ** What the operator sends *)
Definition Secret_Validate (m : models.Secret) : option api_error := None.
Definition DataPath_Validate (m : models.DataPath) : option api_error := None.
Definition ImageRegistries_Validate (m : models.ImageRegistries) : option api_error := None.
Definition ContainerMetrics_Validate (m : models.ContainerMetrics) : option api_error := None.
Definition MetricsAllowList_Validate (m : models.MetricsAllowList) : option api_error := None.
Definition MetricsRetention_Validate (m : models.MetricsRetention) : option api_error := None.
Definition OsInformation_Validate (m : models.OsInformation) : option api_error := None.
Definition S3StorageConfiguration_Validate (m : models.S3StorageConfiguration) : option api_error := None.
Definition ConfigmapList_Validate (m : models.ConfigmapList) : option api_error := None.
Definition SyslogConfig_Validate (m : models.LogsCollectionInformationSyslogConfig) : option api_error := None.
Definition MessageResponse_Validate (m : models.MessageResponse) : option api_error := None.
Definition RegistrationResponse_Validate (m : models.RegistrationResponse) : option api_error := None.

(** A list type of its own: its elements are named by their index alone, and the
    first error is returned as it is. The elements are never nil. *)
Definition SecretList_Validate (m : models.SecretList) : option api_error :=
  check_items "" Secret_Validate 0 (Some <$> m).

Definition DataConfiguration_validatePaths (m : models.DataConfiguration) : option api_error :=
  check_items "paths." DataPath_Validate 0 (Some <$> models.DataConfiguration_Paths m).
Definition DataConfiguration_Validate (m : models.DataConfiguration) : option api_error :=
  CompositeValidationError [DataConfiguration_validatePaths m].

Definition hardwareProfileConfigurationTypeScopePropEnum : list string := ["full"; "delta"]%string.
Definition HardwareProfileConfiguration_validateScope (m : models.HardwareProfileConfiguration) : option api_error :=
  check_enum "scope" hardwareProfileConfigurationTypeScopePropEnum
    (models.HardwareProfileConfiguration_Scope m).
Definition HardwareProfileConfiguration_Validate (m : models.HardwareProfileConfiguration) : option api_error :=
  CompositeValidationError [HardwareProfileConfiguration_validateScope m].

Definition HeartbeatConfiguration_validateHardwareProfile (m : models.HeartbeatConfiguration) : option api_error :=
  check_ptr "hardware_profile" HardwareProfileConfiguration_Validate
    (models.HeartbeatConfiguration_HardwareProfile m).
Definition HeartbeatConfiguration_Validate (m : models.HeartbeatConfiguration) : option api_error :=
  CompositeValidationError [HeartbeatConfiguration_validateHardwareProfile m].

Definition LogsCollectionInformation_validateSyslogConfig (m : models.LogsCollectionInformation) : option api_error :=
  check_ptr "syslog_config" SyslogConfig_Validate (models.LogsCollectionInformation_SyslogConfig m).
Definition LogsCollectionInformation_Validate (m : models.LogsCollectionInformation) : option api_error :=
  CompositeValidationError [LogsCollectionInformation_validateSyslogConfig m].

Definition SystemMetricsConfiguration_validateAllowList (m : models.SystemMetricsConfiguration) : option api_error :=
  check_ptr "allow_list" MetricsAllowList_Validate (models.SystemMetricsConfiguration_AllowList m).
Definition SystemMetricsConfiguration_Validate (m : models.SystemMetricsConfiguration) : option api_error :=
  CompositeValidationError [SystemMetricsConfiguration_validateAllowList m].

Definition MetricsConfiguration_validateRetention (m : models.MetricsConfiguration) : option api_error :=
  check_ptr "retention" MetricsRetention_Validate (models.MetricsConfiguration_Retention m).
Definition MetricsConfiguration_validateSystem (m : models.MetricsConfiguration) : option api_error :=
  check_ptr "system" SystemMetricsConfiguration_Validate (models.MetricsConfiguration_System m).
Definition MetricsConfiguration_Validate (m : models.MetricsConfiguration) : option api_error :=
  CompositeValidationError [MetricsConfiguration_validateRetention m; MetricsConfiguration_validateSystem m].

Definition StorageConfiguration_validateS3 (m : models.StorageConfiguration) : option api_error :=
  check_ptr "s3" S3StorageConfiguration_Validate (models.StorageConfiguration_S3 m).
Definition StorageConfiguration_Validate (m : models.StorageConfiguration) : option api_error :=
  CompositeValidationError [StorageConfiguration_validateS3 m].

(** *** With maps *)

(** Are these the zero values of their types? *)
Definition zero_ContainerMetrics (m : models.ContainerMetrics) : bool :=
  negb (models.ContainerMetrics_Disabled m) && String.eqb (models.ContainerMetrics_Path m) ""
  && (models.ContainerMetrics_Port m =? 0)%Z.
Definition zero_LogsCollectionInformation (m : models.LogsCollectionInformation) : bool :=
  (models.LogsCollectionInformation_BufferSize m =? 0)%Z
  && String.eqb (models.LogsCollectionInformation_Kind m) ""
  && bool_decide (models.LogsCollectionInformation_SyslogConfig m = None).

(** A field that is a map, which Go ranges over in any order *)
Definition check_map {A} (name : string) (zero : A → bool) (validate : A → option api_error)
    (m : option (gmap string A)) : go (option api_error) :=
  match m with
  | None => Ret None
  | Some m =>
      entries ← permute (map_to_list m);
      Ret (check_entries name zero validate entries)
  end.

Definition Metrics_validateAllowList (m : models.Metrics) : option api_error :=
  check_ptr "allow_list" MetricsAllowList_Validate (models.Metrics_AllowList m).
Definition Metrics_validateContainers (m : models.Metrics) : go (option api_error) :=
  check_map "containers." zero_ContainerMetrics ContainerMetrics_Validate (models.Metrics_Containers m).
Definition Metrics_Validate (m : models.Metrics) : go (option api_error) :=
  containers ← Metrics_validateContainers m;
  Ret (CompositeValidationError [Metrics_validateAllowList m; containers]).

Definition Workload_validateConfigmaps (m : models.Workload) : option api_error :=
  ValidateName "configmaps" (ConfigmapList_Validate (models.Workload_Configmaps m)).
Definition Workload_validateData (m : models.Workload) : option api_error :=
  check_ptr "data" DataConfiguration_Validate (models.Workload_Data m).
Definition Workload_validateImageRegistries (m : models.Workload) : option api_error :=
  check_ptr "imageRegistries" ImageRegistries_Validate (models.Workload_ImageRegistries m).
Definition Workload_validateMetrics (m : models.Workload) : go (option api_error) :=
  match models.Workload_Metrics m with
  | None => Ret None
  | Some metrics => err ← Metrics_Validate metrics; Ret (ValidateName "metrics" err)
  end.
Definition Workload_Validate (m : models.Workload) : go (option api_error) :=
  metrics ← Workload_validateMetrics m;
  Ret (CompositeValidationError [Workload_validateConfigmaps m; Workload_validateData m;
    Workload_validateImageRegistries m; metrics]).

(** [i] is the index of the head. *)
Fixpoint WorkloadList_Validate (i : nat) (m : models.WorkloadList) : go (option api_error) :=
  match m with
  | [] => Ret None
  | w :: m =>
      err ← Workload_Validate w;
      match err with
      | Some err => Ret (ValidateName (pretty i) (Some err))
      | None => WorkloadList_Validate (S i) m
      end
  end.

Definition DeviceConfiguration_validateHeartbeat (m : models.DeviceConfiguration) : option api_error :=
  check_ptr "heartbeat" HeartbeatConfiguration_Validate (models.DeviceConfiguration_Heartbeat m).
Definition DeviceConfiguration_validateLogCollection (m : models.DeviceConfiguration) : go (option api_error) :=
  check_map "log-collection." zero_LogsCollectionInformation LogsCollectionInformation_Validate
    (models.DeviceConfiguration_LogCollection m).
Definition DeviceConfiguration_validateMetrics (m : models.DeviceConfiguration) : option api_error :=
  check_ptr "metrics" MetricsConfiguration_Validate (models.DeviceConfiguration_Metrics m).
Definition DeviceConfiguration_validateOs (m : models.DeviceConfiguration) : option api_error :=
  check_ptr "os" OsInformation_Validate (models.DeviceConfiguration_Os m).
Definition DeviceConfiguration_validateStorage (m : models.DeviceConfiguration) : option api_error :=
  check_ptr "storage" StorageConfiguration_Validate (models.DeviceConfiguration_Storage m).
Definition DeviceConfiguration_Validate (m : models.DeviceConfiguration) : go (option api_error) :=
  logs ← DeviceConfiguration_validateLogCollection m;
  Ret (CompositeValidationError [DeviceConfiguration_validateHeartbeat m; logs;
    DeviceConfiguration_validateMetrics m; DeviceConfiguration_validateOs m;
    DeviceConfiguration_validateStorage m]).

Definition DeviceConfigurationMessage_validateConfiguration (m : models.DeviceConfigurationMessage)
    : go (option api_error) :=
  err ← DeviceConfiguration_Validate (models.DeviceConfigurationMessage_Configuration m);
  Ret (ValidateName "configuration" err).
Definition DeviceConfigurationMessage_validateSecrets (m : models.DeviceConfigurationMessage) : option api_error :=
  ValidateName "secrets" (SecretList_Validate (models.DeviceConfigurationMessage_Secrets m)).
Definition DeviceConfigurationMessage_validateWorkloads (m : models.DeviceConfigurationMessage)
    : go (option api_error) :=
  err ← WorkloadList_Validate 0 (models.DeviceConfigurationMessage_Workloads m);
  Ret (ValidateName "workloads" err).
Definition DeviceConfigurationMessage_validateWorkloadsMonitoringInterval (m : models.DeviceConfigurationMessage)
    : option api_error :=
  if (models.DeviceConfigurationMessage_WorkloadsMonitoringInterval m =? 0)%Z then None
  else MinimumInt "workloads_monitoring_interval" "body"
         (models.DeviceConfigurationMessage_WorkloadsMonitoringInterval m) 0 true.
Definition DeviceConfigurationMessage_Validate (m : models.DeviceConfigurationMessage) : go (option api_error) :=
  configuration ← DeviceConfigurationMessage_validateConfiguration m;
  workloads ← DeviceConfigurationMessage_validateWorkloads m;
  Ret (CompositeValidationError [configuration; DeviceConfigurationMessage_validateSecrets m; workloads;
    DeviceConfigurationMessage_validateWorkloadsMonitoringInterval m]).

(** ** What is accepted *)

(** The strings that a field with an enumeration admits *)
Definition one_of (enum : list string) (s : string) : Prop := s = ""%string ∨ s ∈ enum.

(** The check makes no call and finds nothing wrong exactly when [P] holds. *)
Definition accepts (p : go (option api_error)) (P : Prop) : Prop :=
  wp p (λ tr out, tr = [] ∧ ∃ r, out = Returned r ∧ (r = None ↔ P)).

Lemma accepts_ret r P : (r = None ↔ P) → accepts (Ret r) P.
Proof. unfold accepts. simpl. eauto. Qed.

Lemma accepts_bind (p : go (option api_error)) f P Q :
  accepts p P → (∀ r, (r = None ↔ P) → accepts (f r) Q) → accepts (p ≫= f) Q.
Proof.
  intros Hp Hf. apply wp_bind. eapply wp_mono; [exact Hp|]. intros tr out (-> & r & -> & Hr).
  exact (Hf r Hr).
Qed.

Lemma accepts_iff p P Q : accepts p P → (P ↔ Q) → accepts p Q.
Proof. intros H HPQ. eapply wp_mono; [exact H|]. simpl. setoid_rewrite HPQ. done. Qed.

Lemma CompositeValidationError_None res :
  CompositeValidationError res = None ↔ Forall (λ r, r = None) res.
Proof.
  unfold CompositeValidationError. induction res as [|[e|] res IH]; simpl.
  - by split; [constructor|].
  - split; [done|]. by intros [? _]%Forall_cons.
  - rewrite Forall_cons. tauto.
Qed.

Lemma ValidateName_None name err : ValidateName name err = None ↔ err = None.
Proof. by destruct err as [[]|]. Qed.

Lemma check_enum_None name enum value : check_enum name enum value = None ↔ one_of enum value.
Proof.
  unfold check_enum, EnumCase, one_of. destruct (String.eqb_spec value ""); [by split; [left|]|].
  destruct (existsb _ _) eqn:E.
  - apply existsb_exists in E as (x & Hx & ->%String.eqb_eq). apply list_elem_of_In in Hx. naive_solver.
  - split; [done|]. intros [?|Hin]; [done|]. apply list_elem_of_In in Hin.
    assert (existsb (String.eqb value) enum = true); [|congruence].
    apply existsb_exists. exists value. split; [done|]. apply String.eqb_refl.
Qed.

Lemma check_ptr_None {A} name (validate : A → _) p :
  check_ptr name validate p = None ↔ ∀ a, p = Some a → validate a = None.
Proof. destruct p as [a|]; simpl; [rewrite ValidateName_None|]; naive_solver. Qed.

Lemma check_items_None {A} name (validate : A → _) i l :
  check_items name validate i l = None ↔ ∀ a, Some a ∈ l → validate a = None.
Proof.
  revert i. induction l as [|[a|] l IH]; intros i; simpl.
  - split; [|done]. intros _ a H. by apply elem_of_nil in H.
  - setoid_rewrite elem_of_cons. destruct (validate a) as [err|] eqn:E; [|rewrite IH; naive_solver].
    split; [by destruct err|]. intros H. rewrite H in E; [done|by left].
  - rewrite IH. setoid_rewrite elem_of_cons. naive_solver.
Qed.

Lemma check_entries_None {A} name zero (validate : A → _) entries :
  check_entries name zero validate entries = None ↔
  ∀ k v, (k, v) ∈ entries → zero v = false ∧ validate v = None.
Proof.
  induction entries as [|[k v] entries IH]; simpl.
  - split; [|done]. intros _ k v H. by apply elem_of_nil in H.
  - setoid_rewrite elem_of_cons. unfold Required.
    destruct (zero v) eqn:Ez; [|destruct (validate v) eqn:Ev]; [| |rewrite IH; naive_solver].
    + split; [done|]. intros H. destruct (H k v); [by left|congruence].
    + split; [done|]. intros H. destruct (H k v); [by left|congruence].
Qed.

Lemma check_map_accepts {A} name zero (validate : A → _) m :
  accepts (check_map name zero validate m)
    (∀ es k v, m = Some es → es !! k = Some v → zero v = false ∧ validate v = None).
Proof.
  destruct m as [es|]; simpl; [|by apply accepts_ret].
  apply wp_bind, wp_permute. intros entries Hp. apply accepts_ret. rewrite check_entries_None.
  setoid_rewrite Hp. setoid_rewrite elem_of_map_to_list. naive_solver.
Qed.

Lemma check_time_None {F : Formats} name t :
  check_time name t = None ↔ t = zero_time ∨ date_time t = true.
Proof.
  unfold check_time, FormatOf. destruct (Z.eqb_spec t zero_time); [naive_solver|].
  destruct (date_time t); naive_solver.
Qed.

#[export] Hint Rewrite CompositeValidationError_None ValidateName_None check_enum_None @check_ptr_None
  @check_items_None @check_time_None @Forall_cons @Forall_nil : validate.

Lemma zero_ContainerMetrics_false c :
  zero_ContainerMetrics c = false ↔ c ≠ models.mkContainerMetrics false "" 0.
Proof.
  destruct c as [d p n]. unfold zero_ContainerMetrics. simpl.
  destruct d, (String.eqb_spec p ""), (Z.eqb_spec n 0); naive_solver.
Qed.

Lemma zero_LogsCollectionInformation_false l :
  zero_LogsCollectionInformation l = false ↔ l ≠ models.mkLogsCollectionInformation 0 "" None.
Proof.
  destruct l as [b k s]. unfold zero_LogsCollectionInformation. simpl.
  destruct (Z.eqb_spec b 0), (String.eqb_spec k ""); simpl; try naive_solver.
  rewrite bool_decide_eq_false. naive_solver.
Qed.

(** Nothing is wrong with any hardware report. *)
Lemma HardwareInfo_Validate_None m : HardwareInfo_Validate m = None.
Proof.
  unfold HardwareInfo_Validate, HardwareInfo_validateBoot, HardwareInfo_validateCPU, HardwareInfo_validateDisks,
    HardwareInfo_validateGpus, HardwareInfo_validateInterfaces, HardwareInfo_validateMemory,
    HardwareInfo_validateSystemVendor.
  autorewrite with validate. split_and!; try done. intros d _. unfold Disk_Validate, Disk_validateIoPerf.
  by autorewrite with validate.
Qed.

(** *** What a device sends *)
Definition EventInfo_valid (e : models.EventInfo) : Prop := one_of ["info"; "warn"]%string (models.EventInfo_Type e).
Definition UpgradeStatus_valid (u : models.UpgradeStatus) : Prop :=
  one_of ["succeeded"; "failed"]%string (models.UpgradeStatus_LastUpgradeStatus u).

Lemma EventInfo_Validate_iff e : EventInfo_Validate e = None ↔ EventInfo_valid e.
Proof.
  unfold EventInfo_Validate, EventInfo_validateType. autorewrite with validate. unfold EventInfo_valid. tauto.
Qed.

Lemma UpgradeStatus_Validate_iff u : UpgradeStatus_Validate u = None ↔ UpgradeStatus_valid u.
Proof.
  unfold UpgradeStatus_Validate, UpgradeStatus_validateLastUpgradeStatus. autorewrite with validate.
  unfold UpgradeStatus_valid. tauto.
Qed.

Section inbound.
Context {F : Formats}.

Definition legal_time (t : Timestamp) : Prop := t = zero_time ∨ date_time t = true.

Definition WorkloadStatus_valid (w : models.WorkloadStatus) : Prop :=
  legal_time (models.WorkloadStatus_LastDataUpload w) ∧
  one_of ["deploying"; "running"; "crashed"; "stopped"]%string (models.WorkloadStatus_Status w).

Record Heartbeat_valid (h : models.Heartbeat) : Prop := {
  valid_events : ∀ e, Some e ∈ models.Heartbeat_Events h → EventInfo_valid e;
  valid_status : one_of ["up"; "degraded"]%string (models.Heartbeat_Status h);
  valid_upgrade : ∀ u, models.Heartbeat_Upgrade h = Some u → UpgradeStatus_valid u;
  valid_workloads : ∀ w, Some w ∈ models.Heartbeat_Workloads h → WorkloadStatus_valid w;
}.

Record Message_valid (m : models.Message) : Prop := {
  valid_sent : legal_time (models.Message_Sent m);
  valid_type : one_of ["connection-status"; "command"; "event"; "data"]%string (models.Message_Type m);
}.

Lemma WorkloadStatus_Validate_iff w : WorkloadStatus_Validate w = None ↔ WorkloadStatus_valid w.
Proof.
  unfold WorkloadStatus_Validate, WorkloadStatus_validateLastDataUpload, WorkloadStatus_validateStatus.
  autorewrite with validate. unfold WorkloadStatus_valid, legal_time.
  tauto.
Qed.

(** Which heartbeats are accepted: those whose status, events, upgrade and workloads
    have values of their enumerations or none at all, and whose times, if set,
    are dates. Null entries and hardware are never refused. *)
Theorem Heartbeat_Validate_iff h : Heartbeat_Validate h = None ↔ Heartbeat_valid h.
Proof.
  unfold Heartbeat_Validate, Heartbeat_validateEvents, Heartbeat_validateHardware, Heartbeat_validateStatus,
    Heartbeat_validateUpgrade, Heartbeat_validateWorkloads. autorewrite with validate.
  setoid_rewrite EventInfo_Validate_iff. setoid_rewrite UpgradeStatus_Validate_iff.
  setoid_rewrite WorkloadStatus_Validate_iff. split.
  - intros (? & _ & ? & ? & ? & _). by constructor.
  - intros []. split_and!; try done. intros hw _. apply HardwareInfo_Validate_None.
Qed.

(** Which messages are accepted: those with a type of the enumeration or
    none, and with no time or a date; the content is not looked at. *)
Lemma Message_Validate_iff m : Message_Validate m = None ↔ Message_valid m.
Proof.
  unfold Message_Validate, Message_validateSent, Message_validateType. autorewrite with validate.
  split; [intros (? & ? & _)|intros []]; by split_and?.
Qed.
End inbound.

(** *** What the operator sends *)
Record Workload_valid (w : models.Workload) : Prop := {
  valid_containers : ∀ ms cs k c, models.Workload_Metrics w = Some ms → models.Metrics_Containers ms = Some cs →
    cs !! k = Some c → c ≠ models.mkContainerMetrics false "" 0;
}.

Record DeviceConfigurationMessage_valid (m : models.DeviceConfigurationMessage) : Prop := {
  valid_scope : ∀ hb hp,
    models.DeviceConfiguration_Heartbeat (models.DeviceConfigurationMessage_Configuration m) = Some hb →
    models.HeartbeatConfiguration_HardwareProfile hb = Some hp →
    one_of ["full"; "delta"]%string (models.HardwareProfileConfiguration_Scope hp);
  valid_logs : ∀ logs k l,
    models.DeviceConfiguration_LogCollection (models.DeviceConfigurationMessage_Configuration m) = Some logs →
    logs !! k = Some l → l ≠ models.mkLogsCollectionInformation 0 "" None;
  valid_workload_list : ∀ w, w ∈ models.DeviceConfigurationMessage_Workloads m → Workload_valid w;
  valid_interval : (0 ≤ models.DeviceConfigurationMessage_WorkloadsMonitoringInterval m)%Z;
}.

Lemma Workload_Validate_accepts w : accepts (Workload_Validate w) (Workload_valid w).
Proof.
  unfold Workload_Validate. apply (accepts_bind _ _ (Workload_valid w)).
  - unfold Workload_validateMetrics. destruct (models.Workload_Metrics w) as [ms|] eqn:E.
    2:{ apply accepts_ret. split; [|done]. intros _. constructor. congruence. }
    apply (accepts_bind _ _ (Workload_valid w)).
    + unfold Metrics_Validate, Metrics_validateContainers. eapply accepts_bind; [apply check_map_accepts|].
      intros r Hr. apply accepts_ret. unfold Metrics_validateAllowList. autorewrite with validate. rewrite Hr.
      setoid_rewrite zero_ContainerMetrics_false. split.
      * intros (_ & H & _). constructor. intros ms' cs k c ?. simplify_eq. naive_solver.
      * intros [H]. split_and!; naive_solver.
    + intros r Hr. apply accepts_ret. by rewrite ValidateName_None.
  - intros r Hr. apply accepts_ret. unfold Workload_validateConfigmaps, Workload_validateData,
      Workload_validateImageRegistries. autorewrite with validate. rewrite Hr.
    unfold DataConfiguration_Validate, DataConfiguration_validatePaths.
    setoid_rewrite CompositeValidationError_None. repeat setoid_rewrite Forall_cons.
    setoid_rewrite check_items_None. naive_solver.
Qed.

Lemma WorkloadList_Validate_accepts i ws :
  accepts (WorkloadList_Validate i ws) (∀ w, w ∈ ws → Workload_valid w).
Proof.
  revert i. induction ws as [|w ws IH]; intros i; simpl.
  - apply accepts_ret. split; [|done]. intros _ w H. by apply elem_of_nil in H.
  - apply (accepts_bind _ _ _ _ (Workload_Validate_accepts w)). intros [err|] Hr.
    + apply accepts_ret. setoid_rewrite elem_of_cons. split; [by destruct err|]. intros H.
      assert (Some err = None) as [=]. apply Hr. apply H. by left.
    + eapply accepts_iff; [apply IH|]. setoid_rewrite elem_of_cons. naive_solver.
Qed.

Lemma DeviceConfiguration_Validate_accepts c :
  accepts (DeviceConfiguration_Validate c)
    ((∀ hb hp, models.DeviceConfiguration_Heartbeat c = Some hb →
        models.HeartbeatConfiguration_HardwareProfile hb = Some hp →
        one_of ["full"; "delta"]%string (models.HardwareProfileConfiguration_Scope hp)) ∧
     (∀ logs k l, models.DeviceConfiguration_LogCollection c = Some logs → logs !! k = Some l →
        l ≠ models.mkLogsCollectionInformation 0 "" None)).
Proof.
  unfold DeviceConfiguration_Validate, DeviceConfiguration_validateLogCollection.
  eapply accepts_bind; [apply check_map_accepts|]. intros r Hr. apply accepts_ret.
  unfold DeviceConfiguration_validateHeartbeat, DeviceConfiguration_validateMetrics,
    DeviceConfiguration_validateOs, DeviceConfiguration_validateStorage.
  autorewrite with validate. rewrite Hr. setoid_rewrite zero_LogsCollectionInformation_false.
  assert (Hhb : ∀ hb, HeartbeatConfiguration_Validate hb = None ↔
    ∀ hp, models.HeartbeatConfiguration_HardwareProfile hb = Some hp →
      one_of ["full"; "delta"]%string (models.HardwareProfileConfiguration_Scope hp)).
  { intros hb. unfold HeartbeatConfiguration_Validate, HeartbeatConfiguration_validateHardwareProfile.
    autorewrite with validate. setoid_rewrite CompositeValidationError_None.
    setoid_rewrite Forall_singleton. setoid_rewrite check_enum_None. rewrite (right_id True (∧)). done. }
  assert (Hlog : ∀ l, LogsCollectionInformation_Validate l = None).
  { intros l. unfold LogsCollectionInformation_Validate, LogsCollectionInformation_validateSyslogConfig.
    by autorewrite with validate. }
  assert (Hms : ∀ m, MetricsConfiguration_Validate m = None).
  { intros m. unfold MetricsConfiguration_Validate, MetricsConfiguration_validateRetention,
      MetricsConfiguration_validateSystem. autorewrite with validate. split_and!; try done. intros sm _.
    unfold SystemMetricsConfiguration_Validate, SystemMetricsConfiguration_validateAllowList.
    by autorewrite with validate. }
  assert (Hst : ∀ s, StorageConfiguration_Validate s = None).
  { intros s. unfold StorageConfiguration_Validate, StorageConfiguration_validateS3. by autorewrite with validate. }
  setoid_rewrite Hhb. split; [intros (H1 & H2 & _)|intros [H1 H2]]; split_and?; try done; [naive_solver..|].
  intros es k v He Hk. split; [by eapply H2|apply Hlog].
Qed.

(** Which configurations are accepted, whatever the order in which the maps are
    met: those whose hardware scope is one of the enumeration or empty,
    whose log collections and container metrics hold no entry with nothing
    set, and whose monitoring interval is not negative. *)
Lemma DeviceConfigurationMessage_Validate_accepts m :
  accepts (DeviceConfigurationMessage_Validate m) (DeviceConfigurationMessage_valid m).
Proof.
  unfold DeviceConfigurationMessage_Validate, DeviceConfigurationMessage_validateConfiguration,
    DeviceConfigurationMessage_validateWorkloads.
  eapply accepts_bind; [eapply accepts_bind; [apply DeviceConfiguration_Validate_accepts|]|].
  { intros r Hr. apply accepts_ret. by rewrite ValidateName_None. }
  intros r Hr. eapply accepts_bind; [eapply accepts_bind; [apply WorkloadList_Validate_accepts|]|].
  { intros r' Hr'. apply accepts_ret. by rewrite ValidateName_None. }
  intros r' Hr'. apply accepts_ret. unfold DeviceConfigurationMessage_validateSecrets,
    DeviceConfigurationMessage_validateWorkloadsMonitoringInterval, SecretList_Validate, MinimumInt.
  autorewrite with validate. rewrite Hr, Hr'. simpl.
  assert (Hi : ∀ i, (if (i =? 0)%Z then None
                     else if (i <=? 0)%Z then Some (Validation "workloads_monitoring_interval" "body" MinFailCode)
                     else None) = None ↔ (0 ≤ i)%Z).
  { intros i. destruct (Z.eqb_spec i 0), (Z.leb_spec i 0); naive_solver lia. }
  rewrite Hi. split.
  - intros ([? ?] & _ & ? & ? & _). by constructor.
  - intros []. split_and!; done.
Qed.

(** The error of a message names every field that is wrong, in order, and
    nothing else. *)
Lemma Message_Validate_errors {F : Formats} m err :
  Message_Validate m = Some err →
  ∃ es, err = CompositeError es ∧ es ≠ [] ∧
    Forall (λ e, e = Validation "sent" "body" InvalidTypeCode ∨ e = Validation "type" "body" EnumFailCode) es.
Proof.
  unfold Message_Validate.
  assert (Message_validateSent m = None ∨
          Message_validateSent m = Some (Validation "sent" "body" InvalidTypeCode)) as Hs.
  { unfold Message_validateSent, check_time, FormatOf. repeat case_match; eauto. }
  assert (Message_validateType m = None ∨
          Message_validateType m = Some (Validation "type" "body" EnumFailCode)) as Ht.
  { unfold Message_validateType, check_enum, EnumCase. repeat case_match; eauto. }
  destruct Hs as [-> | ->], Ht as [-> | ->]; intros [= <-]; eexists; (split_and!; [done|done|]);
    repeat (apply Forall_cons; split; [eauto|]); by apply Forall_nil.
Qed.
