(* ===== verification/Contract.v ===== *)
(** * The configuration sent to a device and its schema

    [GetDataMessageForDevice] fills a message that its receiver may check with
    the [Validate] methods of the same schema. This file composes the two: what
    has to hold of the resources of the cluster for the message to pass. The
    theorem, about its JSON as well, is in [Wire]. *)
From S2P Require Import Prelude Effects Interleave K8s Utils Models V1alpha1 Normalize Calls Repositories Lookups ConfigMaps Yggdrasil Validation.
Import v1alpha1.

(** The scope of the hardware reports is one of those documented. *)
Definition scope_documented (d : EdgeDevice) : Prop :=
  ∀ hb hp, EdgeDeviceSpec_Heartbeat (EdgeDevice_Spec d) = Some hb →
    HeartbeatConfiguration_HardwareProfile hb = Some hp →
    one_of ["full"; "delta"]%string (HardwareProfileConfiguration_Scope hp).

(** And no entry of the log collection has nothing set. *)
Record device_in_schema (d : EdgeDevice) : Prop := {
  scope_in_schema : scope_documented d;
  logs_in_schema : ∀ k v, EdgeDeviceSpec_LogCollection (EdgeDevice_Spec d) !! k = Some (Some v) →
    LogCollectionConfig_BufferSize v = 0%Z → LogCollectionConfig_Kind v = ""%string →
    LogCollectionConfig_SyslogConfig v ≠ None;
}.

(** No container of the metrics has nothing set. *)
Definition deployment_in_schema (dep : EdgeDeployment) : Prop :=
  ∀ c k e, EdgeDeploymentSpec_Metrics (EdgeDeployment_Spec dep) = Some c →
    ContainerMetricsConfiguration_Containers c !! k = Some (Some e) →
    container_metrics e ≠ models.mkContainerMetrics false "" 0.

Section contract.
Context {R : EdgeDeviceRepository} {L : EdgeDeviceRepositoryLaws R}.
Context {DR : EdgeDeploymentRepository} {DL : EdgeDeploymentRepositoryLaws DR}.
Context {AL : AllowListGenerator} {RA : RegistryAuthAPI} {CM : ConfigMapAPI} {TLS : CSRSigner}.
Context {LL : LookupLaws AL RA CM TLS} (initialNamespace : string).

Lemma heartbeat_configuration_scope d hp :
  scope_documented d →
  models.HeartbeatConfiguration_HardwareProfile (heartbeat_configuration (EdgeDevice_Spec d)) = Some hp →
  one_of ["full"; "delta"]%string (models.HardwareProfileConfiguration_Scope hp).
Proof.
  intros Hs. unfold heartbeat_configuration.
  destruct (EdgeDeviceSpec_Heartbeat _) as [hb|] eqn:Ehb; simpl; [|intros [= <-]; by left].
  destruct (HeartbeatConfiguration_HardwareProfile hb) as [hp'|] eqn:E; intros [= <-]; simpl; [by apply (Hs hb hp')|by left].
Qed.

Lemma logs_of_in_schema d logs tr k l :
  device_in_schema d → logs_of d (Some logs) tr → logs !! k = Some l →
  l ≠ models.mkLogsCollectionInformation 0 "" None.
Proof.
  intros [_ Hl] H Hk ->. specialize (H k). simpl in H. rewrite Hk in H.
  destruct (_ !! k) as [[v|]|] eqn:E; [|done|done]. destruct H as (Hb & Hkind & H). simpl in *.
  destruct (LogCollectionConfig_SyslogConfig v) as [ref|] eqn:Es.
  - destruct H as (cm & s & _ & [=] & _).
  - by eapply (Hl k v).
Qed.

Lemma metrics_of_in_schema dep w tr :
  deployment_in_schema dep → workload_of dep tr w → Workload_valid w.
Proof.
  intros Hd Hwo. constructor. intros ms cs k c Hw Hcs Hk.
  destruct (workload_metrics_spec _ _ _ Hwo ms Hw) as (conf & Hconf & Hms).
  pose proof (metrics_containers _ _ Hms k c) as Hc. rewrite Hcs in Hc.
  destruct (proj1 Hc Hk) as (e & He & Heq). rewrite Heq. by eapply Hd.
Qed.

Lemma lists_of_in_schema d ws ss tr :
  (∀ ns n dep, Ev (S := api) (GetEdgeDeployment ns n) (Ok dep) ∈ tr → deployment_in_schema dep) →
  lists_of d ws ss tr → ∀ w, w ∈ ws → Workload_valid w.
Proof.
  intros Hdep (answers & outs & _ & _ & Ha & Ho & -> & _) w Hw.
  apply list_elem_of_In, in_concat in Hw as (ys & Hys%list_elem_of_In & Hw%list_elem_of_In).
  apply list_elem_of_lookup in Hys as [i Hi]. eapply Forall2_lookup_r in Hi as (dep & Hdi & Hc); [|exact Ho].
  destruct Hc as [(w' & -> & Hwo)|[-> _]]; [|by apply elem_of_nil in Hw].
  apply list_elem_of_singleton in Hw as ->. eapply metrics_of_in_schema; [|exact Hwo].
  apply list_elem_of_lookup_2 in Hdi. apply list_elem_of_omap in Hdi as (a & Hin & Hst).
  destruct a as [dep'|e]; simpl in Hst; [|done]. destruct (is_nil _); simplify_eq.
  apply list_elem_of_lookup in Hin as [j Hj]. eapply Forall2_lookup_r in Hj as (st & _ & Hr); [|exact Ha].
  destruct Hr as [Hev _]. by eapply Hdep.
Qed.

(** What a configuration is made of, as far as its schema looks at it. *)
Record configured_for (d : EdgeDevice) (tr : list (event api)) (m : models.Message) (dc : models.DeviceConfigurationMessage) : Prop := {
  configured_content : models.Message_Content m = models.ConfigurationContent dc;
  configured_type : models.Message_Type m = models.MessageTypeData;
  configured_heartbeat : models.DeviceConfiguration_Heartbeat (models.DeviceConfigurationMessage_Configuration dc) =
    Some (heartbeat_configuration (EdgeDevice_Spec d));
  configured_logs : ∀ logs, device_in_schema d →
    models.DeviceConfiguration_LogCollection (models.DeviceConfigurationMessage_Configuration dc) = Some logs →
    ∀ k l, logs !! k = Some l → l ≠ models.mkLogsCollectionInformation 0 "" None;
  configured_interval : (0 ≤ models.DeviceConfigurationMessage_WorkloadsMonitoringInterval dc)%Z;
  configured_workloads :
    (∀ ns n dep, Ev (S := api) (GetEdgeDeployment ns n) (Ok dep) ∈ tr → deployment_in_schema dep) →
    ∀ w, w ∈ models.DeviceConfigurationMessage_Workloads dc → Workload_valid w;
}.

Lemma GetData_configured deviceID :
  wp (GetDataMessageForDevice initialNamespace deviceID) (λ tr out, ∀ m, out = Returned (OK (Some m)) →
    ∃ d dc, Ev (S := api) (GetEdgeDevice initialNamespace deviceID) (Ok d) ∈ tr ∧ configured_for d tr m dc).
Proof.
  unfold GetDataMessageForDevice. apply wp_bind, Read_law. intros [d|e].
  2:{ by destruct (IsNotFound e); simpl. }
  apply wp_bind. eapply wp_mono; [apply device_workloads_wp|]. intros tr1 [lists|c] [_ Hl]; [|done].
  eapply wp_mono; [apply send_configuration_wp|].
  intros tr2 out [_ Hm] m Hout. rewrite Hout in Hm.
  destruct (Hm m eq_refl) as (ws & ss & dc & -> & Hc & _ & _ & Hws & _ & [Hhb _ Hlog Hi] & Hty).
  exists d, dc. split; [left|]. split; [done|by rewrite Hty|done| |by rewrite Hi|].
  - intros logs Hd Hlogs k l Hk. rewrite Hlogs in Hlog. by eapply logs_of_in_schema.
  - intros Hdep. rewrite Hws. specialize (Hl ws ss eq_refl). destruct (under_deletion d).
    + destruct Hl as [-> _]. intros w Hw. by apply elem_of_nil in Hw.
    + eapply lists_of_in_schema; [|exact Hl]. intros ns n dep Hin. apply (Hdep ns n). set_solver.
Qed.

(** The receiver's checks of such a configuration, in whatever order they range
    over maps. *)
Lemma configured_accepted d tr m dc :
  configured_for d tr m dc → device_in_schema d →
  (∀ ns n dep, Ev (S := api) (GetEdgeDeployment ns n) (Ok dep) ∈ tr → deployment_in_schema dep) →
  wp (DeviceConfigurationMessage_Validate dc) (λ tr' out', tr' = [] ∧ out' = Returned None).
Proof.
  intros [_ _ Hhb Hlogs Hi Hws] Hd Hdep.
  eapply wp_mono; [apply DeviceConfigurationMessage_Validate_accepts|]. intros tr' out' (-> & r & -> & Hr).
  split; [done|]. f_equal. apply Hr. split; [|by eauto|by apply Hws|done].
  intros hb hp. rewrite Hhb. intros [= <-]. apply heartbeat_configuration_scope, Hd.
Qed.
End contract.
