(* ===== verification/Rest.v ===== *)
(** * The REST layer ([restapi], [restapi/operations], [client/yggdrasil])

    The generated server binds a request, validates it, calls the handler and
    writes its response; the generated client reads it. The server of
    [main.go] puts [InnerMiddleware] between routing and this. Routing by
    pattern, the negotiation of content types and JSON belong to libraries and
    are parameters; the text of errors is left out of bodies. *)
From S2P Require Import Prelude Effects K8s Labels X509 Models Normalize Calls Server Repositories Lookups ConfigMaps Yggdrasil CertUtils Mtls MtlsSpec Main Validation.
From Stdlib Require Import Ascii.
#[local] Set Warnings "-register-all".

(** ** Requests and responses *)

(** What reading the body of a request gives. *)
Inductive consumed :=
  | Consumed (m : models.Message)
  | ConsumedEOF
  | ConsumeFailed.

(** [escaped_Path] is [URL.EscapedPath()], which the router reads, while the
    middleware reads the decoded path; [negotiation] holds the errors about
    content types, if there are any. *)
Record request := mkRestRequest {
  http : HttpRequest;
  escaped_Path : string;
  Method : string;
  HasBody : bool;
  Consume : consumed;
  negotiation : list api_error;
}.

Inductive body :=
  | NoBody
  | Json (text : string)
  | Html (text : string)
  | ErrorDocument (code : Z).

Record http_response := mkHttpResponse { StatusCode : Z; Body : body }.

(** The JSON producer and consumer, for one type of payload. *)
Class JSON (P : Type) := {
  Produce : P → result string;
  Decode : string → result P;
}.

(** [rw.WriteHeader(code)], then the payload if there is one; a payload that
    cannot be written panics. *)
Definition write_payload {P} `{JSON P} (code : Z) (payload : option P) : go http_response :=
  match payload with
  | None => Ret (mkHttpResponse code NoBody)
  | Some p => match Produce p with
              | Ok text => Ret (mkHttpResponse code (Json text))
              | Err _ => Crash Panic
              end
  end.

Definition write_header (code : Z) : go http_response := Ret (mkHttpResponse code NoBody).

(** *** The responses of each operation *)
Inductive GetControlMessageForDeviceResponder :=
  | GetControlMessageForDeviceOK (payload : option models.Message)
  | GetControlMessageForDeviceUnauthorized
  | GetControlMessageForDeviceForbidden
  | GetControlMessageForDeviceNotFound
  | GetControlMessageForDeviceInternalServerError.

Inductive GetDataMessageForDeviceResponder :=
  | GetDataMessageForDeviceOK (payload : option models.Message)
  | GetDataMessageForDeviceUnauthorized
  | GetDataMessageForDeviceForbidden
  | GetDataMessageForDeviceNotFound
  | GetDataMessageForDeviceInternalServerError.

Inductive PostControlMessageForDeviceResponder :=
  | PostControlMessageForDeviceOK
  | PostControlMessageForDeviceUnauthorized
  | PostControlMessageForDeviceForbidden
  | PostControlMessageForDeviceNotFound
  | PostControlMessageForDeviceInternalServerError.

Inductive PostDataMessageForDeviceResponder :=
  | PostDataMessageForDeviceOK (payload : option models.MessageResponse)
  | PostDataMessageForDeviceBadRequest
  | PostDataMessageForDeviceUnauthorized
  | PostDataMessageForDeviceForbidden
  | PostDataMessageForDeviceNotFound
  | PostDataMessageForDeviceInternalServerError.

(** The requests of the client: [WriteToRequest] of the parameters of each
    operation, and its method and pattern. *)
Record client_request := mkClientRequest {
  PathParams : list (string * string);
  BodyParam : option models.Message;
}.

Definition GetControl_WriteToRequest (deviceID : string) : client_request :=
  mkClientRequest [("device_id"%string, deviceID)] None.
Definition GetData_WriteToRequest (deviceID : string) : client_request :=
  mkClientRequest [("device_id"%string, deviceID)] None.
Definition PostControl_WriteToRequest (deviceID : string) (message : option models.Message) : client_request :=
  mkClientRequest [("device_id"%string, deviceID)] message.
Definition PostData_WriteToRequest (deviceID : string) (message : option models.Message) : client_request :=
  mkClientRequest [("device_id"%string, deviceID)] message.

Record ClientOperation := mkClientOperation { op_Method : string; PathPattern : string }.
Definition GetControl_operation : ClientOperation := mkClientOperation "GET" "/control/{device_id}/in".
Definition GetData_operation : ClientOperation := mkClientOperation "GET" "/data/{device_id}/in".
Definition PostControl_operation : ClientOperation := mkClientOperation "POST" "/control/{device_id}/out".
Definition PostData_operation : ClientOperation := mkClientOperation "POST" "/data/{device_id}/out".

Section codecs.
Context `{JM : JSON models.Message} `{JR : JSON models.MessageResponse}.

Definition GetControl_WriteResponse (o : GetControlMessageForDeviceResponder) : go http_response :=
  match o with
  | GetControlMessageForDeviceOK payload => write_payload 200 payload
  | GetControlMessageForDeviceUnauthorized => write_header 401
  | GetControlMessageForDeviceForbidden => write_header 403
  | GetControlMessageForDeviceNotFound => write_header 404
  | GetControlMessageForDeviceInternalServerError => write_header 500
  end.

Definition GetData_WriteResponse (o : GetDataMessageForDeviceResponder) : go http_response :=
  match o with
  | GetDataMessageForDeviceOK payload => write_payload 200 payload
  | GetDataMessageForDeviceUnauthorized => write_header 401
  | GetDataMessageForDeviceForbidden => write_header 403
  | GetDataMessageForDeviceNotFound => write_header 404
  | GetDataMessageForDeviceInternalServerError => write_header 500
  end.

Definition PostControl_WriteResponse (o : PostControlMessageForDeviceResponder) : go http_response :=
  match o with
  | PostControlMessageForDeviceOK => write_header 200
  | PostControlMessageForDeviceUnauthorized => write_header 401
  | PostControlMessageForDeviceForbidden => write_header 403
  | PostControlMessageForDeviceNotFound => write_header 404
  | PostControlMessageForDeviceInternalServerError => write_header 500
  end.

Definition PostData_WriteResponse (o : PostDataMessageForDeviceResponder) : go http_response :=
  match o with
  | PostDataMessageForDeviceOK payload => write_payload 200 payload
  | PostDataMessageForDeviceBadRequest => write_header 400
  | PostDataMessageForDeviceUnauthorized => write_header 401
  | PostDataMessageForDeviceForbidden => write_header 403
  | PostDataMessageForDeviceNotFound => write_header 404
  | PostDataMessageForDeviceInternalServerError => write_header 500
  end.

(** ** The client *)

(** What [ReadResponse] answers: a result, or an error that is one of the
    responses of the operation, an error of the consumer, or another status. *)
Inductive answered (T : Type) :=
  | Result (r : T)
  | Failed (r : T)
  | Unreadable (e : error)
  | APIError (code : Z).

(** [consumer.Consume(response.Body(), o.Payload)] into a new payload, the end
    of the body ignored. *)
Definition read_payload {P} `{JSON P} (new : P) (b : body) : result P :=
  match b with
  | NoBody => Ok new
  | Json text => Decode text
  | Html _ | ErrorDocument _ => Err (ErrorString "json")
  end.

Definition zero_Message : models.Message := models.mkMessage (models.RawContent "null") "" "" zero_time "" 0.
Definition zero_MessageResponse : models.MessageResponse := models.mkMessageResponse None "" "".

Definition GetControl_ReadResponse (r : http_response) : answered GetControlMessageForDeviceResponder :=
  match StatusCode r with
  | 200%Z => match read_payload zero_Message (Body r) with
             | Ok m => Result _ (GetControlMessageForDeviceOK (Some m))
             | Err e => Unreadable _ e
             end
  | 401%Z => Failed _ GetControlMessageForDeviceUnauthorized
  | 403%Z => Failed _ GetControlMessageForDeviceForbidden
  | 404%Z => Failed _ GetControlMessageForDeviceNotFound
  | 500%Z => Failed _ GetControlMessageForDeviceInternalServerError
  | c => APIError _ c
  end.

Definition GetData_ReadResponse (r : http_response) : answered GetDataMessageForDeviceResponder :=
  match StatusCode r with
  | 200%Z => match read_payload zero_Message (Body r) with
             | Ok m => Result _ (GetDataMessageForDeviceOK (Some m))
             | Err e => Unreadable _ e
             end
  | 401%Z => Failed _ GetDataMessageForDeviceUnauthorized
  | 403%Z => Failed _ GetDataMessageForDeviceForbidden
  | 404%Z => Failed _ GetDataMessageForDeviceNotFound
  | 500%Z => Failed _ GetDataMessageForDeviceInternalServerError
  | c => APIError _ c
  end.

Definition PostControl_ReadResponse (r : http_response) : answered PostControlMessageForDeviceResponder :=
  match StatusCode r with
  | 200%Z => Result _ PostControlMessageForDeviceOK
  | 401%Z => Failed _ PostControlMessageForDeviceUnauthorized
  | 403%Z => Failed _ PostControlMessageForDeviceForbidden
  | 404%Z => Failed _ PostControlMessageForDeviceNotFound
  | 500%Z => Failed _ PostControlMessageForDeviceInternalServerError
  | c => APIError _ c
  end.

Definition PostData_ReadResponse (r : http_response) : answered PostDataMessageForDeviceResponder :=
  match StatusCode r with
  | 200%Z => match read_payload zero_MessageResponse (Body r) with
             | Ok m => Result _ (PostDataMessageForDeviceOK (Some m))
             | Err e => Unreadable _ e
             end
  | 400%Z => Failed _ PostDataMessageForDeviceBadRequest
  | 401%Z => Failed _ PostDataMessageForDeviceUnauthorized
  | 403%Z => Failed _ PostDataMessageForDeviceForbidden
  | 404%Z => Failed _ PostDataMessageForDeviceNotFound
  | 500%Z => Failed _ PostDataMessageForDeviceInternalServerError
  | c => APIError _ c
  end.
End codecs.

(** ** Binding *)

(** The values of a path parameter: those of the first entry of this name. *)
Definition GetOK (params : list (string * string)) (name : string) : list string :=
  match list_find (λ p, p.1 = name) params with Some (_, p) => [p.2] | None => [] end.

(** [bindDeviceID]: the last value, or the empty string *)
Definition bindDeviceID (rawData : list string) : string := default ""%string (last rawData).

Record PostParams := mkPostParams { DeviceID : string; Message : models.Message }.

Definition GetControl_BindRequest (params : list (string * string)) : string :=
  bindDeviceID (GetOK params "device_id").
Definition GetData_BindRequest (params : list (string * string)) : string :=
  bindDeviceID (GetOK params "device_id").

Section server.
Context {F : Formats} `{JM : JSON models.Message} `{JR : JSON models.MessageResponse}.
Context {R : EdgeDeviceRepository} {DR : EdgeDeploymentRepository}.
Context {AL : AllowListGenerator} {RA : RegistryAuthAPI} {CM : ConfigMapAPI} {TLS : CSRSigner}.
Context {U : UnicodeTables} (initialNamespace : string).

(** The body of a request, read and validated. *)
Definition bind_message (r : request) : api_error + models.Message :=
  if HasBody r then
    match Consume r with
    | ConsumedEOF => inl (Validation "message" "body" RequiredFailCode)
    | ConsumeFailed => inl (ParseError "message" "body")
    | Consumed m => match Message_Validate m with Some err => inl err | None => inr m end
    end
  else inl (Validation "message" "body" RequiredFailCode).

Definition PostControl_BindRequest (params : list (string * string)) (r : request) : api_error + PostParams :=
  let deviceID := bindDeviceID (GetOK params "device_id") in
  match bind_message r with
  | inl err => inl (CompositeError [err])
  | inr m => inr (mkPostParams deviceID m)
  end.

Definition PostData_BindRequest (params : list (string * string)) (r : request) : api_error + PostParams :=
  let deviceID := bindDeviceID (GetOK params "device_id") in
  match bind_message r with
  | inl err => inl (CompositeError [err])
  | inr m => inr (mkPostParams deviceID m)
  end.

(** [BindValidRequest] of the library: the binder is not reached when the
    negotiation failed. *)
Definition BindValidRequest {P} (r : request) (bind : api_error + P) : api_error + P :=
  match negotiation r with [] => bind | errs => inl (CompositeError errs) end.

(** *** [errors.ServeError] *)
Fixpoint flattenComposite (e : api_error) : list api_error :=
  match e with
  | CompositeError es => concat (map flattenComposite es)
  | _ => [e]
  end.

Definition asHTTPCode (input : Z) : Z := if (600 <=? input)%Z then 422 else input.

Definition error_code (e : api_error) : Z :=
  match e with
  | Validation _ _ c | ApiError c => asHTTPCode c
  | ParseError _ _ => 400
  | CompositeError _ => 500
  end.

(** A composite error is answered by the first error it has, or by 500. *)
Definition ServeError (e : api_error) : http_response :=
  let code := match e with
              | CompositeError _ => match flattenComposite e with [] => 500%Z | e :: _ => error_code e end
              | _ => error_code e
              end in
  mkHttpResponse code (ErrorDocument code).

(** ** The operations *)

(** The response of a handler as one of the operation; [None] if the operation
    has none of this kind. *)
Definition to_GetControl (o : Responder models.Message) : option GetControlMessageForDeviceResponder :=
  match o with
  | OK p => Some (GetControlMessageForDeviceOK p)
  | NotFound => Some GetControlMessageForDeviceNotFound
  | BadRequest => None
  | InternalServerError => Some GetControlMessageForDeviceInternalServerError
  end.
Definition to_GetData (o : Responder models.Message) : option GetDataMessageForDeviceResponder :=
  match o with
  | OK p => Some (GetDataMessageForDeviceOK p)
  | NotFound => Some GetDataMessageForDeviceNotFound
  | BadRequest => None
  | InternalServerError => Some GetDataMessageForDeviceInternalServerError
  end.
Definition to_PostControl (o : Responder models.MessageResponse) : option PostControlMessageForDeviceResponder :=
  match o with
  | OK _ => Some PostControlMessageForDeviceOK
  | NotFound => Some PostControlMessageForDeviceNotFound
  | BadRequest => None
  | InternalServerError => Some PostControlMessageForDeviceInternalServerError
  end.
Definition to_PostData (o : Responder models.MessageResponse) : option PostDataMessageForDeviceResponder :=
  match o with
  | OK p => Some (PostDataMessageForDeviceOK p)
  | NotFound => Some PostDataMessageForDeviceNotFound
  | BadRequest => Some PostDataMessageForDeviceBadRequest
  | InternalServerError => Some PostDataMessageForDeviceInternalServerError
  end.

Definition respond {P T} (to : Responder P → option T) (write : T → go http_response) (h : go (Responder P))
    : go http_response :=
  res ← h;
  match to res with Some r => write r | None => Crash Panic end.

Definition GetControl_ServeHTTP (params : list (string * string)) (r : request) : go http_response :=
  match BindValidRequest r (inr (GetControl_BindRequest params)) with
  | inl err => Ret (ServeError err)
  | inr deviceID => respond to_GetControl GetControl_WriteResponse
                      (GetControlMessageForDevice initialNamespace deviceID)
  end.

Definition GetData_ServeHTTP (params : list (string * string)) (r : request) : go http_response :=
  match BindValidRequest r (inr (GetData_BindRequest params)) with
  | inl err => Ret (ServeError err)
  | inr deviceID => respond to_GetData GetData_WriteResponse
                      (GetDataMessageForDevice initialNamespace deviceID)
  end.

Definition PostControl_ServeHTTP (params : list (string * string)) (r : request) : go http_response :=
  match BindValidRequest r (PostControl_BindRequest params r) with
  | inl err => Ret (ServeError err)
  | inr p => respond to_PostControl PostControl_WriteResponse
               (PostControlMessageForDevice (DeviceID p) (Message p))
  end.

Definition PostData_ServeHTTP (params : list (string * string)) (r : request) : go http_response :=
  match BindValidRequest r (PostData_BindRequest params r) with
  | inl err => Ret (ServeError err)
  | inr p => respond to_PostData PostData_WriteResponse
               (PostDataMessageForDevice initialNamespace (DeviceID p) (Message p))
  end.

(** ** The server *)

(** The table of [initHandlerCache]. *)
Definition handler_table (method : string) : option (list (string * endpoint)) :=
  if String.eqb method "GET" then
    Some [("/control/{device_id}/in", ControlIn); ("/data/{device_id}/in", DataIn)]%string
  else if String.eqb method "POST" then
    Some [("/control/{device_id}/out", ControlOut); ("/data/{device_id}/out", DataOut)]%string
  else None.

(** [strings.ToUpper] on the ASCII letters *)
Definition upper (c : ascii) : ascii :=
  let n := N_of_ascii c in
  if (97 <=? n)%N && (n <=? 122)%N then ascii_of_N (n - 32) else c.
Definition ToUpper (s : string) : string := String.string_of_list_ascii (upper <$> chars s).

Definition HandlerFor (method path : string) : option endpoint :=
  match handler_table (ToUpper method) with
  | None => None
  | Some h =>
      let path := if String.eqb path "/" then ""%string else path in
      snd <$> (snd <$> list_find (λ p, p.1 = path) h)
  end.

Definition ServeHTTP (e : endpoint) : list (string * string) → request → go http_response :=
  match e with
  | ControlIn => GetControl_ServeHTTP
  | DataIn => GetData_ServeHTTP
  | ControlOut => PostControl_ServeHTTP
  | DataOut => PostData_ServeHTTP
  end.

(** The router of the library: the pattern that a path matches for a method,
    with the parameters; and the other methods for which a path matches one. *)
Record Router := mkRouter {
  Lookup : string → string → option (string * list (string * string));
  AllowedMethods : string → string → list string;
}.

(** The server of [main.go]: routing, the middleware, the operation. *)
Definition serve (router : Router) (s : served) (r : request) : go http_response :=
  match Lookup router (Method r) (escaped_Path r) with
  | Some (pattern, params) =>
      match HandlerFor (Method r) pattern with
      | Some e =>
          a ← InnerMiddleware s (λ _, ServeHTTP e params r) (http r);
          Ret (match a with Unauthorized => mkHttpResponse 401 NoBody | Handled resp => resp end)
      | None => Ret (ServeError (ApiError 404))
      end
  | None =>
      Ret (ServeError (match AllowedMethods router (Method r) (escaped_Path r) with
                       | [] => ApiError 404 | _ => ApiError 405 end))
  end.
End server.

(** ** Theorems *)
Section theorems.
Context {F : Formats} `{JM : JSON models.Message} `{JR : JSON models.MessageResponse}.
Context {R : EdgeDeviceRepository} {DR : EdgeDeploymentRepository}.
Context {AL : AllowListGenerator} {RA : RegistryAuthAPI} {CM : ConfigMapAPI} {TLS : CSRSigner}.
Context {U : UnicodeTables} (initialNamespace : string).

(** *** The client reads what the server wrote *)

(** The client's view of a response: a missing payload arrives as an empty one. *)
Definition payload_seen {P} (zero : P) (received : P → P) (payload : option P) : option P :=
  Some (match payload with Some p => received p | None => zero end).

Definition GetControl_seen (received : models.Message → models.Message) (o : GetControlMessageForDeviceResponder) :=
  match o with
  | GetControlMessageForDeviceOK p =>
      Result _ (GetControlMessageForDeviceOK (payload_seen zero_Message received p))
  | o => Failed _ o
  end.
Definition GetData_seen (received : models.Message → models.Message) (o : GetDataMessageForDeviceResponder) :=
  match o with
  | GetDataMessageForDeviceOK p =>
      Result _ (GetDataMessageForDeviceOK (payload_seen zero_Message received p))
  | o => Failed _ o
  end.
Definition PostControl_seen (o : PostControlMessageForDeviceResponder) :=
  match o with PostControlMessageForDeviceOK => Result _ o | o => Failed _ o end.
Definition PostData_seen (received : models.MessageResponse → models.MessageResponse)
    (o : PostDataMessageForDeviceResponder) :=
  match o with
  | PostDataMessageForDeviceOK p =>
      Result _ (PostDataMessageForDeviceOK (payload_seen zero_MessageResponse received p))
  | o => Failed _ o
  end.

(** JSON delivers a payload as [received]: dates lose what their format lacks,
    and untyped content arrives as a document. *)
Definition delivers {P} `{JSON P} (received : P → P) : Prop :=
  ∀ p t, Produce p = Ok t → Decode t = Ok (received p).

(** A response is written without a call, and the client makes [seen] of it,
    unless its payload has no JSON, which panics. *)
Definition transmits {T} (write : T → go http_response) (read : http_response → answered T)
    (seen : T → answered T) : Prop :=
  ∀ o, (∃ resp, write o = Ret resp ∧ read resp = seen o) ∨ write o = Crash Panic.

Lemma write_payload_read {P} `{J : JSON P} (zero : P) received code payload :
  delivers received →
  (∃ b, write_payload code payload = Ret (mkHttpResponse code b) ∧
     read_payload zero b = Ok (match payload with Some p => received p | None => zero end)) ∨
  write_payload code payload = Crash Panic.
Proof.
  intros Hd. unfold write_payload. destruct payload as [p|]; [|left; by eexists].
  destruct (Produce p) as [t|e] eqn:E; [|by right]. left. eexists. split; [done|]. by apply Hd.
Qed.

Lemma responses_arrive receivedM receivedR :
  delivers receivedM → delivers receivedR →
  transmits GetControl_WriteResponse GetControl_ReadResponse (GetControl_seen receivedM) ∧
  transmits GetData_WriteResponse GetData_ReadResponse (GetData_seen receivedM) ∧
  transmits PostControl_WriteResponse PostControl_ReadResponse PostControl_seen ∧
  transmits PostData_WriteResponse PostData_ReadResponse (PostData_seen receivedR).
Proof.
  intros HM HR. split_and!; intros o; destruct o; try (left; by eexists); simpl;
    match goal with
    | |- context [write_payload 200 ?p] =>
        destruct (write_payload_read zero_Message receivedM 200 p HM) as [(b & -> & Hb)| ->] ||
        destruct (write_payload_read zero_MessageResponse receivedR 200 p HR) as [(b & -> & Hb)| ->]
    end; try (by right); left; (eexists; split; [done|]).
  - unfold GetControl_ReadResponse. simpl. by rewrite Hb.
  - unfold GetData_ReadResponse. simpl. by rewrite Hb.
  - unfold PostData_ReadResponse. simpl. by rewrite Hb.
Qed.

(** *** Nothing reaches a handler unchecked *)

(** The message of a request that has a valid one. *)
Definition carries (r : request) (m : models.Message) : Prop :=
  HasBody r = true ∧ Consume r = Consumed m ∧ Message_valid m.

Lemma bind_message_inr r m : bind_message r = inr m ↔ carries r m.
Proof.
  unfold bind_message, carries. destruct (HasBody r); [|naive_solver].
  destruct (Consume r) as [m'| |]; [|naive_solver..].
  destruct (Message_Validate m') eqn:E.
  - split; [done|]. intros (_ & [= ->] & Hv). apply Message_Validate_iff in Hv. congruence.
  - apply Message_Validate_iff in E. naive_solver.
Qed.

(** The handler that an operation calls, on the identifier of the path and the
    message of the body. *)
Definition handled (e : endpoint) (params : list (string * string)) (r : request) (tr : list api_event)
    (resp : http_response) : Prop :=
  let id := bindDeviceID (GetOK params "device_id") in
  match e with
  | ControlIn => exec (respond to_GetControl GetControl_WriteResponse
                         (GetControlMessageForDevice initialNamespace id)) tr (Returned resp)
  | DataIn => exec (respond to_GetData GetData_WriteResponse
                      (GetDataMessageForDevice initialNamespace id)) tr (Returned resp)
  | ControlOut => ∃ m, carries r m ∧ exec (respond to_PostControl PostControl_WriteResponse
                         (PostControlMessageForDevice id m)) tr (Returned resp)
  | DataOut => ∃ m, carries r m ∧ exec (respond to_PostData PostData_WriteResponse
                      (PostDataMessageForDevice initialNamespace id m)) tr (Returned resp)
  end.

Lemma exec_ret_inv {A} (a : A) tr out : exec (S := api) (Ret a) tr out → tr = [] ∧ out = Returned a.
Proof. intros H. by inversion H. Qed.

Lemma ServeHTTP_handled e params r tr resp :
  exec (ServeHTTP initialNamespace e params r) tr (Returned resp) →
  (tr = [] ∧ ∃ err, resp = ServeError err) ∨ (negotiation r = [] ∧ handled e params r tr resp).
Proof.
  assert (Hrej : ∀ err, exec (S := api) (Ret (ServeError err)) tr (Returned resp) →
    tr = [] ∧ ∃ err, resp = ServeError err).
  { intros err [-> [= ->]]%exec_ret_inv. split; [done|by exists err]. }
  destruct e; simpl; unfold GetData_ServeHTTP, PostData_ServeHTTP, GetControl_ServeHTTP, PostControl_ServeHTTP,
    BindValidRequest, PostData_BindRequest, PostControl_BindRequest;
    (destruct (negotiation r) as [|err errs]; [|by intros ?%Hrej; left]);
    try (intros He; right; by split);
    destruct (bind_message r) as [err|m] eqn:E; try (by intros ?%Hrej; left);
    apply bind_message_inr in E; intros He; right; (split; [done|]); by exists m.
Qed.

(** What precedes the operation: nothing without TLS, else the verification of
    the peer's certificates. *)
Definition passed (s : served) (r : request) (tr : list api_event) : Prop :=
  writes tr = [] ∧
  match peer_certificates (http r) with
  | None => tr = []
  | Some peers => exec (VerifyRequest peers (GetAuthType (url_Path (http r))) (verify_options s) (chain s))
                    tr (Returned true)
  end.

Lemma serve_operation router s r pattern params e tr resp :
  Lookup router (Method r) (escaped_Path r) = Some (pattern, params) →
  HandlerFor (Method r) pattern = Some e →
  exec (serve initialNamespace router s r) tr (Returned resp) →
  (writes tr = [] ∧ peer_certificates (http r) ≠ None ∧ resp = mkHttpResponse 401 NoBody) ∨
  ∃ tr1 tr2, tr = tr1 ++ tr2 ∧ passed s r tr1 ∧
    exec (ServeHTTP initialNamespace e params r) tr2 (Returned resp).
Proof.
  intros Hl Hh. unfold serve, passed. rewrite Hl, Hh. unfold InnerMiddleware.
  destruct (peer_certificates (http r)) as [peers|].
  - intros [(a & t1 & t2 & -> & Ha & [-> [= ->]]%exec_ret_inv)|(? & [=] & _)]%exec_bind_inv.
    rewrite app_nil_r in *.
    apply exec_bind_inv in Ha as [(b & t3 & t4 & -> & Hv & Hb)|(? & [=] & _)].
    assert (Hw : writes t3 = []).
    { pose proof (VerifyRequest_wp peers (GetAuthType (url_Path (http r))) (verify_options s) (chain s)) as Hwp.
      by destruct (proj1 (wp_exec _ _) Hwp _ _ Hv). }
    destruct b.
    + apply exec_bind_inv in Hb as [(x & t5 & t6 & -> & Hx & [-> [= ->]]%exec_ret_inv)|(? & [=] & _)].
      right. exists t3, t5. rewrite app_nil_r. by split_and!.
    + apply exec_ret_inv in Hb as [-> [= ->]]. left. by rewrite app_nil_r.
  - intros [(a & t1 & t2 & -> & Ha & [-> [= ->]]%exec_ret_inv)|(? & [=] & _)]%exec_bind_inv.
    apply exec_bind_inv in Ha as [(x & t5 & t6 & -> & Hx & [-> [= ->]]%exec_ret_inv)|(? & [=] & _)].
    right. exists [], t5. rewrite !app_nil_r. split_and!; [done|by go_simpl|done|done].
Qed.

(** C18: The door of the operator. A response is an error document or a 401, given
    without any write; or the path matched an operation for the method, the
    peer's certificates were verified if the request came over TLS, the content
    types were agreed on, a request that needs a message carried one that the
    schema accepts, and the response is that of the operation's handler for the
    identifier in the path. So whatever is written, is written by a handler. *)
Theorem serve_spec router s r tr resp :
  exec (serve initialNamespace router s r) tr (Returned resp) →
  (writes tr = [] ∧ (resp = mkHttpResponse 401 NoBody ∨ ∃ err, resp = ServeError err)) ∨
  ∃ pattern params e tr1 tr2,
    Lookup router (Method r) (escaped_Path r) = Some (pattern, params) ∧
    HandlerFor (Method r) pattern = Some e ∧ negotiation r = [] ∧
    tr = tr1 ++ tr2 ∧ passed s r tr1 ∧ handled e params r tr2 resp.
Proof.
  intros He.
  assert (Hrej : ∀ err, exec (S := api) (Ret (ServeError err)) tr (Returned resp) →
    writes tr = [] ∧ (resp = mkHttpResponse 401 NoBody ∨ ∃ err, resp = ServeError err)).
  { intros err [-> [= ->]]%exec_ret_inv. go_simpl. eauto. }
  destruct (Lookup router (Method r) (escaped_Path r)) as [[pattern params]|] eqn:El.
  2:{ unfold serve in He. rewrite El in He. left. by eapply Hrej. }
  destruct (HandlerFor (Method r) pattern) as [e|] eqn:Eh.
  2:{ unfold serve in He. rewrite El, Eh in He. left. by eapply Hrej. }
  apply (serve_operation _ _ _ _ _ _ _ _ El Eh) in He as [(Hw & _ & ->)|(tr1 & tr2 & -> & Hp & He)]; [by eauto|].
  apply ServeHTTP_handled in He as [[-> Herr]|[Hn Hh]].
  - left. rewrite app_nil_r. destruct Hp. eauto.
  - right. by exists pattern, params, e, tr1, tr2.
Qed.

(** *** What a device sees of a refusal *)

Definition malformed (r : request) : bool :=
  HasBody r && match Consume r with ConsumeFailed => true | _ => false end.

Lemma bind_message_inl r err :
  bind_message r = inl err →
  flattenComposite err ≠ [] ∧
  Forall (λ e, error_code e = if malformed r then 400 else 422)%Z (flattenComposite err).
Proof.
  unfold bind_message, malformed. destruct (HasBody r); [|intros [= <-]; by repeat constructor].
  destruct (Consume r) as [m| |]; simpl; [|intros [= <-]; by repeat constructor..].
  destruct (Message_Validate m) as [e|] eqn:E; [|done]. intros [= <-].
  apply Message_Validate_errors in E as (es & -> & Hne & Hes). simpl.
  assert (concat (map flattenComposite es) = es) as ->.
  { clear Hne. induction Hes as [|e es [-> | ->] _ IH]; simpl; by rewrite ?IH. }
  split; [done|]. eapply Forall_impl; [exact Hes|]. by intros e [-> | ->].
Qed.

Lemma ServeError_bind r err :
  bind_message r = inl err →
  ServeError (CompositeError [err]) =
    let c := (if malformed r then 400 else 422)%Z in mkHttpResponse c (ErrorDocument c).
Proof.
  intros [Hne Hall]%bind_message_inl. unfold ServeError. simpl. rewrite app_nil_r.
  destruct (flattenComposite err) as [|e es]; [done|]. apply Forall_cons in Hall as [-> _]. done.
Qed.

(** A message that the schema refuses never reaches the handler of messages: a body
    that cannot be read as JSON is answered by status 400, which the client
    takes for the bad request of the operation; a missing body, or a message
    with a wrong type or time, by 422, which the client does not know. No call
    is made. *)
Theorem invalid_message_refused params r :
  negotiation r = [] → (∀ m, ¬ carries r m) →
  ∃ resp, PostData_ServeHTTP initialNamespace params r = Ret resp ∧
    PostControl_ServeHTTP params r = Ret resp ∧
    StatusCode resp = (if malformed r then 400 else 422)%Z ∧
    PostData_ReadResponse resp =
      if malformed r then Failed _ PostDataMessageForDeviceBadRequest else APIError _ 422.
Proof.
  intros Hn Hc. unfold PostData_ServeHTTP, PostControl_ServeHTTP, BindValidRequest, PostData_BindRequest,
    PostControl_BindRequest. rewrite Hn.
  destruct (bind_message r) as [err|m] eqn:E; [|by destruct (Hc m); apply bind_message_inr].
  rewrite (ServeError_bind _ _ E). eexists. split_and!; [done..|]. by destruct (malformed r).
Qed.

(** *** Every response of a handler is one of its operation *)

Lemma wp_any {A} (p : go A) : wp p (λ _ _, True).
Proof. by apply wp_exec. Qed.

(** [p] returns nothing but what satisfies [P]. *)
Definition returns {A} (P : A → Prop) (p : go A) : Prop :=
  wp p (λ _ out, ∀ a, out = Returned a → P a).

Lemma returns_bind {A B} (P : B → Prop) (p : go A) (f : A → go B) :
  (∀ a, returns P (f a)) → returns P (p ≫= f).
Proof.
  intros Hf. apply wp_bind. eapply wp_mono; [apply wp_any|]. intros tr [a|c] _; [|done]. apply Hf.
Qed.

Lemma returns_ret {A} (P : A → Prop) a : P a → returns P (Ret a).
Proof. intros H a' [= <-]. exact H. Qed.

Lemma returns_send deviceID d lists :
  returns (λ o, to_GetData o ≠ None) (send_configuration deviceID d lists).
Proof.
  unfold send_configuration. destruct lists as [[ws ss]|e]; [|by apply returns_ret].
  apply returns_bind. intros storage. apply returns_bind. intros [ms|e]; [|by apply returns_ret].
  apply returns_bind. intros [logs|e]; [|by apply returns_ret].
  apply returns_bind. intros id. apply returns_bind. intros now. by apply returns_ret.
Qed.

(** The handlers of the operations without a bad request never answer one, so
    [respond] does not crash for want of a response. *)
Lemma responses_known deviceID m :
  returns (λ o, to_GetControl o ≠ None) (GetControlMessageForDevice initialNamespace deviceID) ∧
  returns (λ o, to_GetData o ≠ None) (GetDataMessageForDevice initialNamespace deviceID) ∧
  returns (λ o, to_PostControl o ≠ None) (PostControlMessageForDevice deviceID m).
Proof.
  split_and!; [| |by apply returns_ret].
  - apply returns_bind. intros [d|e]; [|by destruct (IsNotFound e); apply returns_ret].
    destruct (_ && _); [|by apply returns_ret]. apply returns_bind. intros [].
    + apply returns_bind. intros m'. by apply returns_ret.
    + by apply returns_ret.
  - apply returns_bind. intros [d|e]; [|by destruct (IsNotFound e); apply returns_ret].
    apply returns_bind. intros lists. apply returns_send.
Qed.
(** *** A remote call is a call of the handler *)

(** The four operations seen alike: the handler as a function of the identifier
    and the message, and the way of its response to the client. *)
Record remote := Remote {
  payload_type : Type;
  responder : Type;
  operation : ClientOperation;
  write_to_request : string → models.Message → client_request;
  handler : string → models.Message → go (Responder payload_type);
  to_responder : Responder payload_type → option responder;
  write_response : responder → go http_response;
  read_response : http_response → answered responder;
  seen : responder → answered responder;
  unauthorized : responder;
}.

Definition remote_of (receivedM : models.Message → models.Message)
    (receivedR : models.MessageResponse → models.MessageResponse) (e : endpoint) : remote :=
  match e with
  | ControlIn =>
      Remote _ _ GetControl_operation (λ id _, GetControl_WriteToRequest id)
        (λ id _, GetControlMessageForDevice initialNamespace id) to_GetControl GetControl_WriteResponse
        GetControl_ReadResponse (GetControl_seen receivedM) GetControlMessageForDeviceUnauthorized
  | DataIn =>
      Remote _ _ GetData_operation (λ id _, GetData_WriteToRequest id)
        (λ id _, GetDataMessageForDevice initialNamespace id) to_GetData GetData_WriteResponse
        GetData_ReadResponse (GetData_seen receivedM) GetDataMessageForDeviceUnauthorized
  | ControlOut =>
      Remote _ _ PostControl_operation (λ id m, PostControl_WriteToRequest id (Some m))
        (λ id m, PostControlMessageForDevice id m) to_PostControl PostControl_WriteResponse
        PostControl_ReadResponse PostControl_seen PostControlMessageForDeviceUnauthorized
  | DataOut =>
      Remote _ _ PostData_operation (λ id m, PostData_WriteToRequest id (Some m))
        (λ id m, PostDataMessageForDevice initialNamespace id m) to_PostData PostData_WriteResponse
        PostData_ReadResponse (PostData_seen receivedR) PostDataMessageForDeviceUnauthorized
  end.

(** The client and the server have the same table of operations. *)
Lemma HandlerFor_operation receivedM receivedR e :
  let op := operation (remote_of receivedM receivedR e) in HandlerFor (op_Method op) (PathPattern op) = Some e.
Proof. by destruct e. Qed.

(** The transport: the request that reaches the server for an operation and the
    request of the client, over a connection whose peer has the certificates. *)
Definition transport := ClientOperation → client_request → request.

(** What the client's transport and the router do for one call: the method and
    the content types arrive, the path leads back to the pattern and its
    parameters, and the body is the message as JSON delivers it. *)
Definition carries_call (receivedM : models.Message → models.Message) (peers : option (list Certificate))
    (router : Router) (send : transport) (op : ClientOperation) (req : client_request) : Prop :=
  let r := send op req in
  Method r = op_Method op ∧ peer_certificates (http r) = peers ∧ negotiation r = [] ∧
  HasBody r = bool_decide (is_Some (BodyParam req)) ∧
  (∀ m, BodyParam req = Some m → Consume r = Consumed (receivedM m)) ∧
  Lookup router (Method r) (escaped_Path r) = Some (PathPattern op, PathParams req).

(** A call of the client: the request is sent and served, the response is read. *)
Definition submit (router : Router) (s : served) (send : transport) (k : remote) (id : string) (m : models.Message)
    : go (answered (responder k)) :=
  resp ← serve initialNamespace router s (send (operation k) (write_to_request k id m));
  Ret (read_response k resp).

Lemma ServeHTTP_remote receivedM receivedR e params r id m :
  negotiation r = [] → bindDeviceID (GetOK params "device_id") = id →
  (e = ControlOut ∨ e = DataOut → bind_message r = inr m) →
  let k := remote_of receivedM receivedR e in
  ServeHTTP initialNamespace e params r = respond (to_responder k) (write_response k) (handler k id m).
Proof.
  intros Hn <- Hb. destruct e; simpl;
    unfold GetData_ServeHTTP, PostData_ServeHTTP, GetControl_ServeHTTP, PostControl_ServeHTTP, BindValidRequest,
      PostData_BindRequest, PostControl_BindRequest; rewrite Hn; rewrite ?Hb by auto; done.
Qed.

Lemma remote_transmits receivedM receivedR e :
  delivers receivedM → delivers receivedR →
  let k := remote_of receivedM receivedR e in transmits (write_response k) (read_response k) (seen k).
Proof.
  intros HM HR. destruct (responses_arrive receivedM receivedR HM HR) as (? & ? & ? & ?). by destruct e.
Qed.

Lemma read_unauthorized receivedM receivedR e :
  let k := remote_of receivedM receivedR e in
  read_response k (mkHttpResponse 401 NoBody) = Failed _ (unauthorized k).
Proof. by destruct e. Qed.

(** A call of the generated client is a call of the handler. If the transport
    carries the call and the message is valid as it arrives, then the client is
    answered the unauthorized response of the operation, for which nothing was
    written, and only over TLS; or, after its certificates were let through, its
    answer is the response that the handler gave for this identifier and this
    message, a success as a result and any other as an error, the payload as
    JSON delivers it. *)
Theorem remote_call receivedM receivedR peers router s send e id m tr ans :
  let k := remote_of receivedM receivedR e in
  delivers receivedM → delivers receivedR →
  carries_call receivedM peers router send (operation k) (write_to_request k id m) →
  Message_valid (receivedM m) →
  exec (submit router s send k id m) tr (Returned ans) →
  (peers ≠ None ∧ writes tr = [] ∧ ans = Failed _ (unauthorized k)) ∨
  ∃ tr1 tr2 res o, tr = tr1 ++ tr2 ∧ writes tr1 = [] ∧ (peers = None → tr1 = []) ∧
    exec (handler k id (receivedM m)) tr2 (Returned res) ∧
    to_responder k res = Some o ∧ ans = seen k o.
Proof.
  intros k HM HR (Hmethod & Hpeers & Hneg & Hbody & Hcons & Hl) Hv He.
  unfold submit in He. set (r := send (operation k) (write_to_request k id m)) in *.
  apply exec_bind_inv in He as [(resp & t1 & t2 & -> & He & [-> [= ->]]%exec_ret_inv)|(? & [=] & _)].
  rewrite app_nil_r.
  assert (Hh : HandlerFor (Method r) (PathPattern (operation k)) = Some e).
  { rewrite Hmethod. apply HandlerFor_operation. }
  apply (serve_operation _ _ _ _ _ _ _ _ Hl Hh) in He as [(Hw & Hp & ->)|(tr1 & tr2 & -> & [Hw Hp] & He)].
  { left. rewrite Hpeers in Hp. split_and!; [done..|]. apply read_unauthorized. }
  right. rewrite (ServeHTTP_remote receivedM receivedR e _ _ id (receivedM m) Hneg) in He.
  2:{ by destruct e. }
  2:{ intros He'. apply bind_message_inr. split_and!; [|apply Hcons|done];
        [rewrite Hbody|]; by destruct He' as [-> | ->]. }
  apply exec_bind_inv in He as [(res & t3 & t4 & -> & Hres & Hwr)|(? & [=] & _)].
  destruct (to_responder _ res) as [o|] eqn:Eo; [|by inversion Hwr].
  destruct (remote_transmits receivedM receivedR e HM HR o) as [(resp' & Hw' & Hseen)|Hw']; rewrite Hw' in Hwr.
  - apply exec_ret_inv in Hwr as [-> [= ->]]. rewrite app_nil_r. exists tr1, t3, res, o.
    split_and!; try done. intros ->. by rewrite Hpeers in Hp.
  - by inversion Hwr.
Qed.
End theorems.
