(* ===== verification/Client.v ===== *)
(** * The generated client ([client], [client/yggdrasil])

    The parameters of an operation with their setters, the request they are
    written to, the methods of the client, and what the errors they return print.
    [Rest] has the request of each operation and the reading of its responses;
    here the methods around them. The transport of the library, which builds the
    HTTP request and does the round trip, is a parameter. *)
From S2P Require Import Prelude Effects K8s Labels X509 Models Normalize Calls Repositories Lookups ConfigMaps Yggdrasil Main Validation Rest.
From stdpp Require Import pretty.

Section client.
Context {F : Validation.Formats} `{JM : JSON models.Message} `{JR : JSON models.MessageResponse}.
(** Contexts, HTTP clients, round trippers and writers of credentials are opaque. *)
Context {Ctx HttpClient AuthInfoWriter RoundTripper : Type}.

(** ** Parameters of an operation *)

(** The parameters of the operations that take no message leave it [nil]. *)
Record ClientParams := mkClientParams {
  params_DeviceID : string;
  params_Message : option models.Message;
  params_timeout : Z;
  params_Context : option Ctx;
  params_HTTPClient : option HttpClient;
}.

(** [cr.DefaultTimeout], 30 seconds *)
Definition DefaultTimeout : Z := 30000000000.

Definition NewClientParams : ClientParams := mkClientParams "" None DefaultTimeout None None.
Definition NewClientParamsWithTimeout (timeout : Z) : ClientParams := mkClientParams "" None timeout None None.
Definition NewClientParamsWithContext (ctx : option Ctx) : ClientParams := mkClientParams "" None 0 ctx None.
Definition NewClientParamsWithHTTPClient (client : option HttpClient) : ClientParams :=
  mkClientParams "" None 0 None client.

Definition SetTimeout (timeout : Z) (o : ClientParams) : ClientParams :=
  mkClientParams (params_DeviceID o) (params_Message o) timeout (params_Context o) (params_HTTPClient o).
Definition SetContext (ctx : option Ctx) (o : ClientParams) : ClientParams :=
  mkClientParams (params_DeviceID o) (params_Message o) (params_timeout o) ctx (params_HTTPClient o).
Definition SetHTTPClient (client : option HttpClient) (o : ClientParams) : ClientParams :=
  mkClientParams (params_DeviceID o) (params_Message o) (params_timeout o) (params_Context o) client.
Definition SetDeviceID (deviceID : string) (o : ClientParams) : ClientParams :=
  mkClientParams deviceID (params_Message o) (params_timeout o) (params_Context o) (params_HTTPClient o).
Definition SetMessage (message : option models.Message) (o : ClientParams) : ClientParams :=
  mkClientParams (params_DeviceID o) message (params_timeout o) (params_Context o) (params_HTTPClient o).

(** Each returns the object it was called on. *)
Definition WithTimeout := SetTimeout.
Definition WithContext := SetContext.
Definition WithHTTPClient := SetHTTPClient.
Definition WithDeviceID := SetDeviceID.
Definition WithMessage := SetMessage.

(** ** The request *)

(** [runtime.ClientRequest]: an interface whose setters may fail. *)
Class ClientRequest (Req : Type) := {
  req_SetTimeout : Z → Req → result Req;
  req_SetPathParam : string → string → Req → result Req;
  req_SetBodyParam : models.Message → Req → result Req;
}.

Definition then_set {A B} (r : result A) (f : A → result B) : result B :=
  match r with Ok a => f a | Err e => Err e end.

Definition has_message (e : endpoint) : bool := match e with ControlOut | DataOut => true | ControlIn | DataIn => false end.

(** [WriteToRequest] of the parameters of each operation *)
Definition WriteToRequest {Req} `{ClientRequest Req} (e : endpoint) (o : ClientParams) (r : Req) : result Req :=
  then_set (req_SetTimeout (params_timeout o) r) (λ r,
  then_set (req_SetPathParam "device_id" (params_DeviceID o) r) (λ r,
  if has_message e then
    match params_Message o with
    | Some m => req_SetBodyParam m r
    | None => Ok r
    end
  else Ok r)).

(** The request of the library, whose setters do not fail: the parameters, with
    the timeout. *)
Definition plain_request : Type := client_request * Z.
#[export] Instance plain_ClientRequest : ClientRequest plain_request := {|
  req_SetTimeout timeout r := Ok (r.1, timeout);
  req_SetPathParam name value r :=
    Ok (mkClientRequest (filter (λ p, p.1 ≠ name) (PathParams r.1) ++ [(name, value)]) (BodyParam r.1), r.2);
  req_SetBodyParam m r := Ok (mkClientRequest (PathParams r.1) (Some m), r.2);
|}.
Definition new_request : plain_request := (mkClientRequest [] None, DefaultTimeout).

(** ** The methods *)

(** The responses of an operation, by endpoint. *)
Definition response_type (e : endpoint) : Type :=
  match e with
  | ControlIn => GetControlMessageForDeviceResponder
  | DataIn => GetDataMessageForDeviceResponder
  | ControlOut => PostControlMessageForDeviceResponder
  | DataOut => PostDataMessageForDeviceResponder
  end.

Definition ReadResponse (e : endpoint) : http_response → answered (response_type e) :=
  match e with
  | ControlIn => GetControl_ReadResponse
  | DataIn => GetData_ReadResponse
  | ControlOut => PostControl_ReadResponse
  | DataOut => PostData_ReadResponse
  end.

(** Which response is of the type [...OK]. *)
Definition is_OK (e : endpoint) : response_type e → bool :=
  match e with
  | ControlIn => λ r, match r with GetControlMessageForDeviceOK _ => true | _ => false end
  | DataIn => λ r, match r with GetDataMessageForDeviceOK _ => true | _ => false end
  | ControlOut => λ r, match r with PostControlMessageForDeviceOK => true | _ => false end
  | DataOut => λ r, match r with PostDataMessageForDeviceOK _ => true | _ => false end
  end.

Definition operation_of (e : endpoint) : ClientOperation :=
  match e with
  | ControlIn => GetControl_operation
  | DataIn => GetData_operation
  | ControlOut => PostControl_operation
  | DataOut => PostData_operation
  end.

(** [runtime.ClientOperation]: the fields that differ between calls. *)
Record submission := mkSubmission {
  sub_endpoint : endpoint;
  sub_Params : ClientParams;
  sub_Context : option Ctx;
  sub_Client : option HttpClient;
}.

(** The transport: one round trip, with the request that the parameters were
    written to. *)
Definition round_tripper := submission → plain_request → go (result http_response).

(** [Submit] of the library: writes the parameters, does the round trip, reads. *)
Definition Submit (send : round_tripper) (op : submission) : go (answered (response_type (sub_endpoint op))) :=
  match WriteToRequest (sub_endpoint op) (sub_Params op) new_request with
  | Err e => Ret (Unreadable _ e)
  | Ok req =>
      r ← send op req;
      Ret (match r with
           | Err e => Unreadable _ e
           | Ok resp => ReadResponse (sub_endpoint op) resp
           end)
  end.

Record Client := mkClient { transport_ : round_tripper; client_authInfo : option AuthInfoWriter }.
Definition New (transport : round_tripper) (authInfo : option AuthInfoWriter) : Client := mkClient transport authInfo.

(** The method of an operation: the type assertion panics on anything but a
    response of the type [...OK]. *)
Definition call_operation (e : endpoint) (a : Client) (ctx : option Ctx) (params : option ClientParams)
    : go (answered (response_type e)) :=
  params ← lift (deref_ptr params);
  ans ← Submit (transport_ a) (mkSubmission e params ctx (params_HTTPClient params));
  match ans with
  | Result _ r => if is_OK e r then Ret (Result _ r) else Crash Panic
  | ans => Ret ans
  end.

Definition Client_GetControlMessageForDevice := call_operation ControlIn.
Definition Client_GetDataMessageForDevice := call_operation DataIn.
Definition Client_PostControlMessageForDevice := call_operation ControlOut.
Definition Client_PostDataMessageForDevice := call_operation DataOut.

(** ** The client of the API ([flotta_management_client.go]) *)
Definition DefaultHost : string := "localhost".
Definition DefaultBasePath : string := "/api/flotta-management/v1".
Definition DefaultSchemes : list string := ["http"; "https"]%string.

Record ClientURL := mkClientURL { url_Scheme : string; url_Host : string; url_path : string }.
Record ClientConfig := mkClientConfig {
  config_URL : option ClientURL;
  config_Transport : option RoundTripper;
  config_AuthInfo : option AuthInfoWriter;
}.

(** [rtclient.Runtime] and [rtclient.New] of the library *)
Record Runtime := mkRuntime {
  rt_Host : string;
  rt_BasePath : string;
  rt_schemes : list string;
  rt_Transport : RoundTripper;
}.
Context (DefaultTransport : RoundTripper) (round_trip : Runtime → round_tripper).
Definition rtclient_New (host basePath : string) (schemes : list string) : Runtime :=
  mkRuntime host (if String.prefix "/" basePath then basePath else "/" +:+ basePath) schemes DefaultTransport.

Record FlottaManagement := mkFlottaManagement { Yggdrasil_client : Client; FlottaManagement_Transport : Runtime }.

Definition FlottaManagement_New (c : ClientConfig) : FlottaManagement :=
  let '(host, basePath, schemes) :=
    match config_URL c with
    | Some u => (url_Host u, url_path u, [url_Scheme u])
    | None => (DefaultHost, DefaultBasePath, DefaultSchemes)
    end in
  let transport := rtclient_New host basePath schemes in
  let transport :=
    match config_Transport c with
    | Some t => mkRuntime (rt_Host transport) (rt_BasePath transport) (rt_schemes transport) t
    | None => transport
    end in
  mkFlottaManagement (New (round_trip transport) (config_AuthInfo c)) transport.

(** ** The texts of the responses as errors *)

(** [%+v] of a payload *)
Context (show_Message : option models.Message → string) (show_MessageResponse : option models.MessageResponse → string).

(** The status of a response, the end of its name, and what follows the name. *)
Definition GetControl_text (r : GetControlMessageForDeviceResponder) : Z * string * string :=
  match r with
  | GetControlMessageForDeviceOK p => (200%Z, "OK", " " +:+ show_Message p)
  | GetControlMessageForDeviceUnauthorized => (401%Z, "Unauthorized", "")
  | GetControlMessageForDeviceForbidden => (403%Z, "Forbidden", "")
  | GetControlMessageForDeviceNotFound => (404%Z, "NotFound", "")
  | GetControlMessageForDeviceInternalServerError => (500%Z, "InternalServerError", "")
  end%string.
Definition GetData_text (r : GetDataMessageForDeviceResponder) : Z * string * string :=
  match r with
  | GetDataMessageForDeviceOK p => (200%Z, "OK", " " +:+ show_Message p)
  | GetDataMessageForDeviceUnauthorized => (401%Z, "Unauthorized", "")
  | GetDataMessageForDeviceForbidden => (403%Z, "Forbidden", "")
  | GetDataMessageForDeviceNotFound => (404%Z, "NotFound", "")
  | GetDataMessageForDeviceInternalServerError => (500%Z, "InternalServerError", "")
  end%string.
Definition PostControl_text (r : PostControlMessageForDeviceResponder) : Z * string * string :=
  match r with
  | PostControlMessageForDeviceOK => (200%Z, "OK", "")
  | PostControlMessageForDeviceUnauthorized => (401%Z, "Unauthorized", "")
  | PostControlMessageForDeviceForbidden => (403%Z, "Forbidden", "")
  | PostControlMessageForDeviceNotFound => (404%Z, "NotFound", "")
  | PostControlMessageForDeviceInternalServerError => (500%Z, "InternalServerError", "")
  end%string.
Definition PostData_text (r : PostDataMessageForDeviceResponder) : Z * string * string :=
  match r with
  | PostDataMessageForDeviceOK p => (200%Z, "OK", " " +:+ show_MessageResponse p)
  | PostDataMessageForDeviceBadRequest => (400%Z, "BadRequest", "")
  | PostDataMessageForDeviceUnauthorized => (401%Z, "Unauthorized", "")
  | PostDataMessageForDeviceForbidden => (403%Z, "Forbidden", "")
  | PostDataMessageForDeviceNotFound => (404%Z, "NotFound", "")
  | PostDataMessageForDeviceInternalServerError => (500%Z, "InternalServerError", "")
  end%string.

Definition Error_text (op : ClientOperation) (name : string) (text : Z * string * string) : string :=
  let '(code, kind, payload) := text in
  "[" +:+ op_Method op +:+ " " +:+ PathPattern op +:+ "][" +:+ pretty code +:+ "] " +:+ name +:+ kind +:+ " " +:+ payload.

Definition GetControl_Error (r : GetControlMessageForDeviceResponder) : string :=
  Error_text GetControl_operation "getControlMessageForDevice" (GetControl_text r).
Definition GetData_Error (r : GetDataMessageForDeviceResponder) : string :=
  Error_text GetData_operation "getDataMessageForDevice" (GetData_text r).
Definition PostControl_Error (r : PostControlMessageForDeviceResponder) : string :=
  Error_text PostControl_operation "postControlMessageForDevice" (PostControl_text r).
Definition PostData_Error (r : PostDataMessageForDeviceResponder) : string :=
  Error_text PostData_operation "postDataMessageForDevice" (PostData_text r).

(** ** Theorems *)

(** Only a response of the type [...OK] is read as a result. *)
Lemma ReadResponse_OK e resp r : ReadResponse e resp = Result _ r → is_OK e r = true.
Proof.
  destruct e; simpl; unfold GetControl_ReadResponse, GetData_ReadResponse, PostControl_ReadResponse, PostData_ReadResponse;
    intros H; repeat case_match; by simplify_eq.
Qed.

(** What the parameters are written to. *)
Definition written (e : endpoint) (p : ClientParams) : client_request :=
  mkClientRequest [("device_id"%string, params_DeviceID p)] (if has_message e then params_Message p else None).

Lemma WriteToRequest_written e p : WriteToRequest e p new_request = Ok (written e p, params_timeout p).
Proof. unfold WriteToRequest, written. simpl. destruct (has_message e); [|done]. by destruct (params_Message p). Qed.

(** A call is one round trip, whose response it reads; the assertion never fails. *)
Lemma call_operation_reads e a ctx p :
  same_executions (call_operation e a ctx (Some p))
    (r ← transport_ a (mkSubmission e p ctx (params_HTTPClient p)) (written e p, params_timeout p);
     Ret (match r with Err err => Unreadable _ err | Ok resp => ReadResponse e resp end)).
Proof.
  unfold call_operation. simpl. unfold Submit. simpl. rewrite WriteToRequest_written.
  etransitivity; [apply prog_bind_assoc|]. apply same_bind; [done|]. intros [resp|err]; [|done].
  simpl. destruct (ReadResponse e resp) as [r|r|err|c] eqn:E; [|done..]. by rewrite (ReadResponse_OK _ _ _ E).
Qed.
End client.
Arguments ClientParams : clear implicits.
Arguments submission : clear implicits.
Arguments Client : clear implicits.
Arguments round_tripper : clear implicits.

(** *** A call of the client is a call of the handler *)
Lemma same_head {S : signature} {A B} (p q : prog S A) (f : A → prog S B) :
  same_executions p q → same_executions (a ← p; f a) (a ← q; f a).
Proof. intros H. by apply same_bind. Qed.

Section remote.
Context {F : Validation.Formats} `{JM : JSON models.Message} `{JR : JSON models.MessageResponse}.
Context {R : EdgeDeviceRepository} {DR : EdgeDeploymentRepository}.
Context {AL : AllowListGenerator} {RA : RegistryAuthAPI} {CM : ConfigMapAPI} {TLS : CSRSigner}.
Context {U : UnicodeTables} (initialNamespace : string).
Context {Ctx HttpClient AuthInfoWriter : Type}.
Context (receivedM : models.Message → models.Message) (receivedR : models.MessageResponse → models.MessageResponse).

(** The answer of a method, as the answer to the operation in [Rest]. *)
Definition as_remote (e : endpoint)
    : answered (response_type e) → answered (responder (remote_of initialNamespace receivedM receivedR e)) :=
  match e with ControlIn | DataIn | ControlOut | DataOut => λ a, a end.

(** Round trips that reach the server, over a wire that makes a request of the
    operation and its parameters. *)
Definition reaches (send : round_tripper Ctx HttpClient) (server : request → go http_response) (wire : transport) : Prop :=
  ∀ op req, same_executions (send op req)
    (resp ← server (wire (operation_of (sub_endpoint op)) req.1); Ret (Ok resp)).

Lemma call_operation_submit router s wire send auth e ctx (p : ClientParams Ctx HttpClient) m :
  reaches send (serve initialNamespace router s) wire →
  (has_message e = true → params_Message p = Some m) →
  same_executions
    (ans ← call_operation e (New (AuthInfoWriter := AuthInfoWriter) send auth) ctx (Some p); Ret (as_remote e ans))
    (submit initialNamespace router s wire (remote_of initialNamespace receivedM receivedR e) (params_DeviceID p) m).
Proof.
  intros Hsend Hm. unfold submit.
  etransitivity; [apply same_head, call_operation_reads|].
  etransitivity; [apply prog_bind_assoc|].
  etransitivity; [apply same_head, Hsend|].
  etransitivity; [apply prog_bind_assoc|]. simpl. unfold written.
  destruct e; simpl in *; try rewrite Hm by done; apply same_bind; done.
Qed.

(** C12: A call of a method of the generated client is a call of the handler. Let
    the transport reach the server and carry the call, and the message be valid
    as it arrives. Then the method, with parameters for an identifier and, where
    the operation takes one, a message, makes one request; whenever that returns
    the method returns, so its type assertion does not fail on any response; and
    it is answered the unauthorized response of the operation, for which nothing
    was written, and only over TLS, or, after its certificates were let through,
    the response that the handler gave for this identifier and this message, a
    success as a result and any other as an error, the payload as JSON delivers
    it. *)
Theorem client_remote_call peers router s wire send auth e ctx (p : ClientParams Ctx HttpClient) m tr out :
  let k := remote_of initialNamespace receivedM receivedR e in
  delivers receivedM → delivers receivedR →
  carries_call receivedM peers router wire (operation k) (write_to_request k (params_DeviceID p) m) →
  Message_valid (receivedM m) →
  reaches send (serve initialNamespace router s) wire →
  (has_message e = true → params_Message p = Some m) →
  exec (call_operation e (New (AuthInfoWriter := AuthInfoWriter) send auth) ctx (Some p)) tr out →
  (∃ c, out = Crashed c ∧
     exec (send (mkSubmission e p ctx (params_HTTPClient p)) (written e p, params_timeout p)) tr (Crashed c)) ∨
  ∃ ans, out = Returned ans ∧
    ((peers ≠ None ∧ writes tr = [] ∧ as_remote e ans = Failed _ (unauthorized k)) ∨
     ∃ tr1 tr2 res o, tr = tr1 ++ tr2 ∧ writes tr1 = [] ∧ (peers = None → tr1 = []) ∧
       exec (handler k (params_DeviceID p) (receivedM m)) tr2 (Returned res) ∧
       to_responder k res = Some o ∧ as_remote e ans = seen k o).
Proof.
  intros k HM HR Hc Hv Hsend Hm He. pose proof He as Hr.
  apply call_operation_reads, exec_bind_inv in Hr as [(r & tr1 & tr2 & -> & H1 & H2)|(c & -> & H)]; [right|left; by exists c].
  inversion H2; subst. eexists. split; [done|].
  eapply remote_call; [done|done|exact Hc|done|]. eapply call_operation_submit; [done|done|].
  rewrite <- (app_nil_r (tr1 ++ [])). eapply exec_bind; [exact He|]. constructor.
Qed.
End remote.
