(* ===== verification/ManagementApi.v ===== *)
(** * The API object ([restapi/operations/flotta_management_api.go])

    The generated object that holds the consumers, producers and handlers of the
    API, caches an [http.Handler] for each operation when it is first needed, and
    is configured by [HandlerAPI]. A Go map that may be nil is an option; writing
    to a nil map, like calling a nil interface, panics. The router, JSON and the
    authenticators belong to libraries and are parameters. *)
From S2P Require Import Prelude Effects K8s Labels X509 Models Normalize Calls Repositories Lookups ConfigMaps Yggdrasil Main Validation Rest.

(** A responder is what writing it does; [http.Handler]s of operations get the
    parameters of the route with the request. *)
Abbreviation responder := (go http_response).
Abbreviation http_Handler := (list (string * string) → request → go http_response).
Abbreviation Builder := (http_Handler → http_Handler).

(** The bound parameters of an operation. *)
Record Params := mkParams { Params_DeviceID : string; Params_Message : option models.Message }.
(** The handler of an operation, [...HandlerFunc]. *)
Abbreviation OperationHandler := (Params → go responder).

Section api.
Context {Document Context_ Registry Consumer Producer Authenticator : Type}.

Record FlottaManagementAPI := mkAPI {
  api_spec : option Document;
  api_context : option Context_;
  api_handlers : option (gmap string (gmap string http_Handler));
  api_formats : Registry;
  customConsumers : option (gmap string (option Consumer));
  customProducers : option (gmap string (option Producer));
  defaultConsumes : string;
  defaultProduces : string;
  api_Middleware : option (option Builder → http_Handler);
  useSwaggerUI : bool;
  BasicAuthenticator : option Authenticator;
  APIKeyAuthenticator : option Authenticator;
  BearerAuthenticator : option Authenticator;
  JSONConsumer : option Consumer;
  JSONProducer : option Producer;
  (* the four handlers of the operations *)
  OperationHandlers : endpoint → option OperationHandler;
}.

(** Assignments to fields. *)
Definition set_spec (spec : option Document) (o : FlottaManagementAPI) : FlottaManagementAPI :=
  mkAPI spec (api_context o) (api_handlers o) (api_formats o) (customConsumers o) (customProducers o)
    (defaultConsumes o) (defaultProduces o) (api_Middleware o) (useSwaggerUI o) (BasicAuthenticator o)
    (APIKeyAuthenticator o) (BearerAuthenticator o) (JSONConsumer o) (JSONProducer o) (OperationHandlers o).
Definition set_context (c : option Context_) (o : FlottaManagementAPI) : FlottaManagementAPI :=
  mkAPI (api_spec o) c (api_handlers o) (api_formats o) (customConsumers o) (customProducers o)
    (defaultConsumes o) (defaultProduces o) (api_Middleware o) (useSwaggerUI o) (BasicAuthenticator o)
    (APIKeyAuthenticator o) (BearerAuthenticator o) (JSONConsumer o) (JSONProducer o) (OperationHandlers o).
Definition set_handlers (h : option (gmap string (gmap string http_Handler))) (o : FlottaManagementAPI)
    : FlottaManagementAPI :=
  mkAPI (api_spec o) (api_context o) h (api_formats o) (customConsumers o) (customProducers o)
    (defaultConsumes o) (defaultProduces o) (api_Middleware o) (useSwaggerUI o) (BasicAuthenticator o)
    (APIKeyAuthenticator o) (BearerAuthenticator o) (JSONConsumer o) (JSONProducer o) (OperationHandlers o).
Definition set_formats (f : Registry) (o : FlottaManagementAPI) : FlottaManagementAPI :=
  mkAPI (api_spec o) (api_context o) (api_handlers o) f (customConsumers o) (customProducers o)
    (defaultConsumes o) (defaultProduces o) (api_Middleware o) (useSwaggerUI o) (BasicAuthenticator o)
    (APIKeyAuthenticator o) (BearerAuthenticator o) (JSONConsumer o) (JSONProducer o) (OperationHandlers o).
Definition set_custom (c : option (gmap string (option Consumer))) (p : option (gmap string (option Producer)))
    (o : FlottaManagementAPI) : FlottaManagementAPI :=
  mkAPI (api_spec o) (api_context o) (api_handlers o) (api_formats o) c p
    (defaultConsumes o) (defaultProduces o) (api_Middleware o) (useSwaggerUI o) (BasicAuthenticator o)
    (APIKeyAuthenticator o) (BearerAuthenticator o) (JSONConsumer o) (JSONProducer o) (OperationHandlers o).
Definition set_defaults (consumes produces : string) (ui : bool) (o : FlottaManagementAPI) : FlottaManagementAPI :=
  mkAPI (api_spec o) (api_context o) (api_handlers o) (api_formats o) (customConsumers o) (customProducers o)
    consumes produces (api_Middleware o) ui (BasicAuthenticator o)
    (APIKeyAuthenticator o) (BearerAuthenticator o) (JSONConsumer o) (JSONProducer o) (OperationHandlers o).
Definition set_authenticators (basic apikey bearer : option Authenticator) (o : FlottaManagementAPI)
    : FlottaManagementAPI :=
  mkAPI (api_spec o) (api_context o) (api_handlers o) (api_formats o) (customConsumers o) (customProducers o)
    (defaultConsumes o) (defaultProduces o) (api_Middleware o) (useSwaggerUI o) basic
    apikey bearer (JSONConsumer o) (JSONProducer o) (OperationHandlers o).
Definition set_json (c : option Consumer) (p : option Producer) (o : FlottaManagementAPI) : FlottaManagementAPI :=
  mkAPI (api_spec o) (api_context o) (api_handlers o) (api_formats o) (customConsumers o) (customProducers o)
    (defaultConsumes o) (defaultProduces o) (api_Middleware o) (useSwaggerUI o) (BasicAuthenticator o)
    (APIKeyAuthenticator o) (BearerAuthenticator o) c p (OperationHandlers o).
Definition set_operations (h : endpoint → option OperationHandler) (o : FlottaManagementAPI) : FlottaManagementAPI :=
  mkAPI (api_spec o) (api_context o) (api_handlers o) (api_formats o) (customConsumers o) (customProducers o)
    (defaultConsumes o) (defaultProduces o) (api_Middleware o) (useSwaggerUI o) (BasicAuthenticator o)
    (APIKeyAuthenticator o) (BearerAuthenticator o) (JSONConsumer o) (JSONProducer o) h.

(** ** Setters and getters *)
Definition UseRedoc (o : FlottaManagementAPI) := set_defaults (defaultConsumes o) (defaultProduces o) false o.
Definition UseSwaggerUI (o : FlottaManagementAPI) := set_defaults (defaultConsumes o) (defaultProduces o) true o.
Definition SetDefaultProduces (mediaType : string) (o : FlottaManagementAPI) :=
  set_defaults (defaultConsumes o) mediaType (useSwaggerUI o) o.
Definition SetDefaultConsumes (mediaType : string) (o : FlottaManagementAPI) :=
  set_defaults mediaType (defaultProduces o) (useSwaggerUI o) o.
Definition SetSpec (spec : option Document) (o : FlottaManagementAPI) := set_spec spec o.
Definition DefaultProduces (o : FlottaManagementAPI) : string := defaultProduces o.
Definition DefaultConsumes (o : FlottaManagementAPI) : string := defaultConsumes o.
Definition Formats (o : FlottaManagementAPI) : Registry := api_formats o.
Definition RegisterFormat {Format Validator : Type} (Registry_Add : string → Format → Validator → Registry → Registry)
    (name : string) (format : Format) (validator : Validator) (o : FlottaManagementAPI) :=
  set_formats (Registry_Add name format validator (api_formats o)) o.
Definition AuthenticatorsFor (o : FlottaManagementAPI) : option (gmap string Authenticator) := None.
Definition Authorizer (o : FlottaManagementAPI) : option Authenticator := None.

(** ** Validation *)
Definition missing {A} (x : option A) (name : string) : list string :=
  match x with None => [name] | Some _ => [] end.

Definition unregistered (o : FlottaManagementAPI) : list string :=
  missing (JSONConsumer o) "JSONConsumer" ++
  missing (JSONProducer o) "JSONProducer" ++
  missing (OperationHandlers o ControlIn) "yggdrasil.GetControlMessageForDeviceHandler" ++
  missing (OperationHandlers o DataIn) "yggdrasil.GetDataMessageForDeviceHandler" ++
  missing (OperationHandlers o ControlOut) "yggdrasil.PostControlMessageForDeviceHandler" ++
  missing (OperationHandlers o DataOut) "yggdrasil.PostDataMessageForDeviceHandler".

Definition Validate (o : FlottaManagementAPI) : option error :=
  match unregistered o with
  | [] => None
  | names => Some (ErrorString ("missing registration: " +:+ String.concat ", " names))
  end.

(** ** Media types *)
Definition for_media_type {X} (json : option X) (custom : option (gmap string (option X)))
    (result : gmap string (option X)) (mt : string) : gmap string (option X) :=
  let result := if String.eqb mt "application/json" then <["application/json"%string := json]> result else result in
  match default ∅ custom !! mt with
  | Some c => <[mt := c]> result
  | None => result
  end.

Definition ConsumersFor (mediaTypes : list string) (o : FlottaManagementAPI) : gmap string (option Consumer) :=
  foldl (for_media_type (JSONConsumer o) (customConsumers o)) ∅ mediaTypes.
Definition ProducersFor (mediaTypes : list string) (o : FlottaManagementAPI) : gmap string (option Producer) :=
  foldl (for_media_type (JSONProducer o) (customProducers o)) ∅ mediaTypes.

Definition RegisterConsumer (mediaType : string) (consumer : option Consumer) (o : FlottaManagementAPI)
    : deref FlottaManagementAPI :=
  match customConsumers o with
  | None => NilDeref
  | Some m => Val (set_custom (Some (<[mediaType := consumer]> m)) (customProducers o) o)
  end.
Definition RegisterProducer (mediaType : string) (producer : option Producer) (o : FlottaManagementAPI)
    : deref FlottaManagementAPI :=
  match customProducers o with
  | None => NilDeref
  | Some m => Val (set_custom (customConsumers o) (Some (<[mediaType := producer]> m)) o)
  end.

(** ** The cache of handlers *)
Definition root_path (path : string) : string := if String.eqb path "/" then "" else path.

Definition HandlerFor (method path : string) (o : FlottaManagementAPI) : option http_Handler :=
  match api_handlers o with
  | None => None
  | Some handlers =>
      match handlers !! ToUpper method with
      | None => None
      | Some h => h !! root_path path
      end
  end.

Section server.
Context {F : Validation.Formats}.
(** [middleware.NewRoutableContext], and what the context makes of a builder:
    the router, with or without the documentation of the API. *)
Context (NewRoutableContext : option Document → Context_).
Context (APIHandler APIHandlerSwaggerUI : Context_ → FlottaManagementAPI → option Builder → http_Handler).

(** Binding of an operation's parameters. *)
Definition bind_params (e : endpoint) (params : list (string * string)) (r : request) : api_error + Params :=
  let posted (p : api_error + PostParams) : api_error + Params :=
    match p with inl err => inl err | inr p => inr (mkParams (DeviceID p) (Some (Message p))) end in
  match e with
  | ControlIn => inr (mkParams (GetControl_BindRequest params) None)
  | DataIn => inr (mkParams (GetData_BindRequest params) None)
  | ControlOut => posted (PostControl_BindRequest params r)
  | DataOut => posted (PostData_BindRequest params r)
  end.

(** The handler of an operation: the value that [NewGetControlMessageForDevice] or
    one of its siblings makes, by its [ServeHTTP]. *)
Definition NewOperation (e : endpoint) (handler : option OperationHandler) : http_Handler := λ params r,
  match BindValidRequest r (bind_params e params r) with
  | inl err => Ret (ServeError err)
  | inr p =>
      handler ← lift (deref_ptr handler);
      res ← handler p;
      res
  end.

Definition NewGetControlMessageForDevice := NewOperation ControlIn.
Definition NewGetDataMessageForDevice := NewOperation DataIn.
Definition NewPostControlMessageForDevice := NewOperation ControlOut.
Definition NewPostDataMessageForDevice := NewOperation DataOut.

(** [o.Context()] *)
Definition Context' (o : FlottaManagementAPI) : Context_ * FlottaManagementAPI :=
  match api_context o with
  | Some c => (c, o)
  | None => let c := NewRoutableContext (api_spec o) in (c, set_context (Some c) o)
  end.

(** [if o.handlers[m] == nil { ... }; o.handlers[m][path] = h] *)
Definition cache_handler (handlers : gmap string (gmap string http_Handler)) (method path : string)
    (h : http_Handler) : gmap string (gmap string http_Handler) :=
  <[method := <[path := h]> (default ∅ (handlers !! method))]> handlers.

Definition initHandlerCache (o : FlottaManagementAPI) : FlottaManagementAPI :=
  let o := (Context' o).2 in
  let handlers := default ∅ (api_handlers o) in
  let handlers := cache_handler handlers "GET" "/control/{device_id}/in"
                    (NewGetControlMessageForDevice (OperationHandlers o ControlIn)) in
  let handlers := cache_handler handlers "GET" "/data/{device_id}/in"
                    (NewGetDataMessageForDevice (OperationHandlers o DataIn)) in
  let handlers := cache_handler handlers "POST" "/control/{device_id}/out"
                    (NewPostControlMessageForDevice (OperationHandlers o ControlOut)) in
  let handlers := cache_handler handlers "POST" "/data/{device_id}/out"
                    (NewPostDataMessageForDevice (OperationHandlers o DataOut)) in
  set_handlers (Some handlers) o.

Definition Init (o : FlottaManagementAPI) : FlottaManagementAPI :=
  if Nat.eqb (size (default ∅ (api_handlers o))) 0 then initHandlerCache o else o.

(** The context is there after [Init] unless the cache was filled without it. *)
Definition Serve (builder : option Builder) (o : FlottaManagementAPI) : deref http_Handler * FlottaManagementAPI :=
  let o := Init o in
  match api_Middleware o with
  | Some middleware => (Val (middleware builder), o)
  | None =>
      (match api_context o with
       | None => NilDeref
       | Some c => Val (if useSwaggerUI o then APIHandlerSwaggerUI c o builder else APIHandler c o builder)
       end, o)
  end.

Definition AddMiddlewareFor (method path : string) (builder : Builder) (o : FlottaManagementAPI)
    : deref FlottaManagementAPI :=
  let um := ToUpper method in
  let path := root_path path in
  let o := Init o in
  let handlers := default ∅ (api_handlers o) in
  match default ∅ (handlers !! um) !! path with
  | None => Val o
  | Some h =>
      match handlers !! method with
      | None => NilDeref
      | Some hs => Val (set_handlers (Some (<[method := <[path := builder h]> hs]> handlers)) o)
      end
  end.

(** ** Construction and configuration *)

(** The libraries' [middleware.NotImplemented], default registry, JSON codecs and
    authenticators. *)
Context (NotImplemented : string → responder).
Context (default_Registry : Registry) (runtime_JSONConsumer : Consumer) (runtime_JSONProducer : Producer).
Context (BasicAuth APIKeyAuth BearerAuth : Authenticator).

Definition operation_name (e : endpoint) : string :=
  match e with
  | ControlIn => "GetControlMessageForDevice"
  | DataIn => "GetDataMessageForDevice"
  | ControlOut => "PostControlMessageForDevice"
  | DataOut => "PostDataMessageForDevice"
  end.

Definition not_implemented (e : endpoint) : OperationHandler := λ _,
  Ret (NotImplemented ("operation yggdrasil." +:+ operation_name e +:+ " has not yet been implemented")).

Definition NewFlottaManagementAPI (spec : option Document) : FlottaManagementAPI :=
  mkAPI spec None (Some ∅) default_Registry (Some ∅) (Some ∅) "application/json" "application/json" None false
    (Some BasicAuth) (Some APIKeyAuth) (Some BearerAuth) (Some runtime_JSONConsumer) (Some runtime_JSONProducer)
    (λ e, Some (not_implemented e)).

(** [restapi.Config], the fields that are used. *)
Record ApiConfig := mkApiConfig {
  YggdrasilAPI : endpoint → OperationHandler;
  config_InnerMiddleware : option Builder;
  config_APIKeyAuthenticator : option Authenticator;
  config_BasicAuthenticator : option Authenticator;
  config_BearerAuthenticator : option Authenticator;
}.

Definition or_else {A} (x y : option A) : option A := match x with Some _ => x | None => y end.

(** [loads.Analyzed] gives the document of the embedded specification. *)
Context (loads_Analyzed : result Document).

Definition HandlerAPI (c : ApiConfig) : result (deref http_Handler * FlottaManagementAPI) :=
  match loads_Analyzed with
  | Err err => Err (ErrorString ("analyze swagger: " +:+ Error err))
  | Ok spec =>
      let api := NewFlottaManagementAPI (Some spec) in
      let api := set_authenticators (or_else (config_BasicAuthenticator c) (BasicAuthenticator api))
                   (or_else (config_APIKeyAuthenticator c) (APIKeyAuthenticator api))
                   (or_else (config_BearerAuthenticator c) (BearerAuthenticator api)) api in
      let api := set_json (Some runtime_JSONConsumer) (Some runtime_JSONProducer) api in
      let api := set_operations (λ e, Some (YggdrasilAPI c e)) api in
      Ok (Serve (config_InnerMiddleware c) api)
  end.

Definition Handler (c : ApiConfig) : result (deref http_Handler) :=
  match HandlerAPI c with Ok (h, _) => Ok h | Err err => Err err end.

(** *** The cache *)

(** The endpoints of the API, by method and path. *)
Definition route (method path : string) : option endpoint := Rest.HandlerFor method path.

Lemma cache_lookup handlers m p h m' p' :
  default ∅ (cache_handler handlers m p h !! m') !! p' =
  if decide (m' = m ∧ p' = p) then Some h else default ∅ (handlers !! m') !! p'.
Proof.
  unfold cache_handler. destruct (decide (m' = m)) as [->|Hm].
  - rewrite lookup_insert_eq. simpl. destruct (decide (p' = p)) as [->|Hp].
    + rewrite lookup_insert_eq. by rewrite decide_True.
    + rewrite lookup_insert_ne by done. by rewrite decide_False by naive_solver.
  - rewrite lookup_insert_ne by done. by rewrite decide_False by naive_solver.
Qed.

Lemma HandlerFor_default method path o :
  HandlerFor method path o = default ∅ (default ∅ (api_handlers o) !! ToUpper method) !! root_path path.
Proof. unfold HandlerFor. destruct (api_handlers o) as [hs|]; simpl; [|done]. by destruct (hs !! ToUpper method). Qed.

Lemma route_spec method path :
  route method path =
    if decide (ToUpper method = "GET" ∧ root_path path = "/control/{device_id}/in")%string then Some ControlIn
    else if decide (ToUpper method = "GET" ∧ root_path path = "/data/{device_id}/in")%string then Some DataIn
    else if decide (ToUpper method = "POST" ∧ root_path path = "/control/{device_id}/out")%string then Some ControlOut
    else if decide (ToUpper method = "POST" ∧ root_path path = "/data/{device_id}/out")%string then Some DataOut
    else None.
Proof.
  clear.
  unfold route, Rest.HandlerFor, handler_table. fold (root_path path).
  destruct (String.eqb_spec (ToUpper method) "GET") as [->|Hg]; [|destruct (String.eqb_spec (ToUpper method) "POST") as [->|Hp]].
  - rewrite (decide_False (P := _ ∧ root_path path = "/control/{device_id}/out")%string) by naive_solver.
    rewrite (decide_False (P := _ ∧ root_path path = "/data/{device_id}/out")%string) by naive_solver.
    simpl. repeat case_decide; naive_solver.
  - rewrite (decide_False (P := _ ∧ root_path path = "/control/{device_id}/in")%string) by naive_solver.
    rewrite (decide_False (P := _ ∧ root_path path = "/data/{device_id}/in")%string) by naive_solver.
    simpl. repeat case_decide; naive_solver.
  - repeat case_decide; naive_solver.
Qed.

Lemma initHandlerCache_HandlerFor o method path :
  default ∅ (api_handlers o) = ∅ →
  HandlerFor method path (initHandlerCache o) =
  (λ e, NewOperation e (OperationHandlers o e)) <$> route method path.
Proof.
  intros Hn. rewrite HandlerFor_default, route_spec. unfold initHandlerCache.
  assert (api_handlers (Context' o).2 = api_handlers o ∧ OperationHandlers (Context' o).2 = OperationHandlers o) as [-> ->]
    by (unfold Context'; by destruct (api_context o)).
  rewrite Hn. simpl. rewrite !cache_lookup, lookup_empty. simpl. rewrite lookup_empty.
  repeat case_decide; first [done|exfalso; intuition congruence].
Qed.

(** ** Equivalence with the server of [Rest] *)
Section operator.
Context `{JM : JSON models.Message} `{JR : JSON models.MessageResponse}.
Context {R : EdgeDeviceRepository} {DR : EdgeDeploymentRepository}.
Context {AL : AllowListGenerator} {RA : RegistryAuthAPI} {CM : ConfigMapAPI} {TLS : CSRSigner}.
Context {U : UnicodeTables} (initialNamespace : string).

Definition as_responder {P T} (to : Responder P → option T) (write : T → go http_response) (h : go (Responder P))
    : go responder :=
  res ← h; Ret (match to res with Some r => write r | None => Crash Panic end).

(** The handlers that [main] hands to [HandlerAPI]: those of [Yggdrasil]. *)
Definition yggdrasil_api (e : endpoint) : OperationHandler := λ p,
  match e with
  | ControlIn => as_responder to_GetControl GetControl_WriteResponse
                   (GetControlMessageForDevice initialNamespace (Params_DeviceID p))
  | DataIn => as_responder to_GetData GetData_WriteResponse
                (GetDataMessageForDevice initialNamespace (Params_DeviceID p))
  | ControlOut => (* does not look at the message *)
                  as_responder to_PostControl PostControl_WriteResponse
                    (PostControlMessageForDevice (Params_DeviceID p) (default zero_Message (Params_Message p)))
  | DataOut => m ← lift (deref_ptr (Params_Message p));
               as_responder to_PostData PostData_WriteResponse
                 (PostDataMessageForDevice initialNamespace (Params_DeviceID p) m)
  end.

Lemma respond_as_responder {P T} (to : Responder P → option T) write (h : go (Responder P)) :
  same_executions (res ← as_responder to write h; res) (respond to write h).
Proof.
  apply same_wp. intros Q. unfold as_responder, respond, mbind, prog_mbind. rewrite !wp_bind.
  split; intros H; (eapply wp_mono; [exact H|]); intros tr [x|c]; simpl; rewrite ?app_nil_r; done.
Qed.

Lemma operation_ServeHTTP e params r :
  same_executions (NewOperation e (Some (yggdrasil_api e)) params r) (ServeHTTP initialNamespace e params r).
Proof.
  unfold NewOperation. destruct e; simpl;
    unfold GetData_ServeHTTP, PostData_ServeHTTP, GetControl_ServeHTTP, PostControl_ServeHTTP,
      BindValidRequest; destruct (negotiation r); try reflexivity; try apply respond_as_responder;
    destruct (_ _ _ : api_error + PostParams); simpl; try reflexivity; apply respond_as_responder.
Qed.

(** The object that [HandlerAPI] makes. *)
Lemma HandlerAPI_api (c : ApiConfig) :
  match HandlerAPI c with
  | Err _ => is_ok loads_Analyzed = false
  | Ok (h, api) => Validate api = None ∧
      (∃ x, api_context api = Some x ∧ h = Val (APIHandler x api (config_InnerMiddleware c))) ∧
      ∀ method path, HandlerFor method path api = (λ e, NewOperation e (Some (YggdrasilAPI c e))) <$> route method path
  end.
Proof.
  unfold HandlerAPI. destruct loads_Analyzed as [spec|err]; [|done].
  set (api := set_operations _ _). unfold Serve.
  assert (Init api = initHandlerCache api) as -> by done.
  assert (api_Middleware (initHandlerCache api) = None) as -> by done.
  split_and!; [done|by eexists|]. intros method path. by apply initHandlerCache_HandlerFor.
Qed.

(** The API as [HandlerAPI] configures it is the server that the other theorems are
    about. Unless the embedded document cannot be read, it has nothing left to
    register, its handlers are cached for exactly the four operations of the
    specification, whatever the letter case of the method, and each runs like
    the operation of [Rest] it stands for, with the handlers of [yggdrasil.go]
    and not the stubs of the generated constructor. *)
Theorem HandlerAPI_serves (c : ApiConfig) :
  YggdrasilAPI c = yggdrasil_api →
  match HandlerAPI c with
  | Err _ => is_ok loads_Analyzed = false
  | Ok (h, api) => Validate api = None ∧ is_Some (api_context api) ∧ (∃ s, h = Val s) ∧
      ∀ method path,
        match HandlerFor method path api, Rest.HandlerFor method path with
        | Some op, Some e => ∀ params r, same_executions (op params r) (ServeHTTP initialNamespace e params r)
        | None, None => True
        | _, _ => False
        end
  end.
Proof.
  intros Hc. pose proof (HandlerAPI_api c) as H. destruct (HandlerAPI c) as [[h api]|]; [|done].
  destruct H as (Hv & (x & Hx & ->) & Hh). split_and!; [done|by eexists|by eexists|]. intros method path.
  rewrite Hh, Hc. fold (route method path). destruct (route method path) as [e|]; [|done].
  simpl. apply operation_ServeHTTP.
Qed.
End operator.

(** *** Middleware for one operation *)
Lemma Init_HandlerFor method path o :
  HandlerFor method path (Init o) =
  if Nat.eqb (size (default ∅ (api_handlers o))) 0
  then (λ e, NewOperation e (OperationHandlers o e)) <$> route method path else HandlerFor method path o.
Proof.
  unfold Init. destruct (Nat.eqb_spec (size (default ∅ (api_handlers o))) 0) as [E|E]; [|done].
  apply initHandlerCache_HandlerFor. by apply map_size_empty_iff.
Qed.

(** Middleware for one operation. Given a method in upper case that has cached
    handlers at all, [AddMiddlewareFor] puts the middleware in front of the
    handler for this method and path and changes no other; where there is no
    such handler it changes nothing. With a method written in any other way, a
    handler is found under the upper-case name but stored under the name given,
    for which there is no map: that is a panic. *)
Theorem AddMiddlewareFor_spec method path builder o :
  let cached := HandlerFor method path (Init o) in
  (cached = None → AddMiddlewareFor method path builder o = Val (Init o)) ∧
  (is_Some cached → ToUpper method = method → ∃ o',
     AddMiddlewareFor method path builder o = Val o' ∧
     ∀ m p, HandlerFor m p o' =
       if decide (ToUpper m = method ∧ root_path p = root_path path) then builder <$> cached
       else HandlerFor m p (Init o)) ∧
  (is_Some cached → default ∅ (api_handlers (Init o)) !! method = None →
     AddMiddlewareFor method path builder o = NilDeref).
Proof.
  intros cached. unfold cached, AddMiddlewareFor. rewrite HandlerFor_default. clear cached.
  generalize (Init o) as o1. intros o1.
  set (hs := default ∅ (api_handlers o1)).
  split_and!.
  - by intros ->.
  - intros [h Hh] Hm. rewrite Hh. rewrite Hm in Hh. destruct (hs !! method) as [mine|] eqn:E; [|exfalso; exact (lookup_empty_Some _ _ Hh)].
    simpl in Hh. eexists. split; [done|]. intros m p. rewrite !HandlerFor_default. simpl. fold hs.
    case_decide as Hd.
    + destruct Hd as [-> ->]. by rewrite lookup_insert_eq; simpl; rewrite lookup_insert_eq.
    + destruct (decide (ToUpper m = method)) as [Em|Hne].
      * rewrite Em, lookup_insert_eq. simpl. rewrite lookup_insert_ne by (intros E2; by apply Hd). by rewrite E.
      * by rewrite lookup_insert_ne.
  - intros [h ->] ->. done.
Qed.
End server.
End api.
