(* ===== verification/UrlBuilder.v ===== *)
(** * URLs of the operations ([restapi/operations/yggdrasil/..._urlbuilder.go])

    The four generated builders differ in the template of the path and in the name
    in their errors; here they are one, with the endpoint as a parameter. What
    they use of the standard library comes first: [strings.Replace], [path.Join]
    and [path.Clean], and the escaping of [net/url], on bytes. *)
From S2P Require Import Prelude Labels X509 Models Main.
From Stdlib Require Import Ascii.

(** ** The standard library *)

Fixpoint is_prefix (p s : list ascii) : bool :=
  match p, s with
  | [], _ => true
  | c :: p, d :: s => Ascii.eqb c d && is_prefix p s
  | _ :: _, [] => false
  end.

(** [strings.Replace(s, old, new, -1)] for a non-empty [old]; [skip] bytes of the
    last match are still to be passed over. *)
Fixpoint replace_from (old new : list ascii) (skip : nat) (s : list ascii) : list ascii :=
  match s with
  | [] => []
  | c :: s =>
      match skip with
      | S k => replace_from old new k s
      | 0 => if is_prefix old (c :: s) then new ++ replace_from old new (pred (length old)) s
             else c :: replace_from old new 0 s
      end
  end.
Definition Replace (s old new : list ascii) : list ascii := replace_from old new 0 s.

Fixpoint join_slash (ws : list (list ascii)) : list ascii :=
  match ws with
  | [] => []
  | [w] => w
  | w :: ws => w ++ "/"%char :: join_slash ws
  end.

(** One element of a path; the elements kept so far are on a stack. *)
Definition clean_step (rooted : bool) (stack : list (list ascii)) (seg : list ascii) : list (list ascii) :=
  if bool_decide (seg = [] ∨ seg = chars ".") then stack
  else if bool_decide (seg = chars "..") then
    match stack with
    | top :: rest => if bool_decide (top = chars "..") then seg :: stack else rest
    | [] => if rooted then [] else [seg]
    end
  else seg :: stack.

(** [path.Clean] *)
Definition Clean (p : list ascii) : list ascii :=
  let rooted := is_prefix (chars "/") p in
  let kept := join_slash (rev (foldl (clean_step rooted) [] (split "/" p))) in
  if rooted then "/"%char :: kept else match kept with [] => chars "." | _ => kept end.

(** [path.Join] of two elements *)
Definition Join (a b : list ascii) : list ascii :=
  match a, b with
  | [], [] => []
  | [], b => Clean b
  | a, b => Clean (a ++ "/"%char :: b)
  end.

(** [shouldEscape] of [net/url] for paths and hosts: letters, digits and marks
    stay, of the reserved characters those that the part may contain. *)
Inductive encoding := encodePath | encodeHost.

Definition alphanumeric (c : ascii) : bool :=
  let n := N_of_ascii c in
  (((97 <=? n) && (n <=? 122)) || ((65 <=? n) && (n <=? 90)) || ((48 <=? n) && (n <=? 57)))%N.

Definition char_in (s : string) (c : ascii) : bool := existsb (Ascii.eqb c) (chars s).

(** The double quote, which a host may contain. *)
Definition quote : ascii := ascii_of_N 34.

Definition shouldEscape (mode : encoding) (c : ascii) : bool :=
  negb (alphanumeric c || char_in "-_.~" c
        || match mode with
           | encodePath => char_in "$&+,/:;=@" c
           | encodeHost => char_in "!$&'()*+,;=:[]<>" c || Ascii.eqb c quote
           end).

Definition upperhex (n : N) : ascii := ascii_of_N (if (n <? 10)%N then 48 + n else 55 + n).

Definition escape_char (mode : encoding) (c : ascii) : list ascii :=
  if shouldEscape mode c
  then ["%"%char; upperhex (N_of_ascii c / 16); upperhex (N_of_ascii c mod 16)]
  else [c].

Definition escape (mode : encoding) (s : list ascii) : list ascii := concat (escape_char mode <$> s).

(** [unescape] of a path, which the server applies to the path of a request;
    [None] for a malformed escape. *)
Definition unhex (c : ascii) : option N :=
  let n := N_of_ascii c in
  if ((48 <=? n) && (n <=? 57))%N then Some (n - 48)%N
  else if ((97 <=? n) && (n <=? 102))%N then Some (n - 87)%N
  else if ((65 <=? n) && (n <=? 70))%N then Some (n - 55)%N
  else None.

Fixpoint unescape (s : list ascii) : option (list ascii) :=
  match s with
  | [] => Some []
  | c :: s =>
      if Ascii.eqb c "%" then
        match s with
        | a :: b :: s =>
            match unhex a, unhex b, unescape s with
            | Some x, Some y, Some r => Some (ascii_of_N (16 * x + y) :: r)
            | _, _, _ => None
            end
        | _ => None
        end
      else cons c <$> unescape s
  end.

(** [url.URL], the fields that are set, and its [String]. A path without scheme
    and host whose first segment has a colon gets a dot segment. *)
Record URL := mkURL { Scheme : list ascii; Host : list ascii; Path : list ascii }.

Definition EscapedPath (u : URL) : list ascii :=
  if bool_decide (Path u = chars "*") then chars "*" else escape encodePath (Path u).

Definition first_segment (p : list ascii) : list ascii := default [] (head (split "/" p)).

Definition URL_String (u : URL) : list ascii :=
  let scheme := match Scheme u with [] => [] | s => s ++ chars ":" end in
  let slashes := match Scheme u, Host u with
                 | [], [] => []
                 | _, [] => match Path u with [] => [] | _ => chars "//" end
                 | _, h => chars "//" ++ escape encodeHost h
                 end in
  let path := EscapedPath u in
  let slash := match path, Host u with
               | c :: _, _ :: _ => if Ascii.eqb c "/" then [] else chars "/"
               | _, _ => []
               end in
  let buf := scheme ++ slashes ++ slash in
  let dot := match buf with
             | [] => if existsb (Ascii.eqb ":") (first_segment path) then chars "./" else []
             | _ => []
             end in
  buf ++ dot ++ path.

(** ** The builders *)

(** The fields of a builder; the base path is empty unless it was set. *)
Record DeviceURL := mkDeviceURL { DeviceURL_DeviceID : list ascii; _basePath : list ascii }.

Definition SetBasePath (bp : list ascii) (o : DeviceURL) : DeviceURL := mkDeviceURL (DeviceURL_DeviceID o) bp.
Definition WithBasePath (bp : list ascii) (o : DeviceURL) : DeviceURL := SetBasePath bp o.

Definition url_name (e : endpoint) : string :=
  match e with
  | ControlIn => "GetControlMessageForDeviceURL"
  | DataIn => "GetDataMessageForDeviceURL"
  | ControlOut => "PostControlMessageForDeviceURL"
  | DataOut => "PostDataMessageForDeviceURL"
  end.

Definition url_template (e : endpoint) : string :=
  match e with
  | ControlIn => "/control/{device_id}/in"
  | DataIn => "/data/{device_id}/in"
  | ControlOut => "/control/{device_id}/out"
  | DataOut => "/data/{device_id}/out"
  end.

Definition Build (e : endpoint) (o : DeviceURL) : result URL :=
  match DeviceURL_DeviceID o with
  | [] => Err (ErrorString ("deviceId is required on " +:+ url_name e))
  | deviceID =>
      let _path := Replace (chars (url_template e)) (chars "{device_id}") deviceID in
      let basePath := match _basePath o with [] => chars "/api/flotta-management/v1" | bp => bp end in
      Ok (mkURL [] [] (Join basePath _path))
  end.

(** A panic is [None]. *)
Definition Must (u : result URL) : option URL := match u with Ok u => Some u | Err _ => None end.

Definition String_ (e : endpoint) (o : DeviceURL) : option (list ascii) := URL_String <$> Must (Build e o).

Definition BuildFull (e : endpoint) (scheme host : list ascii) (o : DeviceURL) : result URL :=
  match scheme, host with
  | [], _ => Err (ErrorString ("scheme is required for a full url on " +:+ url_name e))
  | _, [] => Err (ErrorString ("host is required for a full url on " +:+ url_name e))
  | _, _ =>
      match Build e o with
      | Err err => Err err
      | Ok base => Ok (mkURL scheme host (Path base))
      end
  end.

Definition StringFull (e : endpoint) (scheme host : list ascii) (o : DeviceURL) : option (list ascii) :=
  URL_String <$> Must (BuildFull e scheme host o).

(** The four of the source. *)
Definition GetControlMessageForDeviceURL_Build := Build ControlIn.
Definition GetDataMessageForDeviceURL_Build := Build DataIn.
Definition PostControlMessageForDeviceURL_Build := Build ControlOut.
Definition PostDataMessageForDeviceURL_Build := Build DataOut.
Definition GetControlMessageForDeviceURL_BuildFull := BuildFull ControlIn.
Definition GetDataMessageForDeviceURL_BuildFull := BuildFull DataIn.
Definition PostControlMessageForDeviceURL_BuildFull := BuildFull ControlOut.
Definition PostDataMessageForDeviceURL_BuildFull := BuildFull DataOut.
Definition GetControlMessageForDeviceURL_String := String_ ControlIn.
Definition GetDataMessageForDeviceURL_String := String_ DataIn.
Definition PostControlMessageForDeviceURL_String := String_ ControlOut.
Definition PostDataMessageForDeviceURL_String := String_ DataOut.
Definition GetControlMessageForDeviceURL_StringFull := StringFull ControlIn.
Definition GetDataMessageForDeviceURL_StringFull := StringFull DataIn.
Definition PostControlMessageForDeviceURL_StringFull := StringFull ControlOut.
Definition PostDataMessageForDeviceURL_StringFull := StringFull DataOut.

(** ** Theorems *)

(** *** Escaping *)
Lemma unhex_upperhex n : (n < 16)%N → unhex (upperhex n) = Some n.
Proof.
  intros H. assert (Hin : n ∈ (N.of_nat <$> seq 0 16)).
  { apply list_elem_of_fmap. exists (N.to_nat n). split; [lia|]. apply elem_of_seq. lia. }
  clear H. revert n Hin. apply Forall_forall. vm_compute. repeat constructor.
Qed.

Lemma escape_char_unescape mode c s r :
  unescape s = Some r → unescape (escape_char mode c ++ s) = Some (c :: r).
Proof.
  intros Hs. unfold escape_char. destruct (shouldEscape mode c) eqn:E.
  - assert (N_of_ascii c < 256)%N by apply N_ascii_bounded.
    cbn [app unescape]. rewrite Ascii.eqb_refl.
    rewrite !unhex_upperhex by (apply N.mod_lt || apply N.Div0.div_lt_upper_bound; lia).
    rewrite Hs. do 2 f_equal. rewrite <- (N.div_mod (N_of_ascii c) 16) by done. apply ascii_N_embedding.
  - cbn [app unescape]. destruct (Ascii.eqb_spec c "%") as [->|_]; [|by rewrite Hs].
    by destruct mode.
Qed.

(** What was escaped is read back. *)
Lemma unescape_escape mode s : unescape (escape mode s) = Some s.
Proof. induction s as [|c s IH]; [done|]. unfold escape. csimpl. by apply escape_char_unescape. Qed.

(** *** Paths *)

(** A text that is one element of a path, and stays it. *)
Definition segment (s : list ascii) : Prop := s ≠ [] ∧ ("/"%char ∉ s) ∧ s ≠ chars "." ∧ s ≠ chars "..".

Lemma clean_step_segment rooted stack s : segment s → clean_step rooted stack s = s :: stack.
Proof.
  intros (Hn & _ & Hd & Hdd). unfold clean_step. rewrite bool_decide_eq_false_2 by tauto.
  by rewrite bool_decide_eq_false_2.
Qed.

Lemma Replace_template e id :
  Replace (chars (url_template e)) (chars "{device_id}") id =
  match e with
  | ControlIn => chars "/control/" ++ id ++ chars "/in"
  | DataIn => chars "/data/" ++ id ++ chars "/in"
  | ControlOut => chars "/control/" ++ id ++ chars "/out"
  | DataOut => chars "/data/" ++ id ++ chars "/out"
  end.
Proof. by destruct e. Qed.

Lemma split_app_general sep p s : split sep (p ++ sep :: s) = split sep p ++ split sep s.
Proof.
  induction p as [|c p IH]; simpl; [by rewrite Ascii.eqb_refl|]. rewrite IH.
  destruct (Ascii.eqb c sep); [done|]. by destruct (split_nonempty sep p) as (w & ws & ->).
Qed.

(** The path that the server routes, for a base path that is clean. *)
Lemma Clean_endpoint (base mid last_ id : list ascii) segs :
  segment id → segment mid → segment last_ →
  split "/" base = [] :: segs → Forall segment segs →
  Clean (base ++ "/"%char :: "/"%char :: mid ++ "/"%char :: id ++ "/"%char :: last_) =
  "/"%char :: join_slash (segs ++ [mid; id; last_]).
Proof.
  intros Hid Hmid Hlast Hb Hsegs. unfold Clean.
  assert (Hroot : ∀ r, is_prefix (chars "/") (base ++ "/"%char :: r) = true).
  { intros r. destruct base as [|c base]; [done|]. simpl in Hb. simpl.
    destruct (Ascii.eqb_spec c "/"%char) as [->|_]; [done|].
    destruct (split_nonempty "/" base) as (w & ws & E). by rewrite E in Hb. }
  rewrite Hroot. f_equal. f_equal. rewrite split_app_general, Hb. simpl split at 1.
  assert (Ha : ∀ s r, segment s → split "/" (s ++ "/"%char :: r) = s :: split "/" r).
  { intros s r (_ & Hs & _). by apply split_app_sep. }
  assert (Hfin : split "/" last_ = [last_]) by (apply split_free, Hlast).
  change (split "/" ("/"%char :: ?r)) with ([] :: split "/" r).
  rewrite !Ha, Hfin by done.
  assert (Hfold : ∀ ws st, Forall segment ws → foldl (clean_step true) st ws = rev ws ++ st).
  { intros ws. induction ws as [|w ws IH]; intros st Hw; [done|]. apply Forall_cons in Hw as [Hw Hws].
    simpl. rewrite clean_step_segment, IH by done. by rewrite <- app_assoc. }
  change (foldl (clean_step true) [] (([] :: segs) ++ [[]; mid; id; last_]))
    with (foldl (clean_step true) [] (segs ++ [[]; mid; id; last_])).
  rewrite foldl_app, (Hfold segs) by done.
  change (foldl (clean_step true) (rev segs ++ []) ([] :: [mid; id; last_]))
    with (foldl (clean_step true) (rev segs ++ []) [mid; id; last_]).
  rewrite (Hfold [mid; id; last_]) by (rewrite !Forall_cons; by split_and!). rewrite app_nil_r, <- rev_app_distr. apply rev_involutive.
Qed.

Definition endpoint_segments (e : endpoint) : list ascii * list ascii :=
  match e with
  | ControlIn => (chars "control", chars "in")
  | DataIn => (chars "data", chars "in")
  | ControlOut => (chars "control", chars "out")
  | DataOut => (chars "data", chars "out")
  end.

Lemma literal_segment s :
  bool_decide (chars s ≠ [] ∧ ("/"%char ∉ chars s) ∧ chars s ≠ chars "." ∧ chars s ≠ chars "..") = true →
  segment (chars s).
Proof. by intros H%bool_decide_eq_true. Qed.

Lemma Build_path e id :
  segment id →
  Build e (mkDeviceURL id []) = Ok (mkURL [] [] (chars (endpoint_path e (String.string_of_list_ascii id)))).
Proof.
  intros Hid. unfold Build. cbn [DeviceURL_DeviceID _basePath].
  destruct id as [|c id']; [by destruct Hid as [? _]|]. remember (c :: id') as id eqn:Hc. clear c id' Hc.
  f_equal. f_equal.
  set (path := Join _ _).
  set (base := chars "/api/flotta-management/v1").
  set (mid := (endpoint_segments e).1). set (last_ := (endpoint_segments e).2).
  assert (path = Clean (base ++ "/"%char :: "/"%char :: mid ++ "/"%char :: id ++ "/"%char :: last_)) as ->.
  { unfold path, Join. rewrite Replace_template. by destruct e. }
  assert (segment mid ∧ segment last_) as [Hmid Hlast] by (split; destruct e; by apply literal_segment).
  rewrite (Clean_endpoint base mid last_ id [chars "api"; chars "flotta-management"; chars "v1"]); [|done..|].
  2:{ rewrite !Forall_cons. by split_and!; [apply literal_segment..|]. }
  unfold endpoint_path. rewrite chars_app. destruct e; rewrite !chars_app;
    by rewrite (String.list_ascii_of_string_of_list_ascii id : chars _ = id).
Qed.

Lemma escape_slash p : escape encodePath ("/"%char :: p) = "/"%char :: escape encodePath p.
Proof. done. Qed.

(** An absolute path is printed as it is escaped. *)
Lemma URL_String_path p : URL_String (mkURL [] [] ("/"%char :: p)) = escape encodePath ("/"%char :: p).
Proof.
  unfold URL_String, EscapedPath. rewrite bool_decide_eq_false_2 by (by intros [=]). by rewrite escape_slash.
Qed.

Lemma URL_String_full scheme host p :
  scheme ≠ [] → host ≠ [] →
  URL_String (mkURL scheme host ("/"%char :: p)) =
  scheme ++ chars "://" ++ escape encodeHost host ++ escape encodePath ("/"%char :: p).
Proof.
  intros Hs Hh. unfold URL_String, EscapedPath. rewrite bool_decide_eq_false_2 by (by intros [=]).
  destruct scheme as [|a sc]; [done|]. destruct host as [|b ho]; [done|]. rewrite escape_slash.
  simpl. by rewrite <- !app_assoc, app_nil_r.
Qed.

(** C40: The URLs that the builders print reach the operations. For a device
    identifier that is one element of a path (not empty, without a slash, and
    neither dot nor dot-dot), what a builder prints, whatever other bytes the
    identifier has, is read by the server as the path of the operation for this
    device; and the full form puts the scheme and the host in front. Without an
    identifier there is no URL, and printing one panics. *)
Theorem url_builder_spec e id scheme host :
  scheme ≠ [] → host ≠ [] →
  (segment id → ∃ text,
     String_ e (mkDeviceURL id []) = Some text ∧
     unescape text = Some (chars (endpoint_path e (String.string_of_list_ascii id))) ∧
     StringFull e scheme host (mkDeviceURL id []) =
       Some (scheme ++ chars "://" ++ escape encodeHost host ++ text)) ∧
  (id = [] → is_ok (Build e (mkDeviceURL id [])) = false ∧ String_ e (mkDeviceURL id []) = None ∧
     StringFull e scheme host (mkDeviceURL id []) = None).
Proof.
  intros Hs Hh. split.
  - intros Hid. pose proof (Build_path e id Hid) as Hb.
    assert (∃ p, chars (endpoint_path e (String.string_of_list_ascii id)) = "/"%char :: p) as [p Hp] by (by eexists).
    exists (escape encodePath (chars (endpoint_path e (String.string_of_list_ascii id)))).
    unfold String_, StringFull, BuildFull. rewrite Hb. rewrite Hp in *. split_and!.
    + simpl. by rewrite URL_String_path.
    + apply unescape_escape.
    + destruct scheme as [|a sc]; [done|]. destruct host as [|b ho]; [done|].
      cbn [Must fmap option_fmap option_map Path]. by rewrite URL_String_full.
  - intros ->. destruct scheme; [done|]. by destruct host.
Qed.

Lemma url_builder_spec_witness :
  String_ ControlIn (mkDeviceURL (chars "a b%") []) = Some (chars "/api/flotta-management/v1/control/a%20b%25/in") ∧
  ∃ text, String_ ControlIn (mkDeviceURL (chars "a b%") []) = Some text ∧
    unescape text = Some (chars (endpoint_path ControlIn "a b%")).
Proof.
  split; [vm_compute; reflexivity|].
  destruct (url_builder_spec ControlIn (chars "a b%") (chars "https") (chars "localhost")) as [H _];
    [discriminate|discriminate|].
  destruct H as (text & H1 & H2 & _); [by apply literal_segment|]. exists text. split; [exact H1|exact H2].
Defined.

(** Any other identifier changes the path. *)
Example dots_leave_the_operation :
  Build ControlIn (mkDeviceURL (chars "../../x") []) = Ok (mkURL [] [] (chars "/api/flotta-management/x/in")).
Proof. vm_compute. reflexivity. Qed.
