(* ===== verification/DeviceServer.v ===== *)
(** * The server of the devices ([main.go], the goroutine)

    What the goroutine of [main] has in the end: TLS prepared, the API configured
    with the message handlers and the middleware, and two listeners on one
    handler. What [net/http] is handed is put together by the middleware package
    of go-openapi: documents first, then the router, the middleware of [main], and
    the operation. *)
From stdpp Require Import pretty.
From S2P Require Import Prelude Effects K8s Labels X509 Models Normalize Calls Server Repositories Lookups ConfigMaps Mtls MtlsSpec Yggdrasil Main Startup Validation Rest ManagementApi.

Section server.
Context {F : Validation.Formats} `{JM : JSON models.Message} `{JR : JSON models.MessageResponse}.
Context {R : EdgeDeviceRepository} {DR : EdgeDeploymentRepository}.
Context {AL : AllowListGenerator} {RA : RegistryAuthAPI} {CM : ConfigMapAPI}.
Context {U : UnicodeTables}.
Context {Document Context_ Registry Consumer Producer Authenticator : Type}.
Abbreviation API := (FlottaManagementAPI (Document := Document) (Context_ := Context_) (Registry := Registry)
  (Consumer := Consumer) (Producer := Producer) (Authenticator := Authenticator)).

(** ** The middleware package *)

(** The router made of the specification, the raw specification, and the pages
    that show it. *)
Context (router : Router) (raw redoc_page swagger_ui_page : string).

(** [ctx.RouteInfo]: the handler of the route that matches, and its parameters. *)
Definition RouteInfo (api : API) (r : request) : option (http_Handler * list (string * string)) :=
  match Lookup router (Method r) (escaped_Path r) with
  | Some (pattern, params) => (λ h, (h, params)) <$> ManagementApi.HandlerFor (Method r) pattern api
  | None => None
  end.

Definition NewOperationExecutor (api : API) : http_Handler := λ _ r,
  match RouteInfo api r with
  | Some (h, params) => h params r
  | None => Crash Panic
  end.

Definition NewRouter (api : API) (next : http_Handler) : http_Handler := λ params r,
  match RouteInfo api r with
  | Some _ => next params r
  | None =>
      Ret (ServeError (match AllowedMethods router (Method r) (escaped_Path r) with
                       | [] => ApiError 404 | _ => ApiError 405 end))
  end.

Definition PassthroughBuilder : Builder := λ handler, handler.

Definition RoutesHandler (api : API) (builder : option Builder) : http_Handler :=
  NewRouter api (default PassthroughBuilder builder (NewOperationExecutor api)).

Definition spec_path : string := "/swagger.json".
Definition docs_path : string := basePath +:+ "/docs".

Definition serve_document (path : string) (document : body) (next : http_Handler) : http_Handler := λ params r,
  if String.eqb (url_Path (http r)) path then Ret (mkHttpResponse 200 document) else next params r.

Definition APIHandler (_ : Context_) (api : API) (builder : option Builder) : http_Handler :=
  serve_document spec_path (Json raw) (serve_document docs_path (Html redoc_page) (RoutesHandler api builder)).
Definition APIHandlerSwaggerUI (_ : Context_) (api : API) (builder : option Builder) : http_Handler :=
  serve_document spec_path (Json raw) (serve_document docs_path (Html swagger_ui_page) (RoutesHandler api builder)).

(** ** The goroutine *)

(** The function that [main] gives as [InnerMiddleware]. *)
Definition verify_clients (s : served) : Builder := λ h params r,
  a ← InnerMiddleware s (λ _, h params r) (http r);
  Ret (match a with Unauthorized => mkHttpResponse 401 NoBody | Handled resp => resp end).

Context (NewRoutableContext : option Document → Context_) (NotImplemented : string → responder).
Context (default_Registry : Registry) (runtime_JSONConsumer : Consumer) (runtime_JSONProducer : Producer).
Context (BasicAuth APIKeyAuth BearerAuth : Authenticator) (loads_Analyzed : result Document).

Definition api_config (s : served) : ApiConfig (Authenticator := Authenticator) :=
  mkApiConfig (yggdrasil_api (TLS := tls_signer (mtlsConfig s)) initialDeviceNamespace) (Some (verify_clients s))
    None None None.

Definition main_Handler (s : served) : result (deref http_Handler) :=
  ManagementApi.Handler NewRoutableContext APIHandler APIHandlerSwaggerUI NotImplemented default_Registry
    runtime_JSONConsumer runtime_JSONProducer BasicAuth APIKeyAuth BearerAuth loads_Analyzed (api_config s).
(** What the goroutine listens with; without a handler [net/http] serves its own. *)
Record listening := mkListening {
  http_Addr : string;
  https_Addr : string;
  https_TLSConfig : TlsConfig;
  root_handler : option http_Handler;
}.

(** The goroutine, up to the listeners: [synced] is what [WaitForCacheSync] said; an
    error of [restapi.Handler] is only logged. *)
Definition serve_devices (synced : bool) (multierror : list error → error) (operatorNamespace : string)
    (config : Config) : go (served * listening) :=
  if negb synced then Crash (Exit 1) else
  s ← prepare_tls multierror operatorNamespace config;
  h ← (match main_Handler s with Ok h => Some <$> lift h | Err _ => Ret None end);
  Ret (s, mkListening (":" +:+ pretty (HttpPort config)) (":" +:+ pretty (HttpsPort config)) (tlsConfig s) h).

(** ** Theorems *)

(** Routes are made only for the patterns that the API has a handler for. *)
Definition routes_handled : Prop := ∀ method path pattern params,
  Lookup router method path = Some (pattern, params) → is_Some (Rest.HandlerFor method pattern).

Definition documented (r : request) : bool :=
  String.eqb (url_Path (http r)) spec_path || String.eqb (url_Path (http r)) docs_path.

Lemma InnerMiddleware_same s (h h' : go http_response) r :
  same_executions h h' → same_executions (InnerMiddleware s (λ _, h) r) (InnerMiddleware s (λ _, h') r).
Proof.
  intros H. unfold InnerMiddleware. destruct (peer_certificates r) as [peers|]; [|by apply same_bind].
  apply same_bind; [done|]. intros [|]; [by apply same_bind|done].
Qed.

(** With an API whose cache holds the handlers of [yggdrasil.go], the handler is the
    server of [Rest], but for the documents. *)
Lemma APIHandler_serves s x (api : API) params r :
  routes_handled → documented r = false →
  (∀ method path, ManagementApi.HandlerFor method path api =
     (λ e, NewOperation e (Some (YggdrasilAPI (api_config s) e))) <$> Rest.HandlerFor method path) →
  same_executions (APIHandler x api (Some (verify_clients s)) params r)
    (serve (TLS := tls_signer (mtlsConfig s)) initialDeviceNamespace router s r).
Proof.
  intros Hr [Hs Hd]%orb_false_iff Hapi. unfold APIHandler, serve_document. rewrite Hs, Hd.
  unfold RoutesHandler, NewRouter, RouteInfo, serve. simpl.
  destruct (Lookup router (Method r) (escaped_Path r)) as [[pattern ps]|] eqn:El; [|reflexivity].
  rewrite Hapi. destruct (Hr _ _ _ _ El) as [e He]. rewrite He. simpl.
  unfold verify_clients. apply same_bind; [|done]. apply InnerMiddleware_same.
  unfold NewOperationExecutor, RouteInfo. rewrite El, Hapi, He. simpl. apply operation_ServeHTTP.
Qed.

Lemma main_Handler_serves s :
  routes_handled →
  match main_Handler s with
  | Err _ => is_ok loads_Analyzed = false
  | Ok h => ∃ f, h = Val f ∧ ∀ params r, documented r = false →
      same_executions (f params r) (serve (TLS := tls_signer (mtlsConfig s)) initialDeviceNamespace router s r)
  end.
Proof.
  intros Hr. unfold main_Handler, ManagementApi.Handler.
  pose proof (HandlerAPI_api NewRoutableContext APIHandler APIHandlerSwaggerUI NotImplemented default_Registry
    runtime_JSONConsumer runtime_JSONProducer BasicAuth APIKeyAuth BearerAuth loads_Analyzed (api_config s)) as H.
  destruct (HandlerAPI _ _ _ _ _ _ _ _ _ _ _ _) as [[h api]|e]; [|done].
  destruct H as (_ & (x & _ & ->) & Hh). eexists. split; [done|]. intros params r Hd.
  apply APIHandler_serves; [done|done|]. intros method path. apply Hh.
Qed.

(** C26: What the goroutine of [main] serves. It ends the process with status 1 when
    the caches cannot be filled or TLS cannot be prepared; otherwise both
    listeners have the same handler, TLS is prepared for the second, and, if the
    embedded specification can be read, every request but one for the documents
    of the API runs like the server that the other theorems are about, with the
    message handlers behind the middleware and a signer that has an authority.
    *)
Theorem serve_devices_spec synced multierror operatorNamespace config :
  routes_handled →
  wp (serve_devices synced multierror operatorNamespace config) (λ tr out,
    Forall (secret_write operatorNamespace) (writes tr) ∧
    match out with
    | Crashed c => c = Exit 1
    | Returned (s, l) => synced = true ∧ prepared config s ∧ https_TLSConfig l = tlsConfig s ∧
        match root_handler l with
        | None => is_ok loads_Analyzed = false
        | Some h => ∀ params r, documented r = false →
            same_executions (h params r) (serve (TLS := tls_signer (mtlsConfig s)) initialDeviceNamespace router s r)
        end
    end).
Proof.
  intros Hr. unfold serve_devices. destruct synced; [|by split; [constructor|]]. simpl.
  apply wp_bind. eapply wp_mono; [apply prepare_tls_spec|]. intros tr [s|c]; [|done]. intros [Hw Hp].
  pose proof (main_Handler_serves s Hr) as H. destruct (main_Handler s) as [h|e]; simpl.
  - destruct H as (f & -> & Hf). simpl. rewrite app_nil_r. by split_and!.
  - rewrite app_nil_r. by split_and!.
Qed.
End server.
