(* ===== verification/EmbeddedSpec.v ===== *)
(** * The embedded specification ([restapi/embedded_spec.go])

    The document of the API as the server embeds it, entry by entry, as JSON: the
    one used at generation time, and its flattened copy, which shares all
    definitions but one and names one more. What its schemas mean, and how the
    code relates to them, is in [Schema]. *)
From S2P Require Import Prelude.
From Stdlib Require Import SpecFloat Ascii.
#[local] Set Warnings "-register-all".

Inductive json :=
  | JNull
  | JBool (b : bool)
  | JInt (n : Z)
  | JNum (f : spec_float)
  | JStr (s : string)
  | JArr (l : list json)
  | JObj (fields : list (string * json)).

(** A text with quotation marks between the parts. *)
Definition quoted (parts : list string) : json := JStr (String.concat (String (ascii_of_N 34) "") parts).

#[local] Open Scope string_scope.
#[local] Open Scope Z_scope.

Definition path_control_in : json := JObj [
    ("get", JObj [
      ("tags", JArr [JStr "yggdrasil"]);
      ("operationId", JStr "GetControlMessageForDevice");
      ("parameters", JArr [
        JObj [
          ("type", JStr "string");
          ("description", JStr "Device ID");
          ("name", JStr "device_id");
          ("in", JStr "path");
          ("required", JBool true)]]);
      ("responses", JObj [
        ("200", JObj [
          ("description", JStr "Success");
          ("schema", JObj [("$ref", JStr "#/definitions/message")])]);
        ("401", JObj [("description", JStr "Unauthorized")]);
        ("403", JObj [("description", JStr "Forbidden")]);
        ("404", JObj [("description", JStr "Error")]);
        ("500", JObj [("description", JStr "Error")])])])].

Definition path_control_out : json := JObj [
    ("post", JObj [
      ("tags", JArr [JStr "yggdrasil"]);
      ("operationId", JStr "PostControlMessageForDevice");
      ("parameters", JArr [
        JObj [
          ("type", JStr "string");
          ("description", JStr "Device ID");
          ("name", JStr "device_id");
          ("in", JStr "path");
          ("required", JBool true)];
        JObj [
          ("name", JStr "message");
          ("in", JStr "body");
          ("required", JBool true);
          ("schema", JObj [("$ref", JStr "#/definitions/message")])]]);
      ("responses", JObj [
        ("200", JObj [("description", JStr "Success")]);
        ("401", JObj [("description", JStr "Unauthorized")]);
        ("403", JObj [("description", JStr "Forbidden")]);
        ("404", JObj [("description", JStr "Error")]);
        ("500", JObj [("description", JStr "Error")])])])].

Definition path_data_in : json := JObj [
    ("get", JObj [
      ("tags", JArr [JStr "yggdrasil"]);
      ("operationId", JStr "GetDataMessageForDevice");
      ("parameters", JArr [
        JObj [
          ("type", JStr "string");
          ("description", JStr "Device ID");
          ("name", JStr "device_id");
          ("in", JStr "path");
          ("required", JBool true)]]);
      ("responses", JObj [
        ("200", JObj [
          ("description", JStr "Success");
          ("schema", JObj [("$ref", JStr "#/definitions/message")])]);
        ("401", JObj [("description", JStr "Unauthorized")]);
        ("403", JObj [("description", JStr "Forbidden")]);
        ("404", JObj [("description", JStr "Error")]);
        ("500", JObj [("description", JStr "Error")])])])].

Definition path_data_out : json := JObj [
    ("post", JObj [
      ("tags", JArr [JStr "yggdrasil"]);
      ("operationId", JStr "PostDataMessageForDevice");
      ("parameters", JArr [
        JObj [
          ("type", JStr "string");
          ("description", JStr "Device ID");
          ("name", JStr "device_id");
          ("in", JStr "path");
          ("required", JBool true)];
        JObj [
          ("name", JStr "message");
          ("in", JStr "body");
          ("required", JBool true);
          ("schema", JObj [("$ref", JStr "#/definitions/message")])]]);
      ("responses", JObj [
        ("200", JObj [
          ("description", JStr "Success");
          ("schema", JObj [("$ref", JStr "#/definitions/message-response")])]);
        ("400", JObj [("description", JStr "Error")]);
        ("401", JObj [("description", JStr "Unauthorized")]);
        ("403", JObj [("description", JStr "Forbidden")]);
        ("404", JObj [("description", JStr "Error")]);
        ("500", JObj [("description", JStr "Error")])])])].

Definition definition_boot : json := JObj [
    ("type", JStr "object");
    ("properties", JObj [
      ("current_boot_mode", JObj [("type", JStr "string")]);
      ("pxe_interface", JObj [("type", JStr "string")])])].

Definition definition_configmap_list : json := JObj [
    ("type", JStr "array");
    ("items", JObj [("description", JStr "ConfigMap kubernetes yaml specification"); ("type", JStr "string")])].

Definition definition_container_metrics : json := JObj [
    ("type", JStr "object");
    ("properties", JObj [
      ("disabled", JObj [("type", JStr "boolean")]);
      ("path", JObj [("description", JStr "Path to use when retrieving metrics"); ("type", JStr "string")]);
      ("port", JObj [
        ("description", JStr "Port to use when retrieve the metrics");
        ("type", JStr "integer");
        ("format", JStr "int32")])])].

Definition definition_cpu : json := JObj [
    ("type", JStr "object");
    ("properties", JObj [
      ("architecture", JObj [("type", JStr "string")]);
      ("count", JObj [("type", JStr "integer")]);
      ("flags", JObj [("type", JStr "array"); ("items", JObj [("type", JStr "string")])]);
      ("frequency", JObj [("type", JStr "number")]);
      ("model_name", JObj [("type", JStr "string")])])].

Definition definition_data_configuration : json := JObj [
    ("type", JStr "object");
    ("properties", JObj [
      ("paths", JObj [("type", JStr "array"); ("items", JObj [("$ref", JStr "#/definitions/data-path")])])])].

Definition definition_data_path : json := JObj [
    ("description", JStr "Device-to-control plane paths mapping");
    ("type", JStr "object");
    ("properties", JObj [
      ("source", JObj [("description", JStr "Path in the workload container"); ("type", JStr "string")]);
      ("target", JObj [("description", JStr "Path in the control plane storage"); ("type", JStr "string")])])].

Definition definition_device_configuration : json := JObj [
    ("type", JStr "object");
    ("properties", JObj [
      ("heartbeat", JObj [("$ref", JStr "#/definitions/heartbeat-configuration")]);
      ("log-collection", JObj [
        ("type", JStr "object");
        ("additionalProperties", JObj [
          ("description", JStr "Log collection information");
          ("$ref", JStr "#/definitions/logs-collection-information")])]);
      ("metrics", JObj [("$ref", JStr "#/definitions/metrics-configuration")]);
      ("os", JObj [
        ("description", JStr "OS lifecycle information");
        ("$ref", JStr "#/definitions/os-information")]);
      ("storage", JObj [("$ref", JStr "#/definitions/storage-configuration")])])].

Definition definition_device_configuration_message : json := JObj [
    ("type", JStr "object");
    ("properties", JObj [
      ("configuration", JObj [("$ref", JStr "#/definitions/device-configuration")]);
      ("device_id", JObj [("description", JStr "Device identifier"); ("type", JStr "string")]);
      ("secrets", JObj [
        ("description", JStr "List of secrets used by the workloads");
        ("$ref", JStr "#/definitions/secret-list")]);
      ("version", JObj [("type", JStr "string")]);
      ("workloads", JObj [
        ("description", JStr "List of workloads deployed to the device");
        ("$ref", JStr "#/definitions/workload-list")]);
      ("workloads_monitoring_interval", JObj [
        ("description", JStr "Defines the interval in seconds between the attempts to evaluate the workloads status and restart those that failed");
        ("type", JStr "integer");
        ("exclusiveMinimum", JBool true)])])].

Definition definition_disk : json := JObj [
    ("type", JStr "object");
    ("properties", JObj [
      ("bootable", JObj [("type", JStr "boolean")]);
      ("by_id", JObj [
        ("description", JStr "by-id is the World Wide Number of the device which guaranteed to be unique for every storage device");
        ("type", JStr "string")]);
      ("by_path", JObj [
        ("description", JStr "by-path is the shortest physical path to the device");
        ("type", JStr "string")]);
      ("drive_type", JObj [("type", JStr "string")]);
      ("hctl", JObj [("type", JStr "string")]);
      ("id", JObj [
        ("description", JStr "Determine the disk's unique identifier which is the by-id field if it exists and fallback to the by-path field otherwise");
        ("type", JStr "string")]);
      ("io_perf", JObj [("$ref", JStr "#/definitions/io_perf")]);
      ("is_installation_media", JObj [
        ("description", JStr "Whether the disk appears to be an installation media or not");
        ("type", JStr "boolean")]);
      ("model", JObj [("type", JStr "string")]);
      ("name", JObj [("type", JStr "string")]);
      ("path", JObj [("type", JStr "string")]);
      ("serial", JObj [("type", JStr "string")]);
      ("size_bytes", JObj [("type", JStr "integer")]);
      ("smart", JObj [("type", JStr "string")]);
      ("vendor", JObj [("type", JStr "string")]);
      ("wwn", JObj [("type", JStr "string")])])].

Definition definition_event_info : json := JObj [
    ("type", JStr "object");
    ("properties", JObj [
      ("message", JObj [
        ("description", JStr "Message describe the event which has occured.");
        ("type", JStr "string")]);
      ("reason", JObj [
        ("description", JStr "Reason is single word description of the subject of the event.");
        ("type", JStr "string")]);
      ("type", JObj [
        ("description", JStr "Either 'info' or 'warn', which reflect the importance of event.");
        ("type", JStr "string");
        ("enum", JArr [JStr "info"; JStr "warn"])])])].

Definition definition_gpu : json := JObj [
    ("type", JStr "object");
    ("properties", JObj [
      ("address", JObj [
        ("description", quoted ["Device address (for example "; "0000:00:02.0"; ")"]);
        ("type", JStr "string")]);
      ("device_id", JObj [
        ("description", quoted ["ID of the device (for example "; "3ea0"; ")"]);
        ("type", JStr "string")]);
      ("name", JObj [
        ("description", quoted ["Product name of the device (for example "; "UHD Graphics 620 (Whiskey Lake)"; ")"]);
        ("type", JStr "string")]);
      ("vendor", JObj [
        ("description", quoted ["The name of the device vendor (for example "; "Intel Corporation"; ")"]);
        ("type", JStr "string")]);
      ("vendor_id", JObj [
        ("description", quoted ["ID of the vendor (for example "; "8086"; ")"]);
        ("type", JStr "string")])])].

Definition definition_hardware_info : json := JObj [
    ("type", JStr "object");
    ("properties", JObj [
      ("boot", JObj [("$ref", JStr "#/definitions/boot")]);
      ("cpu", JObj [("$ref", JStr "#/definitions/cpu")]);
      ("disks", JObj [("type", JStr "array"); ("items", JObj [("$ref", JStr "#/definitions/disk")])]);
      ("gpus", JObj [("type", JStr "array"); ("items", JObj [("$ref", JStr "#/definitions/gpu")])]);
      ("hostname", JObj [("type", JStr "string")]);
      ("interfaces", JObj [("type", JStr "array"); ("items", JObj [("$ref", JStr "#/definitions/interface")])]);
      ("memory", JObj [("$ref", JStr "#/definitions/memory")]);
      ("system_vendor", JObj [("$ref", JStr "#/definitions/system_vendor")])])].

Definition definition_hardware_profile_configuration : json := JObj [
    ("type", JStr "object");
    ("properties", JObj [
      ("include", JObj [("type", JStr "boolean")]);
      ("scope", JObj [("type", JStr "string"); ("enum", JArr [JStr "full"; JStr "delta"])])])].

Definition definition_heartbeat : json := JObj [
    ("type", JStr "object");
    ("properties", JObj [
      ("events", JObj [
        ("description", JStr "Events produced by device worker.");
        ("type", JStr "array");
        ("items", JObj [("$ref", JStr "#/definitions/event-info")])]);
      ("hardware", JObj [("description", JStr "Hardware information"); ("$ref", JStr "#/definitions/hardware-info")]);
      ("status", JObj [("type", JStr "string"); ("enum", JArr [JStr "up"; JStr "degraded"])]);
      ("upgrade", JObj [("description", JStr "Upgrade status"); ("$ref", JStr "#/definitions/upgrade-status")]);
      ("version", JObj [("type", JStr "string")]);
      ("workloads", JObj [("type", JStr "array"); ("items", JObj [("$ref", JStr "#/definitions/workload-status")])])])].

Definition definition_heartbeat_configuration : json := JObj [
    ("type", JStr "object");
    ("properties", JObj [
      ("hardware_profile", JObj [("$ref", JStr "#/definitions/hardware-profile-configuration")]);
      ("period_seconds", JObj [("type", JStr "integer")])])].

Definition definition_image_registries : json := JObj [
    ("type", JStr "object");
    ("properties", JObj [
      ("authFile", JObj [
        ("description", JStr "Image registries authfile created by executing `podman login` or `docker login` (i.e. ~/.docker/config.json). https://kubernetes.io/docs/tasks/configure-pod-container/pull-image-private-registry/#log-in-to-docker-hub describes how the file can be created and how it is structured.");
        ("type", JStr "string")])])].

Definition definition_interface : json := JObj [
    ("type", JStr "object");
    ("properties", JObj [
      ("biosdevname", JObj [("type", JStr "string")]);
      ("client_id", JObj [("type", JStr "string")]);
      ("flags", JObj [("type", JStr "array"); ("items", JObj [("type", JStr "string")])]);
      ("has_carrier", JObj [("type", JStr "boolean")]);
      ("ipv4_addresses", JObj [("type", JStr "array"); ("items", JObj [("type", JStr "string")])]);
      ("ipv6_addresses", JObj [("type", JStr "array"); ("items", JObj [("type", JStr "string")])]);
      ("mac_address", JObj [("type", JStr "string")]);
      ("mtu", JObj [("type", JStr "integer")]);
      ("name", JObj [("type", JStr "string")]);
      ("product", JObj [("type", JStr "string")]);
      ("speed_mbps", JObj [("type", JStr "integer")]);
      ("vendor", JObj [("type", JStr "string")])])].

Definition definition_io_perf : json := JObj [
    ("type", JStr "object");
    ("properties", JObj [
      ("sync_duration", JObj [
        ("description", JStr "99th percentile of fsync duration in milliseconds");
        ("type", JStr "integer")])])].

Definition definition_logs_collection_information : json := JObj [
    ("type", JStr "object");
    ("properties", JObj [
      ("buffer_size", JObj [("type", JStr "integer"); ("format", JStr "int32")]);
      ("kind", JObj [("type", JStr "string")]);
      ("syslog_config", JObj [
        ("type", JStr "object");
        ("properties", JObj [("address", JObj [("type", JStr "string")]); ("protocol", JObj [("type", JStr "string")])])])])].

Definition definition_memory : json := JObj [
    ("type", JStr "object");
    ("properties", JObj [
      ("physical_bytes", JObj [("type", JStr "integer")]);
      ("usable_bytes", JObj [("type", JStr "integer")])])].

Definition definition_message : json := JObj [
    ("type", JStr "object");
    ("properties", JObj [
      ("content", JObj [("description", JStr "Content")]);
      ("directive", JObj [("type", JStr "string")]);
      ("message_id", JObj [("type", JStr "string")]);
      ("metadata", JObj [("type", JStr "object")]);
      ("response_to", JObj [("type", JStr "string")]);
      ("sent", JObj [("type", JStr "string"); ("format", JStr "date-time")]);
      ("type", JObj [
        ("type", JStr "string");
        ("enum", JArr [JStr "connection-status"; JStr "command"; JStr "event"; JStr "data"])]);
      ("version", JObj [("type", JStr "integer")])])].

Definition definition_message_response : json := JObj [
    ("type", JStr "object");
    ("properties", JObj [
      ("content", JObj [("description", JStr "Content")]);
      ("directive", JObj [("type", JStr "string")]);
      ("message_id", JObj [("type", JStr "string")])])].

Definition definition_metrics : json := JObj [
    ("type", JStr "object");
    ("properties", JObj [
      ("allow_list", JObj [
        ("description", JStr "Specification of system metrics to be collected");
        ("$ref", JStr "#/definitions/metrics-allow-list")]);
      ("containers", JObj [
        ("type", JStr "object");
        ("additionalProperties", JObj [
          ("description", JStr "Metrics container configuration");
          ("$ref", JStr "#/definitions/container-metrics")])]);
      ("interval", JObj [
        ("description", JStr "Interval(in seconds) to scrape metrics endpoint.");
        ("type", JStr "integer");
        ("format", JStr "int32")]);
      ("path", JObj [("description", JStr "Path to use when retrieving metrics"); ("type", JStr "string")]);
      ("port", JObj [("type", JStr "integer"); ("format", JStr "int32")])])].

Definition definition_metrics_allow_list : json := JObj [
    ("description", JStr "Specification of metrics to be collected");
    ("type", JStr "object");
    ("properties", JObj [("names", JObj [("type", JStr "array"); ("items", JObj [("type", JStr "string")])])])].

Definition definition_metrics_configuration : json := JObj [
    ("description", JStr "Defines metrics configuration for the device");
    ("type", JStr "object");
    ("properties", JObj [
      ("retention", JObj [
        ("description", JStr "Defines metrics data retention limits");
        ("$ref", JStr "#/definitions/metrics-retention")]);
      ("system", JObj [
        ("description", JStr "System metrics gathering configuration");
        ("$ref", JStr "#/definitions/system-metrics-configuration")])])].

Definition definition_metrics_retention : json := JObj [
    ("type", JStr "object");
    ("properties", JObj [
      ("max_hours", JObj [
        ("description", JStr "Maximum time in hours metrics data files should kept on the device");
        ("type", JStr "integer");
        ("format", JStr "int32")]);
      ("max_mib", JObj [
        ("description", JStr "Maximum size of metrics stored on disk");
        ("type", JStr "integer");
        ("format", JStr "int32")])])].

Definition definition_os_information : json := JObj [
    ("type", JStr "object");
    ("properties", JObj [
      ("automatically_upgrade", JObj [("description", JStr "automatically upgrade the OS image"); ("type", JStr "boolean")]);
      ("commit_id", JObj [("description", JStr "the last commit ID"); ("type", JStr "string")]);
      ("hosted_objects_url", JObj [("description", JStr "the URL of the hosted commits web server"); ("type", JStr "string")])])].

Definition definition_registration_info : json := JObj [
    ("type", JStr "object");
    ("properties", JObj [
      ("certificate_request", JObj [
        ("description", JStr "Certificate Signing Request to be signed by flotta-operator CA");
        ("type", JStr "string")]);
      ("hardware", JObj [("description", JStr "Hardware information"); ("$ref", JStr "#/definitions/hardware-info")])])].

Definition definition_registration_response : json := JObj [
    ("type", JStr "object");
    ("properties", JObj [
      ("certificate", JObj [
        ("description", JStr "Client certificate to be used in future operations");
        ("type", JStr "string")])])].

Definition definition_s3_storage_configuration : json := JObj [
    ("type", JStr "object");
    ("properties", JObj [
      ("aws_access_key_id", JObj [("type", JStr "string")]);
      ("aws_ca_bundle", JObj [("type", JStr "string")]);
      ("aws_secret_access_key", JObj [("type", JStr "string")]);
      ("bucket_host", JObj [("type", JStr "string")]);
      ("bucket_name", JObj [("type", JStr "string")]);
      ("bucket_port", JObj [("type", JStr "integer"); ("format", JStr "int32")]);
      ("bucket_region", JObj [("type", JStr "string")])])].

Definition definition_secret : json := JObj [
    ("type", JStr "object");
    ("properties", JObj [
      ("data", JObj [("description", JStr "The secret's data section in JSON format"); ("type", JStr "string")]);
      ("name", JObj [("description", JStr "Name of the secret"); ("type", JStr "string")])])].

Definition definition_secret_list : json := JObj [("type", JStr "array"); ("items", JObj [("$ref", JStr "#/definitions/secret")])].

Definition definition_storage_configuration : json := JObj [
    ("type", JStr "object");
    ("properties", JObj [("s3", JObj [("$ref", JStr "#/definitions/s3-storage-configuration")])])].

Definition definition_system_metrics_configuration : json := JObj [
    ("type", JStr "object");
    ("properties", JObj [
      ("allow_list", JObj [
        ("description", JStr "Specification of system metrics to be collected");
        ("$ref", JStr "#/definitions/metrics-allow-list")]);
      ("disabled", JObj [
        ("description", JStr "When true, turns system metrics collection off. False by default.");
        ("type", JStr "boolean")]);
      ("interval", JObj [
        ("description", JStr "Interval(in seconds) to scrape metrics endpoint.");
        ("type", JStr "integer");
        ("format", JStr "int32")])])].

Definition definition_system_vendor : json := JObj [
    ("type", JStr "object");
    ("properties", JObj [
      ("manufacturer", JObj [("type", JStr "string")]);
      ("product_name", JObj [("type", JStr "string")]);
      ("serial_number", JObj [("type", JStr "string")]);
      ("virtual", JObj [
        ("description", JStr "Whether the machine appears to be a virtual machine or not");
        ("type", JStr "boolean")])])].

Definition definition_upgrade_status : json := JObj [
    ("type", JStr "object");
    ("properties", JObj [
      ("current_commit_ID", JObj [("type", JStr "string")]);
      ("last_upgrade_status", JObj [("type", JStr "string"); ("enum", JArr [JStr "succeeded"; JStr "failed"])]);
      ("last_upgrade_time", JObj [("type", JStr "string")])])].

Definition definition_workload : json := JObj [
    ("type", JStr "object");
    ("properties", JObj [
      ("configmaps", JObj [
        ("description", JStr "List of configmaps used by the workload");
        ("$ref", JStr "#/definitions/configmap-list")]);
      ("data", JObj [
        ("description", JStr "Configuration for data transfer");
        ("$ref", JStr "#/definitions/data-configuration")]);
      ("imageRegistries", JObj [
        ("description", JStr "Image registries configuration");
        ("$ref", JStr "#/definitions/image-registries")]);
      ("log_collection", JObj [("description", JStr "Log collection target for this workload"); ("type", JStr "string")]);
      ("metrics", JObj [
        ("description", JStr "Metrics endpoint configuration");
        ("$ref", JStr "#/definitions/metrics")]);
      ("name", JObj [("description", JStr "Name of the workload"); ("type", JStr "string")]);
      ("specification", JObj [("type", JStr "string")])])].

Definition definition_workload_list : json := JObj [("type", JStr "array"); ("items", JObj [("$ref", JStr "#/definitions/workload")])].

Definition definition_workload_status : json := JObj [
    ("type", JStr "object");
    ("properties", JObj [
      ("last_data_upload", JObj [("type", JStr "string"); ("format", JStr "date-time")]);
      ("name", JObj [("type", JStr "string")]);
      ("status", JObj [
        ("type", JStr "string");
        ("enum", JArr [JStr "deploying"; JStr "running"; JStr "crashed"; JStr "stopped"])])])].

Definition flat_LogsCollectionInformationSyslogConfig : json := JObj [
    ("type", JStr "object");
    ("properties", JObj [("address", JObj [("type", JStr "string")]); ("protocol", JObj [("type", JStr "string")])])].

Definition flat_device_configuration_message : json := JObj [
    ("type", JStr "object");
    ("properties", JObj [
      ("configuration", JObj [("$ref", JStr "#/definitions/device-configuration")]);
      ("device_id", JObj [("description", JStr "Device identifier"); ("type", JStr "string")]);
      ("secrets", JObj [
        ("description", JStr "List of secrets used by the workloads");
        ("$ref", JStr "#/definitions/secret-list")]);
      ("version", JObj [("type", JStr "string")]);
      ("workloads", JObj [
        ("description", JStr "List of workloads deployed to the device");
        ("$ref", JStr "#/definitions/workload-list")]);
      ("workloads_monitoring_interval", JObj [
        ("description", JStr "Defines the interval in seconds between the attempts to evaluate the workloads status and restart those that failed");
        ("type", JStr "integer");
        ("minimum", JInt 0);
        ("exclusiveMinimum", JBool true)])])].

Definition SwaggerJSON : json := JObj [
  ("consumes", JArr [JStr "application/json"]);
  ("produces", JArr [JStr "application/json"]);
  ("schemes", JArr [JStr "http"; JStr "https"]);
  ("swagger", JStr "2.0");
  ("info", JObj [
      ("description", JStr "Flotta Edge Management");
      ("title", JStr "FlottaManagement");
      ("license", JObj [
        ("name", JStr "Apache 2.0");
        ("url", JStr "http://www.apache.org/licenses/LICENSE-2.0.html")]);
      ("version", JStr "1.0.0")]);
  ("basePath", JStr "/api/flotta-management/v1");
  ("paths", JObj [
    ("/control/{device_id}/in", path_control_in);
    ("/control/{device_id}/out", path_control_out);
    ("/data/{device_id}/in", path_data_in);
    ("/data/{device_id}/out", path_data_out)]);
  ("definitions", JObj [
    ("boot", definition_boot);
    ("configmap-list", definition_configmap_list);
    ("container-metrics", definition_container_metrics);
    ("cpu", definition_cpu);
    ("data-configuration", definition_data_configuration);
    ("data-path", definition_data_path);
    ("device-configuration", definition_device_configuration);
    ("device-configuration-message", definition_device_configuration_message);
    ("disk", definition_disk);
    ("event-info", definition_event_info);
    ("gpu", definition_gpu);
    ("hardware-info", definition_hardware_info);
    ("hardware-profile-configuration", definition_hardware_profile_configuration);
    ("heartbeat", definition_heartbeat);
    ("heartbeat-configuration", definition_heartbeat_configuration);
    ("image-registries", definition_image_registries);
    ("interface", definition_interface);
    ("io_perf", definition_io_perf);
    ("logs-collection-information", definition_logs_collection_information);
    ("memory", definition_memory);
    ("message", definition_message);
    ("message-response", definition_message_response);
    ("metrics", definition_metrics);
    ("metrics-allow-list", definition_metrics_allow_list);
    ("metrics-configuration", definition_metrics_configuration);
    ("metrics-retention", definition_metrics_retention);
    ("os-information", definition_os_information);
    ("registration-info", definition_registration_info);
    ("registration-response", definition_registration_response);
    ("s3-storage-configuration", definition_s3_storage_configuration);
    ("secret", definition_secret);
    ("secret-list", definition_secret_list);
    ("storage-configuration", definition_storage_configuration);
    ("system-metrics-configuration", definition_system_metrics_configuration);
    ("system_vendor", definition_system_vendor);
    ("upgrade-status", definition_upgrade_status);
    ("workload", definition_workload);
    ("workload-list", definition_workload_list);
    ("workload-status", definition_workload_status)]);
  ("securityDefinitions", JObj [
      ("agentAuth", JObj [("type", JStr "apiKey"); ("name", JStr "X-Secret-Key"); ("in", JStr "header")])]);
  ("tags", JArr [JObj [("description", JStr "Device management"); ("name", JStr "devices")]])].

Definition FlatSwaggerJSON : json := JObj [
  ("consumes", JArr [JStr "application/json"]);
  ("produces", JArr [JStr "application/json"]);
  ("schemes", JArr [JStr "http"; JStr "https"]);
  ("swagger", JStr "2.0");
  ("info", JObj [
      ("description", JStr "Flotta Edge Management");
      ("title", JStr "FlottaManagement");
      ("license", JObj [
        ("name", JStr "Apache 2.0");
        ("url", JStr "http://www.apache.org/licenses/LICENSE-2.0.html")]);
      ("version", JStr "1.0.0")]);
  ("basePath", JStr "/api/flotta-management/v1");
  ("paths", JObj [
    ("/control/{device_id}/in", path_control_in);
    ("/control/{device_id}/out", path_control_out);
    ("/data/{device_id}/in", path_data_in);
    ("/data/{device_id}/out", path_data_out)]);
  ("definitions", JObj [
    ("LogsCollectionInformationSyslogConfig", flat_LogsCollectionInformationSyslogConfig);
    ("boot", definition_boot);
    ("configmap-list", definition_configmap_list);
    ("container-metrics", definition_container_metrics);
    ("cpu", definition_cpu);
    ("data-configuration", definition_data_configuration);
    ("data-path", definition_data_path);
    ("device-configuration", definition_device_configuration);
    ("device-configuration-message", flat_device_configuration_message);
    ("disk", definition_disk);
    ("event-info", definition_event_info);
    ("gpu", definition_gpu);
    ("hardware-info", definition_hardware_info);
    ("hardware-profile-configuration", definition_hardware_profile_configuration);
    ("heartbeat", definition_heartbeat);
    ("heartbeat-configuration", definition_heartbeat_configuration);
    ("image-registries", definition_image_registries);
    ("interface", definition_interface);
    ("io_perf", definition_io_perf);
    ("logs-collection-information", definition_logs_collection_information);
    ("memory", definition_memory);
    ("message", definition_message);
    ("message-response", definition_message_response);
    ("metrics", definition_metrics);
    ("metrics-allow-list", definition_metrics_allow_list);
    ("metrics-configuration", definition_metrics_configuration);
    ("metrics-retention", definition_metrics_retention);
    ("os-information", definition_os_information);
    ("registration-info", definition_registration_info);
    ("registration-response", definition_registration_response);
    ("s3-storage-configuration", definition_s3_storage_configuration);
    ("secret", definition_secret);
    ("secret-list", definition_secret_list);
    ("storage-configuration", definition_storage_configuration);
    ("system-metrics-configuration", definition_system_metrics_configuration);
    ("system_vendor", definition_system_vendor);
    ("upgrade-status", definition_upgrade_status);
    ("workload", definition_workload);
    ("workload-list", definition_workload_list);
    ("workload-status", definition_workload_status)]);
  ("securityDefinitions", JObj [
      ("agentAuth", JObj [("type", JStr "apiKey"); ("name", JStr "X-Secret-Key"); ("in", JStr "header")])]);
  ("tags", JArr [JObj [("description", JStr "Device management"); ("name", JStr "devices")]])].
