(* ===== verification/Schema.v ===== *)
(** * The schemas of the embedded specification

    The definitions of [EmbeddedSpec] read as schemas, and which JSON values a
    schema accepts: types, enumerations, the format [date-time], bounds, items,
    properties, and references. Formats of numbers say how they are stored and
    accept everything. Every entry of the document is understood: [parse] fails
    on an unknown type. *)
From S2P Require Import Prelude EmbeddedSpec.
From Stdlib Require Import SpecFloat.
#[local] Set Warnings "-register-all".

Inductive schema :=
  | SAny
  | SString (enum : option (list string)) (date : bool)
  | SInteger (minimum : option Z) (exclusive : bool)
  | SNumber
  | SBoolean
  | SArray (items : schema)
  | SObject (properties : list (string * schema)) (additional : option schema)
  | SRef (definition : string).

(** ** Reading the document *)

Fixpoint assoc {A} (k : string) (l : list (string * A)) : option A :=
  match l with
  | [] => None
  | (k', a) :: l => if String.eqb k k' then Some a else assoc k l
  end.

Definition get (k : string) (j : json) : option json := match j with JObj fields => assoc k fields | _ => None end.
Definition as_string (j : json) : option string := match j with JStr s => Some s | _ => None end.
Definition as_integer (j : json) : option Z := match j with JInt n => Some n | _ => None end.
Definition as_array (j : json) : option (list json) := match j with JArr l => Some l | _ => None end.
Definition as_object (j : json) : option (list (string * json)) := match j with JObj fs => Some fs | _ => None end.

Definition definitions_prefix : string := "#/definitions/".
Definition reference (r : string) : option string :=
  if String.prefix definitions_prefix r
  then Some (String.substring (String.length definitions_prefix) (String.length r) r) else None.

(** An entry that is absent is [None]; one that is there has to be understood. *)
Definition optional {A B} (f : A → option B) (o : option A) : option (option B) :=
  match o with None => Some None | Some a => Some <$> f a end.

(** [n] bounds the depth of the document. *)
Fixpoint parse (n : nat) (j : json) : option schema :=
  match n with
  | 0 => None
  | S n =>
      let named (p : string * json) : option (string * schema) := s ← parse n p.2; Some (p.1, s) in
      match get "$ref" j with
      | Some r => r ← as_string r; SRef <$> reference r
      | None =>
          match get "type" j with
          | None => Some SAny
          | Some t =>
              t ← as_string t;
              if String.eqb t "string" then
                enum ← optional (λ e, l ← as_array e; mapM as_string l) (get "enum" j);
                format ← optional as_string (get "format" j);
                match format with
                | None => Some (SString enum false)
                | Some f => if String.eqb f "date-time" then Some (SString enum true) else None
                end
              else if String.eqb t "integer" then
                minimum ← optional as_integer (get "minimum" j);
                Some (SInteger minimum (bool_decide (is_Some (get "exclusiveMinimum" j))))
              else if String.eqb t "number" then Some SNumber
              else if String.eqb t "boolean" then Some SBoolean
              else if String.eqb t "array" then
                items ← get "items" j; SArray <$> parse n items
              else if String.eqb t "object" then
                props ← optional as_object (get "properties" j);
                props ← mapM named (default [] props);
                additional ← optional (parse n) (get "additionalProperties" j);
                Some (SObject props additional)
              else None
          end
      end
  end.

Definition definitions_of (document : json) : option (list (string * schema)) :=
  d ← get "definitions" document;
  d ← as_object d;
  mapM (λ p, s ← parse 5 p.2; Some (p.1, s)) d.

(** The definitions, as they come out. *)
Definition definitions : list (string * schema) := Eval vm_compute in default [] (definitions_of SwaggerJSON).
Definition flat_definitions : list (string * schema) := Eval vm_compute in default [] (definitions_of FlatSwaggerJSON).

Lemma definitions_of_SwaggerJSON : definitions_of SwaggerJSON = Some definitions.
Proof. vm_compute. reflexivity. Qed.
Lemma definitions_of_FlatSwaggerJSON : definitions_of FlatSwaggerJSON = Some flat_definitions.
Proof. vm_compute. reflexivity. Qed.

(** ** Which values a schema accepts *)
Section accepts.
Context (defs : list (string * schema)) (is_date_time : string → bool).

(** Definitions are not references themselves. *)
Definition resolve (s : schema) : option schema :=
  match s with SRef n => assoc n defs | s => Some s end.

Definition in_enum (enum : option (list string)) (t : string) : bool :=
  match enum with None => true | Some l => existsb (String.eqb t) l end.
Definition above (minimum : option Z) (exclusive : bool) (n : Z) : bool :=
  match minimum with None => true | Some m => if exclusive then (m <? n)%Z else (m <=? n)%Z end.

Fixpoint accepts (v : json) (s : schema) : bool :=
  match resolve s with
  | None | Some (SRef _) => false
  | Some SAny => true
  | Some (SString enum date) =>
      match v with JStr t => in_enum enum t && (negb date || is_date_time t) | _ => false end
  | Some (SInteger minimum exclusive) => match v with JInt n => above minimum exclusive n | _ => false end
  | Some SNumber => match v with JInt _ | JNum _ => true | _ => false end
  | Some SBoolean => match v with JBool _ => true | _ => false end
  | Some (SArray items) => match v with JArr l => forallb (λ x, accepts x items) l | _ => false end
  | Some (SObject props additional) =>
      match v with
      | JObj fields =>
          forallb (λ p : string * json,
            match assoc p.1 props, additional with
            | Some s', _ | None, Some s' => accepts p.2 s'
            | None, None => true
            end) fields
      | _ => false
      end
  end.

(** A field of an object with these properties. *)
Definition field_ok (props : list (string * schema)) (additional : option schema) (p : string * json) : bool :=
  match assoc p.1 props, additional with
  | Some s', _ | None, Some s' => accepts p.2 s'
  | None, None => true
  end.

Lemma accepts_object fields s props additional :
  resolve s = Some (SObject props additional) →
  accepts (JObj fields) s = forallb (field_ok props additional) fields.
Proof. intros H. simpl. by rewrite H. Qed.

Lemma accepts_array l s items : resolve s = Some (SArray items) → accepts (JArr l) s = forallb (λ x, accepts x items) l.
Proof. intros H. simpl. by rewrite H. Qed.

Lemma accepts_ref v n s : assoc n defs = Some s → resolve s = Some s → accepts v (SRef n) = accepts v s.
Proof. intros Hn Hs. destruct v; simpl; by rewrite Hn, Hs. Qed.

Lemma accepts_any v s : resolve s = Some SAny → accepts v s = true.
Proof. intros H. destruct v; simpl; by rewrite H. Qed.
End accepts.

(** Every reference leads somewhere that is not a reference. *)
Fixpoint references (s : schema) : list string :=
  match s with
  | SRef n => [n]
  | SArray items => references items
  | SObject props additional =>
      concat ((λ p, references p.2) <$> props) ++ match additional with Some s => references s | None => [] end
  | _ => []
  end.

Lemma references_resolve :
  Forall (λ n, match assoc n definitions with None | Some (SRef _) => False | Some _ => True end)
    (concat ((λ p, references p.2) <$> definitions)).
Proof. by repeat constructor. Qed.

Lemma assoc_in {A} k (l : list (string * A)) a : assoc k l = Some a → (k, a) ∈ l.
Proof.
  induction l as [|[k' a'] l IH]; simpl; [done|]. destruct (String.eqb_spec k k') as [<-|]; [|by right; apply IH].
  intros [= <-]. left.
Qed.

(** ** Two documents that share what their schemas refer to *)
Section shared.
Context (defs defs' : list (string * schema)) (is_date_time : string → bool).

Definition shared (n : string) : Prop := assoc n defs' = assoc n defs.
Hypothesis refer_to_shared : Forall (λ p, Forall shared (references p.2)) defs.

Lemma references_of_property k props additional s :
  Forall shared (references (SObject props additional)) → assoc k props = Some s → Forall shared (references s).
Proof.
  simpl. intros [H _]%Forall_app Hk%assoc_in. rewrite Forall_forall in H |- *. intros n Hn. apply H.
  apply list_elem_of_In, in_concat. exists (references s). split; [|by apply list_elem_of_In].
  apply list_elem_of_In, list_elem_of_fmap. by exists (k, s).
Qed.

Lemma resolve_shared s :
  Forall shared (references s) →
  resolve defs' s = resolve defs s ∧ ∀ s', resolve defs s = Some s' → Forall shared (references s').
Proof.
  intros H. destruct s as [| | | | | | |n]; [split; [done|by intros s' [= <-]]..|].
  split; [exact (Forall_inv H)|]. simpl. intros s' Hs%assoc_in. rewrite Forall_forall in refer_to_shared.
  exact (refer_to_shared _ Hs).
Qed.

Lemma accepts_shared v s :
  Forall shared (references s) → accepts defs' is_date_time v s = accepts defs is_date_time v s.
Proof.
  revert v s. fix IH 1. intros v s Hs. destruct (resolve_shared s Hs) as [Hr Hc].
  destruct v as [| | | | |l|fields]; simpl; rewrite Hr;
    (destruct (resolve defs s) as [s'|]; [specialize (Hc s' eq_refl)|reflexivity]);
    [destruct s'; reflexivity..| |].
  - destruct s' as [| | | | |items| |]; [reflexivity..| |reflexivity|reflexivity]. simpl in Hc.
    induction l as [|x l IHl]; simpl; [reflexivity|]. rewrite (IH x items Hc), IHl. reflexivity.
  - destruct s' as [| | | | | |props additional|]; [reflexivity..| |reflexivity].
    induction fields as [|[k x] fields IHf]; simpl; [reflexivity|]. rewrite IHf. f_equal.
    destruct (assoc k props) as [s'|] eqn:Ek.
    + apply IH. exact (references_of_property _ _ _ _ Hc Ek).
    + destruct additional as [s'|]; [|reflexivity]. apply IH. exact (proj2 (proj1 (Forall_app _ _ _) Hc)).
Qed.
End shared.

(** The flattened copy shares all definitions but one, which no schema refers to. *)
Lemma flat_shared : Forall (λ p, Forall (shared definitions flat_definitions) (references p.2)) definitions.
Proof. by repeat constructor. Qed.
