(* ===== verification/Floats.v ===== *)
(** * Numbers between Go and JSON

    How [encoding/json] writes a [float64] and reads it back. A float that is an
    integer below 2^53 is written as this integer; every other finite float as a
    literal with a fraction or an exponent, or more digits than a float has,
    that reads back as the same float ([strconv]). *)
From S2P Require Import Prelude.
From Stdlib Require Import SpecFloat.
#[local] Set Warnings "-register-all".
#[local] Open Scope Z_scope.

Definition double_prec : Z := 53.
Definition double_emax : Z := 1024.

(** The value of a float that is an integer below 2^53, as all floats with an
    exponent above zero are not. *)
Definition float_integer (f : spec_float) : option Z :=
  match f with
  | S754_zero _ => Some 0
  | S754_finite s m e =>
      let n := Z.shiftr (Zpos m) (- e) in
      if (e <=? 0) && (Z.shiftl n (- e) =? Zpos m) && (n <? 2 ^ double_prec)
      then Some (if s then - n else n) else None
  | _ => None
  end.

(** The float nearest to an integer. *)
Definition float_of_integer (n : Z) : spec_float := binary_normalize double_prec double_emax n 0 false.

(** A float that JSON keeps: finite, as all floats normalised, and no negative
    zero, which is left out like zero. *)
Definition kept (f : spec_float) : bool :=
  match f with
  | S754_zero s => negb s
  | S754_finite _ m e => bounded double_prec double_emax m e
  | _ => false
  end.

Definition finite (f : spec_float) : bool :=
  match f with S754_zero _ | S754_finite _ _ _ => true | _ => false end.

(** ** Theorems *)
Lemma digits2_shift m d : Zpos (digits2_pos (Pos.iter xO m d)) = Zpos (digits2_pos m) + Zpos d.
Proof.
  induction d as [|d IH] using Pos.peano_ind; [simpl; lia|]. rewrite Pos.iter_succ. simpl. lia.
Qed.

Lemma iter_xO_shiftl m d : Zpos (Pos.iter xO m d) = Z.shiftl (Zpos m) (Zpos d).
Proof. unfold Z.shiftl. induction d as [|d IH] using Pos.peano_ind; [done|]. rewrite !Pos.iter_succ, <- IH. lia. Qed.

Lemma shr_exact m e :
  fexp double_prec double_emax (Zpos (digits2_pos m) + e) = e →
  shr_fexp double_prec double_emax (Zpos m) e loc_Exact = (Build_shr_record (Zpos m) false false, e).
Proof. intros H. unfold shr_fexp. simpl Zdigits2. rewrite H, Z.sub_diag. reflexivity. Qed.

Lemma round_exact s m e :
  bounded double_prec double_emax m e = true →
  binary_round_aux double_prec double_emax s (Zpos m) e loc_Exact = S754_finite s m e.
Proof.
  intros [Hc He]%andb_true_iff. apply Z.eqb_eq in Hc. unfold binary_round_aux.
  rewrite (shr_exact _ _ Hc). simpl shr_m. simpl loc_of_shr_record. simpl round_nearest_even.
  rewrite (shr_exact _ _ Hc). simpl shr_m. by rewrite He.
Qed.

Lemma round_integer s m e n :
  bounded double_prec double_emax m e = true → e ≤ 0 → Zpos m = Z.shiftl (Zpos n) (- e) →
  binary_round double_prec double_emax s n 0 = S754_finite s m e.
Proof.
  intros Hb He Hm. pose proof Hb as [Hc%Z.eqb_eq _]%andb_true_iff. unfold binary_round.
  destruct e as [|d|d]; [|lia|].
  - injection Hm as ->. assert (shl_align n 0 (fexp double_prec double_emax (Zpos (digits2_pos n) + 0)) = (n, 0)) as ->.
    { unfold shl_align. by rewrite Hc. }
    by apply round_exact.
  - change (- Zneg d) with (Zpos d) in Hm. rewrite <- iter_xO_shiftl in Hm. injection Hm as ->.
    assert (shl_align n 0 (fexp double_prec double_emax (Zpos (digits2_pos n) + 0)) = (Pos.iter xO n d, Zneg d)) as ->.
    { unfold shl_align. rewrite digits2_shift in Hc. rewrite Z.add_0_r.
      replace (Zpos (digits2_pos n) + Zpos d + Zneg d) with (Zpos (digits2_pos n)) in Hc by lia. by rewrite Hc. }
    by apply round_exact.
Qed.

(** What is written as an integer is read back as it was. *)
Lemma float_integer_roundtrip f n : kept f = true → float_integer f = Some n → float_of_integer n = f.
Proof.
  destruct f as [[]| | |s m e]; try done; [by intros _ [= <-]|]. simpl. intros Hb.
  destruct (Z.leb_spec e 0) as [He|]; [|done]. simpl.
  destruct (Z.eqb_spec (Z.shiftl (Z.shiftr (Zpos m) (- e)) (- e)) (Zpos m)) as [Hs|]; [|done]. simpl.
  set (k := Z.shiftr (Zpos m) (- e)) in *. destruct (k <? _); [|done]. intros [= <-].
  assert (0 < k).
  { assert (0 ≤ k) by (apply Z.shiftr_nonneg; lia). destruct (decide (k = 0)) as [Hk|]; [|lia].
    rewrite Hk, Z.shiftl_0_l in Hs. lia. }
  destruct k as [|k|k]; try lia. destruct s; by apply round_integer.
Qed.

Lemma digits2_log m : Zpos (digits2_pos m) = Z.log2 (Zpos m) + 1.
Proof.
  induction m as [m IH|m IH|]; [| |done]; simpl digits2_pos; rewrite Pos2Z.inj_succ, IH.
  - change (Zpos m~1) with (2 * Zpos m + 1). rewrite Z.log2_succ_double by lia. lia.
  - change (Zpos m~0) with (2 * Zpos m). rewrite Z.log2_double by lia. lia.
Qed.

Lemma digits2_small m : Zpos m < 2 ^ double_prec → 1 ≤ Zpos (digits2_pos m) ≤ double_prec.
Proof.
  intros H. rewrite digits2_log. pose proof (Z.log2_nonneg (Zpos m)).
  apply Z.log2_lt_pow2 in H; [|done]. unfold double_prec in *. lia.
Qed.

(** The float of a small positive integer has its digits moved to the top. *)
Lemma round_small s p :
  Zpos p < 2 ^ double_prec →
  ∃ m e, binary_round double_prec double_emax s p 0 = S754_finite s m e ∧ e ≤ 0 ∧ Zpos m = Z.shiftl (Zpos p) (- e).
Proof.
  intros Hp. apply digits2_small in Hp as Hd. set (d := double_prec - Zpos (digits2_pos p)).
  assert (∀ m e, Zpos (digits2_pos m) + e = Zpos (digits2_pos p) → e = - d →
    bounded double_prec double_emax m e = true) as Hb.
  { intros m e Hm He. unfold bounded, canonical_mantissa, fexp, emin, d, double_prec, double_emax in *. lia. }
  destruct d as [|d'|d'] eqn:Ed; unfold d in Ed; [| |lia].
  - exists p, 0. assert (Zpos p = Z.shiftl (Zpos p) (- 0)) as H by done.
    split_and!; [|done..]. apply round_integer; [by apply Hb; [lia|]|done..].
  - exists (Pos.iter xO p d'), (Zneg d'). rewrite iter_xO_shiftl. split_and!; [|done..].
    apply round_integer; [apply Hb; [rewrite digits2_shift; lia|done]|done|apply iter_xO_shiftl].
Qed.

Lemma float_integer_round s p :
  Zpos p < 2 ^ double_prec →
  float_integer (binary_round double_prec double_emax s p 0) = Some (if s then - Zpos p else Zpos p).
Proof.
  intros Hn. destruct (round_small s p Hn) as (m & e & -> & He & Hm).
  assert (Z.shiftr (Zpos m) (- e) = Zpos p) as Hs by (rewrite Hm, Z.shiftr_shiftl_l, Z.sub_diag by lia; apply Z.shiftl_0_r).
  unfold float_integer. rewrite Hs. by rewrite <- Hm, Z.eqb_refl, (proj2 (Z.leb_le _ _) He), (proj2 (Z.ltb_lt _ _) Hn).
Qed.

(** A small integer is its float's. *)
Lemma float_of_integer_small n : Z.abs n < 2 ^ double_prec → float_integer (float_of_integer n) = Some n.
Proof. intros Hn. destruct n as [|p|p]; [done|..]; by apply float_integer_round. Qed.

Lemma float_integer_finite f n : float_integer f = Some n → finite f = true.
Proof. by destruct f. Qed.
Lemma float_integer_small f n : float_integer f = Some n → Z.abs n < 2 ^ double_prec.
Proof.
  destruct f as [| | |s m e]; try done; [by intros [= <-]|]. simpl.
  set (k := Z.shiftr (Zpos m) (- e)). assert (0 ≤ k) by (apply Z.shiftr_nonneg; lia).
  destruct (e <=? 0); [|done]. destruct (_ =? _); [|done]. destruct (Z.ltb_spec k (2 ^ double_prec)); [|done].
  intros [= <-]. destruct s; lia.
Qed.
