(* ===== verification/Wire.v ===== *)
(** * The wire format ([models]) and the embedded specification

    How the messages are written as JSON, by the tags of their fields: a field
    with [omitempty] is left out when it is empty, a struct never is, and a slice
    without [omitempty] that is nil is written as [null]. The fields of an object
    are a list here, whose order no schema looks at; numbers that are not finite,
    which no decoder makes, have no JSON in Go. The theorems relate the
    [Validate] methods, and the configuration that the operator sends, to the
    schemas of the specification. *)
From S2P Require Import Prelude Effects Interleave K8s Models Calls Repositories Lookups ConfigMaps Yggdrasil Validation Contract EmbeddedSpec Schema Floats.
From Stdlib Require Import SpecFloat Btauto.
#[local] Set Warnings "-register-all".

Section wire.
(** [DateTime.String()], the format [date-time] of the registry, the document that a
    raw content holds, and how the empty slices of this message are written: a
    value of the model does not say which of them are nil. *)
Context (show_time : Timestamp → string) (is_date_time : string → bool).
Context (raw_content : string → option json) (empty_slice : json).

(** ** Fields *)
Definition str (name : string) (s : string) : list (string * json) :=
  if String.eqb s "" then [] else [(name, JStr s)].
Definition int (name : string) (n : Z) : list (string * json) :=
  if (n =? 0)%Z then [] else [(name, JInt n)].
Definition boolean (name : string) (b : bool) : list (string * json) :=
  if b then [(name, JBool true)] else [].
Definition number_literal (f : spec_float) : json :=
  match float_integer f with Some n => JInt n | None => JNum f end.
Definition number (name : string) (f : spec_float) : list (string * json) :=
  match f with S754_zero _ => [] | f => [(name, number_literal f)] end.
Definition time (name : string) (t : Timestamp) : list (string * json) := [(name, JStr (show_time t))].
Definition pointer {A} (name : string) (encode : A → json) (p : option A) : list (string * json) :=
  match p with None => [] | Some a => [(name, encode a)] end.
(** A slice or list with [omitempty], and one without. *)
Definition items {A} (name : string) (encode : A → json) (l : list A) : list (string * json) :=
  match l with [] => [] | l => [(name, JArr (encode <$> l))] end.
Definition slice {A} (name : string) (encode : A → json) (l : list A) : list (string * json) :=
  [(name, match l with [] => empty_slice | l => JArr (encode <$> l) end)].
Definition nullable {A} (encode : A → json) (p : option A) : json :=
  match p with None => JNull | Some a => encode a end.
Definition dict {A} (name : string) (encode : A → json) (m : option (gmap string A)) : list (string * json) :=
  match map_to_list (default ∅ m) with
  | [] => []
  | l => [(name, JObj ((λ p, (p.1, encode p.2)) <$> l))]
  end.

(** ** The messages *)
Definition encode_Boot (m : models.Boot) : json := JObj (
  str "current_boot_mode" (models.Boot_CurrentBootMode m) ++
  str "pxe_interface" (models.Boot_PxeInterface m)).

Definition encode_CPU (m : models.CPU) : json := JObj (
  str "architecture" (models.CPU_Architecture m) ++
  int "count" (models.CPU_Count m) ++
  slice "flags" JStr (models.CPU_Flags m) ++
  number "frequency" (models.CPU_Frequency m) ++
  str "model_name" (models.CPU_ModelName m)).

Definition encode_IoPerf (m : models.IoPerf) : json := JObj (
  int "sync_duration" (models.IoPerf_SyncDuration m)).

Definition encode_Disk (m : models.Disk) : json := JObj (
  boolean "bootable" (models.Disk_Bootable m) ++
  str "by_id" (models.Disk_ByID m) ++
  str "by_path" (models.Disk_ByPath m) ++
  str "drive_type" (models.Disk_DriveType m) ++
  str "hctl" (models.Disk_Hctl m) ++
  str "id" (models.Disk_ID m) ++
  pointer "io_perf" encode_IoPerf (models.Disk_IoPerf m) ++
  boolean "is_installation_media" (models.Disk_IsInstallationMedia m) ++
  str "model" (models.Disk_Model m) ++
  str "name" (models.Disk_Name m) ++
  str "path" (models.Disk_Path m) ++
  str "serial" (models.Disk_Serial m) ++
  int "size_bytes" (models.Disk_SizeBytes m) ++
  str "smart" (models.Disk_Smart m) ++
  str "vendor" (models.Disk_Vendor m) ++
  str "wwn" (models.Disk_Wwn m)).

Definition encode_Gpu (m : models.Gpu) : json := JObj (
  str "address" (models.Gpu_Address m) ++
  str "device_id" (models.Gpu_DeviceID m) ++
  str "name" (models.Gpu_Name m) ++
  str "vendor" (models.Gpu_Vendor m) ++
  str "vendor_id" (models.Gpu_VendorID m)).

Definition encode_Interface (m : models.Interface) : json := JObj (
  str "biosdevname" (models.Interface_Biosdevname m) ++
  str "client_id" (models.Interface_ClientID m) ++
  slice "flags" JStr (models.Interface_Flags m) ++
  boolean "has_carrier" (models.Interface_HasCarrier m) ++
  slice "ipv4_addresses" JStr (models.Interface_IPV4Addresses m) ++
  slice "ipv6_addresses" JStr (models.Interface_IPV6Addresses m) ++
  str "mac_address" (models.Interface_MacAddress m) ++
  int "mtu" (models.Interface_Mtu m) ++
  str "name" (models.Interface_Name m) ++
  str "product" (models.Interface_Product m) ++
  int "speed_mbps" (models.Interface_SpeedMbps m) ++
  str "vendor" (models.Interface_Vendor m)).

Definition encode_Memory (m : models.Memory) : json := JObj (
  int "physical_bytes" (models.Memory_PhysicalBytes m) ++
  int "usable_bytes" (models.Memory_UsableBytes m)).

Definition encode_SystemVendor (m : models.SystemVendor) : json := JObj (
  str "manufacturer" (models.SystemVendor_Manufacturer m) ++
  str "product_name" (models.SystemVendor_ProductName m) ++
  str "serial_number" (models.SystemVendor_SerialNumber m) ++
  boolean "virtual" (models.SystemVendor_Virtual m)).

Definition encode_HardwareInfo (m : models.HardwareInfo) : json := JObj (
  pointer "boot" encode_Boot (models.HardwareInfo_Boot m) ++
  pointer "cpu" encode_CPU (models.HardwareInfo_CPU m) ++
  slice "disks" (nullable encode_Disk) (models.HardwareInfo_Disks m) ++
  slice "gpus" (nullable encode_Gpu) (models.HardwareInfo_Gpus m) ++
  str "hostname" (models.HardwareInfo_Hostname m) ++
  slice "interfaces" (nullable encode_Interface) (models.HardwareInfo_Interfaces m) ++
  pointer "memory" encode_Memory (models.HardwareInfo_Memory m) ++
  pointer "system_vendor" encode_SystemVendor (models.HardwareInfo_SystemVendor m)).

Definition encode_EventInfo (m : models.EventInfo) : json := JObj (
  str "message" (models.EventInfo_Message m) ++
  str "reason" (models.EventInfo_Reason m) ++
  str "type" (models.EventInfo_Type m)).

Definition encode_UpgradeStatus (m : models.UpgradeStatus) : json := JObj (
  str "current_commit_ID" (models.UpgradeStatus_CurrentCommitID m) ++
  str "last_upgrade_status" (models.UpgradeStatus_LastUpgradeStatus m) ++
  str "last_upgrade_time" (models.UpgradeStatus_LastUpgradeTime m)).

Definition encode_WorkloadStatus (m : models.WorkloadStatus) : json := JObj (
  time "last_data_upload" (models.WorkloadStatus_LastDataUpload m) ++
  str "name" (models.WorkloadStatus_Name m) ++
  str "status" (models.WorkloadStatus_Status m)).

Definition encode_Heartbeat (m : models.Heartbeat) : json := JObj (
  slice "events" (nullable encode_EventInfo) (models.Heartbeat_Events m) ++
  pointer "hardware" encode_HardwareInfo (models.Heartbeat_Hardware m) ++
  str "status" (models.Heartbeat_Status m) ++
  pointer "upgrade" encode_UpgradeStatus (models.Heartbeat_Upgrade m) ++
  str "version" (models.Heartbeat_Version m) ++
  slice "workloads" (nullable encode_WorkloadStatus) (models.Heartbeat_Workloads m)).

Definition encode_RegistrationInfo (m : models.RegistrationInfo) : json := JObj (
  str "certificate_request" (models.RegistrationInfo_CertificateRequest m) ++
  pointer "hardware" encode_HardwareInfo (models.RegistrationInfo_Hardware m)).

Definition encode_RegistrationResponse (m : models.RegistrationResponse) : json := JObj (
  str "certificate" (models.RegistrationResponse_Certificate m)).

Definition encode_DataPath (m : models.DataPath) : json := JObj (
  str "source" (models.DataPath_Source m) ++
  str "target" (models.DataPath_Target m)).

Definition encode_DataConfiguration (m : models.DataConfiguration) : json := JObj (
  slice "paths" encode_DataPath (models.DataConfiguration_Paths m)).

Definition encode_HardwareProfileConfiguration (m : models.HardwareProfileConfiguration) : json := JObj (
  boolean "include" (models.HardwareProfileConfiguration_Include m) ++
  str "scope" (models.HardwareProfileConfiguration_Scope m)).

Definition encode_HeartbeatConfiguration (m : models.HeartbeatConfiguration) : json := JObj (
  pointer "hardware_profile" encode_HardwareProfileConfiguration (models.HeartbeatConfiguration_HardwareProfile m) ++
  int "period_seconds" (models.HeartbeatConfiguration_PeriodSeconds m)).

Definition encode_ImageRegistries (m : models.ImageRegistries) : json := JObj (
  str "authFile" (models.ImageRegistries_AuthFile m)).

Definition encode_LogsCollectionInformationSyslogConfig (m : models.LogsCollectionInformationSyslogConfig) : json := JObj (
  str "address" (models.SyslogConfig_Address m) ++
  str "protocol" (models.SyslogConfig_Protocol m)).

Definition encode_LogsCollectionInformation (m : models.LogsCollectionInformation) : json := JObj (
  int "buffer_size" (models.LogsCollectionInformation_BufferSize m) ++
  str "kind" (models.LogsCollectionInformation_Kind m) ++
  pointer "syslog_config" encode_LogsCollectionInformationSyslogConfig (models.LogsCollectionInformation_SyslogConfig m)).

Definition encode_MetricsAllowList (m : models.MetricsAllowList) : json := JObj (
  slice "names" JStr (models.MetricsAllowList_Names m)).

Definition encode_ContainerMetrics (m : models.ContainerMetrics) : json := JObj (
  boolean "disabled" (models.ContainerMetrics_Disabled m) ++
  str "path" (models.ContainerMetrics_Path m) ++
  int "port" (models.ContainerMetrics_Port m)).

Definition encode_Metrics (m : models.Metrics) : json := JObj (
  pointer "allow_list" encode_MetricsAllowList (models.Metrics_AllowList m) ++
  dict "containers" encode_ContainerMetrics (models.Metrics_Containers m) ++
  int "interval" (models.Metrics_Interval m) ++
  str "path" (models.Metrics_Path m) ++
  int "port" (models.Metrics_Port m)).

Definition encode_MetricsRetention (m : models.MetricsRetention) : json := JObj (
  int "max_hours" (models.MetricsRetention_MaxHours m) ++
  int "max_mib" (models.MetricsRetention_MaxMib m)).

Definition encode_SystemMetricsConfiguration (m : models.SystemMetricsConfiguration) : json := JObj (
  pointer "allow_list" encode_MetricsAllowList (models.SystemMetricsConfiguration_AllowList m) ++
  boolean "disabled" (models.SystemMetricsConfiguration_Disabled m) ++
  int "interval" (models.SystemMetricsConfiguration_Interval m)).

Definition encode_MetricsConfiguration (m : models.MetricsConfiguration) : json := JObj (
  pointer "retention" encode_MetricsRetention (models.MetricsConfiguration_Retention m) ++
  pointer "system" encode_SystemMetricsConfiguration (models.MetricsConfiguration_System m)).

Definition encode_OsInformation (m : models.OsInformation) : json := JObj (
  boolean "automatically_upgrade" (models.OsInformation_AutomaticallyUpgrade m) ++
  str "commit_id" (models.OsInformation_CommitID m) ++
  str "hosted_objects_url" (models.OsInformation_HostedObjectsURL m)).

Definition encode_S3StorageConfiguration (m : models.S3StorageConfiguration) : json := JObj (
  str "aws_access_key_id" (models.S3_AwsAccessKeyID m) ++
  str "aws_ca_bundle" (models.S3_AwsCaBundle m) ++
  str "aws_secret_access_key" (models.S3_AwsSecretAccessKey m) ++
  str "bucket_host" (models.S3_BucketHost m) ++
  str "bucket_name" (models.S3_BucketName m) ++
  int "bucket_port" (models.S3_BucketPort m) ++
  str "bucket_region" (models.S3_BucketRegion m)).

Definition encode_StorageConfiguration (m : models.StorageConfiguration) : json := JObj (
  pointer "s3" encode_S3StorageConfiguration (models.StorageConfiguration_S3 m)).

Definition encode_DeviceConfiguration (m : models.DeviceConfiguration) : json := JObj (
  pointer "heartbeat" encode_HeartbeatConfiguration (models.DeviceConfiguration_Heartbeat m) ++
  dict "log-collection" encode_LogsCollectionInformation (models.DeviceConfiguration_LogCollection m) ++
  pointer "metrics" encode_MetricsConfiguration (models.DeviceConfiguration_Metrics m) ++
  pointer "os" encode_OsInformation (models.DeviceConfiguration_Os m) ++
  pointer "storage" encode_StorageConfiguration (models.DeviceConfiguration_Storage m)).

Definition encode_Secret (m : models.Secret) : json := JObj (
  str "data" (models.Secret_Data m) ++
  str "name" (models.Secret_Name m)).

Definition encode_Workload (m : models.Workload) : json := JObj (
  items "configmaps" JStr (models.Workload_Configmaps m) ++
  pointer "data" encode_DataConfiguration (models.Workload_Data m) ++
  pointer "imageRegistries" encode_ImageRegistries (models.Workload_ImageRegistries m) ++
  str "log_collection" (models.Workload_LogCollection m) ++
  pointer "metrics" encode_Metrics (models.Workload_Metrics m) ++
  str "name" (models.Workload_Name m) ++
  str "specification" (models.Workload_Specification m)).

Definition encode_DeviceConfigurationMessage (m : models.DeviceConfigurationMessage) : json := JObj (
  [("configuration", encode_DeviceConfiguration (models.DeviceConfigurationMessage_Configuration m))] ++
  str "device_id" (models.DeviceConfigurationMessage_DeviceID m) ++
  items "secrets" encode_Secret (models.DeviceConfigurationMessage_Secrets m) ++
  str "version" (models.DeviceConfigurationMessage_Version m) ++
  items "workloads" encode_Workload (models.DeviceConfigurationMessage_Workloads m) ++
  int "workloads_monitoring_interval" (models.DeviceConfigurationMessage_WorkloadsMonitoringInterval m)).

Definition encode_Content (c : models.Content) : list (string * json) :=
  match c with
  | models.RawContent text => pointer "content" id (raw_content text)
  | models.CommandContent command arguments =>
      (* a command without arguments has none, and not an empty map *)
      [("content", JObj [("command", JStr command);
         ("arguments", match map_to_list arguments with
                       | [] => JNull
                       | l => JObj ((λ p, (p.1, JStr p.2)) <$> l)
                       end)])]
  | models.ConfigurationContent dc => [("content", encode_DeviceConfigurationMessage dc)]
  end%string.

(** [Metadata] and [ResponseTo] are never set. *)
Definition encode_Message (m : models.Message) : json := JObj (
  encode_Content (models.Message_Content m) ++
  str "directive" (models.Message_Directive m) ++
  str "message_id" (models.Message_MessageID m) ++
  time "sent" (models.Message_Sent m) ++
  str "type" (models.Message_Type m) ++
  int "version" (models.Message_Version m)).

Definition encode_MessageResponse (m : models.MessageResponse) : json := JObj (
  pointer "content" encode_RegistrationResponse (models.MessageResponse_Content m) ++
  str "directive" (models.MessageResponse_Directive m) ++
  str "message_id" (models.MessageResponse_MessageID m)).


#[local] Arguments encode_Boot : simpl never.
#[local] Arguments encode_CPU : simpl never.
#[local] Arguments encode_IoPerf : simpl never.
#[local] Arguments encode_Disk : simpl never.
#[local] Arguments encode_Gpu : simpl never.
#[local] Arguments encode_Interface : simpl never.
#[local] Arguments encode_Memory : simpl never.
#[local] Arguments encode_SystemVendor : simpl never.
#[local] Arguments encode_HardwareInfo : simpl never.
#[local] Arguments encode_EventInfo : simpl never.
#[local] Arguments encode_UpgradeStatus : simpl never.
#[local] Arguments encode_WorkloadStatus : simpl never.
#[local] Arguments encode_Heartbeat : simpl never.
#[local] Arguments encode_RegistrationInfo : simpl never.
#[local] Arguments encode_RegistrationResponse : simpl never.
#[local] Arguments encode_DataPath : simpl never.
#[local] Arguments encode_DataConfiguration : simpl never.
#[local] Arguments encode_HardwareProfileConfiguration : simpl never.
#[local] Arguments encode_HeartbeatConfiguration : simpl never.
#[local] Arguments encode_ImageRegistries : simpl never.
#[local] Arguments encode_LogsCollectionInformationSyslogConfig : simpl never.
#[local] Arguments encode_LogsCollectionInformation : simpl never.
#[local] Arguments encode_MetricsAllowList : simpl never.
#[local] Arguments encode_ContainerMetrics : simpl never.
#[local] Arguments encode_Metrics : simpl never.
#[local] Arguments encode_MetricsRetention : simpl never.
#[local] Arguments encode_SystemMetricsConfiguration : simpl never.
#[local] Arguments encode_MetricsConfiguration : simpl never.
#[local] Arguments encode_OsInformation : simpl never.
#[local] Arguments encode_S3StorageConfiguration : simpl never.
#[local] Arguments encode_StorageConfiguration : simpl never.
#[local] Arguments encode_DeviceConfiguration : simpl never.
#[local] Arguments encode_Secret : simpl never.
#[local] Arguments encode_Workload : simpl never.
#[local] Arguments encode_DeviceConfigurationMessage : simpl never.
#[local] Arguments encode_Message : simpl never.
#[local] Arguments encode_MessageResponse : simpl never.

(** ** Theorems *)
Abbreviation accepted := (accepts definitions is_date_time).
Abbreviation flat_accepted := (accepts flat_definitions is_date_time).

(** *** Fields, one by one *)
Section fields.
Context (defs props : list (string * schema)) (additional : option schema).
Abbreviation ok := (field_ok defs is_date_time props additional).

Lemma ok_str k s : forallb ok (str k s) = String.eqb s "" || ok (k, JStr s).
Proof. unfold str. destruct (String.eqb s ""); [done|]. by rewrite <- andb_true_r. Qed.
Lemma ok_int k n : forallb ok (int k n) = (n =? 0)%Z || ok (k, JInt n).
Proof. unfold int. destruct (n =? 0)%Z; [done|]. by rewrite <- andb_true_r. Qed.
Lemma ok_boolean k b : forallb ok (boolean k b) = negb b || ok (k, JBool true).
Proof. unfold boolean. destruct b; [|done]. by rewrite <- andb_true_r. Qed.
Lemma ok_number k f : forallb ok (number k f) = match f with S754_zero _ => true | f => ok (k, number_literal f) end.
Proof. destruct f; [done|..]; apply andb_true_r. Qed.
Lemma ok_time k t : forallb ok (time k t) = ok (k, JStr (show_time t)).
Proof. apply andb_true_r. Qed.
Lemma ok_pointer {A} k (e : A → json) p :
  forallb ok (pointer k e p) = match p with None => true | Some a => ok (k, e a) end.
Proof. destruct p; [|done]. apply andb_true_r. Qed.
Lemma ok_items {A} k (e : A → json) l :
  forallb ok (items k e l) = match l with [] => true | l => ok (k, JArr (e <$> l)) end.
Proof. destruct l; [done|]. apply andb_true_r. Qed.
Lemma ok_slice {A} k (e : A → json) l :
  forallb ok (slice k e l) = match l with [] => ok (k, empty_slice) | l => ok (k, JArr (e <$> l)) end.
Proof. destruct l; apply andb_true_r. Qed.
Lemma ok_dict {A} k (e : A → json) m :
  forallb ok (dict k e m) =
  match map_to_list (default ∅ m) with [] => true | l => ok (k, JObj ((λ p, (p.1, e p.2)) <$> l)) end.
Proof. unfold dict. destruct (map_to_list _); [done|]. apply andb_true_r. Qed.
End fields.

Create Rewrite HintDb wire.
Create Rewrite HintDb valid.
#[local] Hint Rewrite @forallb_app @ok_str @ok_int @ok_boolean @ok_number @ok_time @ok_pointer @ok_items @ok_slice @ok_dict : wire.

(** Look a field up and check a value of a simple type. *)
Ltac check_fields :=
  autorewrite with wire; unfold field_ok; cbn; rewrite ?orb_true_r, ?andb_true_r; cbn.
Ltac object_fields := erewrite accepts_object by reflexivity; check_fields.

(** *** What has nothing to check *)
Lemma accepts_Boot m : accepted (encode_Boot m) (SRef "boot") = true.
Proof. unfold encode_Boot. object_fields. done. Qed.
Lemma accepts_IoPerf m : accepted (encode_IoPerf m) (SRef "io_perf") = true.
Proof. unfold encode_IoPerf. object_fields. done. Qed.
Lemma accepts_Gpu m : accepted (encode_Gpu m) (SRef "gpu") = true.
Proof. unfold encode_Gpu. object_fields. done. Qed.
Lemma accepts_Memory m : accepted (encode_Memory m) (SRef "memory") = true.
Proof. unfold encode_Memory. object_fields. done. Qed.
Lemma accepts_SystemVendor m : accepted (encode_SystemVendor m) (SRef "system_vendor") = true.
Proof. unfold encode_SystemVendor. object_fields. done. Qed.
Lemma accepts_RegistrationResponse m : accepted (encode_RegistrationResponse m) (SRef "registration-response") = true.
Proof. unfold encode_RegistrationResponse. object_fields. done. Qed.
Lemma accepts_DataPath m : accepted (encode_DataPath m) (SRef "data-path") = true.
Proof. unfold encode_DataPath. object_fields. done. Qed.
Lemma accepts_ImageRegistries m : accepted (encode_ImageRegistries m) (SRef "image-registries") = true.
Proof. unfold encode_ImageRegistries. object_fields. done. Qed.
Lemma accepts_ContainerMetrics m : accepted (encode_ContainerMetrics m) (SRef "container-metrics") = true.
Proof. unfold encode_ContainerMetrics. object_fields. done. Qed.
Lemma accepts_MetricsRetention m : accepted (encode_MetricsRetention m) (SRef "metrics-retention") = true.
Proof. unfold encode_MetricsRetention. object_fields. done. Qed.
Lemma accepts_OsInformation m : accepted (encode_OsInformation m) (SRef "os-information") = true.
Proof. unfold encode_OsInformation. object_fields. done. Qed.
Lemma accepts_S3StorageConfiguration m : accepted (encode_S3StorageConfiguration m) (SRef "s3-storage-configuration") = true.
Proof. unfold encode_S3StorageConfiguration. object_fields. done. Qed.
Lemma accepts_SyslogConfig m :
  accepted (encode_LogsCollectionInformationSyslogConfig m)
    (SObject [("address", SString None false); ("protocol", SString None false)]%string None) = true.
Proof. unfold encode_LogsCollectionInformationSyslogConfig. object_fields. done. Qed.
Lemma accepts_LogsCollectionInformation m :
  accepted (encode_LogsCollectionInformation m) (SRef "logs-collection-information") = true.
Proof.
  unfold encode_LogsCollectionInformation. object_fields.
  destruct (models.LogsCollectionInformation_SyslogConfig m); [apply accepts_SyslogConfig|done].
Qed.
Lemma accepts_Secret m : accepted (encode_Secret m) (SRef "secret") = true.
Proof. unfold encode_Secret. object_fields. done. Qed.

(** *** Lists and pointers *)
Lemma forallb_fmap {A B} (f : B → bool) (g : A → B) l : forallb f (g <$> l) = forallb (λ x, f (g x)) l.
Proof. induction l as [|x l IH]; [done|]. simpl. f_equal. exact IH. Qed.
Lemma forallb_same {A} (f g : A → bool) l : (∀ x, f x = g x) → forallb f l = forallb g l.
Proof. intros H. induction l as [|x l IH]; simpl; [done|by rewrite H, IH]. Qed.
Lemma forallb_true {A} (f : A → bool) l : (∀ x, f x = true) → forallb f l = true.
Proof. intros H. induction l as [|x l IH]; simpl; [done|by rewrite H, IH]. Qed.

(** No entry of a list of pointers is nil, and the others are as [p] says. *)
Definition each {A} (p : A → bool) (l : list (option A)) : bool :=
  forallb (λ o, match o with Some a => p a | None => false end) l.

Lemma accepts_items {A} (e : A → json) s (p : A → bool) l :
  (∀ a, accepted (e a) s = p a) → forallb (λ x, accepted x s) (e <$> l) = forallb p l.
Proof. intros H. rewrite forallb_fmap. by apply forallb_same. Qed.
Lemma accepts_each {A} (e : A → json) s (p : A → bool) l :
  (∀ a, accepted (e a) s = p a) → accepted JNull s = false →
  forallb (λ x, accepted x s) (nullable e <$> l) = each p l.
Proof. intros H Hn. unfold each. apply accepts_items. intros [a|]; [apply H|exact Hn]. Qed.
Lemma accepts_strings l : forallb (λ x, accepted x (SString None false)) (JStr <$> l) = true.
Proof. rewrite forallb_fmap. by apply forallb_true. Qed.
Lemma accepts_present {A} (e : A → json) s (o : option A) :
  (∀ a, accepted (e a) s = true) → match o with Some a => accepted (e a) s | None => true end = true.
Proof. intros H. destruct o; [apply H|done]. Qed.
Lemma accepts_pointer {A} (e : A → json) s (p : A → bool) (o : option A) :
  (∀ a, accepted (e a) s = p a) →
  match o with Some a => accepted (e a) s | None => true end = match o with Some a => p a | None => true end.
Proof. intros H. by destruct o. Qed.

(** *** The checks as booleans *)
Definition valid (err : option api_error) : bool := match err with None => true | Some _ => false end.

Lemma valid_composite l : valid (CompositeValidationError l) = forallb valid l.
Proof.
  unfold CompositeValidationError. induction l as [|[e|] l IH]; simpl; [done|done|]. exact IH.
Qed.
Lemma valid_name n e : valid (ValidateName n e) = valid e.
Proof. by destruct e as [[]|]. Qed.
Lemma valid_enum n enum v : valid (check_enum n enum v) = String.eqb v "" || existsb (String.eqb v) enum.
Proof. unfold check_enum, EnumCase. destruct (String.eqb v ""); [done|]. by destruct (existsb _ _). Qed.
Lemma valid_ptr {A} n (V : A → option api_error) p :
  valid (check_ptr n V p) = match p with None => true | Some a => valid (V a) end.
Proof. destruct p; [apply valid_name|done]. Qed.
Lemma valid_items {A} n (V : A → option api_error) i l :
  valid (check_items n V i l) = forallb (λ o, match o with None => true | Some a => valid (V a) end) l.
Proof.
  revert i. induction l as [|[a|] l IH]; intros i; simpl; [done| |apply IH].
  destruct (V a) as [[]|]; simpl; [done..|apply IH].
Qed.
Lemma each_present {A} (p : A → bool) l :
  each p l = forallb (λ o, match o with None => true | Some a => p a end) l && each (λ _, true) l.
Proof. unfold each. induction l as [|[a|] l IH]; simpl; [done|rewrite IH; btauto|]. by rewrite andb_false_r. Qed.

#[local] Hint Rewrite valid_composite valid_name valid_enum @valid_ptr @valid_items : valid.

(** The registry of formats looks at the text of a time. *)
#[local] Instance wire_formats : Formats := λ t, is_date_time (show_time t).

(** The slices that are empty are not nil. *)
Section written.
Hypothesis not_nil : empty_slice = JArr [].

Lemma ok_slice_written {A} defs props additional k (e : A → json) l :
  forallb (field_ok defs is_date_time props additional) (slice k e l) =
  field_ok defs is_date_time props additional (k, JArr (e <$> l)).
Proof. rewrite ok_slice, not_nil. by destruct l. Qed.
#[local] Hint Rewrite @ok_slice_written : wire.

Lemma accepts_CPU m : accepted (encode_CPU m) (SRef "cpu") = true.
Proof.
  unfold encode_CPU. object_fields. rewrite accepts_strings.
  destruct (models.CPU_Frequency m) as [| | |b p e]; [done|by unfold number_literal; destruct (float_integer _)..].
Qed.

Lemma accepts_Disk m : accepted (encode_Disk m) (SRef "disk") = true.
Proof. unfold encode_Disk. object_fields. destruct (models.Disk_IoPerf m); [apply accepts_IoPerf|done]. Qed.
Lemma accepts_Interface m : accepted (encode_Interface m) (SRef "interface") = true.
Proof. unfold encode_Interface. object_fields. by rewrite !accepts_strings. Qed.

Definition present {A} : list (option A) → bool := each (λ _, true).

(** No disk, graphics card or interface of a report is nil. *)
Definition hardware_present (m : models.HardwareInfo) : bool :=
  present (models.HardwareInfo_Disks m) && present (models.HardwareInfo_Gpus m) && present (models.HardwareInfo_Interfaces m).

Lemma accepts_HardwareInfo m : accepted (encode_HardwareInfo m) (SRef "hardware-info") = hardware_present m.
Proof.
  unfold encode_HardwareInfo, hardware_present, present. object_fields.
  rewrite (accepts_present _ _ _ accepts_Boot), (accepts_present _ _ _ accepts_CPU).
  rewrite (accepts_present _ _ _ accepts_Memory), (accepts_present _ _ _ accepts_SystemVendor).
  rewrite (accepts_each _ _ (λ _, true) (models.HardwareInfo_Disks m) accepts_Disk eq_refl).
  rewrite (accepts_each _ _ (λ _, true) (models.HardwareInfo_Gpus m) accepts_Gpu eq_refl).
  rewrite (accepts_each _ _ (λ _, true) (models.HardwareInfo_Interfaces m) accepts_Interface eq_refl).
  btauto.
Qed.

(** *** What a device sends *)
Lemma valid_time n t : is_date_time (show_time zero_time) = true →
  valid (check_time (F := λ t, is_date_time (show_time t)) n t) = is_date_time (show_time t).
Proof.
  intros H. unfold check_time, FormatOf, date_time. destruct (Z.eqb_spec t zero_time) as [->|]; [done|].
  by destruct (is_date_time (show_time t)).
Qed.

(** The zero time is a date like any other. *)
Hypothesis zero_is_date : is_date_time (show_time zero_time) = true.
Ltac checks := repeat (autorewrite with valid; rewrite ?valid_time by done; cbn).

Lemma accepts_EventInfo m : accepted (encode_EventInfo m) (SRef "event-info") = valid (EventInfo_Validate m).
Proof.
  unfold encode_EventInfo, EventInfo_Validate, EventInfo_validateType. object_fields. checks. btauto.
Qed.

Lemma accepts_UpgradeStatus m : accepted (encode_UpgradeStatus m) (SRef "upgrade-status") = valid (UpgradeStatus_Validate m).
Proof.
  unfold encode_UpgradeStatus, UpgradeStatus_Validate, UpgradeStatus_validateLastUpgradeStatus.
  object_fields. checks. btauto.
Qed.

Lemma accepts_WorkloadStatus m :
  accepted (encode_WorkloadStatus m) (SRef "workload-status") = valid (WorkloadStatus_Validate m).
Proof.
  unfold encode_WorkloadStatus, WorkloadStatus_Validate, WorkloadStatus_validateLastDataUpload, WorkloadStatus_validateStatus.
  object_fields. checks. btauto.
Qed.

Lemma valid_HardwareInfo m : valid (HardwareInfo_Validate m) = true.
Proof. by rewrite HardwareInfo_Validate_None. Qed.

(** No event, workload or part of the hardware is nil. *)
Definition heartbeat_present (m : models.Heartbeat) : bool :=
  present (models.Heartbeat_Events m) && present (models.Heartbeat_Workloads m) &&
  match models.Heartbeat_Hardware m with Some hw => hardware_present hw | None => true end.

Lemma accepts_Heartbeat m :
  accepted (encode_Heartbeat m) (SRef "heartbeat") = valid (Heartbeat_Validate m) && heartbeat_present m.
Proof.
  unfold encode_Heartbeat, Heartbeat_Validate, Heartbeat_validateEvents, Heartbeat_validateHardware, Heartbeat_validateStatus,
    Heartbeat_validateUpgrade, Heartbeat_validateWorkloads, heartbeat_present. object_fields. checks.
  rewrite (accepts_each _ _ _ (models.Heartbeat_Events m) accepts_EventInfo eq_refl).
  rewrite (accepts_each _ _ _ (models.Heartbeat_Workloads m) accepts_WorkloadStatus eq_refl).
  rewrite (accepts_pointer _ _ _ _ accepts_HardwareInfo), (accepts_pointer _ _ _ _ accepts_UpgradeStatus).
  rewrite (each_present (λ e, valid (EventInfo_Validate e))), (each_present (λ w, valid (WorkloadStatus_Validate w))).
  unfold present. destruct (models.Heartbeat_Hardware m) as [hw|]; rewrite ?valid_HardwareInfo; btauto.
Qed.

Definition registration_present (m : models.RegistrationInfo) : bool :=
  match models.RegistrationInfo_Hardware m with Some hw => hardware_present hw | None => true end.

Lemma accepts_RegistrationInfo m :
  accepted (encode_RegistrationInfo m) (SRef "registration-info") =
  valid (RegistrationInfo_Validate m) && registration_present m.
Proof.
  unfold encode_RegistrationInfo, RegistrationInfo_Validate, RegistrationInfo_validateHardware, registration_present.
  object_fields. checks. rewrite (accepts_pointer _ _ _ _ accepts_HardwareInfo).
  destruct (models.RegistrationInfo_Hardware m) as [hw|]; rewrite ?valid_HardwareInfo; btauto.
Qed.

Lemma ok_content props additional c :
  assoc "content" props = Some SAny →
  forallb (field_ok definitions is_date_time props additional) (encode_Content c) = true.
Proof.
  intros Hp. unfold field_ok. destruct c as [t|c args|dc]; cbn; rewrite ?Hp.
  - destruct (raw_content t) as [j|]; cbn; [rewrite Hp|done]. by rewrite accepts_any.
  - done.
  - by rewrite accepts_any.
Qed.

Lemma accepts_Message m : accepted (encode_Message m) (SRef "message") = valid (Message_Validate m).
Proof.
  unfold encode_Message, Message_Validate, Message_validateSent, Message_validateType.
  erewrite accepts_object by reflexivity. rewrite forallb_app, ok_content by reflexivity. check_fields. checks. btauto.
Qed.

(** *** What the operator sends *)
Lemma accepts_ref_array {A} (e : A → json) n s l :
  assoc n definitions = Some (SArray s) → (∀ a, accepted (e a) s = true) → accepted (JArr (e <$> l)) (SRef n) = true.
Proof.
  intros Hn He. rewrite (accepts_array definitions is_date_time (e <$> l) (SRef n) s Hn), forallb_fmap. by apply forallb_true.
Qed.

Lemma accepts_MetricsAllowList m : accepted (encode_MetricsAllowList m) (SRef "metrics-allow-list") = true.
Proof. unfold encode_MetricsAllowList. object_fields. by rewrite accepts_strings. Qed.
Lemma accepts_DataConfiguration m : accepted (encode_DataConfiguration m) (SRef "data-configuration") = true.
Proof. unfold encode_DataConfiguration. object_fields. rewrite forallb_fmap. apply forallb_true, accepts_DataPath. Qed.

(** A map is an object with any names. *)
Lemma ok_map {A} (e : A → json) props add k s (m : option (gmap string A)) :
  assoc k props = Some (SObject [] (Some s)) → (∀ a, accepted (e a) s = true) →
  forallb (field_ok definitions is_date_time props add) (dict k e m) = true.
Proof.
  intros Hk He. rewrite ok_dict. destruct (map_to_list (default ∅ m)) as [|p l] eqn:E; [done|]. rewrite <- E.
  unfold field_ok. cbn [fst snd]. rewrite Hk, (accepts_object _ _ _ (SObject [] (Some s)) [] (Some s) eq_refl), forallb_fmap.
  apply forallb_true. intros x. apply He.
Qed.

Lemma accepts_Metrics m : accepted (encode_Metrics m) (SRef "metrics") = true.
Proof.
  unfold encode_Metrics. erewrite accepts_object by reflexivity.
  rewrite (forallb_app _ _ (dict _ _ _ ++ _)), (forallb_app _ (dict _ _ _) _).
  erewrite ok_map; [|reflexivity|exact accepts_ContainerMetrics]. check_fields.
  by rewrite (accepts_present _ _ _ accepts_MetricsAllowList).
Qed.

Lemma accepts_Workload m : accepted (encode_Workload m) (SRef "workload") = true.
Proof.
  unfold encode_Workload. object_fields.
  rewrite (accepts_present _ _ _ accepts_DataConfiguration), (accepts_present _ _ _ accepts_ImageRegistries),
    (accepts_present _ _ _ accepts_Metrics).
  destruct (models.Workload_Configmaps m) as [|c cs]; [done|].
  cbn. by rewrite accepts_strings.
Qed.

Lemma accepts_HardwareProfileConfiguration m :
  accepted (encode_HardwareProfileConfiguration m) (SRef "hardware-profile-configuration") =
  valid (HardwareProfileConfiguration_Validate m).
Proof.
  unfold encode_HardwareProfileConfiguration, HardwareProfileConfiguration_Validate, HardwareProfileConfiguration_validateScope.
  object_fields. checks. btauto.
Qed.

Lemma accepts_HeartbeatConfiguration m :
  accepted (encode_HeartbeatConfiguration m) (SRef "heartbeat-configuration") = valid (HeartbeatConfiguration_Validate m).
Proof.
  unfold encode_HeartbeatConfiguration, HeartbeatConfiguration_Validate, HeartbeatConfiguration_validateHardwareProfile.
  object_fields. checks. rewrite (accepts_pointer _ _ _ _ accepts_HardwareProfileConfiguration). btauto.
Qed.

Lemma accepts_SystemMetricsConfiguration m :
  accepted (encode_SystemMetricsConfiguration m) (SRef "system-metrics-configuration") = true.
Proof. unfold encode_SystemMetricsConfiguration. object_fields. apply accepts_present, accepts_MetricsAllowList. Qed.
Lemma accepts_MetricsConfiguration m : accepted (encode_MetricsConfiguration m) (SRef "metrics-configuration") = true.
Proof.
  unfold encode_MetricsConfiguration. object_fields.
  by rewrite (accepts_present _ _ _ accepts_MetricsRetention), (accepts_present _ _ _ accepts_SystemMetricsConfiguration).
Qed.
Lemma accepts_StorageConfiguration m : accepted (encode_StorageConfiguration m) (SRef "storage-configuration") = true.
Proof. unfold encode_StorageConfiguration. object_fields. apply accepts_present, accepts_S3StorageConfiguration. Qed.

Definition heartbeat_valid (m : models.DeviceConfiguration) : bool :=
  match models.DeviceConfiguration_Heartbeat m with Some hb => valid (HeartbeatConfiguration_Validate hb) | None => true end.

Lemma accepts_DeviceConfiguration m :
  accepted (encode_DeviceConfiguration m) (SRef "device-configuration") = heartbeat_valid m.
Proof.
  unfold encode_DeviceConfiguration, heartbeat_valid. erewrite accepts_object by reflexivity.
  rewrite (forallb_app _ _ (dict _ _ _ ++ _)), (forallb_app _ (dict _ _ _) _).
  erewrite ok_map; [|reflexivity|exact accepts_LogsCollectionInformation]. check_fields.
  rewrite (accepts_present _ _ _ accepts_MetricsConfiguration), (accepts_present _ _ _ accepts_OsInformation),
    (accepts_present _ _ _ accepts_StorageConfiguration), (accepts_pointer _ _ _ _ accepts_HeartbeatConfiguration).
  btauto.
Qed.

Lemma accepts_all {A} defs (e : A → json) s l :
  (∀ a, accepts defs is_date_time (e a) s = true) →
  match l with [] => true | _ :: _ => forallb (λ x, accepts defs is_date_time x s) (e <$> l) end = true.
Proof. intros H. destruct l as [|x l]; [done|]. rewrite forallb_fmap. by apply forallb_true. Qed.

Lemma accepts_DeviceConfigurationMessage m :
  accepted (encode_DeviceConfigurationMessage m) (SRef "device-configuration-message") =
  heartbeat_valid (models.DeviceConfigurationMessage_Configuration m).
Proof.
  unfold encode_DeviceConfigurationMessage. object_fields.
  rewrite accepts_DeviceConfiguration, (accepts_all _ _ _ _ accepts_Secret), (accepts_all _ _ _ _ accepts_Workload).
  btauto.
Qed.

(** The flattened copy also bounds the interval of the monitoring. *)
Definition interval_ok (m : models.DeviceConfigurationMessage) : bool :=
  (0 <=? models.DeviceConfigurationMessage_WorkloadsMonitoringInterval m)%Z.

Lemma flat_accepts_DeviceConfigurationMessage m :
  flat_accepted (encode_DeviceConfigurationMessage m) (SRef "device-configuration-message") =
  heartbeat_valid (models.DeviceConfigurationMessage_Configuration m) && interval_ok m.
Proof.
  pose proof (accepts_shared _ _ is_date_time flat_shared) as Hf.
  assert (∀ c, flat_accepted (encode_DeviceConfiguration c) (SRef "device-configuration") = heartbeat_valid c) as Hc.
  { intros c. rewrite Hf by by repeat constructor. apply accepts_DeviceConfiguration. }
  assert (∀ x, flat_accepted (encode_Secret x) (SRef "secret") = true) as Hs.
  { intros x. rewrite Hf by by repeat constructor. apply accepts_Secret. }
  assert (∀ w, flat_accepted (encode_Workload w) (SRef "workload") = true) as Hw.
  { intros w. rewrite Hf by by repeat constructor. apply accepts_Workload. }
  clear Hf. unfold encode_DeviceConfigurationMessage, interval_ok. object_fields.
  rewrite Hc, (accepts_all _ _ _ _ Hs), (accepts_all _ _ _ _ Hw). simpl. f_equal.
  set (i := models.DeviceConfigurationMessage_WorkloadsMonitoringInterval m).
  destruct (Z.eqb_spec i 0), (Z.ltb_spec 0 i), (Z.leb_spec 0 i); simpl; done || lia.
Qed.
End written.


(** *** A configuration, whole *)
Lemma heartbeat_valid_scope c :
  heartbeat_valid c = true ↔
  ∀ hb hp, models.DeviceConfiguration_Heartbeat c = Some hb → models.HeartbeatConfiguration_HardwareProfile hb = Some hp →
    one_of ["full"; "delta"]%string (models.HardwareProfileConfiguration_Scope hp).
Proof.
  assert (∀ o, valid o = true ↔ o = None) as Hv by (by intros []).
  unfold heartbeat_valid. destruct (models.DeviceConfiguration_Heartbeat c) as [hb|]; [|naive_solver].
  rewrite Hv. unfold HeartbeatConfiguration_Validate, HeartbeatConfiguration_validateHardwareProfile,
    HardwareProfileConfiguration_Validate, HardwareProfileConfiguration_validateScope.
  autorewrite with validate. setoid_rewrite CompositeValidationError_None.
  setoid_rewrite Forall_singleton. setoid_rewrite check_enum_None. naive_solver.
Qed.

(** What [Validate] refuses of a configuration and the schema does not: entries of
    maps with nothing set. *)
Lemma DeviceConfigurationMessage_valid_iff m :
  is_date_time (show_time zero_time) = true → empty_slice = JArr [] →
  DeviceConfigurationMessage_valid m ↔
  flat_accepted (encode_DeviceConfigurationMessage m) (SRef "device-configuration-message") = true ∧
  (∀ logs k l,
    models.DeviceConfiguration_LogCollection (models.DeviceConfigurationMessage_Configuration m) = Some logs →
    logs !! k = Some l → l ≠ models.mkLogsCollectionInformation 0 "" None) ∧
  (∀ w, w ∈ models.DeviceConfigurationMessage_Workloads m → Workload_valid w).
Proof.
  intros Hz He. rewrite flat_accepts_DeviceConfigurationMessage, andb_true_iff, heartbeat_valid_scope by done.
  unfold interval_ok. rewrite Z.leb_le. split; [by intros []|]. intros ([] & ? & ?). by constructor.
Qed.

Context {R : EdgeDeviceRepository} {L : EdgeDeviceRepositoryLaws R}.
Context {DR : EdgeDeploymentRepository} {DL : EdgeDeploymentRepositoryLaws DR}.
Context {AL : AllowListGenerator} {RA : RegistryAuthAPI} {CM : ConfigMapAPI} {TLS : CSRSigner}.
Context {LL : LookupLaws AL RA CM TLS} (initialNamespace : string).

(** C20: The operator keeps to its own schema. The configuration that a device
    fetches is, as JSON, one that the embedded document and its flattened copy
    accept, if the hardware scope of the device that was read is one of those
    documented and no slice is nil (that of an allow list without names may be),
    and the message around it is accepted exactly when the time of the clock is
    written as a date. If moreover neither the device nor the deployments that
    were read have an entry of a map with nothing set, the configuration passes
    [DeviceConfigurationMessage.Validate] too, in whatever order this ranges
    over maps. *)
Theorem configuration_conforms deviceID :
  is_date_time (show_time zero_time) = true → empty_slice = JArr [] →
  wp (GetDataMessageForDevice initialNamespace deviceID) (λ tr out, ∀ m, out = Returned (OK (Some m)) →
    (∀ d, Ev (S := api) (GetEdgeDevice initialNamespace deviceID) (Ok d) ∈ tr → scope_documented d) →
    accepted (encode_Message m) (SRef "message") = is_date_time (show_time (models.Message_Sent m)) ∧
    ∃ dc, models.Message_Content m = models.ConfigurationContent dc ∧
      accepted (encode_DeviceConfigurationMessage dc) (SRef "device-configuration-message") = true ∧
      flat_accepted (encode_DeviceConfigurationMessage dc) (SRef "device-configuration-message") = true ∧
      ((∀ d, Ev (S := api) (GetEdgeDevice initialNamespace deviceID) (Ok d) ∈ tr → device_in_schema d) →
       (∀ ns n dep, Ev (S := api) (GetEdgeDeployment ns n) (Ok dep) ∈ tr → deployment_in_schema dep) →
       wp (DeviceConfigurationMessage_Validate dc) (λ tr' out', tr' = [] ∧ out' = Returned None))).
Proof.
  intros Hz He. eapply wp_mono; [apply GetData_configured|]. intros tr out H m Hout Hs.
  destruct (H m Hout) as (d & dc & Hd & Hc).
  assert (heartbeat_valid (models.DeviceConfigurationMessage_Configuration dc) = true) as Hv.
  { apply heartbeat_valid_scope. intros hb hp. rewrite (configured_heartbeat _ _ _ _ Hc). intros [= <-].
    apply heartbeat_configuration_scope, Hs, Hd. }
  split.
  { rewrite accepts_Message by done. unfold Message_Validate, Message_validateSent, Message_validateType.
    rewrite (configured_type _ _ _ _ Hc). autorewrite with valid. cbn. rewrite valid_time by done. btauto. }
  exists dc. split_and!; [apply Hc| | |].
  - by rewrite accepts_DeviceConfigurationMessage.
  - rewrite flat_accepts_DeviceConfigurationMessage, Hv by done. apply Z.leb_le, Hc.
  - intros Hd' Hdep. by apply (configured_accepted d tr m); [done|apply Hd'|].
Qed.
End wire.
