(* ===== verification/Agent.v ===== *)
(** * The messages that a device reads

    The message types of [Models] are those that the operator makes; some of its
    pointers are never nil there. A device that reads a message can meet [null] in
    these places, so what it reads has types of its own here: the configuration
    message with its workloads, and the response to a registration. [received_]
    takes a message of the operator to what a device should find, and the
    [write_] functions are the JSON of these types, the same as in [Wire]. *)
From S2P Require Import Prelude K8s Models EmbeddedSpec Wire.

Module agent.
Record DataConfiguration := mkDataConfiguration { DataConfiguration_Paths : list (option models.DataPath) }.

Record Workload := mkWorkload {
  Workload_Configmaps : list string;
  Workload_Data : option DataConfiguration;
  Workload_ImageRegistries : option models.ImageRegistries;
  Workload_LogCollection : string;
  Workload_Metrics : option models.Metrics;
  Workload_Name : string;
  Workload_Specification : string;
}.

Record DeviceConfigurationMessage := mkDeviceConfigurationMessage {
  DeviceConfigurationMessage_Configuration : option models.DeviceConfiguration;
  DeviceConfigurationMessage_DeviceID : string;
  DeviceConfigurationMessage_Secrets : list (option models.Secret);
  DeviceConfigurationMessage_Version : string;
  DeviceConfigurationMessage_Workloads : list (option Workload);
  DeviceConfigurationMessage_WorkloadsMonitoringInterval : Z;
}.

(** The content is an [interface{}], that is a document. *)
Record MessageResponse := mkMessageResponse {
  MessageResponse_Content : models.Content;
  MessageResponse_Directive : string;
  MessageResponse_MessageID : string;
}.
End agent.

(** ** What the operator sends, as these types *)
Definition received_DataConfiguration (m : models.DataConfiguration) : agent.DataConfiguration :=
  agent.mkDataConfiguration (Some <$> models.DataConfiguration_Paths m).
Definition received_Workload (m : models.Workload) : agent.Workload :=
  agent.mkWorkload (models.Workload_Configmaps m) (received_DataConfiguration <$> models.Workload_Data m)
    (models.Workload_ImageRegistries m) (models.Workload_LogCollection m) (models.Workload_Metrics m)
    (models.Workload_Name m) (models.Workload_Specification m).
Definition received_DeviceConfigurationMessage (m : models.DeviceConfigurationMessage) : agent.DeviceConfigurationMessage :=
  agent.mkDeviceConfigurationMessage (Some (models.DeviceConfigurationMessage_Configuration m))
    (models.DeviceConfigurationMessage_DeviceID m) (Some <$> models.DeviceConfigurationMessage_Secrets m)
    (models.DeviceConfigurationMessage_Version m) (Some ∘ received_Workload <$> models.DeviceConfigurationMessage_Workloads m)
    (models.DeviceConfigurationMessage_WorkloadsMonitoringInterval m).

(** ** Their JSON *)
Section write.
Context (empty_slice : json).

Definition write_DataConfiguration (m : agent.DataConfiguration) : json := JObj (
  slice empty_slice "paths" (nullable encode_DataPath) (agent.DataConfiguration_Paths m)).

Definition write_Workload (m : agent.Workload) : json := JObj (
  items "configmaps" JStr (agent.Workload_Configmaps m) ++
  pointer "data" write_DataConfiguration (agent.Workload_Data m) ++
  pointer "imageRegistries" encode_ImageRegistries (agent.Workload_ImageRegistries m) ++
  str "log_collection" (agent.Workload_LogCollection m) ++
  pointer "metrics" (encode_Metrics empty_slice) (agent.Workload_Metrics m) ++
  str "name" (agent.Workload_Name m) ++
  str "specification" (agent.Workload_Specification m)).

Definition write_DeviceConfigurationMessage (m : agent.DeviceConfigurationMessage) : json := JObj (
  pointer "configuration" (encode_DeviceConfiguration empty_slice) (agent.DeviceConfigurationMessage_Configuration m) ++
  str "device_id" (agent.DeviceConfigurationMessage_DeviceID m) ++
  items "secrets" (nullable encode_Secret) (agent.DeviceConfigurationMessage_Secrets m) ++
  str "version" (agent.DeviceConfigurationMessage_Version m) ++
  items "workloads" (nullable write_Workload) (agent.DeviceConfigurationMessage_Workloads m) ++
  int "workloads_monitoring_interval" (agent.DeviceConfigurationMessage_WorkloadsMonitoringInterval m)).

(** ** They agree *)
Lemma slice_fmap {A B} name (e : B → json) (e' : A → json) (f : A → B) l :
  (∀ a, e (f a) = e' a) → slice empty_slice name e (f <$> l) = slice empty_slice name e' l.
Proof.
  intros H. unfold slice. destruct l as [|a l]; [done|]. rewrite !fmap_cons, <- list_fmap_compose, H.
  by erewrite list_fmap_ext by (intros; apply H).
Qed.
Lemma items_fmap {A B} name (e : B → json) (e' : A → json) (f : A → B) l :
  (∀ a, e (f a) = e' a) → items name e (f <$> l) = items name e' l.
Proof.
  intros H. unfold items. destruct l as [|a l]; [done|]. rewrite !fmap_cons, <- list_fmap_compose, H.
  by erewrite list_fmap_ext by (intros; apply H).
Qed.
Lemma pointer_fmap {A B} name (e : B → json) (e' : A → json) (f : A → B) p :
  (∀ a, e (f a) = e' a) → pointer name e (f <$> p) = pointer name e' p.
Proof. intros H. destruct p as [a|]; [|done]. simpl. by rewrite H. Qed.

Lemma write_received_DataConfiguration m :
  write_DataConfiguration (received_DataConfiguration m) = encode_DataConfiguration empty_slice m.
Proof. unfold write_DataConfiguration, encode_DataConfiguration. simpl. by erewrite slice_fmap. Qed.
Lemma write_received_Workload m : write_Workload (received_Workload m) = encode_Workload empty_slice m.
Proof.
  unfold write_Workload, encode_Workload. simpl. by erewrite pointer_fmap by apply write_received_DataConfiguration.
Qed.
Lemma write_received_DeviceConfigurationMessage m :
  write_DeviceConfigurationMessage (received_DeviceConfigurationMessage m) = encode_DeviceConfigurationMessage empty_slice m.
Proof.
  unfold write_DeviceConfigurationMessage, encode_DeviceConfigurationMessage. simpl. erewrite (items_fmap "secrets") by done.
  by erewrite (items_fmap "workloads") by apply write_received_Workload.
Qed.
End write.
