(* ===== verification/Decode.v ===== *)
(** * Reading messages ([models], from JSON)

    How [encoding/json] reads a document into the structures of [models], by the
    tags of their fields. A name of an object means the field whose tag it is up
    to the case of letters; other names are skipped. A value is read into what
    the field already holds: [null] leaves a string or a number as it is and
    empties a pointer, a list or a map, an object changes the fields it has. A
    value of the wrong type, or a number that does not fit, is an error. *)
From S2P Require Import Prelude Effects K8s Models Validation EmbeddedSpec Schema Floats Wire Agent.
From Stdlib Require Import SpecFloat Ascii.
#[local] Set Warnings "-register-all".

#[export] Instance result_mbind : MBind result := λ A B f r, match r with Ok a => f a | Err e => Err e end.

(** ** Names *)

Definition is_byte (c : ascii) (n : N) : bool := (N_of_ascii c =? n)%N.
Definition lower (c : ascii) : ascii :=
  let n := N_of_ascii c in if (65 <=? n)%N && (n <=? 90)%N then ascii_of_N (n + 32) else c.

(** Letters in lower case; the long s and the sign of the Kelvin, which fold to
    ASCII letters, are the bytes C5 BF and E2 84 AA. *)
Fixpoint fold_name (s : string) : string :=
  match s with
  | EmptyString => EmptyString
  | String a s1 =>
      match s1 with
      | EmptyString => String (lower a) EmptyString
      | String b s2 =>
          if is_byte a 197 && is_byte b 191 then String "s" (fold_name s2)
          else match s2 with
               | EmptyString => String (lower a) (fold_name s1)
               | String c s3 =>
                   if is_byte a 226 && is_byte b 132 && is_byte c 170 then String "k" (fold_name s3)
                   else String (lower a) (fold_name s1)
               end
      end
  end.

Definition matches (tag name : string) : bool := String.eqb (fold_name tag) (fold_name name).

(** ** Values *)
Definition decoder (A : Type) : Type := A → json → result A.
Definition type_error : error := ErrorString "json: cannot unmarshal".

Definition in_width (w : Z) (n : Z) : bool := (- 2 ^ (w - 1) <=? n)%Z && (n <? 2 ^ (w - 1))%Z.

Definition decode_string : decoder string := λ cur j,
  match j with JNull => Ok cur | JStr s => Ok s | _ => Err type_error end.
Definition decode_bool : decoder bool := λ cur j,
  match j with JNull => Ok cur | JBool b => Ok b | _ => Err type_error end.
(** A literal with a fraction or an exponent is no integer. *)
Definition decode_int (w : Z) : decoder Z := λ cur j,
  match j with JNull => Ok cur | JInt n => if in_width w n then Ok n else Err type_error | _ => Err type_error end.
Definition decode_float : decoder spec_float := λ cur j,
  match j with
  | JNull => Ok cur
  | JInt n => let f := float_of_integer n in if finite f then Ok f else Err type_error
  | JNum f => Ok f
  | _ => Err type_error
  end.
Definition decode_pointer {A} (dec : decoder A) (zero : A) : decoder (option A) := λ cur j,
  match j with JNull => Ok None | j => Some <$> dec (default zero cur) j end.

(** An element is read into the element that was there. *)
Fixpoint decode_elements {A} (dec : decoder A) (zero : A) (cur : list A) (l : list json) : result (list A) :=
  match l with
  | [] => Ok []
  | j :: l =>
      a ← dec (default zero (head cur)) j;
      rest ← decode_elements dec zero (tail cur) l;
      Ok (a :: rest)
  end.
Definition decode_slice {A} (dec : decoder A) (zero : A) : decoder (list A) := λ cur j,
  match j with JNull => Ok [] | JArr l => decode_elements dec zero cur l | _ => Err type_error end.

Fixpoint decode_entries {A} (dec : decoder A) (zero : A) (cur : gmap string A) (fs : list (string * json))
    : result (gmap string A) :=
  match fs with
  | [] => Ok cur
  | (k, j) :: fs => a ← dec zero j; decode_entries dec zero (<[k := a]> cur) fs
  end.
Definition decode_map {A} (dec : decoder A) (zero : A) : decoder (option (gmap string A)) := λ cur j,
  match j with
  | JNull => Ok None
  | JObj fs => Some <$> decode_entries dec zero (default ∅ cur) fs
  | _ => Err type_error
  end.

(** The values an object has for a field, read one after the other. *)
Definition values (tag : string) (fs : list (string * json)) : list json :=
  (filter (λ p, matches tag p.1 = true) fs).*2.
Fixpoint read {A} (dec : decoder A) (cur : A) (vs : list json) : result A :=
  match vs with [] => Ok cur | v :: vs => a ← dec cur v; read dec a vs end.
Definition field {A} (fs : list (string * json)) (tag : string) (dec : decoder A) (cur : A) : result A :=
  read dec cur (values tag fs).
Definition object {A} (cur : A) (j : json) (f : list (string * json) → result A) : result A :=
  match j with JNull => Ok cur | JObj fs => f fs | _ => Err type_error end.

(** *** Documents of no type

    A value read into an [interface{}] and written again: of several fields of one
    name the last is left, and the numbers have become floats, unless the decoder
    was told to keep their literals ([UseNumber]). *)
#[export] Instance result_mret : MRet result := λ A a, Ok a.

Definition untyped_number (f : spec_float) : result json := if finite f then Ok (number_literal f) else Err type_error.

Fixpoint keep_last (fs : list (string * json)) : list (string * json) :=
  match fs with
  | [] => []
  | p :: fs => if existsb (λ q : string * json, String.eqb p.1 q.1) fs then keep_last fs else p :: keep_last fs
  end.

Fixpoint untyped (UseNumber : bool) (j : json) : result json :=
  match j with
  | JInt n => if UseNumber then Ok (JInt n) else untyped_number (float_of_integer n)
  | JNum f => if UseNumber then Ok (JNum f) else untyped_number f
  | JArr l => JArr <$> mapM (untyped UseNumber) l
  | JObj fs => JObj ∘ keep_last <$> mapM (λ p, v ← untyped UseNumber p.2; Ok (p.1, v)) fs
  | j => Ok j
  end.

Section decode.
(** [ParseDateTime], how the model keeps a document, and how the decoder was set. *)
Context (parse_time : string → result Timestamp) (raw_text : json → string) (UseNumber : bool).

Definition decode_time : decoder Timestamp := λ cur j,
  match j with JNull => Ok cur | JStr s => parse_time s | _ => Err type_error end.

(** ** The messages *)
#[local] Open Scope string_scope.
Definition zero_Boot : models.Boot := models.mkBoot "" "".
Definition zero_CPU : models.CPU := models.mkCPU "" 0 [] (S754_zero false) "".
Definition zero_IoPerf : models.IoPerf := models.mkIoPerf 0.
Definition zero_Disk : models.Disk := models.mkDisk false "" "" "" "" "" None false "" "" "" "" 0 "" "" "".
Definition zero_Gpu : models.Gpu := models.mkGpu "" "" "" "" "".
Definition zero_Interface : models.Interface := models.mkInterface "" "" [] false [] [] "" 0 "" "" 0 "".
Definition zero_Memory : models.Memory := models.mkMemory 0 0.
Definition zero_SystemVendor : models.SystemVendor := models.mkSystemVendor "" "" "" false.
Definition zero_HardwareInfo : models.HardwareInfo := models.mkHardwareInfo None None [] [] "" [] None None.
Definition zero_EventInfo : models.EventInfo := models.mkEventInfo "" "" "".
Definition zero_UpgradeStatus : models.UpgradeStatus := models.mkUpgradeStatus "" "" "".
Definition zero_WorkloadStatus : models.WorkloadStatus := models.mkWorkloadStatus zero_time "" "".
Definition zero_Heartbeat : models.Heartbeat := models.mkHeartbeat [] None "" None "" [].
Definition zero_RegistrationInfo : models.RegistrationInfo := models.mkRegistrationInfo "" None.
Definition zero_RegistrationResponse : models.RegistrationResponse := models.mkRegistrationResponse "".
Definition zero_DataPath : models.DataPath := models.mkDataPath "" "".
Definition zero_HardwareProfileConfiguration : models.HardwareProfileConfiguration := models.mkHardwareProfileConfiguration false "".
Definition zero_HeartbeatConfiguration : models.HeartbeatConfiguration := models.mkHeartbeatConfiguration None 0.
Definition zero_ImageRegistries : models.ImageRegistries := models.mkImageRegistries "".
Definition zero_LogsCollectionInformationSyslogConfig : models.LogsCollectionInformationSyslogConfig := models.mkSyslogConfig "" "".
Definition zero_LogsCollectionInformation : models.LogsCollectionInformation := models.mkLogsCollectionInformation 0 "" None.
Definition zero_MetricsAllowList : models.MetricsAllowList := models.mkMetricsAllowList [].
Definition zero_ContainerMetrics : models.ContainerMetrics := models.mkContainerMetrics false "" 0.
Definition zero_Metrics : models.Metrics := models.mkMetrics None None 0 "" 0.
Definition zero_MetricsRetention : models.MetricsRetention := models.mkMetricsRetention 0 0.
Definition zero_SystemMetricsConfiguration : models.SystemMetricsConfiguration := models.mkSystemMetricsConfiguration None false 0.
Definition zero_MetricsConfiguration : models.MetricsConfiguration := models.mkMetricsConfiguration None None.
Definition zero_OsInformation : models.OsInformation := models.mkOsInformation false "" "".
Definition zero_S3StorageConfiguration : models.S3StorageConfiguration := models.mkS3StorageConfiguration "" "" "" "" "" 0 "".
Definition zero_StorageConfiguration : models.StorageConfiguration := models.mkStorageConfiguration None.
Definition zero_DeviceConfiguration : models.DeviceConfiguration := models.mkDeviceConfiguration None None None None None.
Definition zero_Secret : models.Secret := models.mkSecret "" "".

Definition nil_content : models.Content := models.RawContent "null".
Definition new_Message : models.Message := models.mkMessage nil_content "" "" zero_time "" 0.

Definition decode_Boot (m : models.Boot) (j : json) : result models.Boot := object m j (λ fs,
  current_boot_mode ← field fs "current_boot_mode" decode_string (models.Boot_CurrentBootMode m);
  pxe_interface ← field fs "pxe_interface" decode_string (models.Boot_PxeInterface m);
  Ok (models.mkBoot current_boot_mode pxe_interface)).

Definition decode_CPU (m : models.CPU) (j : json) : result models.CPU := object m j (λ fs,
  architecture ← field fs "architecture" decode_string (models.CPU_Architecture m);
  count ← field fs "count" (decode_int 64) (models.CPU_Count m);
  flags ← field fs "flags" (decode_slice decode_string "") (models.CPU_Flags m);
  frequency ← field fs "frequency" decode_float (models.CPU_Frequency m);
  model_name ← field fs "model_name" decode_string (models.CPU_ModelName m);
  Ok (models.mkCPU architecture count flags frequency model_name)).

Definition decode_IoPerf (m : models.IoPerf) (j : json) : result models.IoPerf := object m j (λ fs,
  sync_duration ← field fs "sync_duration" (decode_int 64) (models.IoPerf_SyncDuration m);
  Ok (models.mkIoPerf sync_duration)).

Definition decode_Disk (m : models.Disk) (j : json) : result models.Disk := object m j (λ fs,
  bootable ← field fs "bootable" decode_bool (models.Disk_Bootable m);
  by_id ← field fs "by_id" decode_string (models.Disk_ByID m);
  by_path ← field fs "by_path" decode_string (models.Disk_ByPath m);
  drive_type ← field fs "drive_type" decode_string (models.Disk_DriveType m);
  hctl ← field fs "hctl" decode_string (models.Disk_Hctl m);
  id ← field fs "id" decode_string (models.Disk_ID m);
  io_perf ← field fs "io_perf" (decode_pointer decode_IoPerf zero_IoPerf) (models.Disk_IoPerf m);
  is_installation_media ← field fs "is_installation_media" decode_bool (models.Disk_IsInstallationMedia m);
  model ← field fs "model" decode_string (models.Disk_Model m);
  name ← field fs "name" decode_string (models.Disk_Name m);
  path ← field fs "path" decode_string (models.Disk_Path m);
  serial ← field fs "serial" decode_string (models.Disk_Serial m);
  size_bytes ← field fs "size_bytes" (decode_int 64) (models.Disk_SizeBytes m);
  smart ← field fs "smart" decode_string (models.Disk_Smart m);
  vendor ← field fs "vendor" decode_string (models.Disk_Vendor m);
  wwn ← field fs "wwn" decode_string (models.Disk_Wwn m);
  Ok (models.mkDisk bootable by_id by_path drive_type hctl id io_perf is_installation_media model name path serial size_bytes smart vendor wwn)).

Definition decode_Gpu (m : models.Gpu) (j : json) : result models.Gpu := object m j (λ fs,
  address ← field fs "address" decode_string (models.Gpu_Address m);
  device_id ← field fs "device_id" decode_string (models.Gpu_DeviceID m);
  name ← field fs "name" decode_string (models.Gpu_Name m);
  vendor ← field fs "vendor" decode_string (models.Gpu_Vendor m);
  vendor_id ← field fs "vendor_id" decode_string (models.Gpu_VendorID m);
  Ok (models.mkGpu address device_id name vendor vendor_id)).

Definition decode_Interface (m : models.Interface) (j : json) : result models.Interface := object m j (λ fs,
  biosdevname ← field fs "biosdevname" decode_string (models.Interface_Biosdevname m);
  client_id ← field fs "client_id" decode_string (models.Interface_ClientID m);
  flags ← field fs "flags" (decode_slice decode_string "") (models.Interface_Flags m);
  has_carrier ← field fs "has_carrier" decode_bool (models.Interface_HasCarrier m);
  ipv4_addresses ← field fs "ipv4_addresses" (decode_slice decode_string "") (models.Interface_IPV4Addresses m);
  ipv6_addresses ← field fs "ipv6_addresses" (decode_slice decode_string "") (models.Interface_IPV6Addresses m);
  mac_address ← field fs "mac_address" decode_string (models.Interface_MacAddress m);
  mtu ← field fs "mtu" (decode_int 64) (models.Interface_Mtu m);
  name ← field fs "name" decode_string (models.Interface_Name m);
  product ← field fs "product" decode_string (models.Interface_Product m);
  speed_mbps ← field fs "speed_mbps" (decode_int 64) (models.Interface_SpeedMbps m);
  vendor ← field fs "vendor" decode_string (models.Interface_Vendor m);
  Ok (models.mkInterface biosdevname client_id flags has_carrier ipv4_addresses ipv6_addresses mac_address mtu name product speed_mbps vendor)).

Definition decode_Memory (m : models.Memory) (j : json) : result models.Memory := object m j (λ fs,
  physical_bytes ← field fs "physical_bytes" (decode_int 64) (models.Memory_PhysicalBytes m);
  usable_bytes ← field fs "usable_bytes" (decode_int 64) (models.Memory_UsableBytes m);
  Ok (models.mkMemory physical_bytes usable_bytes)).

Definition decode_SystemVendor (m : models.SystemVendor) (j : json) : result models.SystemVendor := object m j (λ fs,
  manufacturer ← field fs "manufacturer" decode_string (models.SystemVendor_Manufacturer m);
  product_name ← field fs "product_name" decode_string (models.SystemVendor_ProductName m);
  serial_number ← field fs "serial_number" decode_string (models.SystemVendor_SerialNumber m);
  virtual ← field fs "virtual" decode_bool (models.SystemVendor_Virtual m);
  Ok (models.mkSystemVendor manufacturer product_name serial_number virtual)).

Definition decode_HardwareInfo (m : models.HardwareInfo) (j : json) : result models.HardwareInfo := object m j (λ fs,
  boot ← field fs "boot" (decode_pointer decode_Boot zero_Boot) (models.HardwareInfo_Boot m);
  cpu ← field fs "cpu" (decode_pointer decode_CPU zero_CPU) (models.HardwareInfo_CPU m);
  disks ← field fs "disks" (decode_slice (decode_pointer decode_Disk zero_Disk) None) (models.HardwareInfo_Disks m);
  gpus ← field fs "gpus" (decode_slice (decode_pointer decode_Gpu zero_Gpu) None) (models.HardwareInfo_Gpus m);
  hostname ← field fs "hostname" decode_string (models.HardwareInfo_Hostname m);
  interfaces ← field fs "interfaces" (decode_slice (decode_pointer decode_Interface zero_Interface) None) (models.HardwareInfo_Interfaces m);
  memory ← field fs "memory" (decode_pointer decode_Memory zero_Memory) (models.HardwareInfo_Memory m);
  system_vendor ← field fs "system_vendor" (decode_pointer decode_SystemVendor zero_SystemVendor) (models.HardwareInfo_SystemVendor m);
  Ok (models.mkHardwareInfo boot cpu disks gpus hostname interfaces memory system_vendor)).

Definition decode_EventInfo (m : models.EventInfo) (j : json) : result models.EventInfo := object m j (λ fs,
  message ← field fs "message" decode_string (models.EventInfo_Message m);
  reason ← field fs "reason" decode_string (models.EventInfo_Reason m);
  type_ ← field fs "type" decode_string (models.EventInfo_Type m);
  Ok (models.mkEventInfo message reason type_)).

Definition decode_UpgradeStatus (m : models.UpgradeStatus) (j : json) : result models.UpgradeStatus := object m j (λ fs,
  current_commit_ID ← field fs "current_commit_ID" decode_string (models.UpgradeStatus_CurrentCommitID m);
  last_upgrade_status ← field fs "last_upgrade_status" decode_string (models.UpgradeStatus_LastUpgradeStatus m);
  last_upgrade_time ← field fs "last_upgrade_time" decode_string (models.UpgradeStatus_LastUpgradeTime m);
  Ok (models.mkUpgradeStatus current_commit_ID last_upgrade_status last_upgrade_time)).

Definition decode_WorkloadStatus (m : models.WorkloadStatus) (j : json) : result models.WorkloadStatus := object m j (λ fs,
  last_data_upload ← field fs "last_data_upload" decode_time (models.WorkloadStatus_LastDataUpload m);
  name ← field fs "name" decode_string (models.WorkloadStatus_Name m);
  status ← field fs "status" decode_string (models.WorkloadStatus_Status m);
  Ok (models.mkWorkloadStatus last_data_upload name status)).

Definition decode_Heartbeat (m : models.Heartbeat) (j : json) : result models.Heartbeat := object m j (λ fs,
  events ← field fs "events" (decode_slice (decode_pointer decode_EventInfo zero_EventInfo) None) (models.Heartbeat_Events m);
  hardware ← field fs "hardware" (decode_pointer decode_HardwareInfo zero_HardwareInfo) (models.Heartbeat_Hardware m);
  status ← field fs "status" decode_string (models.Heartbeat_Status m);
  upgrade ← field fs "upgrade" (decode_pointer decode_UpgradeStatus zero_UpgradeStatus) (models.Heartbeat_Upgrade m);
  version ← field fs "version" decode_string (models.Heartbeat_Version m);
  workloads ← field fs "workloads" (decode_slice (decode_pointer decode_WorkloadStatus zero_WorkloadStatus) None) (models.Heartbeat_Workloads m);
  Ok (models.mkHeartbeat events hardware status upgrade version workloads)).

Definition decode_RegistrationInfo (m : models.RegistrationInfo) (j : json) : result models.RegistrationInfo := object m j (λ fs,
  certificate_request ← field fs "certificate_request" decode_string (models.RegistrationInfo_CertificateRequest m);
  hardware ← field fs "hardware" (decode_pointer decode_HardwareInfo zero_HardwareInfo) (models.RegistrationInfo_Hardware m);
  Ok (models.mkRegistrationInfo certificate_request hardware)).

Definition decode_RegistrationResponse (m : models.RegistrationResponse) (j : json) : result models.RegistrationResponse := object m j (λ fs,
  certificate ← field fs "certificate" decode_string (models.RegistrationResponse_Certificate m);
  Ok (models.mkRegistrationResponse certificate)).

Definition decode_DataPath (m : models.DataPath) (j : json) : result models.DataPath := object m j (λ fs,
  source ← field fs "source" decode_string (models.DataPath_Source m);
  target ← field fs "target" decode_string (models.DataPath_Target m);
  Ok (models.mkDataPath source target)).

Definition decode_HardwareProfileConfiguration (m : models.HardwareProfileConfiguration) (j : json) : result models.HardwareProfileConfiguration := object m j (λ fs,
  include_ ← field fs "include" decode_bool (models.HardwareProfileConfiguration_Include m);
  scope ← field fs "scope" decode_string (models.HardwareProfileConfiguration_Scope m);
  Ok (models.mkHardwareProfileConfiguration include_ scope)).

Definition decode_HeartbeatConfiguration (m : models.HeartbeatConfiguration) (j : json) : result models.HeartbeatConfiguration := object m j (λ fs,
  hardware_profile ← field fs "hardware_profile" (decode_pointer decode_HardwareProfileConfiguration zero_HardwareProfileConfiguration) (models.HeartbeatConfiguration_HardwareProfile m);
  period_seconds ← field fs "period_seconds" (decode_int 64) (models.HeartbeatConfiguration_PeriodSeconds m);
  Ok (models.mkHeartbeatConfiguration hardware_profile period_seconds)).

Definition decode_ImageRegistries (m : models.ImageRegistries) (j : json) : result models.ImageRegistries := object m j (λ fs,
  authFile ← field fs "authFile" decode_string (models.ImageRegistries_AuthFile m);
  Ok (models.mkImageRegistries authFile)).

Definition decode_LogsCollectionInformationSyslogConfig (m : models.LogsCollectionInformationSyslogConfig) (j : json) : result models.LogsCollectionInformationSyslogConfig := object m j (λ fs,
  address ← field fs "address" decode_string (models.SyslogConfig_Address m);
  protocol ← field fs "protocol" decode_string (models.SyslogConfig_Protocol m);
  Ok (models.mkSyslogConfig address protocol)).

Definition decode_LogsCollectionInformation (m : models.LogsCollectionInformation) (j : json) : result models.LogsCollectionInformation := object m j (λ fs,
  buffer_size ← field fs "buffer_size" (decode_int 32) (models.LogsCollectionInformation_BufferSize m);
  kind ← field fs "kind" decode_string (models.LogsCollectionInformation_Kind m);
  syslog_config ← field fs "syslog_config" (decode_pointer decode_LogsCollectionInformationSyslogConfig zero_LogsCollectionInformationSyslogConfig) (models.LogsCollectionInformation_SyslogConfig m);
  Ok (models.mkLogsCollectionInformation buffer_size kind syslog_config)).

Definition decode_MetricsAllowList (m : models.MetricsAllowList) (j : json) : result models.MetricsAllowList := object m j (λ fs,
  names ← field fs "names" (decode_slice decode_string "") (models.MetricsAllowList_Names m);
  Ok (models.mkMetricsAllowList names)).

Definition decode_ContainerMetrics (m : models.ContainerMetrics) (j : json) : result models.ContainerMetrics := object m j (λ fs,
  disabled ← field fs "disabled" decode_bool (models.ContainerMetrics_Disabled m);
  path ← field fs "path" decode_string (models.ContainerMetrics_Path m);
  port ← field fs "port" (decode_int 32) (models.ContainerMetrics_Port m);
  Ok (models.mkContainerMetrics disabled path port)).

Definition decode_Metrics (m : models.Metrics) (j : json) : result models.Metrics := object m j (λ fs,
  allow_list ← field fs "allow_list" (decode_pointer decode_MetricsAllowList zero_MetricsAllowList) (models.Metrics_AllowList m);
  containers ← field fs "containers" (decode_map decode_ContainerMetrics zero_ContainerMetrics) (models.Metrics_Containers m);
  interval ← field fs "interval" (decode_int 32) (models.Metrics_Interval m);
  path ← field fs "path" decode_string (models.Metrics_Path m);
  port ← field fs "port" (decode_int 32) (models.Metrics_Port m);
  Ok (models.mkMetrics allow_list containers interval path port)).

Definition decode_MetricsRetention (m : models.MetricsRetention) (j : json) : result models.MetricsRetention := object m j (λ fs,
  max_hours ← field fs "max_hours" (decode_int 32) (models.MetricsRetention_MaxHours m);
  max_mib ← field fs "max_mib" (decode_int 32) (models.MetricsRetention_MaxMib m);
  Ok (models.mkMetricsRetention max_hours max_mib)).

Definition decode_SystemMetricsConfiguration (m : models.SystemMetricsConfiguration) (j : json) : result models.SystemMetricsConfiguration := object m j (λ fs,
  allow_list ← field fs "allow_list" (decode_pointer decode_MetricsAllowList zero_MetricsAllowList) (models.SystemMetricsConfiguration_AllowList m);
  disabled ← field fs "disabled" decode_bool (models.SystemMetricsConfiguration_Disabled m);
  interval ← field fs "interval" (decode_int 32) (models.SystemMetricsConfiguration_Interval m);
  Ok (models.mkSystemMetricsConfiguration allow_list disabled interval)).

Definition decode_MetricsConfiguration (m : models.MetricsConfiguration) (j : json) : result models.MetricsConfiguration := object m j (λ fs,
  retention ← field fs "retention" (decode_pointer decode_MetricsRetention zero_MetricsRetention) (models.MetricsConfiguration_Retention m);
  system ← field fs "system" (decode_pointer decode_SystemMetricsConfiguration zero_SystemMetricsConfiguration) (models.MetricsConfiguration_System m);
  Ok (models.mkMetricsConfiguration retention system)).

Definition decode_OsInformation (m : models.OsInformation) (j : json) : result models.OsInformation := object m j (λ fs,
  automatically_upgrade ← field fs "automatically_upgrade" decode_bool (models.OsInformation_AutomaticallyUpgrade m);
  commit_id ← field fs "commit_id" decode_string (models.OsInformation_CommitID m);
  hosted_objects_url ← field fs "hosted_objects_url" decode_string (models.OsInformation_HostedObjectsURL m);
  Ok (models.mkOsInformation automatically_upgrade commit_id hosted_objects_url)).

Definition decode_S3StorageConfiguration (m : models.S3StorageConfiguration) (j : json) : result models.S3StorageConfiguration := object m j (λ fs,
  aws_access_key_id ← field fs "aws_access_key_id" decode_string (models.S3_AwsAccessKeyID m);
  aws_ca_bundle ← field fs "aws_ca_bundle" decode_string (models.S3_AwsCaBundle m);
  aws_secret_access_key ← field fs "aws_secret_access_key" decode_string (models.S3_AwsSecretAccessKey m);
  bucket_host ← field fs "bucket_host" decode_string (models.S3_BucketHost m);
  bucket_name ← field fs "bucket_name" decode_string (models.S3_BucketName m);
  bucket_port ← field fs "bucket_port" (decode_int 32) (models.S3_BucketPort m);
  bucket_region ← field fs "bucket_region" decode_string (models.S3_BucketRegion m);
  Ok (models.mkS3StorageConfiguration aws_access_key_id aws_ca_bundle aws_secret_access_key bucket_host bucket_name bucket_port bucket_region)).

Definition decode_StorageConfiguration (m : models.StorageConfiguration) (j : json) : result models.StorageConfiguration := object m j (λ fs,
  s3 ← field fs "s3" (decode_pointer decode_S3StorageConfiguration zero_S3StorageConfiguration) (models.StorageConfiguration_S3 m);
  Ok (models.mkStorageConfiguration s3)).

Definition decode_DeviceConfiguration (m : models.DeviceConfiguration) (j : json) : result models.DeviceConfiguration := object m j (λ fs,
  heartbeat ← field fs "heartbeat" (decode_pointer decode_HeartbeatConfiguration zero_HeartbeatConfiguration) (models.DeviceConfiguration_Heartbeat m);
  log_collection ← field fs "log-collection" (decode_map decode_LogsCollectionInformation zero_LogsCollectionInformation) (models.DeviceConfiguration_LogCollection m);
  metrics ← field fs "metrics" (decode_pointer decode_MetricsConfiguration zero_MetricsConfiguration) (models.DeviceConfiguration_Metrics m);
  os ← field fs "os" (decode_pointer decode_OsInformation zero_OsInformation) (models.DeviceConfiguration_Os m);
  storage ← field fs "storage" (decode_pointer decode_StorageConfiguration zero_StorageConfiguration) (models.DeviceConfiguration_Storage m);
  Ok (models.mkDeviceConfiguration heartbeat log_collection metrics os storage)).

Definition decode_Secret (m : models.Secret) (j : json) : result models.Secret := object m j (λ fs,
  data ← field fs "data" decode_string (models.Secret_Data m);
  name ← field fs "name" decode_string (models.Secret_Name m);
  Ok (models.mkSecret data name)).

(** [Content] is an [interface{}], which takes any document, as one of no type. *)
Definition decode_Content : decoder models.Content := λ _ j,
  match j with JNull => Ok nil_content | j => models.RawContent ∘ raw_text <$> untyped UseNumber j end.

(** [Metadata], an [interface{}] too, and [ResponseTo] are read and dropped. *)
Definition decode_Message (m : models.Message) (j : json) : result models.Message := object m j (λ fs,
  content ← field fs "content" decode_Content (models.Message_Content m);
  directive ← field fs "directive" decode_string (models.Message_Directive m);
  message_id ← field fs "message_id" decode_string (models.Message_MessageID m);
  _ ← field fs "metadata" decode_Content nil_content;
  _ ← field fs "response_to" decode_string "";
  sent ← field fs "sent" decode_time (models.Message_Sent m);
  type_ ← field fs "type" decode_string (models.Message_Type m);
  version ← field fs "version" (decode_int 64) (models.Message_Version m);
  Ok (models.mkMessage content directive message_id sent type_ version)).

(** The messages that devices read. *)
Definition zero_DataConfiguration : agent.DataConfiguration := agent.mkDataConfiguration [].
Definition zero_Workload : agent.Workload := agent.mkWorkload [] None None "" None "" "".
Definition zero_DeviceConfigurationMessage : agent.DeviceConfigurationMessage :=
  agent.mkDeviceConfigurationMessage None "" [] "" [] 0.
Definition new_MessageResponse : agent.MessageResponse := agent.mkMessageResponse nil_content "" "".

Definition decode_DataConfiguration (m : agent.DataConfiguration) (j : json) : result agent.DataConfiguration := object m j (λ fs,
  paths ← field fs "paths" (decode_slice (decode_pointer decode_DataPath zero_DataPath) None) (agent.DataConfiguration_Paths m);
  Ok (agent.mkDataConfiguration paths)).

Definition decode_Workload (m : agent.Workload) (j : json) : result agent.Workload := object m j (λ fs,
  configmaps ← field fs "configmaps" (decode_slice decode_string "") (agent.Workload_Configmaps m);
  data ← field fs "data" (decode_pointer decode_DataConfiguration zero_DataConfiguration) (agent.Workload_Data m);
  imageRegistries ← field fs "imageRegistries" (decode_pointer decode_ImageRegistries zero_ImageRegistries) (agent.Workload_ImageRegistries m);
  log_collection ← field fs "log_collection" decode_string (agent.Workload_LogCollection m);
  metrics ← field fs "metrics" (decode_pointer decode_Metrics zero_Metrics) (agent.Workload_Metrics m);
  name ← field fs "name" decode_string (agent.Workload_Name m);
  specification ← field fs "specification" decode_string (agent.Workload_Specification m);
  Ok (agent.mkWorkload configmaps data imageRegistries log_collection metrics name specification)).

Definition decode_DeviceConfigurationMessage (m : agent.DeviceConfigurationMessage) (j : json)
    : result agent.DeviceConfigurationMessage := object m j (λ fs,
  configuration ← field fs "configuration" (decode_pointer decode_DeviceConfiguration zero_DeviceConfiguration)
    (agent.DeviceConfigurationMessage_Configuration m);
  device_id ← field fs "device_id" decode_string (agent.DeviceConfigurationMessage_DeviceID m);
  secrets ← field fs "secrets" (decode_slice (decode_pointer decode_Secret zero_Secret) None)
    (agent.DeviceConfigurationMessage_Secrets m);
  version ← field fs "version" decode_string (agent.DeviceConfigurationMessage_Version m);
  workloads ← field fs "workloads" (decode_slice (decode_pointer decode_Workload zero_Workload) None)
    (agent.DeviceConfigurationMessage_Workloads m);
  interval ← field fs "workloads_monitoring_interval" (decode_int 64)
    (agent.DeviceConfigurationMessage_WorkloadsMonitoringInterval m);
  Ok (agent.mkDeviceConfigurationMessage configuration device_id secrets version workloads interval)).

Definition decode_MessageResponse (m : agent.MessageResponse) (j : json) : result agent.MessageResponse := object m j (λ fs,
  content ← field fs "content" decode_Content (agent.MessageResponse_Content m);
  directive ← field fs "directive" decode_string (agent.MessageResponse_Directive m);
  message_id ← field fs "message_id" decode_string (agent.MessageResponse_MessageID m);
  Ok (agent.mkMessageResponse content directive message_id)).

#[local] Close Scope string_scope.

(** ** What is written is read back *)
Context (show_time : Timestamp → string) (raw_content : string → option json) (empty_slice : json).

(** What JSON keeps of a value: numbers of the width of their field, times that
    their text gives back, maps that are nil when empty. *)
Definition anything {A} (_ : A) : Prop := True.
Definition sized (w n : Z) : Prop := in_width w n = true.
Definition arrives (t : Timestamp) : Prop := parse_time (show_time t) = Ok t.
Definition on_some {A} (P : A → Prop) (o : option A) : Prop := ∀ a, o = Some a → P a.
Definition map_fits {A} (P : A → Prop) (o : option (gmap string A)) : Prop :=
  o ≠ Some ∅ ∧ ∀ m, o = Some m → map_Forall (λ _, P) m.

(** How many bits of a 64-bit number are used: content may go through floats, which
    have fewer. *)
Context (width : Z).
Hypothesis width_le : (width ≤ 64)%Z.

Definition fits_CPU (m : models.CPU) : Prop :=
    sized width (models.CPU_Count m) ∧ kept (models.CPU_Frequency m) = true.
Definition fits_IoPerf (m : models.IoPerf) : Prop :=
    sized width (models.IoPerf_SyncDuration m).
Definition fits_Disk (m : models.Disk) : Prop :=
    on_some fits_IoPerf (models.Disk_IoPerf m) ∧ sized width (models.Disk_SizeBytes m).
Definition fits_Interface (m : models.Interface) : Prop :=
    sized width (models.Interface_Mtu m) ∧ sized width (models.Interface_SpeedMbps m).
Definition fits_Memory (m : models.Memory) : Prop :=
    sized width (models.Memory_PhysicalBytes m) ∧ sized width (models.Memory_UsableBytes m).
Definition fits_HardwareInfo (m : models.HardwareInfo) : Prop :=
    on_some fits_CPU (models.HardwareInfo_CPU m) ∧ Forall (on_some fits_Disk) (models.HardwareInfo_Disks m) ∧
    Forall (on_some fits_Interface) (models.HardwareInfo_Interfaces m) ∧ on_some fits_Memory
    (models.HardwareInfo_Memory m).
Definition fits_WorkloadStatus (m : models.WorkloadStatus) : Prop :=
    arrives (models.WorkloadStatus_LastDataUpload m).
Definition fits_Heartbeat (m : models.Heartbeat) : Prop :=
    on_some fits_HardwareInfo (models.Heartbeat_Hardware m) ∧ Forall (on_some fits_WorkloadStatus)
    (models.Heartbeat_Workloads m).
Definition fits_RegistrationInfo (m : models.RegistrationInfo) : Prop :=
    on_some fits_HardwareInfo (models.RegistrationInfo_Hardware m).
Definition fits_HeartbeatConfiguration (m : models.HeartbeatConfiguration) : Prop :=
    sized width (models.HeartbeatConfiguration_PeriodSeconds m).
Definition fits_LogsCollectionInformation (m : models.LogsCollectionInformation) : Prop :=
    sized 32 (models.LogsCollectionInformation_BufferSize m).
Definition fits_ContainerMetrics (m : models.ContainerMetrics) : Prop :=
    sized 32 (models.ContainerMetrics_Port m).
Definition fits_Metrics (m : models.Metrics) : Prop :=
    map_fits fits_ContainerMetrics (models.Metrics_Containers m) ∧ sized 32 (models.Metrics_Interval m) ∧
    sized 32 (models.Metrics_Port m).
Definition fits_MetricsRetention (m : models.MetricsRetention) : Prop :=
    sized 32 (models.MetricsRetention_MaxHours m) ∧ sized 32 (models.MetricsRetention_MaxMib m).
Definition fits_SystemMetricsConfiguration (m : models.SystemMetricsConfiguration) : Prop :=
    sized 32 (models.SystemMetricsConfiguration_Interval m).
Definition fits_MetricsConfiguration (m : models.MetricsConfiguration) : Prop :=
    on_some fits_MetricsRetention (models.MetricsConfiguration_Retention m) ∧ on_some
    fits_SystemMetricsConfiguration (models.MetricsConfiguration_System m).
Definition fits_S3StorageConfiguration (m : models.S3StorageConfiguration) : Prop :=
    sized 32 (models.S3_BucketPort m).
Definition fits_StorageConfiguration (m : models.StorageConfiguration) : Prop :=
    on_some fits_S3StorageConfiguration (models.StorageConfiguration_S3 m).
Definition fits_DeviceConfiguration (m : models.DeviceConfiguration) : Prop :=
    on_some fits_HeartbeatConfiguration (models.DeviceConfiguration_Heartbeat m) ∧ map_fits
    fits_LogsCollectionInformation (models.DeviceConfiguration_LogCollection m) ∧ on_some
    fits_MetricsConfiguration (models.DeviceConfiguration_Metrics m) ∧ on_some fits_StorageConfiguration
    (models.DeviceConfiguration_Storage m).

Definition fits_Workload (m : agent.Workload) : Prop := on_some fits_Metrics (agent.Workload_Metrics m).
Definition fits_DeviceConfigurationMessage (m : agent.DeviceConfigurationMessage) : Prop :=
  on_some fits_DeviceConfiguration (agent.DeviceConfigurationMessage_Configuration m) ∧
    Forall (on_some fits_Workload) (agent.DeviceConfigurationMessage_Workloads m) ∧
    sized width (agent.DeviceConfigurationMessage_WorkloadsMonitoringInterval m).

(** A type whose values are written as objects and read back. *)
Class Codec {A} (fits : A → Prop) (encode : A → json) (decode : decoder A) (zero : A) : Prop := {
  encode_object m : ∃ fs, encode m = JObj fs;
  decode_encode m : fits m → decode zero (encode m) = Ok m;
}.

(** *** The values of a field *)
Definition only (k : string) (fs : list (string * json)) : Prop := Forall (λ p, p.1 = k) fs.

Lemma values_app tag fs fs' : values tag (fs ++ fs') = values tag fs ++ values tag fs'.
Proof. unfold values. by rewrite filter_app, fmap_app. Qed.

Lemma values_cons tag k j fs : values tag ((k, j) :: fs) = (if matches tag k then [j] else []) ++ values tag fs.
Proof. unfold values. rewrite filter_cons. simpl. by destruct (matches tag k). Qed.

Lemma values_only tag k fs : only k fs → values tag fs = if matches tag k then fs.*2 else [].
Proof.
  unfold only. induction 1 as [|[k' j] fs Hk _ IH]; [by destruct (matches tag k)|]. simpl in Hk. subst k'.
  rewrite values_cons, IH. by destruct (matches tag k).
Qed.

Lemma only_str k s : only k (str k s).
Proof. unfold str. destruct (String.eqb s ""); repeat constructor. Qed.
Lemma only_int k n : only k (int k n).
Proof. unfold int. destruct (n =? 0)%Z; repeat constructor. Qed.
Lemma only_boolean k b : only k (boolean k b).
Proof. destruct b; repeat constructor. Qed.
Lemma only_number k f : only k (number k f).
Proof. destruct f; repeat constructor. Qed.
Lemma only_time k t : only k (time show_time k t).
Proof. repeat constructor. Qed.
Lemma only_pointer {A} k (e : A → json) p : only k (pointer k e p).
Proof. destruct p; repeat constructor. Qed.
Lemma only_items {A} k (e : A → json) l : only k (items k e l).
Proof. destruct l; repeat constructor. Qed.
Lemma only_slice {A} k (e : A → json) l : only k (slice empty_slice k e l).
Proof. repeat constructor. Qed.
Lemma only_dict {A} k (e : A → json) m : only k (dict k e m).
Proof. unfold dict. destruct (map_to_list _); repeat constructor. Qed.


Lemma values_str tag k s : values tag (str k s) = if matches tag k then (str k s).*2 else [].
Proof. apply values_only, only_str. Qed.
Lemma values_int tag k n : values tag (int k n) = if matches tag k then (int k n).*2 else [].
Proof. apply values_only, only_int. Qed.
Lemma values_boolean tag k b : values tag (boolean k b) = if matches tag k then (boolean k b).*2 else [].
Proof. apply values_only, only_boolean. Qed.
Lemma values_number tag k f : values tag (number k f) = if matches tag k then (number k f).*2 else [].
Proof. apply values_only, only_number. Qed.
Lemma values_time tag k t : values tag (time show_time k t) = if matches tag k then (time show_time k t).*2 else [].
Proof. apply values_only, only_time. Qed.
Lemma values_pointer {A} tag k (e : A → json) p : values tag (pointer k e p) = if matches tag k then (pointer k e p).*2 else [].
Proof. apply values_only, only_pointer. Qed.
Lemma values_items {A} tag k (e : A → json) l : values tag (items k e l) = if matches tag k then (items k e l).*2 else [].
Proof. apply values_only, only_items. Qed.
Lemma values_slice {A} tag k (e : A → json) l : values tag (slice empty_slice k e l) = if matches tag k then (slice empty_slice k e l).*2 else [].
Proof. apply values_only, only_slice. Qed.
Lemma values_dict {A} tag k (e : A → json) m : values tag (dict k e m) = if matches tag k then (dict k e m).*2 else [].
Proof. apply values_only, only_dict. Qed.

Create Rewrite HintDb values.
#[local] Hint Rewrite values_app values_str values_int values_boolean values_number values_time @values_pointer @values_items @values_slice @values_dict : values.

(** *** Reading them *)
Lemma read_str k s : read decode_string ""%string (str k s).*2 = Ok s.
Proof. unfold str. by destruct (String.eqb_spec s "") as [->|]. Qed.
Lemma read_int w k n : sized w n → read (decode_int w) 0%Z (int k n).*2 = Ok n.
Proof. intros H. unfold int. destruct (Z.eqb_spec n 0) as [->|]; [done|]. simpl. by rewrite H. Qed.
Lemma in_width_le w w' n : (w ≤ w')%Z → in_width w n = true → in_width w' n = true.
Proof.
  unfold in_width. intros Hw. rewrite !andb_true_iff, !Z.leb_le, !Z.ltb_lt.
  destruct (decide (1 ≤ w)%Z) as [H1|H1].
  - pose proof (Z.pow_le_mono_r 2 (w - 1) (w' - 1)). lia.
  - rewrite (Z.pow_neg_r 2 (w - 1)) by lia. lia.
Qed.
Lemma read_int64 k n : sized width n → read (decode_int 64) 0%Z (int k n).*2 = Ok n.
Proof. intros H. by eapply read_int, in_width_le. Qed.
Lemma read_boolean k b : read decode_bool false (boolean k b).*2 = Ok b.
Proof. by destruct b. Qed.
Lemma read_number k f : kept f = true → read decode_float (S754_zero false) (number k f).*2 = Ok f.
Proof.
  destruct f as [s| | |s m e]; try done; [by destruct s|]. intros H. unfold number, number_literal.
  destruct (float_integer (S754_finite s m e)) as [n|] eqn:E; [|done].
  simpl. by rewrite (float_integer_roundtrip _ _ H E).
Qed.
Lemma read_time k t : arrives t → read decode_time zero_time (time show_time k t).*2 = Ok t.
Proof. intros H. simpl. by rewrite H. Qed.

Section codecs.
Context {A} (P : A → Prop) (e : A → json) (d : decoder A) (z : A) {C : Codec P e d z}.

Lemma decode_pointer_Some a : P a → decode_pointer d z None (e a) = Ok (Some a).
Proof.
  intros H. pose proof (decode_encode a H) as Hd. destruct (encode_object a) as [fs Hfs].
  unfold decode_pointer. simpl. rewrite Hfs in *. by rewrite Hd.
Qed.
Lemma read_pointer k p : on_some P p → read (decode_pointer d z) None (pointer k e p).*2 = Ok p.
Proof. destruct p as [a|]; [|done]. intros H. simpl. by rewrite decode_pointer_Some by by apply H. Qed.

Lemma decode_elements_pointers l :
  Forall (on_some P) l → decode_elements (decode_pointer d z) None [] (nullable e <$> l) = Ok l.
Proof.
  induction 1 as [|o l Ho _ IH]; [done|]. rewrite fmap_cons. cbn [decode_elements head tail default].
  destruct o as [a|]; cbn [nullable].
  - rewrite decode_pointer_Some by by apply Ho. simpl in IH |- *. by rewrite IH.
  - simpl in IH |- *. by rewrite IH.
Qed.

Lemma decode_entries_all l cur :
  Forall (λ p, P p.2) l → decode_entries d z cur ((λ p, (p.1, e p.2)) <$> l) = Ok (list_to_map (reverse l) ∪ cur).
Proof.
  intros H. revert cur. induction H as [|[k a] l Ha _ IH]; intros cur.
  - simpl. by rewrite (left_id_L ∅ (∪)).
  - rewrite fmap_cons. cbn [decode_entries]. cbn [fst snd]. rewrite (decode_encode a Ha).
    cbn [mbind result_mbind]. rewrite IH, reverse_cons. f_equal.
    by rewrite list_to_map_app, insert_union_singleton_l, (assoc_L (∪)).
Qed.

Lemma read_dict k m : map_fits P m → read (decode_map d z) None (dict k e m).*2 = Ok m.
Proof.
  intros [Hne HP]. destruct m as [m|]; [|unfold dict; simpl; by rewrite map_to_list_empty]. 
  assert ((dict k e (Some m)).*2 = [JObj ((λ p, (p.1, e p.2)) <$> map_to_list m)]) as ->.
  { unfold dict. simpl. destruct (map_to_list m) eqn:E; [by apply map_to_list_empty_iff in E as ->|done]. }
  assert (Forall (λ p, P p.2) (map_to_list m)) as HF.
  { apply Forall_forall. intros [k' a] Hin%elem_of_map_to_list. by apply (HP m eq_refl k'). }
  pose proof (decode_entries_all _ ∅ HF) as Hd. simpl in Hd |- *. rewrite Hd. simpl.
  rewrite (right_id_L ∅ (∪)). do 2 f_equal.
  rewrite <- (list_to_map_to_list m) at 2. symmetry. apply list_to_map_proper; [apply NoDup_fst_map_to_list|].
  by rewrite reverse_Permutation.
Qed.
End codecs.

Definition empty_list : Prop := empty_slice = JNull ∨ empty_slice = JArr [].
Hypothesis empty : empty_list.

Lemma decode_strings l : decode_elements decode_string ""%string [] (JStr <$> l) = Ok l.
Proof. induction l as [|s l IH]; [done|]. rewrite fmap_cons. cbn. cbn in IH. by rewrite IH. Qed.

(** A slice as it is written: an empty one is written somehow. *)
Lemma read_slice {A} (d : decoder A) z k (e : A → json) l :
  decode_elements d z [] (e <$> l) = Ok l → read (decode_slice d z) [] (slice empty_slice k e l).*2 = Ok l.
Proof.
  intros H. destruct l as [|a l]; [unfold slice; by destruct empty as [-> | ->]|].
  assert ((slice empty_slice k e (a :: l)).*2 = [JArr (e <$> a :: l)]) as -> by done.
  unfold read, decode_slice. by rewrite H.
Qed.
Lemma read_strings k l : read (decode_slice decode_string ""%string) [] (slice empty_slice k JStr l).*2 = Ok l.
Proof. apply read_slice, decode_strings. Qed.
Lemma read_pointers {A} (P : A → Prop) e d z {C : Codec P e d z} k l :
  Forall (on_some P) l → read (decode_slice (decode_pointer d z) None) [] (slice empty_slice k (nullable e) l).*2 = Ok l.
Proof. intros H. by apply read_slice, (decode_elements_pointers P). Qed.

Lemma read_items {A} (d : decoder A) z k (e : A → json) l :
  decode_elements d z [] (e <$> l) = Ok l → read (decode_slice d z) [] (items k e l).*2 = Ok l.
Proof.
  intros H. destruct l as [|a l]; [done|]. assert ((items k e (a :: l)).*2 = [JArr (e <$> a :: l)]) as -> by done.
  unfold read, decode_slice. by rewrite H.
Qed.
Lemma read_items_strings k l : read (decode_slice decode_string ""%string) [] (items k JStr l).*2 = Ok l.
Proof. apply read_items, decode_strings. Qed.
Lemma read_items_pointers {A} (P : A → Prop) e d z {C : Codec P e d z} k l :
  Forall (on_some P) l → read (decode_slice (decode_pointer d z) None) [] (items k (nullable e) l).*2 = Ok l.
Proof. intros H. by apply read_items, (decode_elements_pointers P). Qed.

Ltac compute_matches :=
  repeat match goal with |- context [matches ?a ?b] => let v := eval vm_compute in (matches a b) in change (matches a b) with v end.

#[local] Opaque slice dict items pointer time str int boolean number.
#[local] Arguments read : simpl never.

Ltac keeps := first [apply _ | assumption | by intros ? _ | by apply Forall_true; intros ? ? _].
Ltac read_next :=
  first [rewrite read_str | rewrite read_boolean | rewrite read_strings | rewrite read_items_strings | rewrite read_int by assumption | rewrite read_int64 by assumption
        | rewrite read_number by assumption | rewrite read_time by assumption | erewrite read_pointer by keeps
        | erewrite read_pointers by keeps | erewrite read_items_pointers by keeps | erewrite read_dict by keeps].
Ltac head_of t := lazymatch t with ?f _ => head_of f | _ => t end.

(** Find the values of every field, then read them one by one. *)
Ltac codec :=
  split; [intros m; by eexists|]; intros m Hf;
  lazymatch goal with
  | |- ?d ?z ?em = _ => let e := head_of em in unfold e, d, z
  end;
  lazymatch type of Hf with ?f _ => try unfold f in Hf end; destruct_and? Hf;
  unfold object, field; autorewrite with values; compute_matches; cbv beta iota; rewrite ?app_nil_r, ?app_nil_l;
  simpl; repeat (read_next; simpl); by destruct m.
#[export] Instance codec_Boot : Codec anything encode_Boot decode_Boot zero_Boot.
Proof. codec. Qed.
#[export] Instance codec_CPU : Codec fits_CPU (encode_CPU empty_slice) decode_CPU zero_CPU.
Proof. codec. Qed.
#[export] Instance codec_IoPerf : Codec fits_IoPerf encode_IoPerf decode_IoPerf zero_IoPerf.
Proof. codec. Qed.
#[export] Instance codec_Disk : Codec fits_Disk encode_Disk decode_Disk zero_Disk.
Proof. codec. Qed.
#[export] Instance codec_Gpu : Codec anything encode_Gpu decode_Gpu zero_Gpu.
Proof. codec. Qed.
#[export] Instance codec_Interface : Codec fits_Interface (encode_Interface empty_slice) decode_Interface zero_Interface.
Proof. codec. Qed.
#[export] Instance codec_Memory : Codec fits_Memory encode_Memory decode_Memory zero_Memory.
Proof. codec. Qed.
#[export] Instance codec_SystemVendor : Codec anything encode_SystemVendor decode_SystemVendor zero_SystemVendor.
Proof. codec. Qed.
#[export] Instance codec_HardwareInfo : Codec fits_HardwareInfo (encode_HardwareInfo empty_slice) decode_HardwareInfo zero_HardwareInfo.
Proof. codec. Qed.
#[export] Instance codec_EventInfo : Codec anything encode_EventInfo decode_EventInfo zero_EventInfo.
Proof. codec. Qed.
#[export] Instance codec_UpgradeStatus : Codec anything encode_UpgradeStatus decode_UpgradeStatus zero_UpgradeStatus.
Proof. codec. Qed.
#[export] Instance codec_WorkloadStatus : Codec fits_WorkloadStatus (encode_WorkloadStatus show_time) decode_WorkloadStatus zero_WorkloadStatus.
Proof. codec. Qed.
#[export] Instance codec_Heartbeat : Codec fits_Heartbeat (encode_Heartbeat show_time empty_slice) decode_Heartbeat zero_Heartbeat.
Proof. codec. Qed.
#[export] Instance codec_RegistrationInfo : Codec fits_RegistrationInfo (encode_RegistrationInfo empty_slice) decode_RegistrationInfo zero_RegistrationInfo.
Proof. codec. Qed.
#[export] Instance codec_RegistrationResponse : Codec anything encode_RegistrationResponse decode_RegistrationResponse zero_RegistrationResponse.
Proof. codec. Qed.
#[export] Instance codec_DataPath : Codec anything encode_DataPath decode_DataPath zero_DataPath.
Proof. codec. Qed.
#[export] Instance codec_HardwareProfileConfiguration : Codec anything encode_HardwareProfileConfiguration decode_HardwareProfileConfiguration zero_HardwareProfileConfiguration.
Proof. codec. Qed.
#[export] Instance codec_HeartbeatConfiguration : Codec fits_HeartbeatConfiguration encode_HeartbeatConfiguration decode_HeartbeatConfiguration zero_HeartbeatConfiguration.
Proof. codec. Qed.
#[export] Instance codec_ImageRegistries : Codec anything encode_ImageRegistries decode_ImageRegistries zero_ImageRegistries.
Proof. codec. Qed.
#[export] Instance codec_LogsCollectionInformationSyslogConfig : Codec anything encode_LogsCollectionInformationSyslogConfig decode_LogsCollectionInformationSyslogConfig zero_LogsCollectionInformationSyslogConfig.
Proof. codec. Qed.
#[export] Instance codec_LogsCollectionInformation : Codec fits_LogsCollectionInformation encode_LogsCollectionInformation decode_LogsCollectionInformation zero_LogsCollectionInformation.
Proof. codec. Qed.
#[export] Instance codec_MetricsAllowList : Codec anything (encode_MetricsAllowList empty_slice) decode_MetricsAllowList zero_MetricsAllowList.
Proof. codec. Qed.
#[export] Instance codec_ContainerMetrics : Codec fits_ContainerMetrics encode_ContainerMetrics decode_ContainerMetrics zero_ContainerMetrics.
Proof. codec. Qed.
#[export] Instance codec_Metrics : Codec fits_Metrics (encode_Metrics empty_slice) decode_Metrics zero_Metrics.
Proof. codec. Qed.
#[export] Instance codec_MetricsRetention : Codec fits_MetricsRetention encode_MetricsRetention decode_MetricsRetention zero_MetricsRetention.
Proof. codec. Qed.
#[export] Instance codec_SystemMetricsConfiguration : Codec fits_SystemMetricsConfiguration (encode_SystemMetricsConfiguration empty_slice) decode_SystemMetricsConfiguration zero_SystemMetricsConfiguration.
Proof. codec. Qed.
#[export] Instance codec_MetricsConfiguration : Codec fits_MetricsConfiguration (encode_MetricsConfiguration empty_slice) decode_MetricsConfiguration zero_MetricsConfiguration.
Proof. codec. Qed.
#[export] Instance codec_OsInformation : Codec anything encode_OsInformation decode_OsInformation zero_OsInformation.
Proof. codec. Qed.
#[export] Instance codec_S3StorageConfiguration : Codec fits_S3StorageConfiguration encode_S3StorageConfiguration decode_S3StorageConfiguration zero_S3StorageConfiguration.
Proof. codec. Qed.
#[export] Instance codec_StorageConfiguration : Codec fits_StorageConfiguration encode_StorageConfiguration decode_StorageConfiguration zero_StorageConfiguration.
Proof. codec. Qed.
#[export] Instance codec_DeviceConfiguration : Codec fits_DeviceConfiguration (encode_DeviceConfiguration empty_slice) decode_DeviceConfiguration zero_DeviceConfiguration.
Proof. codec. Qed.
#[export] Instance codec_Secret : Codec anything encode_Secret decode_Secret zero_Secret.
Proof. codec. Qed.
#[export] Instance codec_agent_DataConfiguration :
  Codec anything (write_DataConfiguration empty_slice) decode_DataConfiguration zero_DataConfiguration.
Proof. codec. Qed.
#[export] Instance codec_agent_Workload : Codec fits_Workload (write_Workload empty_slice) decode_Workload zero_Workload.
Proof. codec. Qed.
#[export] Instance codec_agent_DeviceConfigurationMessage :
  Codec fits_DeviceConfigurationMessage (write_DeviceConfigurationMessage empty_slice) decode_DeviceConfigurationMessage
    zero_DeviceConfigurationMessage.
Proof. codec. Qed.

(** *** Messages *)

(** The document that a content is written as; [null] and nothing are the same. *)
Definition document (c : models.Content) : option json :=
  match (encode_Content raw_content empty_slice c).*2 with [] | JNull :: _ => None | j :: _ => Some j end.

(** A content arrives as its document, of no type. *)
Definition received_content (c : models.Content) : result models.Content :=
  match document c with None => Ok nil_content | Some j => models.RawContent ∘ raw_text <$> untyped UseNumber j end.
Definition received (m : models.Message) : result models.Message :=
  content ← received_content (models.Message_Content m);
  Ok (models.mkMessage content (models.Message_Directive m) (models.Message_MessageID m)
    (models.Message_Sent m) (models.Message_Type m) (models.Message_Version m)).

Definition fits_Message (m : models.Message) : Prop :=
  arrives (models.Message_Sent m) ∧ sized width (models.Message_Version m).

Lemma values_Content tag c :
  values tag (encode_Content raw_content empty_slice c) =
  if matches tag "content" then (encode_Content raw_content empty_slice c).*2 else [].
Proof. apply values_only. destruct c; [apply only_pointer|repeat constructor..]. Qed.

#[local] Transparent pointer.
Lemma read_Content c :
  read decode_Content nil_content (encode_Content raw_content empty_slice c).*2 = received_content c.
Proof.
  assert (∀ r : result models.Content, (a ← r; Ok a) = r) as Hr by by intros [].
  unfold received_content, document. destruct c as [t|c args|dc]; simpl; [|apply Hr..].
  unfold pointer. destruct (raw_content t) as [[]|]; simpl; done || apply Hr.
Qed.
#[local] Opaque pointer.

Lemma decode_encode_Message m :
  fits_Message m → decode_Message new_Message (encode_Message show_time raw_content empty_slice m) = received m.
Proof.
  intros [? ?]. unfold encode_Message, decode_Message, new_Message, object, field, received.
  autorewrite with values. rewrite !values_Content. compute_matches. cbv beta iota. rewrite ?app_nil_r, ?app_nil_l.
  simpl. rewrite read_Content. destruct (received_content _); [|done]. simpl. repeat (read_next; simpl). done.
Qed.

(** The response to a device, with its content as a document. *)
Definition response_content (c : option models.RegistrationResponse) : result models.Content :=
  match c with None => Ok nil_content | Some r => models.RawContent ∘ raw_text <$> untyped UseNumber (encode_RegistrationResponse r) end.

Lemma decode_encode_MessageResponse m :
  decode_MessageResponse new_MessageResponse (encode_MessageResponse m) =
    (content ← response_content (models.MessageResponse_Content m);
     Ok (agent.mkMessageResponse content (models.MessageResponse_Directive m) (models.MessageResponse_MessageID m))).
Proof.
  unfold encode_MessageResponse, decode_MessageResponse, new_MessageResponse, object, field. autorewrite with values.
  compute_matches. cbv beta iota. rewrite ?app_nil_r, ?app_nil_l. simpl.
  assert (read decode_Content nil_content (pointer "content" encode_RegistrationResponse (models.MessageResponse_Content m)).*2 =
    response_content (models.MessageResponse_Content m)) as ->.
  { assert (∀ r : result models.Content, (a ← r; Ok a) = r) as Hr by by intros [].
    destruct (models.MessageResponse_Content m) as [r|]; [|done]. apply Hr. }
  destruct (response_content _); [|done]. simpl. repeat (read_next; simpl). done.
Qed.
End decode.
