(* ===== verification/Untyped.v ===== *)
(** * Documents that keep what they are through an [interface{}]

    The content of a message is read into an [interface{}] and written again
    before a handler reads it. The consumers of the server and of the client keep
    the literals of its numbers; [UnmarshalBinary] makes them floats. The documents
    that are written, with numbers that have no
    more bits than is kept, are not changed by that ([Plain], one instance for
    each type). *)
From S2P Require Import Prelude Effects K8s Models Validation EmbeddedSpec Floats Wire Agent Decode.
From Stdlib Require Import SpecFloat Ascii.
#[local] Set Warnings "-register-all".

Section plain.
Context (UseNumber : bool).

(** The bits of an integer that are kept. *)
Definition number_width : Z := if UseNumber then 64 else double_prec.

Definition plain (j : json) : Prop := untyped UseNumber j = Ok j.
Definition plain_fields (fs : list (string * json)) : Prop := Forall (λ p, plain p.2) fs.

(** The names of the fields are among these, in this order. *)
Definition named (ks : list string) (fs : list (string * json)) : Prop := fs.*1 `sublist_of` ks.

(** A type whose values are written as plain documents. *)
Class Plain {A} (fits : A → Prop) (encode : A → json) : Prop := plain_encode m : fits m → plain (encode m).

(** ** Numbers *)
Lemma untyped_literal f : finite f = true → plain (number_literal f).
Proof.
  intros Hf. unfold plain, number_literal. destruct (float_integer f) as [n|] eqn:E; simpl; (destruct UseNumber; [done|]).
  - pose proof (float_integer_small _ _ E) as Hn. pose proof (float_of_integer_small n Hn) as H.
    unfold untyped_number. rewrite (float_integer_finite _ _ H). unfold number_literal. by rewrite H.
  - unfold untyped_number. rewrite Hf. unfold number_literal. by rewrite E.
Qed.

Lemma plain_int n : UseNumber = true ∨ (Z.abs n < 2 ^ double_prec)%Z → plain (JInt n).
Proof.
  intros Hn. unfold plain. simpl. destruct UseNumber; [done|]. destruct Hn as [|Hn]; [done|].
  pose proof (float_of_integer_small n Hn) as H. unfold untyped_number.
  rewrite (float_integer_finite _ _ H). unfold number_literal. by rewrite H.
Qed.

(** ** Lists and objects *)
Lemma untyped_list l : Forall plain l → mapM (untyped UseNumber) l = Ok l.
Proof. induction 1 as [|j l Hj _ IH]; [done|]. simpl. rewrite Hj. simpl in IH |- *. by rewrite IH. Qed.

Lemma plain_array l : Forall plain l → plain (JArr l).
Proof. intros H. unfold plain. simpl. by rewrite untyped_list. Qed.

Lemma keep_last_all fs : NoDup fs.*1 → keep_last fs = fs.
Proof.
  induction fs as [|p fs IH]; [done|]. rewrite fmap_cons. intros [Hp Hnd]%NoDup_cons. simpl. rewrite IH by done.
  destruct (existsb _ fs) eqn:E; [|done]. apply existsb_exists in E as (q & Hq%list_elem_of_In & He%String.eqb_eq).
  destruct Hp. rewrite He. by apply list_elem_of_fmap_2.
Qed.

Lemma plain_object ks fs : plain_fields fs → named ks fs → NoDup ks → plain (JObj fs).
Proof.
  intros H Hk Hnd. unfold plain. simpl.
  assert (mapM (λ p : string * json, v ← untyped UseNumber p.2; Ok (p.1, v)) fs = Ok fs) as ->.
  { clear Hk. induction H as [|[k j] fs Hj _ IH]; [done|]. simpl in Hj |- *. rewrite Hj. simpl in IH |- *. by rewrite IH. }
  simpl. rewrite keep_last_all; [done|]. by eapply sublist_NoDup.
Qed.

Section fields.
Context (show_time : Timestamp → string) (parse_time : string → result Timestamp) (empty_slice : json).
Context (width : Z).
Hypothesis width_le : (width ≤ number_width)%Z.
Hypothesis empty : empty_list empty_slice.

(** ** Fields *)
Lemma plain_app fs fs' : plain_fields fs → plain_fields fs' → plain_fields (fs ++ fs').
Proof. by apply Forall_app_2. Qed.
Lemma plain_str k s : plain_fields (str k s).
Proof. unfold str. destruct (String.eqb s ""); repeat constructor. Qed.
Lemma plain_int_field k n : sized width n → plain_fields (int k n).
Proof.
  intros Hn. unfold int. destruct (n =? 0)%Z; [constructor|]. constructor; [|constructor]. apply plain_int.
  unfold number_width in width_le. destruct UseNumber; [by left|right].
  unfold sized, in_width in Hn. apply andb_true_iff in Hn as [?%Z.leb_le ?%Z.ltb_lt].
  destruct (decide (1 ≤ width)%Z).
  - pose proof (Z.pow_le_mono_r 2 (width - 1) (double_prec - 1)). unfold double_prec in *. lia.
  - rewrite (Z.pow_neg_r 2 (width - 1)) in * by lia. lia.
Qed.
Lemma plain_boolean k b : plain_fields (boolean k b).
Proof. destruct b; repeat constructor. Qed.
Lemma plain_number k f : kept f = true → plain_fields (number k f).
Proof.
  intros Hf. destruct f as [s| | |s m e]; try done; [constructor|]. constructor; [|constructor]. by apply untyped_literal.
Qed.
Lemma plain_time k t : plain_fields (time show_time k t).
Proof. repeat constructor. Qed.
Lemma plain_pointer {A} (P : A → Prop) e {C : Plain P e} k p : on_some P p → plain_fields (pointer k e p).
Proof. intros H. destruct p as [a|]; [|constructor]. constructor; [|constructor]. exact (plain_encode a (H a eq_refl)). Qed.
Lemma plain_slice {A} k (e : A → json) l : Forall (λ a, plain (e a)) l → plain_fields (slice empty_slice k e l).
Proof.
  intros H. constructor; [|constructor]. simpl. destruct l as [|a l]; [by destruct empty as [-> | ->]|].
  apply plain_array. by apply Forall_fmap.
Qed.
Lemma plain_strings k l : plain_fields (slice empty_slice k JStr l).
Proof. by apply plain_slice, Forall_true. Qed.
Lemma plain_pointers {A} (P : A → Prop) e {C : Plain P e} k l :
  Forall (on_some P) l → plain_fields (slice empty_slice k (nullable e) l).
Proof.
  intros H. apply plain_slice. eapply Forall_impl; [exact H|]. intros [a|] Ha; [|done]. exact (plain_encode a (Ha a eq_refl)).
Qed.

Lemma plain_int32 k n : sized 32 n → plain_fields (int k n).
Proof.
  intros Hn. unfold int. destruct (n =? 0)%Z; [constructor|]. constructor; [|constructor]. apply plain_int. right.
  unfold sized, in_width in Hn. apply andb_true_iff in Hn as [?%Z.leb_le ?%Z.ltb_lt]. unfold double_prec. simpl in *. lia.
Qed.
Lemma plain_items {A} k (e : A → json) l : Forall (λ a, plain (e a)) l → plain_fields (items k e l).
Proof.
  intros H. destruct l as [|a l]; [constructor|]. constructor; [|constructor]. apply plain_array. by apply Forall_fmap.
Qed.
Lemma plain_item_strings k l : plain_fields (items k JStr l).
Proof. by apply plain_items, Forall_true. Qed.
Lemma plain_item_pointers {A} (P : A → Prop) e {C : Plain P e} k l :
  Forall (on_some P) l → plain_fields (items k (nullable e) l).
Proof.
  intros H. apply plain_items. eapply Forall_impl; [exact H|]. intros [a|] Ha; [|done]. exact (plain_encode a (Ha a eq_refl)).
Qed.
Lemma entries_names {A B} (e : A → B) (l : list (string * A)) : ((λ p, (p.1, e p.2)) <$> l).*1 = l.*1.
Proof. induction l as [|p l IH]; [done|]. rewrite !fmap_cons. by rewrite IH. Qed.
Lemma plain_dict {A} (P : A → Prop) e {C : Plain P e} k m : map_fits P m → plain_fields (dict k e m).
Proof.
  intros [_ HP]. unfold dict. destruct m as [m|]; simpl; [|rewrite map_to_list_empty; constructor].
  pose proof (NoDup_fst_map_to_list m) as Hnd.
  assert (Forall (λ p, P p.2) (map_to_list m)) as HF.
  { apply Forall_forall. intros [k' a] Hin%elem_of_map_to_list. by apply (HP m eq_refl k'). }
  destruct (map_to_list m) as [|p l]; [constructor|]. constructor; [|constructor].
  change (plain (JObj ((λ q, (q.1, e q.2)) <$> p :: l))). apply (plain_object ((p :: l).*1));
    [|unfold named; by rewrite (entries_names e (p :: l))|done].
  apply Forall_fmap. eapply Forall_impl; [exact HF|]. intros q Hq. exact (plain_encode q.2 Hq).
Qed.

(** ** Names *)
Lemma named_app ks ks' fs fs' : named ks fs → named ks' fs' → named (ks ++ ks') (fs ++ fs').
Proof. unfold named. rewrite fmap_app. by apply sublist_app. Qed.
Lemma named_one k fs : only k fs → length fs ≤ 1 → named [k] fs.
Proof.
  intros H Hl. destruct fs as [|[k' j] [|q fs]]; [by apply sublist_nil_l| |simpl in Hl; lia].
  unfold named. simpl. by apply Forall_singleton in H as <-.
Qed.
Lemma named_str k s : named [k] (str k s).
Proof. apply named_one; [apply only_str|]. unfold str. destruct (String.eqb s ""); simpl; lia. Qed.
Lemma named_int k n : named [k] (int k n).
Proof. apply named_one; [apply only_int|]. unfold int. destruct (n =? 0)%Z; simpl; lia. Qed.
Lemma named_boolean k b : named [k] (boolean k b).
Proof. apply named_one; [apply only_boolean|]. destruct b; simpl; lia. Qed.
Lemma named_number k f : named [k] (number k f).
Proof. apply named_one; [apply only_number|]. destruct f; simpl; lia. Qed.
Lemma named_time k t : named [k] (time show_time k t).
Proof. by apply named_one; [apply only_time|]. Qed.
Lemma named_pointer {A} k (e : A → json) p : named [k] (pointer k e p).
Proof. apply named_one; [apply only_pointer|]. destruct p; simpl; lia. Qed.
Lemma named_slice {A} k (e : A → json) l : named [k] (slice empty_slice k e l).
Proof. by apply named_one; [apply only_slice|]. Qed.

Lemma named_items {A} k (e : A → json) l : named [k] (items k e l).
Proof. apply named_one; [apply only_items|]. destruct l; simpl; lia. Qed.
Lemma named_dict {A} k (e : A → json) m : named [k] (dict k e m).
Proof. apply named_one; [apply only_dict|]. unfold dict. destruct (map_to_list _); simpl; lia. Qed.

#[local] Opaque slice dict items pointer time str int boolean number.

Ltac keeps := first [apply _ | assumption | by intros ? _ | by apply Forall_true; intros ? ? _].
Ltac plain_field :=
  first [apply plain_str | apply plain_boolean | apply plain_strings | apply plain_item_strings | by apply plain_int_field | by apply plain_int32 | by apply plain_number
        | apply plain_time | eapply plain_pointer; keeps | eapply plain_pointers; keeps
        | eapply plain_item_pointers; keeps | eapply plain_dict; keeps].
Ltac named_field :=
  first [apply named_str | apply named_boolean | apply named_int | apply named_number | apply named_time
        | apply named_pointer | apply named_slice | apply named_items | apply named_dict].
Ltac head_of t := lazymatch t with ?f _ => head_of f | _ => t end.
Ltac plain :=
  intros m Hf;
  lazymatch type of Hf with ?f _ => try (let h := head_of f in unfold h in Hf) end; destruct_and? Hf;
  lazymatch goal with |- plain ?em => let e := head_of em in unfold e end;
  eapply plain_object;
    [repeat (apply plain_app; [plain_field|]); plain_field
    |repeat (eapply named_app; [named_field|]); named_field
    |apply (bool_decide_unpack _); vm_compute; exact I].

#[export] Instance plain_Boot : Plain anything encode_Boot.
Proof. plain. Qed.
#[export] Instance plain_CPU : Plain (fits_CPU width) (encode_CPU empty_slice).
Proof. plain. Qed.
#[export] Instance plain_IoPerf : Plain (fits_IoPerf width) encode_IoPerf.
Proof. plain. Qed.
#[export] Instance plain_Disk : Plain (fits_Disk width) encode_Disk.
Proof. plain. Qed.
#[export] Instance plain_Gpu : Plain anything encode_Gpu.
Proof. plain. Qed.
#[export] Instance plain_Interface : Plain (fits_Interface width) (encode_Interface empty_slice).
Proof. plain. Qed.
#[export] Instance plain_Memory : Plain (fits_Memory width) encode_Memory.
Proof. plain. Qed.
#[export] Instance plain_SystemVendor : Plain anything encode_SystemVendor.
Proof. plain. Qed.
#[export] Instance plain_HardwareInfo : Plain (fits_HardwareInfo width) (encode_HardwareInfo empty_slice).
Proof. plain. Qed.
#[export] Instance plain_EventInfo : Plain anything encode_EventInfo.
Proof. plain. Qed.
#[export] Instance plain_UpgradeStatus : Plain anything encode_UpgradeStatus.
Proof. plain. Qed.
#[export] Instance plain_WorkloadStatus : Plain (fits_WorkloadStatus parse_time show_time) (encode_WorkloadStatus show_time).
Proof. plain. Qed.
#[export] Instance plain_Heartbeat : Plain (fits_Heartbeat parse_time show_time width) (encode_Heartbeat show_time empty_slice).
Proof. plain. Qed.
#[export] Instance plain_RegistrationInfo : Plain (fits_RegistrationInfo width) (encode_RegistrationInfo empty_slice).
Proof. plain. Qed.
#[export] Instance plain_RegistrationResponse : Plain anything encode_RegistrationResponse.
Proof. plain. Qed.
#[export] Instance plain_DataPath : Plain anything encode_DataPath.
Proof. plain. Qed.
#[export] Instance plain_HardwareProfileConfiguration : Plain anything encode_HardwareProfileConfiguration.
Proof. plain. Qed.
#[export] Instance plain_HeartbeatConfiguration : Plain (fits_HeartbeatConfiguration width) encode_HeartbeatConfiguration.
Proof. plain. Qed.
#[export] Instance plain_ImageRegistries : Plain anything encode_ImageRegistries.
Proof. plain. Qed.
#[export] Instance plain_LogsCollectionInformationSyslogConfig : Plain anything encode_LogsCollectionInformationSyslogConfig.
Proof. plain. Qed.
#[export] Instance plain_LogsCollectionInformation : Plain fits_LogsCollectionInformation encode_LogsCollectionInformation.
Proof. plain. Qed.
#[export] Instance plain_MetricsAllowList : Plain anything (encode_MetricsAllowList empty_slice).
Proof. plain. Qed.
#[export] Instance plain_ContainerMetrics : Plain fits_ContainerMetrics encode_ContainerMetrics.
Proof. plain. Qed.
#[export] Instance plain_Metrics : Plain fits_Metrics (encode_Metrics empty_slice).
Proof. plain. Qed.
#[export] Instance plain_MetricsRetention : Plain fits_MetricsRetention encode_MetricsRetention.
Proof. plain. Qed.
#[export] Instance plain_SystemMetricsConfiguration : Plain fits_SystemMetricsConfiguration (encode_SystemMetricsConfiguration empty_slice).
Proof. plain. Qed.
#[export] Instance plain_MetricsConfiguration : Plain fits_MetricsConfiguration (encode_MetricsConfiguration empty_slice).
Proof. plain. Qed.
#[export] Instance plain_OsInformation : Plain anything encode_OsInformation.
Proof. plain. Qed.
#[export] Instance plain_S3StorageConfiguration : Plain fits_S3StorageConfiguration encode_S3StorageConfiguration.
Proof. plain. Qed.
#[export] Instance plain_StorageConfiguration : Plain fits_StorageConfiguration encode_StorageConfiguration.
Proof. plain. Qed.
#[export] Instance plain_DeviceConfiguration : Plain (fits_DeviceConfiguration width) (encode_DeviceConfiguration empty_slice).
Proof. plain. Qed.
#[export] Instance plain_Secret : Plain anything encode_Secret.
Proof. plain. Qed.
#[export] Instance plain_agent_DataConfiguration : Plain anything (write_DataConfiguration empty_slice).
Proof. plain. Qed.
#[export] Instance plain_agent_Workload : Plain fits_Workload (write_Workload empty_slice).
Proof. plain. Qed.
#[export] Instance plain_agent_DeviceConfigurationMessage :
  Plain (fits_DeviceConfigurationMessage width) (write_DeviceConfigurationMessage empty_slice).
Proof. plain. Qed.
End fields.
End plain.
