(* ===== verification/Binary.v ===== *)
(** * [MarshalBinary] and [UnmarshalBinary] ([models])

    The methods of every message, which write it as the text of its JSON and read
    such a text; the producer and the consumer of the server and of the client do
    the same for [Message], but for how they treat numbers in its content. [Wire] and [Decode] have the documents; how a document is written
    as text and what document a text holds belong to the library. The theorem
    says that what was written comes back, type by type. *)
From S2P Require Import Prelude Effects K8s Labels Models Normalize Calls Repositories Heartbeat Lookups ConfigMaps Yggdrasil Validation EmbeddedSpec Floats Wire Agent Decode Untyped Rest.
From Stdlib Require Import SpecFloat Ascii.
#[local] Set Warnings "-register-all".

(** [bytes.Trim(data, "\x00")] *)
Definition is_nul (c : ascii) : bool := Ascii.eqb c Ascii.zero.
Fixpoint trim_left (l : list ascii) : list ascii :=
  match l with c :: l' => if is_nul c then trim_left l' else l | [] => [] end.
Definition trim_nul (s : string) : string :=
  String.string_of_list_ascii (reverse (trim_left (reverse (trim_left (String.list_ascii_of_string s))))).

Section binary.
Context (show_time : Timestamp → string) (raw_content : string → option json) (empty_slice : json).
Context (parse_time : string → result Timestamp) (raw_text : json → string).
(** The text of a document, and the document of a text; for the methods, and for
    the producer and the consumer. *)
Context (json_text : json → result string) (json_document : string → result json).
Context (stream_text : json → result string) (stream_document : string → result json).

(** A nil pointer is written as no bytes. *)
Definition MarshalBinary {A} (encode : A → json) (m : option A) : result (option string) :=
  match m with None => Ok None | Some m => Some <$> json_text (encode m) end.

(** The receiver changes only when there is no error; a nil one panics then. *)
Definition UnmarshalBinary {A} (decode : decoder A) (zero : A) (m : option A) (b : string)
    : deref (option A * option error) :=
  match json_document (trim_nul b) ≫= decode zero with
  | Err err => Val (m, Some err)
  | Ok res => match m with Some _ => Val (Some res, None) | None => NilDeref end
  end.

Definition Boot_MarshalBinary := MarshalBinary encode_Boot.
Definition CPU_MarshalBinary := MarshalBinary (encode_CPU empty_slice).
Definition IoPerf_MarshalBinary := MarshalBinary encode_IoPerf.
Definition Disk_MarshalBinary := MarshalBinary encode_Disk.
Definition Gpu_MarshalBinary := MarshalBinary encode_Gpu.
Definition Interface_MarshalBinary := MarshalBinary (encode_Interface empty_slice).
Definition Memory_MarshalBinary := MarshalBinary encode_Memory.
Definition SystemVendor_MarshalBinary := MarshalBinary encode_SystemVendor.
Definition HardwareInfo_MarshalBinary := MarshalBinary (encode_HardwareInfo empty_slice).
Definition EventInfo_MarshalBinary := MarshalBinary encode_EventInfo.
Definition UpgradeStatus_MarshalBinary := MarshalBinary encode_UpgradeStatus.
Definition WorkloadStatus_MarshalBinary := MarshalBinary (encode_WorkloadStatus show_time).
Definition Heartbeat_MarshalBinary := MarshalBinary (encode_Heartbeat show_time empty_slice).
Definition RegistrationInfo_MarshalBinary := MarshalBinary (encode_RegistrationInfo empty_slice).
Definition RegistrationResponse_MarshalBinary := MarshalBinary encode_RegistrationResponse.
Definition DataPath_MarshalBinary := MarshalBinary encode_DataPath.
Definition DataConfiguration_MarshalBinary := MarshalBinary (encode_DataConfiguration empty_slice).
Definition HardwareProfileConfiguration_MarshalBinary := MarshalBinary encode_HardwareProfileConfiguration.
Definition HeartbeatConfiguration_MarshalBinary := MarshalBinary encode_HeartbeatConfiguration.
Definition ImageRegistries_MarshalBinary := MarshalBinary encode_ImageRegistries.
Definition LogsCollectionInformationSyslogConfig_MarshalBinary := MarshalBinary encode_LogsCollectionInformationSyslogConfig.
Definition LogsCollectionInformation_MarshalBinary := MarshalBinary encode_LogsCollectionInformation.
Definition MetricsAllowList_MarshalBinary := MarshalBinary (encode_MetricsAllowList empty_slice).
Definition ContainerMetrics_MarshalBinary := MarshalBinary encode_ContainerMetrics.
Definition Metrics_MarshalBinary := MarshalBinary (encode_Metrics empty_slice).
Definition MetricsRetention_MarshalBinary := MarshalBinary encode_MetricsRetention.
Definition SystemMetricsConfiguration_MarshalBinary := MarshalBinary (encode_SystemMetricsConfiguration empty_slice).
Definition MetricsConfiguration_MarshalBinary := MarshalBinary (encode_MetricsConfiguration empty_slice).
Definition OsInformation_MarshalBinary := MarshalBinary encode_OsInformation.
Definition S3StorageConfiguration_MarshalBinary := MarshalBinary encode_S3StorageConfiguration.
Definition StorageConfiguration_MarshalBinary := MarshalBinary encode_StorageConfiguration.
Definition DeviceConfiguration_MarshalBinary := MarshalBinary (encode_DeviceConfiguration empty_slice).
Definition Secret_MarshalBinary := MarshalBinary encode_Secret.
Definition Workload_MarshalBinary := MarshalBinary (encode_Workload empty_slice).
Definition DeviceConfigurationMessage_MarshalBinary := MarshalBinary (encode_DeviceConfigurationMessage empty_slice).
Definition Message_MarshalBinary := MarshalBinary (encode_Message show_time raw_content empty_slice).
Definition MessageResponse_MarshalBinary := MarshalBinary encode_MessageResponse.

Definition Boot_UnmarshalBinary := UnmarshalBinary decode_Boot zero_Boot.
Definition CPU_UnmarshalBinary := UnmarshalBinary decode_CPU zero_CPU.
Definition IoPerf_UnmarshalBinary := UnmarshalBinary decode_IoPerf zero_IoPerf.
Definition Disk_UnmarshalBinary := UnmarshalBinary decode_Disk zero_Disk.
Definition Gpu_UnmarshalBinary := UnmarshalBinary decode_Gpu zero_Gpu.
Definition Interface_UnmarshalBinary := UnmarshalBinary decode_Interface zero_Interface.
Definition Memory_UnmarshalBinary := UnmarshalBinary decode_Memory zero_Memory.
Definition SystemVendor_UnmarshalBinary := UnmarshalBinary decode_SystemVendor zero_SystemVendor.
Definition HardwareInfo_UnmarshalBinary := UnmarshalBinary decode_HardwareInfo zero_HardwareInfo.
Definition EventInfo_UnmarshalBinary := UnmarshalBinary decode_EventInfo zero_EventInfo.
Definition UpgradeStatus_UnmarshalBinary := UnmarshalBinary decode_UpgradeStatus zero_UpgradeStatus.
Definition WorkloadStatus_UnmarshalBinary := UnmarshalBinary (decode_WorkloadStatus parse_time) zero_WorkloadStatus.
Definition Heartbeat_UnmarshalBinary := UnmarshalBinary (decode_Heartbeat parse_time) zero_Heartbeat.
Definition RegistrationInfo_UnmarshalBinary := UnmarshalBinary decode_RegistrationInfo zero_RegistrationInfo.
Definition RegistrationResponse_UnmarshalBinary := UnmarshalBinary decode_RegistrationResponse zero_RegistrationResponse.
Definition DataPath_UnmarshalBinary := UnmarshalBinary decode_DataPath zero_DataPath.
Definition HardwareProfileConfiguration_UnmarshalBinary := UnmarshalBinary decode_HardwareProfileConfiguration zero_HardwareProfileConfiguration.
Definition HeartbeatConfiguration_UnmarshalBinary := UnmarshalBinary decode_HeartbeatConfiguration zero_HeartbeatConfiguration.
Definition ImageRegistries_UnmarshalBinary := UnmarshalBinary decode_ImageRegistries zero_ImageRegistries.
Definition LogsCollectionInformationSyslogConfig_UnmarshalBinary := UnmarshalBinary decode_LogsCollectionInformationSyslogConfig zero_LogsCollectionInformationSyslogConfig.
Definition LogsCollectionInformation_UnmarshalBinary := UnmarshalBinary decode_LogsCollectionInformation zero_LogsCollectionInformation.
Definition MetricsAllowList_UnmarshalBinary := UnmarshalBinary decode_MetricsAllowList zero_MetricsAllowList.
Definition ContainerMetrics_UnmarshalBinary := UnmarshalBinary decode_ContainerMetrics zero_ContainerMetrics.
Definition Metrics_UnmarshalBinary := UnmarshalBinary decode_Metrics zero_Metrics.
Definition MetricsRetention_UnmarshalBinary := UnmarshalBinary decode_MetricsRetention zero_MetricsRetention.
Definition SystemMetricsConfiguration_UnmarshalBinary := UnmarshalBinary decode_SystemMetricsConfiguration zero_SystemMetricsConfiguration.
Definition MetricsConfiguration_UnmarshalBinary := UnmarshalBinary decode_MetricsConfiguration zero_MetricsConfiguration.
Definition OsInformation_UnmarshalBinary := UnmarshalBinary decode_OsInformation zero_OsInformation.
Definition S3StorageConfiguration_UnmarshalBinary := UnmarshalBinary decode_S3StorageConfiguration zero_S3StorageConfiguration.
Definition StorageConfiguration_UnmarshalBinary := UnmarshalBinary decode_StorageConfiguration zero_StorageConfiguration.
Definition DeviceConfiguration_UnmarshalBinary := UnmarshalBinary decode_DeviceConfiguration zero_DeviceConfiguration.
Definition Secret_UnmarshalBinary := UnmarshalBinary decode_Secret zero_Secret.
Definition DataConfiguration_UnmarshalBinary := UnmarshalBinary decode_DataConfiguration zero_DataConfiguration.
Definition Workload_UnmarshalBinary := UnmarshalBinary decode_Workload zero_Workload.
Definition DeviceConfigurationMessage_UnmarshalBinary := UnmarshalBinary decode_DeviceConfigurationMessage zero_DeviceConfigurationMessage.
Definition Message_UnmarshalBinary := UnmarshalBinary (decode_Message parse_time raw_text false) new_Message.
Definition MessageResponse_UnmarshalBinary := UnmarshalBinary (decode_MessageResponse raw_text false) new_MessageResponse.

(** [JSONProducer] and [JSONConsumer] on a message. *)
#[export] Instance message_stream : JSON models.Message := {|
  Produce m := stream_text (encode_Message show_time raw_content empty_slice m);
  Decode t := stream_document t ≫= decode_Message parse_time raw_text true new_Message;
|}.

(** What a content holds for the handlers: they write it again and read that. *)
Definition content_read {A} (decode : decoder A) (zero : A) (c : models.Content) : result A :=
  decode zero (default JNull (document raw_content empty_slice c)).

(** ** Theorems *)

(** The library reads what it makes of the document as this document; it does not
    when a string is no UTF-8, or ends the document in zero bytes. *)
Definition kept_by_text (j : json) : Prop := ∀ b, json_text j = Ok b → json_document (trim_nul b) = Ok j.

(** What the one method writes of a value that fits, the other reads again,
    whatever the receiver held; [received] tells how the value is seen there. *)
Definition round_trips {A B} (received : A → B) (fits : B → Prop) (encode : A → json)
    (marshal : option A → result (option string)) (unmarshal : option B → string → deref (option B * option error)) : Prop :=
  ∀ m m0 b, fits (received m) → kept_by_text (encode m) →
    marshal (Some m) = Ok (Some b) → unmarshal (Some m0) b = Val (Some (received m), None).

Lemma reads_back {A B} (e : A → json) (d : decoder B) z m m' m0 b :
  kept_by_text (e m) → MarshalBinary e (Some m) = Ok (Some b) → d z (e m) = Ok m' →
  UnmarshalBinary d z (Some m0) b = Val (Some m', None).
Proof.
  intros Hk Hb Hd. simpl in Hb. destruct (json_text (e m)) as [t|] eqn:E; [|done].
  injection Hb as ->. unfold UnmarshalBinary. rewrite (Hk _ E). simpl. by rewrite Hd.
Qed.

Lemma round_trips_as {A B} (f : A → B) P (e : A → json) (e' : B → json) (d : decoder B) z :
  Codec P e' d z → (∀ m, e' (f m) = e m) → round_trips f P e (MarshalBinary e) (UnmarshalBinary d z).
Proof. intros C He m m0 b Hm Hk Hb. eapply reads_back; [done..|]. rewrite <- He. by apply decode_encode. Qed.

Lemma round_trips_codec {A} P (e : A → json) (d : decoder A) z :
  Codec P e d z → round_trips id P e (MarshalBinary e) (UnmarshalBinary d z).
Proof. intros C. by eapply round_trips_as. Qed.

(** The response, as it is read. *)
Definition received_MessageResponse (UseNumber : bool) (m : models.MessageResponse) : result agent.MessageResponse :=
  content ← response_content raw_text UseNumber (models.MessageResponse_Content m);
  Ok (agent.mkMessageResponse content (models.MessageResponse_Directive m) (models.MessageResponse_MessageID m)).

(** The two methods of every type. *)
Record methods_round_trip : Prop := {
  rt_Boot : round_trips id anything encode_Boot Boot_MarshalBinary Boot_UnmarshalBinary;
  rt_CPU : round_trips id (fits_CPU 64) (encode_CPU empty_slice) CPU_MarshalBinary CPU_UnmarshalBinary;
  rt_IoPerf : round_trips id (fits_IoPerf 64) encode_IoPerf IoPerf_MarshalBinary IoPerf_UnmarshalBinary;
  rt_Disk : round_trips id (fits_Disk 64) encode_Disk Disk_MarshalBinary Disk_UnmarshalBinary;
  rt_Gpu : round_trips id anything encode_Gpu Gpu_MarshalBinary Gpu_UnmarshalBinary;
  rt_Interface : round_trips id (fits_Interface 64) (encode_Interface empty_slice) Interface_MarshalBinary Interface_UnmarshalBinary;
  rt_Memory : round_trips id (fits_Memory 64) encode_Memory Memory_MarshalBinary Memory_UnmarshalBinary;
  rt_SystemVendor : round_trips id anything encode_SystemVendor SystemVendor_MarshalBinary SystemVendor_UnmarshalBinary;
  rt_HardwareInfo : round_trips id (fits_HardwareInfo 64) (encode_HardwareInfo empty_slice) HardwareInfo_MarshalBinary HardwareInfo_UnmarshalBinary;
  rt_EventInfo : round_trips id anything encode_EventInfo EventInfo_MarshalBinary EventInfo_UnmarshalBinary;
  rt_UpgradeStatus : round_trips id anything encode_UpgradeStatus UpgradeStatus_MarshalBinary UpgradeStatus_UnmarshalBinary;
  rt_WorkloadStatus : round_trips id (fits_WorkloadStatus parse_time show_time) (encode_WorkloadStatus show_time) WorkloadStatus_MarshalBinary WorkloadStatus_UnmarshalBinary;
  rt_Heartbeat : round_trips id (fits_Heartbeat parse_time show_time 64) (encode_Heartbeat show_time empty_slice) Heartbeat_MarshalBinary Heartbeat_UnmarshalBinary;
  rt_RegistrationInfo : round_trips id (fits_RegistrationInfo 64) (encode_RegistrationInfo empty_slice) RegistrationInfo_MarshalBinary RegistrationInfo_UnmarshalBinary;
  rt_RegistrationResponse : round_trips id anything encode_RegistrationResponse RegistrationResponse_MarshalBinary RegistrationResponse_UnmarshalBinary;
  rt_DataPath : round_trips id anything encode_DataPath DataPath_MarshalBinary DataPath_UnmarshalBinary;
  rt_HardwareProfileConfiguration : round_trips id anything encode_HardwareProfileConfiguration HardwareProfileConfiguration_MarshalBinary HardwareProfileConfiguration_UnmarshalBinary;
  rt_HeartbeatConfiguration : round_trips id (fits_HeartbeatConfiguration 64) encode_HeartbeatConfiguration HeartbeatConfiguration_MarshalBinary HeartbeatConfiguration_UnmarshalBinary;
  rt_ImageRegistries : round_trips id anything encode_ImageRegistries ImageRegistries_MarshalBinary ImageRegistries_UnmarshalBinary;
  rt_LogsCollectionInformationSyslogConfig : round_trips id anything encode_LogsCollectionInformationSyslogConfig LogsCollectionInformationSyslogConfig_MarshalBinary LogsCollectionInformationSyslogConfig_UnmarshalBinary;
  rt_LogsCollectionInformation : round_trips id fits_LogsCollectionInformation encode_LogsCollectionInformation LogsCollectionInformation_MarshalBinary LogsCollectionInformation_UnmarshalBinary;
  rt_MetricsAllowList : round_trips id anything (encode_MetricsAllowList empty_slice) MetricsAllowList_MarshalBinary MetricsAllowList_UnmarshalBinary;
  rt_ContainerMetrics : round_trips id fits_ContainerMetrics encode_ContainerMetrics ContainerMetrics_MarshalBinary ContainerMetrics_UnmarshalBinary;
  rt_Metrics : round_trips id fits_Metrics (encode_Metrics empty_slice) Metrics_MarshalBinary Metrics_UnmarshalBinary;
  rt_MetricsRetention : round_trips id fits_MetricsRetention encode_MetricsRetention MetricsRetention_MarshalBinary MetricsRetention_UnmarshalBinary;
  rt_SystemMetricsConfiguration : round_trips id fits_SystemMetricsConfiguration (encode_SystemMetricsConfiguration empty_slice) SystemMetricsConfiguration_MarshalBinary SystemMetricsConfiguration_UnmarshalBinary;
  rt_MetricsConfiguration : round_trips id fits_MetricsConfiguration (encode_MetricsConfiguration empty_slice) MetricsConfiguration_MarshalBinary MetricsConfiguration_UnmarshalBinary;
  rt_OsInformation : round_trips id anything encode_OsInformation OsInformation_MarshalBinary OsInformation_UnmarshalBinary;
  rt_S3StorageConfiguration : round_trips id fits_S3StorageConfiguration encode_S3StorageConfiguration S3StorageConfiguration_MarshalBinary S3StorageConfiguration_UnmarshalBinary;
  rt_StorageConfiguration : round_trips id fits_StorageConfiguration encode_StorageConfiguration StorageConfiguration_MarshalBinary StorageConfiguration_UnmarshalBinary;
  rt_DeviceConfiguration : round_trips id (fits_DeviceConfiguration 64) (encode_DeviceConfiguration empty_slice) DeviceConfiguration_MarshalBinary DeviceConfiguration_UnmarshalBinary;
  rt_Secret : round_trips id anything encode_Secret Secret_MarshalBinary Secret_UnmarshalBinary;
  rt_DataConfiguration : round_trips received_DataConfiguration anything (encode_DataConfiguration empty_slice) DataConfiguration_MarshalBinary DataConfiguration_UnmarshalBinary;
  rt_Workload : round_trips received_Workload fits_Workload (encode_Workload empty_slice) Workload_MarshalBinary Workload_UnmarshalBinary;
  rt_DeviceConfigurationMessage : round_trips received_DeviceConfigurationMessage (fits_DeviceConfigurationMessage 64) (encode_DeviceConfigurationMessage empty_slice) DeviceConfigurationMessage_MarshalBinary DeviceConfigurationMessage_UnmarshalBinary;
  rt_Message m m0 m' b : fits_Message parse_time show_time 64 m →
    kept_by_text (encode_Message show_time raw_content empty_slice m) → Message_MarshalBinary (Some m) = Ok (Some b) →
    received raw_text false raw_content empty_slice m = Ok m' → Message_UnmarshalBinary (Some m0) b = Val (Some m', None);
  rt_MessageResponse m m0 m' b : kept_by_text (encode_MessageResponse m) →
    MessageResponse_MarshalBinary (Some m) = Ok (Some b) →
    received_MessageResponse false m = Ok m' → MessageResponse_UnmarshalBinary (Some m0) b = Val (Some m', None);
}.

Lemma methods_codec : empty_list empty_slice → methods_round_trip.
Proof.
  intros He. assert (64 ≤ 64)%Z as Hw by done. split.
  - by apply round_trips_codec, codec_Boot.
  - by apply round_trips_codec, codec_CPU.
  - by apply round_trips_codec, codec_IoPerf.
  - by apply round_trips_codec, codec_Disk.
  - by apply round_trips_codec, codec_Gpu.
  - by apply round_trips_codec, codec_Interface.
  - by apply round_trips_codec, codec_Memory.
  - by apply round_trips_codec, codec_SystemVendor.
  - by apply round_trips_codec, codec_HardwareInfo.
  - by apply round_trips_codec, codec_EventInfo.
  - by apply round_trips_codec, codec_UpgradeStatus.
  - by apply round_trips_codec, codec_WorkloadStatus.
  - by apply round_trips_codec, codec_Heartbeat.
  - by apply round_trips_codec, codec_RegistrationInfo.
  - by apply round_trips_codec, codec_RegistrationResponse.
  - by apply round_trips_codec, codec_DataPath.
  - by apply round_trips_codec, codec_HardwareProfileConfiguration.
  - by apply round_trips_codec, codec_HeartbeatConfiguration.
  - by apply round_trips_codec, codec_ImageRegistries.
  - by apply round_trips_codec, codec_LogsCollectionInformationSyslogConfig.
  - by apply round_trips_codec, codec_LogsCollectionInformation.
  - by apply round_trips_codec, codec_MetricsAllowList.
  - by apply round_trips_codec, codec_ContainerMetrics.
  - by apply round_trips_codec, codec_Metrics.
  - by apply round_trips_codec, codec_MetricsRetention.
  - by apply round_trips_codec, codec_SystemMetricsConfiguration.
  - by apply round_trips_codec, codec_MetricsConfiguration.
  - by apply round_trips_codec, codec_OsInformation.
  - by apply round_trips_codec, codec_S3StorageConfiguration.
  - by apply round_trips_codec, codec_StorageConfiguration.
  - by apply round_trips_codec, codec_DeviceConfiguration.
  - by apply round_trips_codec, codec_Secret.
  - eapply round_trips_as; [by apply codec_agent_DataConfiguration|apply write_received_DataConfiguration].
  - eapply round_trips_as; [by apply codec_agent_Workload|apply write_received_Workload].
  - eapply round_trips_as; [by apply codec_agent_DeviceConfigurationMessage|apply write_received_DeviceConfigurationMessage].
  - intros m m0 m' b Hf Hk Hb Hr. eapply reads_back; [exact Hk|done|]. rewrite <- Hr. by eapply decode_encode_Message.
  - intros m m0 m' b Hk Hb Hr. eapply reads_back; [exact Hk|done|]. rewrite <- Hr. apply decode_encode_MessageResponse.
Qed.

(** What the receiver has of a message: the consumer of the server, or
    [UnmarshalBinary]. *)
Definition gets (UseNumber : bool) (m m' : models.Message) : Prop :=
  received raw_text UseNumber raw_content empty_slice m = Ok m' ∧
  let j := encode_Message show_time raw_content empty_slice m in
  fits_Message parse_time show_time 64 m →
  if UseNumber then ∀ t, Produce m = Ok t → stream_document t = Ok j → Decode t = Ok m'
  else ∀ m0 b, kept_by_text j → Message_MarshalBinary (Some m) = Ok (Some b) →
    Message_UnmarshalBinary (Some m0) b = Val (Some m', None).

Lemma gets_received u m m' :
  empty_list empty_slice → received raw_text u raw_content empty_slice m = Ok m' → gets u m m'.
Proof.
  intros He Hm. split; [done|]. intros j Hf. destruct u.
  - intros t _ Ht. simpl. rewrite Ht, <- Hm. by eapply decode_encode_Message.
  - intros m0 b Hk Hb. by eapply (rt_Message (methods_codec He)).
Qed.

Lemma content_arrives {A} UseNumber (P : A → Prop) encode (decode : decoder A) zero {C : Codec P encode decode zero}
    {Pl : Plain UseNumber P encode} m a :
  document raw_content empty_slice (models.Message_Content m) = Some (encode a) →
  raw_content (raw_text (encode a)) = Some (encode a) → P a →
  ∃ m', received raw_text UseNumber raw_content empty_slice m = Ok m' ∧
    models.Message_Directive m' = models.Message_Directive m ∧ content_read decode zero (models.Message_Content m') = Ok a.
Proof.
  intros Hc Hr Ha. pose proof (decode_encode a Ha) as Hd. pose proof (plain_encode UseNumber a Ha) as Hp.
  unfold plain in Hp. destruct (encode_object a) as [fs Hfs]. unfold received, received_content. rewrite Hc, Hp.
  eexists. split; [done|]. split; [done|]. unfold content_read.
  assert (document raw_content empty_slice (models.RawContent (raw_text (encode a))) = Some (encode a)) as Hdoc.
  { unfold document. simpl. rewrite Hr. simpl. by rewrite Hfs. }
  simpl. rewrite Hdoc. exact Hd.
Qed.

(** *** What the handlers make of it *)
Context {R : EdgeDeviceRepository} {DR : EdgeDeploymentRepository} {TLS : CSRSigner}.
Context {U : UnicodeTables} (initialNamespace : string).

(** The library reads the contents that the handlers ask about as above. *)
Definition reads_contents (e : event api) : Prop :=
  let 'Ev o a := e in
  match o return api_ans o → Prop with
  | UnmarshalHeartbeat c => λ hb, hb = content_read (decode_Heartbeat parse_time) zero_Heartbeat c
  | UnmarshalRegistrationInfo c => λ info, info = content_read decode_RegistrationInfo zero_RegistrationInfo c
  | _ => λ _, True
  end a.

(** The processing of a heartbeat, with the answer to its device. *)
Definition heartbeat_answer (deviceID : string) (hb : models.Heartbeat) : go (Responder models.MessageResponse) :=
  err ← Process (mkNotification deviceID initialNamespace hb 0);
  match err with
  | Some err => Ret (if IsNotFound err then NotFound else InternalServerError)
  | None => Ret (OK None)
  end.

Lemma post_heartbeat deviceID m hb tr out :
  models.Message_Directive m = "heartbeat"%string →
  content_read (decode_Heartbeat parse_time) zero_Heartbeat (models.Message_Content m) = Ok hb →
  exec (PostDataMessageForDevice initialNamespace deviceID m) tr out → Forall reads_contents tr →
  ∃ tr', tr = Ev (S := api) (UnmarshalHeartbeat (models.Message_Content m)) (Ok hb) :: tr' ∧ exec (heartbeat_answer deviceID hb) tr' out.
Proof.
  intros Hd Hc He Hr. unfold PostDataMessageForDevice in He. rewrite Hd in He. simpl in He.
  apply exec_call_inv in He as (a & tr' & -> & He). apply Forall_cons in Hr as [Ha _]. simpl in Ha.
  rewrite Hc in Ha. subst a. by exists tr'.
Qed.

Lemma post_registration deviceID m info tr out :
  models.Message_Directive m = "registration"%string →
  content_read decode_RegistrationInfo zero_RegistrationInfo (models.Message_Content m) = Ok info →
  exec (PostDataMessageForDevice initialNamespace deviceID m) tr out → Forall reads_contents tr →
  ∃ tr', tr = Ev (S := api) (UnmarshalRegistrationInfo (models.Message_Content m)) (Ok info) :: tr' ∧
    exec (register initialNamespace deviceID m info) tr' out.
Proof.
  intros Hd Hc He Hr. unfold PostDataMessageForDevice in He. rewrite Hd in He. simpl in He.
  apply exec_call_inv in He as (a & tr' & -> & He). apply Forall_cons in Hr as [Ha _]. simpl in Ha.
  rewrite Hc in Ha. subst a. by exists tr'.
Qed.

(** C13: Messages arrive as they were sent. Of every type of [models] and every
    value that JSON can keep (numbers within the width of their field,
    frequencies that are finite, times that their text gives back, strings that
    their text gives back), [UnmarshalBinary] makes of what [MarshalBinary]
    wrote the same value again, whatever the receiver held, and however empty
    lists are written; of a message and of a response to one, the content as a
    document. Through the consumer of the server, which keeps the digits of a
    number, or through [UnmarshalBinary], which makes floats of the numbers in a
    content (so these must have no more bits than a float), a heartbeat that a
    device sends is, if the server's library reads what it is asked to read, the
    very one that is processed, and the answer is the answer to it; the
    information of a registration is the one that the device is registered with.
    A configuration that is sent is the one that the device reads, and so is the
    answer to a registration. *)
Theorem messages_arrive :
  empty_list empty_slice →
  methods_round_trip ∧
  (∀ UseNumber m hb, let j := encode_Heartbeat show_time empty_slice hb in
    document raw_content empty_slice (models.Message_Content m) = Some j → raw_content (raw_text j) = Some j →
    fits_Heartbeat parse_time show_time (number_width UseNumber) hb →
    ∃ m', gets UseNumber m m' ∧
      content_read (decode_Heartbeat parse_time) zero_Heartbeat (models.Message_Content m') = Ok hb ∧
      ∀ deviceID tr out, models.Message_Directive m = "heartbeat"%string →
        exec (PostDataMessageForDevice initialNamespace deviceID m') tr out → Forall reads_contents tr →
        ∃ tr', tr = Ev (S := api) (UnmarshalHeartbeat (models.Message_Content m')) (Ok hb) :: tr' ∧
          exec (heartbeat_answer deviceID hb) tr' out) ∧
  (∀ UseNumber m info, let j := encode_RegistrationInfo empty_slice info in
    document raw_content empty_slice (models.Message_Content m) = Some j → raw_content (raw_text j) = Some j →
    fits_RegistrationInfo (number_width UseNumber) info →
    ∃ m', gets UseNumber m m' ∧
      content_read decode_RegistrationInfo zero_RegistrationInfo (models.Message_Content m') = Ok info ∧
      ∀ deviceID tr out, models.Message_Directive m = "registration"%string →
        exec (PostDataMessageForDevice initialNamespace deviceID m') tr out → Forall reads_contents tr →
        ∃ tr', tr = Ev (S := api) (UnmarshalRegistrationInfo (models.Message_Content m')) (Ok info) :: tr' ∧
          exec (register initialNamespace deviceID m' info) tr' out) ∧
  (∀ UseNumber m dc, let j := encode_DeviceConfigurationMessage empty_slice dc in
    models.Message_Content m = models.ConfigurationContent dc → raw_content (raw_text j) = Some j →
    fits_DeviceConfigurationMessage (number_width UseNumber) (received_DeviceConfigurationMessage dc) →
    ∃ m', gets UseNumber m m' ∧
      models.Message_Directive m' = models.Message_Directive m ∧
      content_read decode_DeviceConfigurationMessage zero_DeviceConfigurationMessage (models.Message_Content m') =
        Ok (received_DeviceConfigurationMessage dc)) ∧
  (∀ UseNumber m r, let j := encode_RegistrationResponse r in
    models.MessageResponse_Content m = Some r → raw_content (raw_text j) = Some j →
    ∃ m', received_MessageResponse UseNumber m = Ok m' ∧
      decode_MessageResponse raw_text UseNumber new_MessageResponse (encode_MessageResponse m) = Ok m' ∧
      agent.MessageResponse_Directive m' = models.MessageResponse_Directive m ∧
      agent.MessageResponse_MessageID m' = models.MessageResponse_MessageID m ∧
      content_read decode_RegistrationResponse zero_RegistrationResponse (agent.MessageResponse_Content m') = Ok r).
Proof.
  intros He. assert (∀ u, (number_width u ≤ 64)%Z) as Hw by by intros [].
  split_and!.
  - by apply methods_codec.
  - intros u m hb j Hd Hr Hf.
    assert (Codec (fits_Heartbeat parse_time show_time (number_width u)) (encode_Heartbeat show_time empty_slice)
      (decode_Heartbeat parse_time) zero_Heartbeat) as HC by by apply codec_Heartbeat.
    assert (Plain u (fits_Heartbeat parse_time show_time (number_width u)) (encode_Heartbeat show_time empty_slice))
      as HP by by apply plain_Heartbeat.
    destruct (content_arrives u _ _ _ _ (C := HC) (Pl := HP) m hb Hd Hr Hf) as (m' & Hm & Hdir & Hc). exists m'.
    split_and!; [by apply gets_received|done|]. intros deviceID tr out Hh. rewrite <- Hdir in Hh. by apply post_heartbeat.
  - intros u m info j Hd Hr Hf.
    assert (Codec (fits_RegistrationInfo (number_width u)) (encode_RegistrationInfo empty_slice)
      decode_RegistrationInfo zero_RegistrationInfo) as HC by by apply codec_RegistrationInfo.
    assert (Plain u (fits_RegistrationInfo (number_width u)) (encode_RegistrationInfo empty_slice))
      as HP by by apply plain_RegistrationInfo.
    destruct (content_arrives u _ _ _ _ (C := HC) (Pl := HP) m info Hd Hr Hf) as (m' & Hm & Hdir & Hc). exists m'.
    split_and!; [by apply gets_received|done|]. intros deviceID tr out Hh. rewrite <- Hdir in Hh. by apply post_registration.
  - intros u m dc j Hd Hr Hf.
    assert (Codec (fits_DeviceConfigurationMessage (number_width u)) (write_DeviceConfigurationMessage empty_slice)
      decode_DeviceConfigurationMessage zero_DeviceConfigurationMessage) as HC by by apply codec_agent_DeviceConfigurationMessage.
    assert (Plain u (fits_DeviceConfigurationMessage (number_width u)) (write_DeviceConfigurationMessage empty_slice))
      as HP by by apply plain_agent_DeviceConfigurationMessage.
    unfold j in Hr. rewrite <- write_received_DeviceConfigurationMessage in Hr.
    destruct (content_arrives u _ _ _ _ (C := HC) (Pl := HP) m (received_DeviceConfigurationMessage dc))
      as (m' & Hm & Hdir & Hc); [|done..|exists m'; split_and!; [by apply gets_received|done..]].
    unfold document. rewrite Hd. simpl. by rewrite write_received_DeviceConfigurationMessage.
  - intros u m r j Hd Hr. unfold received_MessageResponse. rewrite decode_encode_MessageResponse, Hd. unfold response_content.
    assert (Plain u anything encode_RegistrationResponse) as HP by apply _.
    assert (untyped u j = Ok j) as Hj by by apply (plain_encode (Plain := HP) u r).
    fold j. rewrite Hj. eexists. split_and!; [done..|]. unfold content_read, document. simpl. rewrite Hr. unfold j. simpl.
    by apply (decode_encode (Codec := codec_RegistrationResponse)).
Qed.
End binary.
