(* ===== verification/Conforming.v ===== *)
(** * What the specification allows, the code reads

    A document that a schema of the embedded specification accepts is read by
    the structures of [models] without an error, and what is read passes
    [Validate]: a device that keeps to the specification is never refused. Two
    things the specification does not say have to be asked for: the names of a
    document differ from those of the specification by more than the case of
    letters, or not at all, and its numbers fit. *)
From S2P Require Import Prelude Effects K8s Models Validation EmbeddedSpec Schema Floats Wire Decode.
From Stdlib Require Import SpecFloat Ascii.
#[local] Set Warnings "-register-all".

(** ** Tidy documents *)

(** The names of the properties of all definitions. *)
Fixpoint properties_of (s : schema) : list string :=
  match s with
  | SArray items => properties_of items
  | SObject props additional =>
      concat ((λ p, p.1 :: properties_of p.2) <$> props) ++ match additional with Some s => properties_of s | None => [] end
  | _ => []
  end.
Definition property_names : list string := Eval vm_compute in concat ((λ p, properties_of p.2) <$> definitions).

Definition exact_name (name : string) : bool :=
  forallb (λ tag, negb (matches tag name) || String.eqb tag name) property_names.
Definition number_fits (n : Z) : bool := in_width 64 n && finite (float_of_integer n).

Fixpoint tidy (j : json) : bool :=
  match j with
  | JInt n => number_fits n
  | JNum f => finite f
  | JArr l => forallb tidy l
  | JObj fs => forallb (λ p : string * json, exact_name p.1 && tidy p.2) fs
  | _ => true
  end.

(** ** Reading what a schema accepts *)
Section reads.
Context (parse_time : string → result Timestamp) (raw_text : json → string) (UseNumber : bool).
Context (show_time : Timestamp → string) (is_date_time registered : string → bool).
Abbreviation accepted := (accepts definitions is_date_time).

(** A value that the schema accepts is read, and [P] is kept. *)
Definition reads {A} (d : decoder A) (s : schema) (P Q : A → Prop) : Prop :=
  ∀ cur v, P cur → tidy v = true → accepted v s = true → ∃ a, d cur v = Ok a ∧ Q a.

Lemma reads_string (P : string → Prop) enum :
  (∀ t, in_enum enum t = true → P t) → reads decode_string (SString enum false) P P.
Proof.
  intros HP cur v _ _ Ha. destruct v; try done. simpl in Ha. apply andb_true_iff in Ha as [? _]. eexists. split; [done|]. by apply HP.
Qed.
Lemma reads_int P m e : (∀ n, P n) → reads (decode_int 64) (SInteger m e) P P.
Proof.
  intros HP cur v _ Ht Ha. destruct v as [| |n| | | |]; try done. apply andb_true_iff in Ht as [Ht _].
  simpl. rewrite Ht. by eexists.
Qed.
Lemma reads_bool P : (∀ b, P b) → reads decode_bool SBoolean P P.
Proof. intros HP cur v _ _ Ha. destruct v; try done. by eexists. Qed.
Lemma reads_float P : (∀ f, P f) → reads decode_float SNumber P P.
Proof.
  intros HP cur v _ Ht Ha. destruct v as [| |n|f| | |]; try done; [|by eexists].
  apply andb_true_iff in Ht as [_ Ht]. unfold decode_float. rewrite Ht. by eexists.
Qed.

(** Dates of the schema are read as dates of the registry. *)
Hypothesis dates_read : ∀ s, is_date_time s = true → ∃ t, parse_time s = Ok t ∧ registered (show_time t) = true.
#[local] Instance registry : Formats := λ t, registered (show_time t).

Lemma reads_time : reads (decode_time parse_time) (SString None true) legal_time legal_time.
Proof.
  intros cur v _ _ Ha. destruct v; try done. simpl in Ha. destruct (dates_read _ Ha) as (t & Ht & Hr). exists t. split; [done|].
  by right.
Qed.

Lemma reads_ref {A} (d : decoder A) n s P Q :
  assoc n definitions = Some s → resolve definitions s = Some s → reads d s P Q → reads d (SRef n) P Q.
Proof.
  intros Hn Hs H cur v HP Ht Ha. apply H; [done..|]. by rewrite <- (accepts_ref _ _ _ _ _ Hn Hs).
Qed.

(** What is there can be nil, what is read is not. *)
Definition is_there {A} (P : A → Prop) (o : option A) : Prop := ∃ a, o = Some a ∧ P a.

Lemma reads_pointer {A} (d : decoder A) z s P :
  P z → accepted JNull s = false → reads d s P P → reads (decode_pointer d z) s (on_some P) (is_there P).
Proof.
  intros Hz Hn H cur v HP Ht Ha. assert (P (default z cur)) as Hc by (destruct cur; [by apply HP|done]).
  destruct (H _ v Hc Ht Ha) as (a & Hd & Hq). exists (Some a). split; [|by exists a].
  unfold decode_pointer. destruct v; try congruence; by rewrite Hd.
Qed.

Lemma reads_weaken {A} (d : decoder A) s (P P' Q Q' : A → Prop) :
  (∀ a, P' a → P a) → (∀ a, Q a → Q' a) → reads d s P Q → reads d s P' Q'.
Proof. intros HP HQ H cur v Hc Ht Ha. destruct (H cur v (HP _ Hc) Ht Ha) as (a & ? & ?). eauto. Qed.

Lemma reads_slice {A} (d : decoder A) z s P Q :
  P z → (∀ a, Q a → P a) → reads d s P Q → reads (decode_slice d z) (SArray s) (Forall Q) (Forall Q).
Proof.
  intros Hz HQP H cur v HP Ht Ha. destruct v as [| | | | |l|]; try done. simpl in Ht, Ha.
  assert (Forall P cur) as Hcur by by eapply Forall_impl. clear HP. simpl.
  revert cur Hcur. induction l as [|v l IH]; intros cur Hcur; simpl; [by eexists|].
  simpl in Ht, Ha. apply andb_true_iff in Ht as [Htv Htl]. apply andb_true_iff in Ha as [Hav Hal].
  destruct (H (default z (head cur)) v) as (a & -> & Hq); [by destruct Hcur|done..|]. simpl.
  destruct (IH Htl Hal (tail cur)) as (l' & -> & Hl); [by destruct Hcur|]. simpl. eexists. split; [done|]. by constructor.
Qed.

(** ** Fields *)
Section object.
Context (fs : list (string * json)) (props : list (string * schema)) (additional : option schema).
Hypothesis fields_accepted : forallb (field_ok definitions is_date_time props additional) fs = true.
Hypothesis fields_tidy : forallb (λ p : string * json, exact_name p.1 && tidy p.2) fs = true.

Lemma field_reads {A} tag (d : decoder A) s P cur :
  assoc tag props = Some s → existsb (String.eqb tag) property_names = true → reads d s P P → P cur →
  ∃ a, field fs tag d cur = Ok a ∧ P a.
Proof.
  intros Hs Hp Hd. unfold field. revert cur.
  apply existsb_exists in Hp as (tag' & Hin & <-%String.eqb_eq).
  assert (∀ v, v ∈ values tag fs → tidy v = true ∧ accepted v s = true) as Hv.
  { intros v ([k v'] & -> & [Hm Hk]%list_elem_of_filter)%list_elem_of_fmap.
    pose proof (proj1 (forallb_forall _ _) fields_tidy _ (proj1 (list_elem_of_In _ _) Hk)) as Ht.
    pose proof (proj1 (forallb_forall _ _) fields_accepted _ (proj1 (list_elem_of_In _ _) Hk)) as Ha.
    simpl in Hm, Ht. apply andb_true_iff in Ht as [He Ht]. split; [done|].
    pose proof (proj1 (forallb_forall _ _) He _ Hin) as Hexact. simpl in Hexact. rewrite Hm in Hexact.
    apply String.eqb_eq in Hexact as ->. unfold field_ok in Ha. simpl in Ha. by rewrite Hs in Ha. }
  induction (values tag fs) as [|v vs IH]; intros cur Hc; [by eexists|]. simpl.
  destruct (Hv v) as [Ht Ha]; [left|]. destruct (Hd cur v Hc Ht Ha) as (a & -> & HPa). simpl.
  apply IH; [|done]. intros v' Hv'. apply Hv. by right.
Qed.
End object.

Lemma reads_object {A} (d : decoder A) props additional P :
  (∀ cur fs, P cur → forallb (field_ok definitions is_date_time props additional) fs = true →
     forallb (λ p : string * json, exact_name p.1 && tidy p.2) fs = true → ∃ a, d cur (JObj fs) = Ok a ∧ P a) →
  reads d (SObject props additional) P P.
Proof.
  intros H cur v HP Ht Ha. destruct v as [| | | | | |fs]; try done. by apply H.
Qed.

(** ** The types *)
Lemma reads_pointer_any {A} (d : decoder A) z s :
  accepted JNull s = false → reads d s anything anything → reads (decode_pointer d z) s anything anything.
Proof.
  intros Hn H. eapply reads_weaken; [| |apply (reads_pointer d z s anything); [exact I|done|done]]; intros; [intros ? _|]; exact I.
Qed.
Lemma reads_slice_any {A} (d : decoder A) z s :
  reads d s anything anything → reads (decode_slice d z) (SArray s) anything anything.
Proof.
  intros H. assert (∀ l : list A, Forall anything l) as Hl by (intros l; apply Forall_true; intros; exact I).
  eapply reads_weaken; [| |by apply (reads_slice d z s anything anything)]; intros; [done|exact I].
Qed.
Lemma reads_pointer_some {A} (d : decoder A) z s P :
  P z → accepted JNull s = false → reads d s P P → reads (decode_pointer d z) s (on_some P) (on_some P).
Proof. intros Hz Hn H. eapply reads_weaken; [done| |by apply reads_pointer]. intros o (a & -> & Ha) a' [= <-]. done. Qed.
(** Of a list of pointers, none is read as nil. *)
Lemma reads_pointers {A} (d : decoder A) z s P :
  P z → accepted JNull s = false → reads d s P P →
  reads (decode_slice (decode_pointer d z) None) (SArray s) (Forall (is_there P)) (Forall (is_there P)).
Proof.
  intros Hz Hn H. eapply (reads_slice _ _ _ (on_some P)); [done| |by apply reads_pointer].
  intros o (a & -> & Ha) a' [= <-]. done.
Qed.

Ltac reads_value :=
  first [assumption | apply reads_string; intros; exact I | apply reads_int; intros; exact I | apply reads_bool; intros; exact I
        | apply reads_float; intros; exact I
        | apply reads_slice_any; reads_value | apply reads_pointer_any; [vm_compute; reflexivity|reads_value] ].
(** The next field, with what is known of it. *)
Ltac read_field P tac :=
  lazymatch goal with
  | Ha : forallb (field_ok _ _ ?props _) ?fs = true, Ht : forallb _ ?fs = true |- ∃ _, (field ?fs ?tag ?d ?cur ≫= _) = Ok _ ∧ _ =>
      let a := fresh "a" in let E := fresh "E" in let H := fresh "Hread" in
      let s := eval vm_compute in (default SAny (assoc tag props)) in
      destruct (field_reads fs _ _ Ha Ht tag d s P cur) as (a & E & H);
      [reflexivity|vm_compute; reflexivity|tac|first [exact I|done]|rewrite E; clear E; cbn [mbind result_mbind]]
  end.
Ltac read_fields := repeat read_field uconstr:(anything) ltac:(reads_value).
Ltac reads_type :=
  eapply reads_ref; [reflexivity|reflexivity|]; apply reads_object; intros cur fs Hcur Ha Ht.

Ltac read_end := eexists; split; [reflexivity|first [exact I|done]].

Lemma reads_Boot : reads decode_Boot (SRef "boot") anything anything.
Proof. reads_type. unfold decode_Boot, object. read_fields. read_end. Qed.
Lemma reads_IoPerf : reads decode_IoPerf (SRef "io_perf") anything anything.
Proof. reads_type. unfold decode_IoPerf, object. read_fields. read_end. Qed.
Lemma reads_Gpu : reads decode_Gpu (SRef "gpu") anything anything.
Proof. reads_type. unfold decode_Gpu, object. read_fields. read_end. Qed.
Lemma reads_Memory : reads decode_Memory (SRef "memory") anything anything.
Proof. reads_type. unfold decode_Memory, object. read_fields. read_end. Qed.
Lemma reads_SystemVendor : reads decode_SystemVendor (SRef "system_vendor") anything anything.
Proof. reads_type. unfold decode_SystemVendor, object. read_fields. read_end. Qed.
Lemma reads_Interface : reads decode_Interface (SRef "interface") anything anything.
Proof. reads_type. unfold decode_Interface, object. read_fields. read_end. Qed.
Lemma reads_CPU : reads decode_CPU (SRef "cpu") anything anything.
Proof. reads_type. unfold decode_CPU, object. read_fields. read_end. Qed.
Lemma reads_Disk : reads decode_Disk (SRef "disk") anything anything.
Proof. pose proof reads_IoPerf. reads_type. unfold decode_Disk, object. read_fields. read_end. Qed.

(** No disk, graphics card or interface is read as nil. *)
Definition hardware_whole (m : models.HardwareInfo) : Prop :=
  Forall (is_there anything) (models.HardwareInfo_Disks m) ∧ Forall (is_there anything) (models.HardwareInfo_Gpus m) ∧
  Forall (is_there anything) (models.HardwareInfo_Interfaces m).

Lemma reads_HardwareInfo : reads decode_HardwareInfo (SRef "hardware-info") hardware_whole hardware_whole.
Proof.
  pose proof reads_Boot. pose proof reads_CPU. pose proof reads_Memory. pose proof reads_SystemVendor.
  reads_type. unfold decode_HardwareInfo, object. destruct Hcur as (Hd & Hg & Hi).
  read_field uconstr:(anything) ltac:(reads_value). read_field uconstr:(anything) ltac:(reads_value).
  read_field uconstr:(Forall (is_there anything)) ltac:(by apply reads_pointers; [exact I|vm_compute|apply reads_Disk]).
  read_field uconstr:(Forall (is_there anything)) ltac:(by apply reads_pointers; [exact I|vm_compute|apply reads_Gpu]).
  read_field uconstr:(anything) ltac:(reads_value).
  read_field uconstr:(Forall (is_there anything)) ltac:(by apply reads_pointers; [exact I|vm_compute|apply reads_Interface]).
  read_fields. read_end.
Qed.

Lemma reads_RegistrationInfo :
  reads decode_RegistrationInfo (SRef "registration-info")
    (λ m, on_some hardware_whole (models.RegistrationInfo_Hardware m))
    (λ m, on_some hardware_whole (models.RegistrationInfo_Hardware m)).
Proof.
  reads_type. unfold decode_RegistrationInfo, object. read_field uconstr:(anything) ltac:(reads_value).
  read_field uconstr:(on_some hardware_whole) ltac:(apply reads_pointer_some; [done|vm_compute; reflexivity|apply reads_HardwareInfo]).
  read_end.
Qed.

Ltac reads_enum := apply reads_string; intros t Hin; right; apply existsb_exists in Hin as (t' & Hin%list_elem_of_In & ->%String.eqb_eq); exact Hin.

Lemma reads_EventInfo : reads decode_EventInfo (SRef "event-info") EventInfo_valid EventInfo_valid.
Proof.
  reads_type. unfold decode_EventInfo, object. do 2 read_field uconstr:(anything) ltac:(reads_value).
  read_field uconstr:(one_of ["info"; "warn"]%string) ltac:(reads_enum). read_end.
Qed.

Lemma reads_UpgradeStatus : reads decode_UpgradeStatus (SRef "upgrade-status") UpgradeStatus_valid UpgradeStatus_valid.
Proof.
  reads_type. unfold decode_UpgradeStatus, object. read_field uconstr:(anything) ltac:(reads_value).
  read_field uconstr:(one_of ["succeeded"; "failed"]%string) ltac:(reads_enum).
  read_field uconstr:(anything) ltac:(reads_value). read_end.
Qed.

Lemma reads_WorkloadStatus :
  reads (decode_WorkloadStatus parse_time) (SRef "workload-status") WorkloadStatus_valid WorkloadStatus_valid.
Proof.
  reads_type. unfold decode_WorkloadStatus, object. destruct Hcur as [Hd Hs].
  read_field uconstr:(legal_time) ltac:(apply reads_time). read_field uconstr:(anything) ltac:(reads_value).
  read_field uconstr:(one_of ["deploying"; "running"; "crashed"; "stopped"]%string) ltac:(reads_enum).
  read_end.
Qed.

Record heartbeat_whole (h : models.Heartbeat) : Prop := {
  whole_events : Forall (is_there EventInfo_valid) (models.Heartbeat_Events h);
  whole_hardware : on_some hardware_whole (models.Heartbeat_Hardware h);
  whole_status : one_of ["up"; "degraded"]%string (models.Heartbeat_Status h);
  whole_upgrade : on_some UpgradeStatus_valid (models.Heartbeat_Upgrade h);
  whole_workloads : Forall (is_there WorkloadStatus_valid) (models.Heartbeat_Workloads h);
}.

Lemma reads_Heartbeat : reads (decode_Heartbeat parse_time) (SRef "heartbeat") heartbeat_whole heartbeat_whole.
Proof.
  reads_type. unfold decode_Heartbeat, object. destruct Hcur as [He Hh Hs Hu Hw].
  read_field uconstr:(Forall (is_there EventInfo_valid)) ltac:(apply reads_pointers; [by left|vm_compute; reflexivity|apply reads_EventInfo]).
  read_field uconstr:(on_some hardware_whole) ltac:(apply reads_pointer_some; [done|vm_compute; reflexivity|apply reads_HardwareInfo]).
  read_field uconstr:(one_of ["up"; "degraded"]%string) ltac:(reads_enum).
  read_field uconstr:(on_some UpgradeStatus_valid) ltac:(apply reads_pointer_some; [by left|vm_compute; reflexivity|apply reads_UpgradeStatus]).
  read_field uconstr:(anything) ltac:(reads_value).
  read_field uconstr:(Forall (is_there WorkloadStatus_valid)) ltac:(apply reads_pointers; [by split; left|vm_compute; reflexivity|apply reads_WorkloadStatus]).
  read_end.
Qed.

(** *** Content, which can be anything *)
Lemma untyped_tidy : ∀ j, tidy j = true → ∃ j', untyped UseNumber j = Ok j'.
Proof.
  assert (∀ f j, finite f = true → ∃ j', (if UseNumber then Ok j else untyped_number f) = Ok j') as Hf.
  { intros f j H. destruct UseNumber; [by eexists|]. unfold untyped_number. rewrite H. by eexists. }
  fix IH 1. intros j Ht. destruct j as [|b|n|f|s|l|fs]; try (by eexists); simpl in Ht.
  - apply andb_true_iff in Ht as [_ Ht]. by apply Hf.
  - by apply Hf.
  - simpl. assert (∃ l', mapM (untyped UseNumber) l = Ok l') as [l' ->]; [|by eexists].
    induction l as [|j l IHl]; [by eexists|]. simpl in Ht. apply andb_true_iff in Ht as [Hj Hl].
    destruct (IH j Hj) as [j' Hj']. destruct (IHl Hl) as [l' Hl']. exists (j' :: l'). simpl. rewrite Hj'. simpl in Hl' |- *.
    by rewrite Hl'.
  - simpl. assert (∃ fs', mapM (λ p : string * json, v ← untyped UseNumber p.2; Ok (p.1, v)) fs = Ok fs') as [fs' ->]; [|by eexists].
    induction fs as [|[k j] fs IHfs]; [by eexists|]. simpl in Ht. apply andb_true_iff in Ht as [[_ Hj]%andb_true_iff Hfs].
    destruct (IH j Hj) as [j' Hj']. destruct (IHfs Hfs) as [fs' Hfs']. exists ((k, j') :: fs'). simpl. rewrite Hj'.
    simpl in Hfs' |- *. by rewrite Hfs'.
Qed.

Lemma reads_Content s : reads (decode_Content raw_text UseNumber) s anything anything.
Proof.
  intros cur v _ Ht _. destruct (untyped_tidy v Ht) as [j Hj]. unfold decode_Content.
  destruct v; [eexists; split; [done|exact I]|..]; rewrite Hj; eexists; (split; [done|exact I]).
Qed.

Lemma reads_Message : reads (decode_Message parse_time raw_text UseNumber) (SRef "message") Message_valid Message_valid.
Proof.
  reads_type. unfold decode_Message, object. destruct Hcur as [Hs Hm].
  read_field uconstr:(anything) ltac:(apply reads_Content). do 2 read_field uconstr:(anything) ltac:(reads_value).
  read_field uconstr:(anything) ltac:(apply reads_Content). read_field uconstr:(anything) ltac:(reads_value).
  read_field uconstr:(legal_time) ltac:(apply reads_time).
  read_field uconstr:(one_of ["connection-status"; "command"; "event"; "data"]%string) ltac:(reads_enum).
  read_fields. read_end.
Qed.

(** *** What [Validate] and the handlers make of it *)
Lemma present_there {A} (P : A → Prop) l : Forall (is_there P) l → present l = true.
Proof. unfold present, each. induction 1 as [|o l (a & -> & _) _ IH]; [done|exact IH]. Qed.

Lemma hardware_whole_present o :
  on_some hardware_whole o → match o with Some hw => hardware_present hw | None => true end = true.
Proof.
  destruct o as [hw|]; [|done]. intros H. destruct (H hw eq_refl) as (Hd & Hg & Hi). unfold hardware_present.
  by rewrite (present_there _ _ Hd), (present_there _ _ Hg), (present_there _ _ Hi).
Qed.

Lemma heartbeat_whole_valid h : heartbeat_whole h → Heartbeat_valid h ∧ heartbeat_present h = true.
Proof.
  intros [He Hh Hs Hu Hw]. split.
  - split; [|done| |].
    + intros e Hin. rewrite Forall_forall in He. by destruct (He _ Hin) as (e' & [= ->] & ?).
    + intros u Hin. by apply Hu.
    + intros w Hin. rewrite Forall_forall in Hw. by destruct (Hw _ Hin) as (w' & [= ->] & ?).
  - unfold heartbeat_present. rewrite (present_there _ _ He), (present_there _ _ Hw). by apply hardware_whole_present.
Qed.

(** C38: A device that keeps to the specification is never refused. A document that
    the schema of a message, a heartbeat or a registration accepts in the
    document that the server embeds is read without an error, what is read
    passes [Validate], and it has none of the null entries that the handlers
    would dereference. Asked for are names that differ from those of the
    specification by more than the case of letters or not at all (the decoder
    does not look at case, the schema does), numbers that fit, and that dates of
    the schema are read as dates of the registry. Names that occur twice,
    unknown names, and everything the content of a message can hold are allowed.
    *)
Theorem conforming_is_read j :
  tidy j = true →
  (accepted j (SRef "message") = true →
     ∃ m, decode_Message parse_time raw_text UseNumber new_Message j = Ok m ∧ Message_Validate m = None) ∧
  (accepted j (SRef "heartbeat") = true →
     ∃ hb, decode_Heartbeat parse_time zero_Heartbeat j = Ok hb ∧ Heartbeat_Validate hb = None ∧ heartbeat_present hb = true) ∧
  (accepted j (SRef "registration-info") = true →
     ∃ info, decode_RegistrationInfo zero_RegistrationInfo j = Ok info ∧
       RegistrationInfo_Validate info = None ∧ registration_present info = true).
Proof.
  intros Ht. split_and!; intros Ha.
  - destruct (reads_Message new_Message j) as (m & Hm & Hv); [by split; left|done..|].
    exists m. split; [done|]. by apply Message_Validate_iff.
  - destruct (reads_Heartbeat zero_Heartbeat j) as (hb & Hm & Hv); [by split; [constructor| |left| |constructor]|done..|].
    apply heartbeat_whole_valid in Hv as [Hv Hp]. exists hb. split_and!; [done| |done]. by apply Heartbeat_Validate_iff.
  - destruct (reads_RegistrationInfo zero_RegistrationInfo j) as (info & Hm & Hv); [done..|]. exists info. split; [done|].
    split; [|by apply hardware_whole_present]. unfold RegistrationInfo_Validate, RegistrationInfo_validateHardware.
    autorewrite with validate. split; [|done]. intros hw _. apply HardwareInfo_Validate_None.
Qed.
End reads.
