(* ===== verification/ApiDocument.v ===== *)
(** * The document of the API and the code made from it

    The paths of the embedded specification, read operation by operation, and
    what the generated server, client and URL builders have for each: the same
    routes, the same parameters, and the same statuses with the same payloads. *)
From stdpp Require Import pretty.
From S2P Require Import Prelude Effects K8s Models Normalize Calls Repositories Lookups ConfigMaps Yggdrasil Main Validation Rest Client ManagementApi UrlBuilder EmbeddedSpec Schema.
#[local] Set Warnings "-register-all".

(** ** Reading the paths *)
Record parameter_doc := mkParameterDoc {
  param_name : string;
  param_in : string;
  param_required : bool;
  param_schema : option schema;
}.

Record operation_doc := mkOperationDoc {
  doc_path : string;
  doc_method : string;
  doc_id : string;
  doc_parameters : list parameter_doc;
  doc_responses : list (string * option schema);
}.

Definition as_bool (j : json) : option bool := match j with JBool b => Some b | _ => None end.

(** A parameter in the body has a schema; the others say their type themselves. *)
Definition parameter_of (j : json) : option parameter_doc :=
  name ← get "name" j ≫= as_string;
  place ← get "in" j ≫= as_string;
  required ← optional as_bool (get "required" j);
  s ← parse 1 (default j (get "schema" j));
  Some (mkParameterDoc name place (default false required) (Some s)).

Definition response_of (p : string * json) : option (string * option schema) :=
  s ← optional (parse 1) (get "schema" p.2);
  Some (p.1, s).

Definition operation_doc_of (path : string) (p : string * json) : option operation_doc :=
  id ← get "operationId" p.2 ≫= as_string;
  parameters ← optional as_array (get "parameters" p.2);
  parameters ← mapM parameter_of (default [] parameters);
  responses ← get "responses" p.2 ≫= as_object;
  responses ← mapM response_of responses;
  Some (mkOperationDoc path p.1 id parameters responses).

Definition operations_of (document : json) : option (list operation_doc) :=
  paths ← get "paths" document ≫= as_object;
  ops ← mapM (λ p, item ← as_object p.2; mapM (operation_doc_of p.1) item) paths;
  Some (concat ops).

Definition operations : list operation_doc := Eval vm_compute in default [] (operations_of SwaggerJSON).

Lemma operations_of_documents : operations_of SwaggerJSON = Some operations ∧ operations_of FlatSwaggerJSON = Some operations.
Proof. split; vm_compute; reflexivity. Qed.

Definition statuses (op : operation_doc) : list string := (doc_responses op).*1.

(** ** What the code has *)
Section code.
Context `{JM : JSON models.Message} `{JR : JSON models.MessageResponse}.

Definition WriteResponse (e : endpoint) : response_type e → go http_response :=
  match e with
  | ControlIn => GetControl_WriteResponse
  | DataIn => GetData_WriteResponse
  | ControlOut => PostControl_WriteResponse
  | DataOut => PostData_WriteResponse
  end.

(** The operation [op] of the document is the endpoint [e]. *)
Record documents (op : operation_doc) (e : endpoint) : Prop := {
  documents_route : Rest.HandlerFor (doc_method op) (doc_path op) = Some e;
  documents_call : operation_of e = mkClientOperation (ToUpper (doc_method op)) (doc_path op);
  documents_url : url_template e = doc_path op;
  documents_parameters : doc_parameters op =
    mkParameterDoc "device_id" "path" true (Some (SString None false)) ::
    (if has_message e then [mkParameterDoc "message" "body" true (Some (SRef "message"))] else []);
  (* every response has a status of the document, and a body only where this has a schema *)
  documents_written : ∀ r, wp (WriteResponse e r) (λ tr out, tr = [] ∧ ∀ resp, out = Returned resp →
    pretty (StatusCode resp) ∈ statuses op ∧
    (Body resp ≠ NoBody → ∃ s, (pretty (StatusCode resp), Some s) ∈ doc_responses op));
  (* every status of the document is that of a response *)
  documents_status : ∀ status, status ∈ statuses op →
    ∃ r code, status = pretty code ∧ WriteResponse e r = Ret (mkHttpResponse code NoBody);
  (* the client knows the statuses of the document and no others *)
  documents_read : ∀ resp,
    (∃ code, ReadResponse e resp = APIError _ code) ↔ pretty (StatusCode resp) ∉ statuses op;
}.

Definition base_path_of (document : json) : option string := get "basePath" document ≫= as_string.

(** ** Theorems *)
Lemma pretty_Z_in (z : Z) zs : (pretty z : string) ∈ (pretty <$> zs : list string) ↔ z ∈ zs.
Proof.
  split; [|intros H; by apply list_elem_of_fmap_2].
  intros (z' & H & Hz)%list_elem_of_fmap. by apply (inj pretty) in H as ->.
Qed.

(** The statuses of the document, as numbers. *)
Definition codes (e : endpoint) : list Z :=
  (200%Z :: match e with DataOut => [400%Z] | _ => [] end) ++ [401; 403; 404; 500]%Z.

Definition doc_of (e : endpoint) : operation_doc :=
  mkOperationDoc (PathPattern (operation_of e)) (if has_message e then "post" else "get")
    (match e with
     | ControlIn => "GetControlMessageForDevice" | DataIn => "GetDataMessageForDevice"
     | ControlOut => "PostControlMessageForDevice" | DataOut => "PostDataMessageForDevice"
     end)
    (mkParameterDoc "device_id" "path" true (Some (SString None false)) ::
     (if has_message e then [mkParameterDoc "message" "body" true (Some (SRef "message"))] else []))
    ((λ code, (pretty code, if (code =? 200)%Z then
       match e with
       | ControlIn | DataIn => Some (SRef "message") | ControlOut => None
       | DataOut => Some (SRef "message-response")
       end else None)) <$> codes e).

Lemma operations_documented : operations = doc_of <$> [ControlIn; ControlOut; DataIn; DataOut].
Proof. vm_compute. reflexivity. Qed.

Lemma statuses_codes e : statuses (doc_of e) = pretty <$> codes e.
Proof. by destruct e. Qed.

Lemma write_payload_wp {P} `{JSON P} code (p : option P) (Q : list (event api) → outcome http_response → Prop) :
  (∀ b, Q [] (Returned (mkHttpResponse code b))) → Q [] (Crashed Panic) → wp (write_payload code p) Q.
Proof. intros Hr Hc. unfold write_payload. destruct p as [p|]; [|apply Hr]. destruct (Produce p); [apply Hr|apply Hc]. Qed.

(** What a response is written as. *)
Lemma WriteResponse_wp e r :
  wp (WriteResponse e r) (λ tr out, tr = [] ∧ ∀ resp, out = Returned resp →
    StatusCode resp ∈ codes e ∧ (Body resp ≠ NoBody → StatusCode resp = 200%Z ∧ e ≠ ControlOut)).
Proof.
  destruct e, r; simpl; try (apply write_payload_wp; [intros b|]);
    (split; [done|]); intros resp [= <-]; simpl; (split; [set_solver|done]).
Qed.

Lemma ReadResponse_knows e resp :
  (∃ code, ReadResponse e resp = APIError _ code) ↔ StatusCode resp ∉ codes e.
Proof.
  unfold codes. destruct e; simpl; rewrite !not_elem_of_cons;
    unfold GetControl_ReadResponse, GetData_ReadResponse, PostControl_ReadResponse, PostData_ReadResponse;
    repeat case_match; split; intros H'; try (destruct H' as [? [=]]); try (by eexists); try (split_and!; congruence || set_solver);
    destruct_and?; exfalso; congruence.
Qed.

(** The responses of an operation, without payloads. *)
Definition bare_responses (e : endpoint) : list (response_type e) :=
  match e with
  | ControlIn => [GetControlMessageForDeviceOK None; GetControlMessageForDeviceUnauthorized;
      GetControlMessageForDeviceForbidden; GetControlMessageForDeviceNotFound; GetControlMessageForDeviceInternalServerError]
  | DataIn => [GetDataMessageForDeviceOK None; GetDataMessageForDeviceUnauthorized; GetDataMessageForDeviceForbidden;
      GetDataMessageForDeviceNotFound; GetDataMessageForDeviceInternalServerError]
  | ControlOut => [PostControlMessageForDeviceOK; PostControlMessageForDeviceUnauthorized;
      PostControlMessageForDeviceForbidden; PostControlMessageForDeviceNotFound; PostControlMessageForDeviceInternalServerError]
  | DataOut => [PostDataMessageForDeviceOK None; PostDataMessageForDeviceBadRequest; PostDataMessageForDeviceUnauthorized;
      PostDataMessageForDeviceForbidden; PostDataMessageForDeviceNotFound; PostDataMessageForDeviceInternalServerError]
  end.

Lemma bare_responses_codes e :
  (λ code, Ret (mkHttpResponse code NoBody)) <$> codes e = WriteResponse e <$> bare_responses e.
Proof. by destruct e. Qed.

Lemma documents_doc_of e : documents (doc_of e) e.
Proof.
  split.
  - by destruct e.
  - by destruct e.
  - by destruct e.
  - done.
  - intros r. eapply wp_mono; [apply WriteResponse_wp|]. intros tr out [-> H]. split; [done|].
    intros resp Hout. destruct (H resp Hout) as [Hc Hb]. split; [rewrite statuses_codes; by apply pretty_Z_in|].
    intros [-> He]%Hb. destruct e; [..|done]; eexists; left.
  - rewrite statuses_codes. intros status (code & -> & Hc)%list_elem_of_fmap.
    apply (list_elem_of_fmap_2 (λ code, Ret (mkHttpResponse code NoBody) : go http_response)) in Hc.
    rewrite bare_responses_codes in Hc. apply list_elem_of_fmap in Hc as (r & Hr & _). by exists r, code.
  - intros resp. by rewrite statuses_codes, pretty_Z_in, ReadResponse_knows.
Qed.

(** C19: The document that the server embeds says what the code does. Both copies
    can be read, have the base path of the server and of the client, and
    describe the same operations, one for each endpoint and no others. What the
    document says of an operation holds of the generated code: the server routes
    its method and path to the endpoint, and the client and the URL builder use
    them too; it takes the device and, if its method posts, a message; the
    server writes the statuses of the document and no others, with a body only
    where the document has a schema for it, and each of them for some response;
    and the client knows exactly these statuses. Whatever else the server
    routes, by method and pattern, is an operation of the document. *)
Theorem api_is_documented :
  Forall (λ document, base_path_of document = Some basePath ∧ operations_of document = Some operations)
    [SwaggerJSON; FlatSwaggerJSON] ∧
  DefaultBasePath = basePath ∧
  (∀ op, op ∈ operations → ∃ e, documents op e) ∧
  (∀ e, ∃ op, op ∈ operations ∧ documents op e) ∧
  (∀ method path e, Rest.HandlerFor method path = Some e →
     ∃ op, op ∈ operations ∧ documents op e ∧ ToUpper method = ToUpper (doc_method op) ∧ path = doc_path op).
Proof.
  assert (Hin : ∀ e, doc_of e ∈ operations) by (intros e; rewrite operations_documented; destruct e; set_solver).
  destruct operations_of_documents as [Hs Hf]. split_and!.
  - repeat constructor; done.
  - done.
  - rewrite operations_documented. intros op (e & -> & _)%list_elem_of_fmap. exists e. apply documents_doc_of.
  - intros e. exists (doc_of e). split; [done|apply documents_doc_of].
  - intros method path e He. exists (doc_of e). split; [done|]. split; [apply documents_doc_of|].
    fold (route method path) in He. rewrite route_spec in He.
    assert (Hp : ∀ p, root_path path = p → p ≠ ""%string → path = p).
    { intros p <-. unfold root_path. by destruct (String.eqb path "/"). }
    repeat (case_decide; [destruct_and?; simplify_eq; split; [done|by apply Hp]|]). done.
Qed.
End code.
