(* ===== verification/Decency.v ===== *)
(** * What the operator keeps true of every stored device

    Whatever runs at the same time, no device ever lists a deployment twice, and
    none has lost the connection finalizer while it still has the workload
    finalizer. The first half of this file says which calls keep that ([proper])
    and that a server with the laws of [ApiServer] then answers devices of that
    kind only ([expected]); the second half shows for every activity of the
    operator that it makes such calls, as long as it gets such answers. *)
From S2P Require Import Prelude Effects Interleave Rely Conduct K8s Labels Utils Models V1alpha1 Normalize Hardware Calls ApiServer Repositories Heartbeat Lookups Fmt Concurrent Secrets Yggdrasil DeviceSide EdgeDeploymentController EdgeDeviceLabelsController EdgeDeviceController LabelsConvergence Storage.
Import v1alpha1.

(** The finalizers go in the order of the goodbye. *)
Definition ordered (d : EdgeDevice) : Prop :=
  has YggdrasilWorkloadFinalizer d = true → has YggdrasilConnectionFinalizer d = true.

Definition decent (d : EdgeDevice) : Prop := distinct d ∧ ordered d.

(** [fs] are the finalizers of [d], under deletion, less the next one to go:
    first that of the workloads, then that of the connection. *)
Definition released (d : EdgeDevice) (fs : list string) : Prop :=
  under_deletion d = true ∧
  (has YggdrasilWorkloadFinalizer d = true ∧
     fs = without_finalizer YggdrasilWorkloadFinalizer (Finalizers (EdgeDevice_Meta d)) ∨
   has YggdrasilWorkloadFinalizer d = false ∧ has YggdrasilConnectionFinalizer d = true ∧
     fs = without_finalizer YggdrasilConnectionFinalizer (Finalizers (EdgeDevice_Meta d))).

Section decency.
Context (initialNamespace : string) (seen : EdgeDevice → Prop).

(** A device in memory that has the finalizers of a stored one. *)
Definition traced (d : EdgeDevice) : Prop :=
  ∃ d0, seen d0 ∧ key_of d0 = key_of d ∧ Finalizers (EdgeDevice_Meta d) = Finalizers (EdgeDevice_Meta d0).

(** Read, and read or computed since. *)
Definition known (d : EdgeDevice) : Prop := decent d ∧ seen d.
Definition held (d : EdgeDevice) : Prop := decent d ∧ traced d.

(** What a patch may do to the finalizers: nothing, put back what was stored, or
    take the next one from a device under deletion. *)
Definition tidy (old new : EdgeDevice) : Prop :=
  Finalizers (EdgeDevice_Meta old) = Finalizers (EdgeDevice_Meta new) ∨
  ordered new ∧ ∃ d0, seen d0 ∧ key_of d0 = key_of new ∧
    (Finalizers (EdgeDevice_Meta new) = Finalizers (EdgeDevice_Meta d0) ∨ released d0 (Finalizers (EdgeDevice_Meta new))).

(** The calls that keep devices decent; a device is created as a registration
    creates it. *)
Definition proper (o : api_op) : Prop :=
  match o with
  | CreateEdgeDevice d => ∃ deviceID now, d = new_device initialNamespace deviceID now
  | PatchEdgeDevice old new => key_of new = key_of old ∧ tidy old new
  | PatchEdgeDeviceStatus old new => key_of new = key_of old ∧ held new
  | _ => True
  end.

(** The answers of a server whose devices are decent. *)
Definition expected (o : api_op) : api_ans o → Prop :=
  match o with
  | GetEdgeDevice _ _ => λ a, ∀ d, a = Ok d → known d
  | CreateEdgeDevice _ => λ a, ∀ d, a = Ok d → held d
  | PatchEdgeDeviceStatus old _ => λ a, ∀ d, a = Ok d → held d ∧ key_of d = key_of old
  | ListEdgeDevices _ _ => λ a, ∀ ds, a = Ok ds → Forall known ds
  | _ => λ _, True
  end.

Lemma known_held d : known d → held d.
Proof. intros [Hd Hs]. split; [done|]. by exists d. Qed.

(** ** The server's side *)
Section server.
Context {W : Type} `{AS : ApiServer W} {AL : ApiServerLaws W}.

Definition decent_world (w : W) : Prop :=
  well_keyed (devices_of w) ∧ ∀ k d, devices_of w !! k = Some d → decent d.

Lemma decent_insert (w w' : W) k d :
  decent_world w → key_of d = k → decent d → devices_of w' = <[k := d]> (devices_of w) → decent_world w'.
Proof.
  intros [Hk Hd] Hkd Hdd E. split; intros k' d'; rewrite E; intros [[<- <-]|[_ H]]%lookup_insert_Some; eauto.
Qed.

Lemma decent_delete (w w' : W) k : decent_world w → devices_of w' = delete k (devices_of w) → decent_world w'.
Proof. intros [Hk Hd] E. split; intros k' d'; rewrite E; intros [_ H]%lookup_delete_Some; eauto. Qed.

Lemma decent_same (w w' : W) : decent_world w → devices_of w' = devices_of w → decent_world w'.
Proof. unfold decent_world. intros H ->. exact H. Qed.

Lemma has_finalizers f d d' :
  Finalizers (EdgeDevice_Meta d) = Finalizers (EdgeDevice_Meta d') → has f d = has f d'.
Proof. unfold has, HasFinalizer. by intros ->. Qed.

Lemma ordered_finalizers d d' :
  Finalizers (EdgeDevice_Meta d) = Finalizers (EdgeDevice_Meta d') → ordered d' → ordered d.
Proof. unfold ordered. intros E. by rewrite !(has_finalizers _ d d'). Qed.

Lemma distinct_deployments d d' : device_deployments d = device_deployments d' → distinct d' → distinct d.
Proof. unfold distinct, phases, device_deployments. by intros ->. Qed.

Lemma held_same d d' :
  key_of d' = key_of d → Finalizers (EdgeDevice_Meta d') = Finalizers (EdgeDevice_Meta d) →
  distinct d' → held d → held d'.
Proof.
  intros Hk Hf Hd [[_ Ho] (d0 & Hs & Hk0 & Hf0)]. split; [split; [done|by eapply ordered_finalizers]|].
  exists d0. split_and!; congruence.
Qed.

Lemma patched_main_decent old new d0 d :
  tidy old new → patched_main old new d0 d → decent d0 → decent d.
Proof.
  intros Hp [_ _ Hst _ Hf _] [Hd Ho]. split.
  - eapply distinct_deployments; [|exact Hd]. unfold device_deployments. by rewrite Hst.
  - unfold merge_field in Hf. case_decide as E; [by eapply ordered_finalizers|].
    destruct Hp as [Hp|[Hp _]]; [done|by eapply ordered_finalizers].
Qed.

Lemma patched_status_decent old new d0 d :
  distinct new → patched_status old new d0 d → decent d0 → decent d.
Proof.
  intros Hp [_ _ Hdep Hf _ _ _] [Hd Ho]. split; [|by eapply ordered_finalizers].
  unfold merge_field in Hdep. case_decide; by eapply distinct_deployments.
Qed.

Lemma new_device_ordered deviceID now : ordered (new_device initialNamespace deviceID now).
Proof. by intros _. Qed.

Lemma distinct_name_list d : distinct d ↔ NoDup (Deployment_Name <$> device_deployments d).
Proof. unfold distinct, phases. by rewrite <- list_fmap_compose. Qed.

(** A decent answer, decoded into an object that is in good order. *)
Lemma decoded_held s m a :
  decoded s m a → decent s → seen s → (Finalizers (EdgeDevice_Meta s) = [] → traced m) →
  ordered m → distinct m → key_of m = key_of s → held a.
Proof.
  intros [Hk _ Hf Hn _] [Hd Ho] Hs Htr Hom Hdm Hkm. rewrite distinct_name_list in Hd, Hdm. split; [split|].
  - rewrite distinct_name_list, Hn. by destruct (device_deployments s).
  - destruct (Finalizers (EdgeDevice_Meta s)) eqn:E; [by eapply ordered_finalizers|].
    eapply (ordered_finalizers a s); [by rewrite Hf, E|done].
  - destruct (Finalizers (EdgeDevice_Meta s)) eqn:E.
    + destruct (Htr eq_refl) as (d0 & Hs0 & Hk0 & Hf0). exists d0. split_and!; [done|congruence|].
      by rewrite Hf, Hf0.
    + exists s. split_and!; [done..|]. by rewrite Hf, E.
Qed.

Definition seen_world (w : W) : Prop := ∀ k d, devices_of w !! k = Some d → seen d.

(** A proper call is answered as expected, and keeps the world decent. *)
Lemma proper_expected (w : W) (o : api_op) (a : api_ans o) w' :
  decent_world w → seen_world w → (is_device_write o = false ∨ seen_world w') →
  proper o → answers w o a w' → expected o a ∧ decent_world w'.
Proof.
  intros Hw Hsw Hsw' Ho Ha. destruct (is_device_write o) eqn:E.
  - destruct Hsw' as [?|Hsw']; [done|]. destruct o; try done.
    + apply store_device in Ha. destruct a as [a|e]; [|by split; [|eapply decent_same]].
      destruct Ha as (d & _ & [Hk Hl Hr Hf Hdel Hst] & Hdec & Ew). destruct Ho as (id & now & ->).
      assert (decent d) as Hd.
      { split; [|by eapply ordered_finalizers, new_device_ordered]. unfold distinct, phases. rewrite Hst. constructor. }
      split; [|by eapply decent_insert]. intros d' [= <-].
      eapply (decoded_held _ _ _ Hdec Hd); [eapply Hsw'; by rewrite Ew, lookup_insert_eq|by rewrite Hf| |constructor|done].
      apply new_device_ordered.
    + apply patch_object in Ha. destruct a as [a|e]; [|by split; [|eapply decent_same]].
      destruct Ha as (d0 & d & Hd0 & Hp & _ & Ew). destruct Ho as [_ Ho].
      assert (decent d) as Hd by (eapply patched_main_decent; [done..|by eapply Hw]).
      split; [done|]. destruct (leaves _ _ _); [by eapply decent_delete|].
      eapply decent_insert; [done| |done|done]. rewrite (main_key _ _ _ _ Hp). by apply Hw.
    + apply patch_status in Ha. destruct a as [a|e]; [|by split; [|eapply decent_same]].
      destruct Ha as (d0 & d & Hd0 & Hp & Hdec & Ew). destruct Ho as [Hkn [[Hdn Hon] Htn]].
      assert (decent d) as Hd by (eapply patched_status_decent; [done..|by eapply Hw]).
      assert (key_of d = key_of from) as Hk by (rewrite (status_key _ _ _ _ Hp); by apply Hw).
      split; [|by eapply decent_insert]. intros d' [= <-]. split; [|by rewrite (decoded_key _ _ _ Hdec)].
      eapply (decoded_held _ _ _ Hdec Hd); [eapply Hsw'; by rewrite Ew, lookup_insert_eq|done..|congruence].
  - split; [|eapply decent_same; [done|by eapply reads_keep]].
    destruct o; try done.
    + apply get_device in Ha. intros d ->. split; [by eapply Hw|by eapply Hsw].
    + apply list_devices in Ha. intros ds ->. apply Forall_forall. intros d Hd.
      apply Ha in Hd as (n & Hn & _). split; [by eapply Hw|by eapply Hsw].
Qed.
End server.

(** ** The operator's side *)
Abbreviation behaves p := (conduct expected proper p).

(** Calls that no condition is put on, whatever the answers. *)
Definition harmless (o : api_op) : Prop := is_device_write o = false.

Lemma harmless_proper o : harmless o → proper o.
Proof. by destruct o. Qed.

Lemma behaves_harmless {A} (p : go A) : within harmless p → behaves p (λ _, True).
Proof. apply conduct_within, harmless_proper. Qed.

Lemma quiet_harmless {A} (p : go A) : within quiet p → within harmless p.
Proof. apply within_mono. intros o (H & _). by destruct o. Qed.

Lemma behaves_quiet {A} (p : go A) : within quiet p → behaves p (λ _, True).
Proof. intros H. by apply behaves_harmless, quiet_harmless. Qed.

Lemma behaves_any {A} (p : go A) (Q : A → Prop) : behaves p Q → behaves p (λ _, True).
Proof. intros H. by eapply conduct_mono. Qed.

Lemma behaves_ask (o : api_op) (Q : api_ans o → Prop) :
  proper o → (∀ a : api_ans o, expected o a → Q a) → behaves (ask o) Q.
Proof. apply (conduct_call (S := api)). Qed.

(** The results that are devices. *)
Definition known_result (r : result EdgeDevice) : Prop := ∀ d, r = Ok d → known d.
Definition known_results (r : result (list EdgeDevice)) : Prop := ∀ ds, r = Ok ds → Forall known ds.

Lemma behaves_Read name ns : behaves (edgedevice.Read name ns) known_result.
Proof. by split. Qed.

Lemma behaves_Patch old new :
  key_of new = key_of old → tidy old new → behaves (edgedevice.Patch old new) (λ _, True).
Proof. by split. Qed.

Lemma behaves_PatchStatus new old :
  key_of new = key_of old → held new →
  behaves (edgedevice.PatchStatus new old) (λ r, ∀ d, r = Ok d → held d ∧ key_of d = key_of old).
Proof. by split. Qed.

Lemma behaves_ListForSelector sel ns : behaves (edgedevice.ListForSelector sel ns) known_results.
Proof.
  unfold edgedevice.ListForSelector. destruct (LabelSelectorAsSelector sel); [|done]. by split.
Qed.

(** *** Labels and finalizers *)
Lemma behaves_updateLabels d labels : behaves (edgedevice.updateLabels d labels) (λ _, True).
Proof.
  unfold edgedevice.updateLabels. case_bool_decide; [done|]. split; [by split; [|left]|]. by intros [cp|e].
Qed.

Lemma behaves_UpdateLabels d labels : behaves (edgedevice.UpdateLabels d labels) (λ _, True).
Proof.
  unfold edgedevice.UpdateLabels. generalize [1; 2; 3]%Z as todo. intros todo.
  apply conduct_bind. eapply conduct_mono; [apply behaves_updateLabels|]. intros [[err|] d'] _; [|done].
  apply conduct_bind, (conduct_mono _ _ _ (λ _, True)); [|done].
  induction todo as [|i todo IH]; cbn [edgedevice.retryLabels]; [done|].
  apply conduct_bind, behaves_ask; [done|]. intros [] _.
  apply conduct_bind. eapply conduct_mono; [apply behaves_Read|]. intros [d2|e] _; [|exact IH].
  apply conduct_bind. eapply conduct_mono; [apply behaves_updateLabels|]. by intros [[e|] ?] _.
Qed.

Lemma behaves_RemoveFinalizer d f :
  known d → ordered (without f d) → released d (Finalizers (EdgeDevice_Meta (without f d))) → behaves (edgedevice.RemoveFinalizer d f) (λ _, True).
Proof.
  intros [_ Hs] Ho Hr. split; [|by intros [cp|e]]. split; [done|]. right. split; [done|]. exists d. auto.
Qed.

Lemma has_without f g d : has f (without g d) = true ↔ has f d = true ∧ f ≠ g.
Proof.
  clear seen. unfold has, HasFinalizer, without. simpl. rewrite !has_finalizer_spec.
  unfold without_finalizer. rewrite list_elem_of_filter. naive_solver.
Qed.

(** *** The controllers *)
Lemma set_deployments_held ds d : NoDup (Deployment_Name <$> ds) → held d → held (set_deployments ds d).
Proof. intros H. apply held_same; [done..|]. by apply distinct_name_list. Qed.

Lemma behaves_patch_labels ls d : behaves (edgedevice.Patch d (set_labels ls d)) (λ _, True).
Proof. apply behaves_Patch; [done|by left]. Qed.

Lemma hasDeployment_false d name :
  hasDeployment d name = false → name ∉ Deployment_Name <$> device_deployments d.
Proof.
  intros H (x & -> & Hx)%list_elem_of_fmap. apply not_true_iff_false in H. apply H, hasDeployment_spec. eauto.
Qed.

Lemma behaves_add_to_device name d : known d → behaves (add_to_device name d) (λ _, True).
Proof.
  intros Hd. unfold add_to_device. apply conduct_bind, (conduct_mono _ _ _ (λ _, True)).
  - destruct (hasDeployment d name) eqn:E; [done|].
    eapply conduct_mono; [apply behaves_PatchStatus; [done|]|done].
    apply set_deployments_held; [|by apply known_held]. rewrite fmap_app. apply NoDup_app. split_and!.
    + apply distinct_names, Hd.
    + intros n Hn Hn'%list_elem_of_singleton. subst n. by apply (hasDeployment_false d name).
    + apply NoDup_singleton.
  - intros [d'|e] _; [|done]. destruct (hasLabelForDeployment d' name); [done|].
    apply conduct_bind. eapply conduct_mono; [apply behaves_patch_labels|]. done.
Qed.

Lemma behaves_removeDeploymentFromDevice name d :
  known d → behaves (removeDeploymentFromDevice name d) (λ _, True).
Proof.
  intros Hd. unfold removeDeploymentFromDevice. apply conduct_bind.
  eapply conduct_mono; [apply behaves_PatchStatus; [done|]|].
  - apply set_deployments_held; [|by apply known_held]. eapply sublist_NoDup; [apply distinct_names, Hd|].
    apply fmap_sublist, sublist_filter.
  - intros [d'|e] _; [|done]. destruct (device_labels d'); [|done].
    apply conduct_bind. eapply conduct_mono; [apply behaves_patch_labels|]. done.
Qed.

Lemma behaves_for_devices body errs ds :
  (∀ d, known d → behaves (body d) (λ _, True)) → Forall known ds → behaves (for_devices body errs ds) (λ _, True).
Proof.
  intros Hb Hds. revert errs. induction Hds as [|d ds Hd _ IH]; intros errs; simpl; [done|].
  apply conduct_bind. eapply conduct_mono; [by apply Hb|]. intros [e|] _; apply IH.
Qed.

Lemma behaves_executeConcurrent Concurrency f ds :
  (0 < Concurrency < 2 ^ 63)%Z → (∀ ds, Forall known ds → behaves (f ds) (λ _, True)) →
  Forall known ds → behaves (executeConcurrent Concurrency f ds) (λ _, True).
Proof.
  intros HC Hf Hds. unfold executeConcurrent. destruct (_ =? 1)%Z; [by apply Hf|].
  unfold ExecuteConcurrent. destruct (_ || _); [done|].
  destruct (splitEdgeDevices_balanced ds Concurrency HC) as (parts & -> & Hb). simpl.
  apply conduct_bind. eapply conduct_mono; [apply (conduct_par _ _ _ (λ _, True))|done].
  intros p (part & -> & Hpart)%list_elem_of_fmap. apply Hf. apply Forall_forall. intros d Hd.
  rewrite Forall_forall in Hds. apply Hds. rewrite <- (balanced_concat _ _ _ Hb).
  apply list_elem_of_In, in_concat. exists part. by rewrite <- !list_elem_of_In.
Qed.

Lemma behaves_settle Concurrency dep labelled_ matching :
  (0 < Concurrency < 2 ^ 63)%Z → Forall known labelled_ → Forall known matching →
  behaves (settle Concurrency dep labelled_ matching) (λ _, True).
Proof.
  intros HC Hl Hm. unfold settle. destruct (DeletionTimestamp _).
  - destruct (HasFinalizer _ _); [|done]. apply conduct_bind, (conduct_mono _ _ _ (λ _, True)); [|by intros [?|]].
    unfold finalizeRemoval. apply conduct_bind, (conduct_mono _ _ _ (λ _, True)).
    + apply behaves_executeConcurrent; [done|intros; apply behaves_for_devices; [|done]; intros;
        by apply behaves_removeDeploymentFromDevice|].
      unfold merge. apply Forall_app_2; [done|]. revert Hl. generalize (list_to_set (C := gset string) (device_name <$> matching)).
      induction labelled_ as [|d ds IH]; intros X [Hd Hds]%Forall_cons || intros X _; simpl; [done|].
      case_decide; [by apply IH|]. constructor; [done|by apply IH].
    + intros errs _. destruct (errors_to_error errs); [done|]. split; [done|]. by intros [?|?].
  - apply conduct_bind, (conduct_mono _ _ _ (λ _, True)).
    + apply conduct_bind, (conduct_mono _ _ _ (λ _, True)); [|done].
      apply behaves_executeConcurrent; [done| |done]. intros. apply behaves_for_devices; [|done].
      intros. by apply behaves_add_to_device.
    + intros [e|] _; [done|]. apply conduct_bind, (conduct_mono _ _ _ (λ _, True)); [|by intros [?|]].
      apply conduct_bind, (conduct_mono _ _ _ (λ _, True)); [|done].
      apply behaves_executeConcurrent; [done| |done]. intros. apply behaves_for_devices; [|done].
      intros d Hd. unfold remove_if_not_matching. case_decide; [done|]. by apply behaves_removeDeploymentFromDevice.
Qed.

Lemma tolerate_known r ds : known_results r → tolerate r = Ok ds → Forall known ds.
Proof.
  intros H. unfold tolerate. destruct r as [ds'|e]; [intros [= <-]; by apply H|].
  destruct (IsNotFound e); [|done]. by intros [= <-].
Qed.

Lemma behaves_Reconcile_deployment Concurrency req :
  (0 < Concurrency < 2 ^ 63)%Z → behaves (EdgeDeploymentController.Reconcile Concurrency req) (λ _, True).
Proof.
  intros HC.
  assert (Hdev : ∀ dep, behaves (reconcile_devices Concurrency dep) (λ _, True)).
  { intros dep. unfold reconcile_devices. apply conduct_bind.
    eapply conduct_mono; [apply behaves_ListForSelector|]. intros r Hr.
    destruct (tolerate r) as [ls|e] eqn:El; [|done]. apply (tolerate_known _ _ Hr) in El.
    apply conduct_bind. eapply (conduct_mono _ _ _ known_results).
    - unfold getMatchingEdgeDevices. destruct (negb _).
      + apply conduct_bind_ok. eapply conduct_mono; [apply behaves_Read|]. intros [d|e] Hd; [|done].
        intros ds [= <-]. apply Forall_singleton. by apply Hd.
      + destruct (dep_selector dep); [apply behaves_ListForSelector|]. by intros ds [= <-].
    - intros r2 Hr2. destruct (tolerate r2) as [ms|e] eqn:Em; [|done]. apply (tolerate_known _ _ Hr2) in Em.
      by apply behaves_settle. }
  unfold EdgeDeploymentController.Reconcile. apply conduct_bind, (behaves_ask (GetEdgeDeployment _ _)); [done|].
  intros [dep|e] _; [|by destruct (IsNotFound e)].
  destruct (DeletionTimestamp _); [apply Hdev|]. destruct (negb _).
  - apply conduct_bind, (behaves_ask (PatchEdgeDeployment _ _)); [done|]. by intros [?|?].
  - apply conduct_bind, (conduct_mono _ _ _ (λ _, True)); [|intros [[] [?|]] _; [done..|apply Hdev]].
    unfold updateLabelsFromSelector. destruct (_ || _); [done|].
    apply conduct_bind, (behaves_ask (PatchEdgeDeployment _ _)); [done|]. by intros [?|?].
Qed.

Lemma behaves_Reconcile_labels req : behaves (EdgeDeviceLabelsController.Reconcile req) (λ _, True).
Proof.
  unfold EdgeDeviceLabelsController.Reconcile. apply conduct_bind. eapply conduct_mono; [apply behaves_Read|].
  intros [d|e] Hd; [|by destruct (IsNotFound e)]. specialize (Hd d eq_refl).
  destruct (DeletionTimestamp _); [done|]. apply conduct_bind, (conduct_mono _ _ _ (λ _, True)); [|by intros [?|]].
  unfold updateDeployments. apply conduct_bind. eapply conduct_mono; [apply conduct_permute|]. intros kvs _.
  apply conduct_bind, (conduct_mono _ _ _ (λ _, True)).
  { apply behaves_harmless, within_foldR. intros sel kv _. unfold list_and_select.
    apply within_bind_ok; [|done]. simpl. unfold edgedeployment.ListByLabel. by destruct (NewRequirement _ _ _). }
  intros [sel|e] _; [|done]. apply conduct_bind.
  eapply conduct_mono.
  { apply (conduct_wp _ _ _ (λ r, ∀ d', r = Some d' → held d' ∧ key_of d' = key_of d) (λ _, True)).
    - eapply wp_mono; [apply createUpdatedDevice_any|]. intros tr out [_ H] r ->.
      intros d' ->. specialize (H (distinct_names _ (proj1 (proj1 Hd)))). simpl in H. destruct H as [H E].
      split; [|by rewrite E]. apply (held_same d); [by rewrite E..| |by apply known_held].
      apply distinct_name_list, (in_line_nodup _ _ _ H).
    - apply behaves_harmless. apply within_bind; [apply within_permute|done]. }
  intros [d'|] [Hd' _]; [|done]. destruct (Hd' d' eq_refl) as [Hh Hk].
  apply conduct_bind. eapply conduct_mono; [by apply behaves_PatchStatus|]. intros [d2|e] Hd2; [|done].
  destruct (Hd2 d2 eq_refl) as [[[_ Ho] (d0 & Hs & Hk0 & Hf)] Hk2].
  apply conduct_bind. eapply conduct_mono; [apply behaves_Patch; [done|]|done].
  right. split; [done|]. exists d0. auto.
Qed.

Lemma behaves_Reconcile_device auto req : behaves (EdgeDeviceController.Reconcile auto req) (λ _, True).
Proof.
  unfold EdgeDeviceController.Reconcile. apply conduct_bind. eapply conduct_mono; [apply behaves_Read|].
  intros [d|e] Hd; [|by destruct (IsNotFound e)]. specialize (Hd d eq_refl).
  destruct (_ && _); [done|]. destruct (no_obc d); [|done].
  apply conduct_bind, (conduct_mono _ _ _ (λ _, True)).
  { apply behaves_harmless. unfold createOrGetObc, Storage.GetClaim, Storage.CreateClaim. within_go. }
  intros [obc|e] _; [|done]. apply conduct_bind, (conduct_mono _ _ _ (λ _, True)); [|by intros [?|]].
  unfold addObcReference. apply conduct_bind. eapply conduct_mono; [apply behaves_PatchStatus; [done|]|done].
  apply (held_same d); [done|done|apply Hd|by apply known_held].
Qed.

(** *** The endpoints *)
Section endpoints.
Context {U : UnicodeTables}.

Lemma behaves_updateStatus d h : known d → behaves (updateStatus d h) (λ _, True).
Proof.
  intros Hk. destruct (known_held _ Hk) as [[Hd Ho] _]. unfold updateStatus. apply conduct_bind, behaves_ask; [done|]. intros now _.
  apply conduct_bind, (conduct_mono _ _ _ (λ _, True)).
  { apply behaves_harmless. destruct (models.Heartbeat_Hardware h); [apply within_lift|done]. }
  intros hw _. apply conduct_bind. eapply conduct_mono.
  { apply (conduct_wp _ _ _ (λ ds, NoDup (Deployment_Name <$> ds)) (λ _, True)).
    - eapply wp_mono; [apply updateDeploymentStatuses_phases, distinct_names, Hd|].
      intros tr out H ds ->. specialize (H ds eq_refl). apply (fmap_Permutation fst) in H.
      rewrite phase_after_names, <- !list_fmap_compose in H. unfold compose in H. simpl in H.
      rewrite H. by apply distinct_names.
    - apply behaves_harmless, updateDeploymentStatuses_within. done. }
  intros ds [Hds _]. eapply conduct_mono; [apply behaves_PatchStatus; [done|]|done].
  apply (held_same d); [done|done| |by apply known_held]. by apply distinct_name_list.
Qed.

Lemma behaves_process n : behaves (process n) (λ _, True).
Proof.
  unfold process. apply conduct_bind. eapply conduct_mono; [apply behaves_Read|]. intros [d|e] Hd; [|done].
  apply conduct_bind, (conduct_mono _ _ _ (λ _, True)).
  { destruct (_ =? 0)%Z; [|done]. apply behaves_harmless. generalize (models.Heartbeat_Events (notification_Heartbeat n)).
    intros es. induction es as [|[ev|] es IH]; simpl; [done| |done]. by split. }
  intros [] _. apply conduct_bind. eapply conduct_mono; [apply behaves_updateStatus; by apply Hd|].
  intros [d'|e] _; [|done]. apply conduct_bind. eapply conduct_mono; [apply behaves_UpdateLabels|].
  by intros [[e|] ?] _.
Qed.

Lemma behaves_Process n : behaves (Process n) (λ _, True).
Proof.
  unfold Process. generalize [1; 2; 3; 4]%Z as todo, (@None error) as err. intros todo.
  revert n; induction todo as [|i todo IH]; intros n err; cbn [attempts]; [done|].
  apply conduct_bind. eapply conduct_mono; [apply behaves_process|]. intros [[e|] []] _; [|done..].
  apply conduct_bind, behaves_ask; [done|]. intros [] _. apply IH.
Qed.

Context {AL : AllowListGenerator} {RA : RegistryAuthAPI} {CM : ConfigMapAPI} {TLS : CSRSigner}.
Context {LL : LookupLaws AL RA CM TLS}.

Lemma behaves_GetControl deviceID : behaves (GetControlMessageForDevice initialNamespace deviceID) (λ _, True).
Proof.
  unfold GetControlMessageForDevice. apply conduct_bind. eapply conduct_mono; [apply behaves_Read|].
  intros [d|e] Hd; [|by destruct (IsNotFound e)]. fold (has YggdrasilWorkloadFinalizer d).
  fold (under_deletion d) (has YggdrasilConnectionFinalizer d).
  destruct (under_deletion d && negb (has YggdrasilWorkloadFinalizer d)) eqn:E; [|done].
  apply andb_true_iff in E as [Hdel Hw%negb_true_iff]. apply conduct_bind, (conduct_mono _ _ _ (λ _, True)).
  - destruct (has YggdrasilConnectionFinalizer d) eqn:Hc; [|done]. apply conduct_bind, (conduct_mono _ _ _ (λ _, True)).
    + apply behaves_RemoveFinalizer; [by apply Hd|intros [H _]%has_without; congruence|]. split; [done|]. by right.
    + intros [[e|] ?] _; [done|]. apply conduct_bind, behaves_ask; done.
  - intros [] _; [|done]. apply conduct_bind, (conduct_mono _ _ _ (λ _, True)); [|done].
    apply behaves_harmless. unfold createDisconnectCommand. within_go.
Qed.

Lemma add_workload_harmless d ws dep : within harmless (add_workload d ws dep).
Proof.
  unfold add_workload. destruct (negb _); [done|]. split; [done|].
  intros [y|e]; simpl; [|done]. apply within_bind; [apply quiet_harmless, getAuthFile_quiet|].
  intros [af|e]; [|by within_go]. apply within_bind_ok.
  - unfold workload_metrics. destruct (EdgeDeploymentSpec_Metrics _); [|done]. destruct (0 <? _)%Z; [|done].
    apply within_bind_ok; [|intros; apply within_bind; [apply within_lift|done]].
    destruct (ContainerMetricsConfiguration_AllowList _); [|done].
    apply within_bind; [apply quiet_harmless, AllowList_law|]. by intros [?|?].
  - intros ms. apply within_bind_ok; [apply quiet_harmless, Fetch_law|done].
Qed.

(** A device that stays is only read. *)
Lemma device_workloads_harmless d :
  DeletionTimestamp (EdgeDevice_Meta d) = None → within harmless (device_workloads d).
Proof.
  intros Hdel. unfold device_workloads. rewrite Hdel.
  apply within_bind_ok; [|intros deps; apply within_bind_ok; [|intros ws]].
  - generalize (@nil EdgeDeployment). induction (device_deployments d) as [|st sts IH]; intros acc; simpl; [done|].
    split; [done|]. intros [dep|e]; simpl; [apply IH|]. destruct (IsNotFound e); [apply IH|done].
  - apply within_foldR. intros ws dep _. apply add_workload_harmless.
  - apply within_bind_ok; [apply quiet_harmless, createSecretList_quiet|done].
Qed.

Lemma send_configuration_harmless deviceID d lists : within harmless (send_configuration deviceID d lists).
Proof.
  unfold send_configuration. destruct lists as [[ws ss]|e]; [|done].
  apply within_bind; [apply quiet_harmless, setStorageConfiguration_quiet|]. intros st.
  apply within_bind; [apply quiet_harmless, getDeviceMetricsConfiguration_quiet|]. intros [ms|e]; [|done].
  apply within_bind; [apply quiet_harmless, getDeviceLogConfig_quiet|]. intros [ls|e]; [|done]. within_go.
Qed.

Lemma behaves_GetData deviceID : behaves (GetDataMessageForDevice initialNamespace deviceID) (λ _, True).
Proof.
  unfold GetDataMessageForDevice. apply conduct_bind. eapply conduct_mono; [apply behaves_Read|].
  intros [d|e] Hd; [|by destruct (IsNotFound e)].
  apply conduct_bind, (conduct_mono _ _ _ (λ _, True));
    [|intros lists _; apply behaves_harmless, send_configuration_harmless].
  destruct (DeletionTimestamp (EdgeDevice_Meta d)) as [ts|] eqn:E; [|by apply behaves_harmless, device_workloads_harmless].
  unfold device_workloads. rewrite E. fold (has YggdrasilWorkloadFinalizer d).
  destruct (has YggdrasilWorkloadFinalizer d) eqn:Hw; [|done].
  apply conduct_bind, (conduct_mono _ _ _ (λ _, True)); [|by intros [[e|] ?] _].
  apply behaves_RemoveFinalizer; [by apply Hd|by intros [_ H]%has_without|].
  split; [by unfold under_deletion; rewrite E|]. by left.
Qed.

Lemma behaves_updateDeviceStatus d hw : held d → behaves (updateDeviceStatus d (initial_status hw)) (λ _, True).
Proof.
  assert (Hnew : ∀ d d', held d → initial_status hw d = Val d' → key_of d' = key_of d ∧ held d').
  { intros d0 d' Hd0 (h & _ & ->)%initial_status_Val. split; [done|]. apply (held_same d0); [done|done|constructor|done]. }
  intros Hd. unfold updateDeviceStatus. generalize [1; 2; 3]%Z as todo. intros todo.
  apply conduct_bind, conduct_lift. intros d' [Hk Hd']%Hnew; [|done].
  apply conduct_bind. eapply conduct_mono; [by apply behaves_PatchStatus|]. intros [d2|e] _; [done|].
  apply conduct_bind, (conduct_mono _ _ _ (λ _, True)); [|done].
  induction todo as [|i todo IH]; cbn [retry_status]; [done|]. apply conduct_bind, behaves_ask; [done|]. intros [] _.
  apply conduct_bind. eapply conduct_mono; [apply behaves_Read|]. intros [d3|e'] Hd3; [|exact IH].
  apply conduct_bind, conduct_lift. intros d4 [Hk4 Hd4]%Hnew; [|by apply known_held, Hd3].
  apply conduct_bind. eapply conduct_mono; [by apply behaves_PatchStatus|]. intros [?|?] _; [done|exact IH].
Qed.

Lemma behaves_failed : behaves failed_registration (λ _, True).
Proof. apply behaves_harmless. unfold failed_registration. within_go. Qed.

Lemma behaves_create_device deviceID msg info cert :
  behaves (create_device initialNamespace deviceID msg info cert) (λ _, True).
Proof.
  unfold create_device. apply conduct_bind, behaves_ask; [done|]. intros now _.
  apply conduct_bind, (behaves_ask (CreateEdgeDevice _)); [by eexists _, _|]. intros [d|e] Hd; [|apply behaves_failed].
  apply conduct_bind. eapply conduct_mono; [apply behaves_updateDeviceStatus; by apply Hd|]. intros [[e|] d'] _; [apply behaves_failed|].
  apply conduct_bind. eapply conduct_mono; [apply behaves_UpdateLabels|]. intros [[e|] ?] _; [apply behaves_failed|].
  by apply conduct_bind, behaves_ask.
Qed.

Lemma behaves_register deviceID msg info : behaves (register initialNamespace deviceID msg info) (λ _, True).
Proof.
  assert (Hs : behaves (sign_request info deviceID) (λ _, True)).
  { apply behaves_quiet. unfold sign_request. destruct (negb _); [|done]. apply within_bind_ok; [apply SignCSR_law|done]. }
  unfold register. apply conduct_bind. eapply conduct_mono; [apply behaves_Read|]. intros [d|e] _.
  - apply conduct_bind. eapply conduct_mono; [exact Hs|]. by intros [c|e'] _.
  - destruct (negb _); [done|]. apply conduct_bind. eapply conduct_mono; [exact Hs|].
    intros [c|e'] _; [apply behaves_create_device|done].
Qed.

Lemma behaves_PostData deviceID msg : behaves (PostDataMessageForDevice initialNamespace deviceID msg) (λ _, True).
Proof.
  unfold PostDataMessageForDevice. destruct (String.eqb _ _); [|destruct (String.eqb _ _); [|done]].
  - apply conduct_bind, (behaves_ask (UnmarshalHeartbeat _)); [done|]. intros [hb|e] _; [|done].
    apply conduct_bind. eapply conduct_mono; [apply behaves_Process|]. by intros [e|] _.
  - apply conduct_bind, (behaves_ask (UnmarshalRegistrationInfo _)); [done|]. intros [info|e] _; [|done].
    apply behaves_register.
Qed.
End endpoints.
End decency.
