(* ===== verification/Goodbye.v ===== *)
(** * The life of a device

    A device that is to go is not just deleted: two finalizers keep its object
    until it has been given an empty configuration and then been told to
    disconnect. Here that protocol is an abstract machine on six phases, every
    request of a device is shown to be a step of it in every world with the laws
    of [ApiServer] (nobody else writing during the request), and from the machine
    it follows that no device vanishes unheard. A request of the operator to the
    API server that takes a finalizer away can be refused, which the handlers do
    not report to the device; the machine knows of it. *)
From S2P Require Import Prelude Effects Interleave Rely Conduct K8s Labels Utils Models V1alpha1 Normalize Hardware Calls ApiServer Server Repositories Heartbeat Lookups Yggdrasil Registration DeviceSide Decency.
Import v1alpha1.

(** ** The machine *)
Inductive phase :=
  | Absent      (* there is no such device *)
  | Alive       (* as a registration makes it *)
  | Stray       (* without the workload finalizer: no registration made it *)
  | Leaving     (* under deletion, its workloads may still run *)
  | Drained     (* under deletion, without workloads, still connected *)
  | Lingering.  (* told to disconnect; somebody else's finalizer keeps it *)

Definition phase_of (o : option EdgeDevice) : phase :=
  match o with
  | None => Absent
  | Some d =>
      if under_deletion d then
        if has YggdrasilWorkloadFinalizer d then Leaving
        else if has YggdrasilConnectionFinalizer d then Drained else Lingering
      else if has YggdrasilWorkloadFinalizer d then Alive else Stray
  end.

(** A request of a device. *)
Inductive visit :=
  | FetchControl
  | FetchData
  | SendControl (m : models.Message)
  | SendData (m : models.Message).

Inductive reply :=
  | Sent (r : Responder models.Message)
  | Received (r : Responder models.MessageResponse).

(** The device is told to disconnect. *)
Definition disconnects (a : reply) : Prop :=
  match a with
  | Sent (OK (Some m)) => models.Message_Content m = models.CommandContent "disconnect" ∅
  | _ => False
  end.

(** The answer is a configuration; an empty one, or a failure. *)
Definition configures (a : reply) : Prop :=
  match a with
  | Sent (OK (Some m)) => ∃ dc, models.Message_Content m = models.ConfigurationContent dc
  | _ => False
  end.

Definition empties (a : reply) : Prop :=
  match a with
  | Sent (OK (Some m)) => ∃ dc, models.Message_Content m = models.ConfigurationContent dc ∧
      models.DeviceConfigurationMessage_Workloads dc = [] ∧ models.DeviceConfigurationMessage_Secrets dc = []
  | Sent (OK None) | Received _ => False
  | Sent _ => True
  end.

Definition failure (a : reply) : Prop :=
  match a with Sent (OK _) | Received (OK _) => False | _ => True end.

Definition registers (m : models.Message) : bool := String.eqb (models.Message_Directive m) "registration".

(** [refused] says that the server refused to take a finalizer away. *)
Inductive life (refused : Prop) : visit → phase → reply → phase → Prop :=
  (* a request that fails moves nothing, but for the half registration and the
     configuration that cannot be completed below *)
  | life_failure v p a : failure a → life refused v p a p
  | life_control m p : life refused (SendControl m) p (Received (OK None)) p
  (* a heartbeat, or a registration of a known device *)
  | life_message m p a : p ≠ Absent → life refused (SendData m) p a p
  | life_registered m r : registers m = true → life refused (SendData m) Absent (Received (OK r)) Alive
  | life_half_registered m :
      registers m = true → life refused (SendData m) Absent (Received InternalServerError) Alive
  | life_nothing p : p = Alive ∨ p = Stray ∨ p = Leaving → life refused FetchControl p (Sent (OK None)) p
  | life_goodbye a p : disconnects a → p = Lingering ∨ p = Absent → life refused FetchControl Drained a p
  | life_goodbye_refused a : refused → disconnects a → life refused FetchControl Drained a Drained
  | life_again a : disconnects a → life refused FetchControl Lingering a Lingering
  | life_configured p a : configures a → p = Alive ∨ p = Stray → life refused FetchData p a p
  | life_drained a : empties a → life refused FetchData Leaving a Drained
  | life_drained_refused a : refused → empties a → life refused FetchData Leaving a Leaving
  | life_empty p a : empties a → p = Drained ∨ p = Lingering → life refused FetchData p a p.

(** The finalizers that the device [d] is left with when the request [v] takes
    one away. *)
Definition gives_up (v : visit) (d : EdgeDevice) (fs : list string) : Prop :=
  under_deletion d = true ∧
  match v with
  | FetchData => has YggdrasilWorkloadFinalizer d = true ∧
      fs = without_finalizer YggdrasilWorkloadFinalizer (Finalizers (EdgeDevice_Meta d))
  | FetchControl => has YggdrasilWorkloadFinalizer d = false ∧ has YggdrasilConnectionFinalizer d = true ∧
      fs = without_finalizer YggdrasilConnectionFinalizer (Finalizers (EdgeDevice_Meta d))
  | _ => False
  end.

(** Every finalizer but the one given up stays, in every phase. *)
Definition finalizers_follow (v : visit) (o o' : option EdgeDevice) : Prop :=
  match o, o' with
  | None, None => True
  | None, Some d' => Finalizers (EdgeDevice_Meta d') = [YggdrasilConnectionFinalizer; YggdrasilWorkloadFinalizer]
  | Some d, None => gives_up v d []
  | Some d, Some d' => Finalizers (EdgeDevice_Meta d') = Finalizers (EdgeDevice_Meta d) ∨
      gives_up v d (Finalizers (EdgeDevice_Meta d'))
  end.

Definition refuses (e : api_event) : bool :=
  match e with Ev (PatchEdgeDevice _ _) (Err _) => true | _ => false end.
Definition refused_in (tr : list api_event) : Prop := Exists (λ e, refuses e = true) tr.

Lemma refused_in_app tr1 tr2 : refused_in (tr1 ++ tr2) ↔ refused_in tr1 ∨ refused_in tr2.
Proof. apply Exists_app. Qed.

Lemma life_mono (R R' : Prop) v p a p' : (R → R') → life R v p a p' → life R' v p a p'.
Proof. intros H []; eauto using life. Qed.

(** ** Requests are steps of the machine *)
Section refinement.
Context {U : UnicodeTables} {W : Type} `{AS : ApiServer W} {ASL : ApiServerLaws W}.
Context {AL : AllowListGenerator} {RA : RegistryAuthAPI} {CM : ConfigMapAPI} {TLS : CSRSigner}.
Context {LL : LookupLaws AL RA CM TLS} (initialNamespace : string).

Definition answer_visit (deviceID : string) (v : visit) : go reply :=
  match v with
  | FetchControl => r ← GetControlMessageForDevice initialNamespace deviceID; Ret (Sent r)
  | FetchData => r ← GetDataMessageForDevice initialNamespace deviceID; Ret (Sent r)
  | SendControl m => r ← PostControlMessageForDevice deviceID m; Ret (Received r)
  | SendData m => r ← PostDataMessageForDevice initialNamespace deviceID m; Ret (Received r)
  end.

(** Only the device at [k] may differ. *)
Definition only (k : key) (w w' : W) : Prop := ∀ k', k' ≠ k → devices_of w' !! k' = devices_of w !! k'.

Lemma unchanged_only k (w w' : W) : unchanged w w' → only k w w'.
Proof. intros E k' _. by rewrite E. Qed.

Lemma becomes_only k P (w w' : W) : becomes k P w w' → only k w w'.
Proof. intros (d & E & _) k' Hk. by rewrite E, lookup_insert_ne. Qed.

(** The device after one finalizer was taken away, or the server refused. *)
Definition stripped (refused : Prop) (f : string) (d : EdgeDevice) (w w' : W) : Prop :=
  refused ∧ unchanged w w' ∨
  ∃ d', Finalizers (EdgeDevice_Meta d') = Finalizers (EdgeDevice_Meta (without f d)) ∧
    DeletionTimestamp (EdgeDevice_Meta d') = DeletionTimestamp (EdgeDevice_Meta d) ∧
    devices_of w' = (if bool_decide (Finalizers (EdgeDevice_Meta d') = []) then delete (key_of d) (devices_of w)
                     else <[key_of d := d']> (devices_of w)).

Lemma RemoveFinalizer_swp d f (w : W) :
  devices_of w !! key_of d = Some d → under_deletion d = true → has f d = true →
  swp answers (edgedevice.RemoveFinalizer d f) w (λ tr r w', r.1 = None ∧ stripped (refused_in tr) f d w w').
Proof.
  intros Hd Hdel Hf. unfold edgedevice.RemoveFinalizer. cbv zeta. fold (without f d).
  apply swp_bind, (swp_ask (PatchEdgeDevice _ _)). intros r w1 Ha. apply patch_object in Ha.
  destruct r as [a|e]; apply swp_ret; (split; [done|]); [right|left; by split; [left|]].
  destruct Ha as (d0 & d' & Hd0 & [_ _ _ Hdel' Hfin _] & _ & Hw). rewrite Hd in Hd0. injection Hd0 as <-.
  rewrite merge_field_stored in Hfin. exists d'. split_and!; [done|done|]. rewrite Hw. unfold leaves.
  unfold under_deletion in Hdel. rewrite Hdel', Hdel.
  rewrite (bool_decide_eq_true_2 (Finalizers (EdgeDevice_Meta d) ≠ _)); [done|].
  intros E. pose proof (has_finalizers f d (without f d) E) as H. rewrite Hf in H.
  symmetry in H. apply has_without in H as [_ H]. done.
Qed.

Lemma stripped_only R f d (w w' : W) : stripped R f d w w' → only (key_of d) w w'.
Proof.
  intros [[_ E]|(d' & _ & _ & Hw)]; [by apply unchanged_only|]. intros k Hk. rewrite Hw.
  case_bool_decide; [by rewrite lookup_delete_ne|by rewrite lookup_insert_ne].
Qed.

Lemma stripped_phase R f d (w w' : W) :
  devices_of w !! key_of d = Some d → under_deletion d = true → stripped R f d w w' →
  let p := phase_of (devices_of w' !! key_of d) in
  R ∧ p = phase_of (Some d) ∨ p = phase_of (Some (without f d)) ∨
  (p = Absent ∧ ∀ g, has g d = true → g = f).
Proof.
  intros Hd Hdel [[HR E]|(d' & Hfin & Hdel' & Hw)]; [left; by rewrite E, Hd|right]. simpl. rewrite Hw. case_bool_decide as Hn.
  - right. rewrite lookup_delete_eq. split; [done|]. intros g Hg. destruct (decide (g = f)) as [|Hne]; [done|].
    assert (has g (without f d) = true) as H by (by apply has_without).
    rewrite <- (has_finalizers g d' (without f d) Hfin) in H. unfold has, HasFinalizer in H. by rewrite Hn in H.
  - left. rewrite lookup_insert_eq. unfold phase_of, under_deletion in *. rewrite !(has_finalizers _ d' (without f d) Hfin).
    rewrite Hdel'. by simpl (DeletionTimestamp _).
Qed.

Lemma stripped_finalizers R f v d (w w' : W) :
  devices_of w !! key_of d = Some d →
  gives_up v d (without_finalizer f (Finalizers (EdgeDevice_Meta d))) → stripped R f d w w' →
  finalizers_follow v (Some d) (devices_of w' !! key_of d).
Proof.
  intros Hd Hg [[_ E]|(d' & Hfin & _ & Hw)]; [rewrite E, Hd; by left|]. rewrite Hw.
  change (Finalizers (EdgeDevice_Meta (without f d))) with (without_finalizer f (Finalizers (EdgeDevice_Meta d))) in Hfin.
  rewrite <- Hfin in Hg. case_bool_decide as Hn.
  - rewrite lookup_delete_eq. simpl. by rewrite Hn in Hg.
  - rewrite lookup_insert_eq. by right.
Qed.

Definition step_of (deviceID : string) (v : visit) (w : W) (tr : list api_event) (a : reply) (w' : W) : Prop :=
  let k := (initialNamespace, deviceID) in
  life (refused_in tr) v (phase_of (devices_of w !! k)) a (phase_of (devices_of w' !! k)) ∧
  finalizers_follow v (devices_of w !! k) (devices_of w' !! k) ∧ only k w w'.

Lemma finalizers_follow_refl v o : finalizers_follow v o o.
Proof. destruct o; [by left|done]. Qed.

Lemma step_unchanged deviceID v (w w' : W) tr a :
  unchanged w w' → life (refused_in tr) v (phase_of (devices_of w !! (initialNamespace, deviceID))) a
    (phase_of (devices_of w !! (initialNamespace, deviceID))) → step_of deviceID v w tr a w'.
Proof.
  intros E H. split; [by rewrite E|]. split; [rewrite E; apply finalizers_follow_refl|by apply unchanged_only].
Qed.

Lemma step_from deviceID v (w w1 w2 : W) tr tr' a :
  unchanged w w1 → step_of deviceID v w1 tr' a w2 → step_of deviceID v w (tr ++ tr') a w2.
Proof.
  intros E. unfold step_of, only. rewrite E. intros (H & ? & ?). split_and!; [|done..].
  eapply life_mono; [|exact H]. intros ?. apply refused_in_app. by right.
Qed.

Lemma step_then deviceID v (w w' : W) tr tr' a :
  step_of deviceID v w tr a w' → step_of deviceID v w (tr ++ tr') a w'.
Proof.
  intros (H & ? & ?). split_and!; [|done..]. eapply life_mono; [|exact H]. intros ?. apply refused_in_app. by left.
Qed.

(** Every request starts by reading the device. *)
Lemma read_device deviceID v (w : W) {A} (f : result EdgeDevice → go A) (reply_of : A → reply) :
  well_keyed (devices_of w) →
  (∀ e w1, unchanged w w1 → swp answers (f (Err e)) w1 (λ tr a w', step_of deviceID v w1 tr (reply_of a) w')) →
  (∀ d w1, unchanged w w1 → devices_of w1 !! key_of d = Some d →
     key_of d = (initialNamespace, deviceID) → swp answers (f (Ok d)) w1 (λ tr a w', step_of deviceID v w1 tr (reply_of a) w')) →
  swp answers (r ← edgedevice.Read deviceID initialNamespace; f r) w (λ tr a w', step_of deviceID v w tr (reply_of a) w').
Proof.
  intros Hk He Hd. apply swp_bind, (swp_ask (GetEdgeDevice _ _)). intros r w1 Ha.
  assert (E1 : unchanged w w1) by (by eapply reads_keep). apply get_device in Ha.
  apply (swp_mono _ _ _ (λ tr a w', step_of deviceID v w1 tr (reply_of a) w')).
  - destruct r as [d|e]; [|by apply He]. pose proof (Hk _ _ Ha) as Hkd.
    apply Hd; [done| |done]. by rewrite E1, Hkd.
  - intros tr a w' H. by apply (step_from deviceID v w w1 w').
Qed.

(** Removing one finalizer of a device under deletion. *)
Lemma phase_leaving d : under_deletion d = true → has YggdrasilWorkloadFinalizer d = true → phase_of (Some d) = Leaving.
Proof. unfold phase_of. by intros -> ->. Qed.

Lemma phase_drained d :
  under_deletion d = true → has YggdrasilWorkloadFinalizer d = false →
  phase_of (Some d) = if has YggdrasilConnectionFinalizer d then Drained else Lingering.
Proof. unfold phase_of. by intros -> ->. Qed.

Lemma has_without_false f g d : has f (without g d) = false ↔ has f d = false ∨ f = g.
Proof.
  pose proof (has_without f g d). destruct (has f (without g d)), (has f d), (decide (f = g)); naive_solver.
Qed.

Lemma createDisconnectCommand_swp (w : W) :
  swp answers createDisconnectCommand w (λ _ m w', unchanged w w' ∧ disconnects (Sent (OK (Some m)))).
Proof.
  unfold createDisconnectCommand. apply swp_bind, (swp_aside NewUUID); [done|]. intros id w1 E1.
  apply swp_bind, (swp_aside Now); [done|]. intros now w2 E2. apply swp_ret. split; [same_devices|done].
Qed.

Lemma GetControl_swp deviceID (w : W) :
  decent_world w →
  swp answers (GetControlMessageForDevice initialNamespace deviceID) w (λ tr r w',
    step_of deviceID FetchControl w tr (Sent r) w').
Proof.
  intros [Hk Hdec]. unfold GetControlMessageForDevice. apply (read_device deviceID FetchControl w _ Sent); [done|..].
  { intros e w1 E. apply swp_ret. apply step_unchanged; [done|]. by apply life_failure; destruct (IsNotFound e). }
  intros d w1 E Hd Hkd. fold (under_deletion d) (has YggdrasilWorkloadFinalizer d) (has YggdrasilConnectionFinalizer d).
  unfold step_of. rewrite <- Hkd, Hd.
  assert (Hsame : ∀ w' tr a, unchanged w1 w' → life (refused_in tr) FetchControl (phase_of (Some d)) a (phase_of (Some d)) →
    life (refused_in tr) FetchControl (phase_of (Some d)) a (phase_of (devices_of w' !! key_of d)) ∧
    finalizers_follow FetchControl (Some d) (devices_of w' !! key_of d) ∧ only (key_of d) w1 w').
  { intros w' tr a E' H. rewrite E', Hd. split_and!; [done|by left|by apply unchanged_only]. }
  destruct (under_deletion d) eqn:Hdel; cbn [andb negb].
  2:{ apply swp_ret, Hsame; [done|]. unfold phase_of. rewrite Hdel. apply life_nothing. destruct (has _ d); auto. }
  destruct (has YggdrasilWorkloadFinalizer d) eqn:Hw; cbn [andb negb].
  { apply swp_ret, Hsame; [done|]. rewrite phase_leaving by done. apply life_nothing. auto. }
  pose proof (phase_drained d Hdel Hw) as Hp.
  destruct (has YggdrasilConnectionFinalizer d) eqn:Hc.
  - apply swp_bind, swp_bind.
    eapply swp_mono; [by apply (RemoveFinalizer_swp d YggdrasilConnectionFinalizer w1)|].
    intros tr [oe d'] w2 [Hoe Hs]. simpl in Hoe. subst oe. cbn [fst].
    apply swp_bind, (swp_aside (IncCounter _)); [done|]. intros [] w3 E3. apply swp_ret.
    apply swp_bind. eapply swp_mono; [apply createDisconnectCommand_swp|]. intros tr2 m w4 [E4 Hm]. apply swp_ret.
    assert (E24 : unchanged w2 w4) by same_devices. rewrite E24. split_and!.
    + rewrite Hp. destruct (stripped_phase _ _ _ _ _ Hd Hdel Hs) as [[HR H]|[H|[H _]]]; cbv zeta in H; rewrite H.
      * rewrite Hp. apply life_goodbye_refused; [|done]. rewrite !refused_in_app. by left; left.
      * apply life_goodbye; [done|]. rewrite phase_drained; [|done|]; [|by apply has_without_false; left].
        replace (has _ (without _ d)) with false; [by left|]. symmetry. apply has_without_false. by right.
      * apply life_goodbye; [done|by right].
    + eapply stripped_finalizers; [done| |exact Hs]. by split.
    + apply stripped_only in Hs. intros k' Hk'. by rewrite E24, Hs.
  - apply swp_bind, swp_ret, swp_bind. eapply swp_mono; [apply createDisconnectCommand_swp|].
    intros tr m w2 [E2 Hm]. apply swp_ret, Hsame; [done|]. rewrite Hp. by apply life_again.
Qed.

Lemma send_configuration_swp deviceID d lists (w : W) :
  swp answers (send_configuration deviceID d lists) w (λ _ r w', unchanged w w' ∧
    (failure (Sent r) ∨ configures (Sent r)) ∧ (lists = Ok ([], []) → empties (Sent r))).
Proof.
  eapply swp_mono; [apply swp_beside; [apply send_configuration_harmless|]|].
  { apply wp_and; [apply send_configuration_wp|apply send_configuration_some]. }
  intros tr r w' [[[_ H] Hn] E]. split; [done|]. destruct r as [[m|]| | |]; [|by destruct Hn|by split; [left|]..].
  destruct (H m eq_refl) as (ws & ss & dc & -> & Hm & _ & _ & Hws & Hss & _).
  split; [right; by exists dc|]. intros [= -> ->]. by exists dc.
Qed.

Lemma GetData_swp deviceID (w : W) :
  decent_world w →
  swp answers (GetDataMessageForDevice initialNamespace deviceID) w (λ tr r w',
    step_of deviceID FetchData w tr (Sent r) w').
Proof.
  intros [Hk Hdec]. unfold GetDataMessageForDevice. apply (read_device deviceID FetchData w _ Sent); [done|..].
  { intros e w1 E. apply swp_ret. apply step_unchanged; [done|]. by apply life_failure; destruct (IsNotFound e). }
  intros d w1 E Hd Hkd. rewrite E in Hd. destruct (Hdec _ _ Hd) as [_ Hord]. rewrite <- E in Hd.
  unfold step_of. rewrite <- Hkd, Hd.
  assert (Hsame : ∀ w' tr a, unchanged w1 w' → life (refused_in tr) FetchData (phase_of (Some d)) a (phase_of (Some d)) →
    life (refused_in tr) FetchData (phase_of (Some d)) a (phase_of (devices_of w' !! key_of d)) ∧
    finalizers_follow FetchData (Some d) (devices_of w' !! key_of d) ∧ only (key_of d) w1 w').
  { intros w' tr a E' H. rewrite E', Hd. split_and!; [done|by left|by apply unchanged_only]. }
  apply swp_bind. destruct (DeletionTimestamp (EdgeDevice_Meta d)) as [ts|] eqn:Hts.
  2:{ eapply swp_mono; [by apply swp_within, device_workloads_harmless|]. intros tr lists w2 E2.
      eapply swp_mono; [apply send_configuration_swp|]. intros tr2 r w3 (E3 & Hr & _).
      apply Hsame; [same_devices|]. destruct Hr; [by apply life_failure|]. apply life_configured; [done|].
      unfold phase_of, under_deletion. rewrite Hts. simpl. destruct (has _ d); auto. }
  assert (Hdel : under_deletion d = true) by (unfold under_deletion; by rewrite Hts).
  unfold device_workloads. rewrite Hts. fold (has YggdrasilWorkloadFinalizer d).
  destruct (has YggdrasilWorkloadFinalizer d) eqn:Hw.
  - apply swp_bind.
    eapply swp_mono; [by apply (RemoveFinalizer_swp d YggdrasilWorkloadFinalizer w1)|].
    intros tr [oe d'] w2 [Hoe Hs]. simpl in Hoe. subst oe. cbn [fst]. apply swp_ret.
    eapply swp_mono; [apply send_configuration_swp|]. intros tr2 r w3 (E3 & _ & Hr). specialize (Hr eq_refl).
    rewrite E3. split_and!.
    + rewrite phase_leaving by done.
      destruct (stripped_phase _ _ _ _ _ Hd Hdel Hs) as [[HR H]|[H|[_ H]]]; cbv zeta in *; try rewrite H.
      * rewrite phase_leaving by done. apply life_drained_refused; [|done]. rewrite !refused_in_app. by left; left.
      * rewrite phase_drained; [|done|by apply has_without_false; right].
        replace (has YggdrasilConnectionFinalizer _) with true; [by apply life_drained|]. symmetry. apply has_without. auto.
      * specialize (H _ (Hord Hw)). done.
    + eapply stripped_finalizers; [done| |exact Hs]. by split.
    + apply stripped_only in Hs. intros k' Hk'. by rewrite E3, Hs.
  - apply swp_ret. eapply swp_mono; [apply send_configuration_swp|]. intros tr2 r w3 (E3 & _ & Hr).
    apply Hsame; [done|]. rewrite phase_drained by done. apply life_empty; [by apply Hr|].
    destruct (has YggdrasilConnectionFinalizer d); auto.
Qed.

(** *** Heartbeats and registrations leave the goodbye alone *)

(** The finalizers and the deletion are as they were. *)
Definition steady (o o' : option EdgeDevice) : Prop :=
  match o, o' with
  | None, None => True
  | Some d, Some d' => Finalizers (EdgeDevice_Meta d') = Finalizers (EdgeDevice_Meta d) ∧
      DeletionTimestamp (EdgeDevice_Meta d') = DeletionTimestamp (EdgeDevice_Meta d)
  | _, _ => False
  end.

Lemma steady_phase o o' : steady o o' → phase_of o' = phase_of o.
Proof.
  destruct o as [d|], o' as [d'|]; try done. intros [Hf Hd].
  unfold phase_of, under_deletion. by rewrite Hd, !(has_finalizers _ d' d Hf).
Qed.

Lemma steady_finalizers v o o' : steady o o' → finalizers_follow v o o'.
Proof. destruct o, o'; try done. intros [Hf _]. by left. Qed.

Lemma attempts_absent todo err n (w : W) :
  todo ≠ [] ∨ err ≠ None → devices_of w !! (notification_Namespace n, Heartbeat.DeviceID n) = None →
  swp answers (attempts todo err n) w (λ _ r w', unchanged w w' ∧ r ≠ None).
Proof.
  revert err n w; induction todo as [|i todo IH]; intros err n w He Hn; cbn [attempts].
  { apply swp_ret. split; [done|]. by destruct He. }
  apply swp_bind. unfold process. apply swp_bind, (swp_ask (GetEdgeDevice _ _)). intros r w1 Ha.
  assert (E1 : unchanged w w1) by (by eapply reads_keep). apply get_device in Ha.
  destruct r as [d|e]; [congruence|]. apply swp_ret. destruct (negb _); [|by apply swp_ret].
  apply swp_bind, (swp_aside (Sleep _)); [done|]. intros [] w2 E2.
  assert (E : unchanged w w2) by same_devices.
  eapply swp_mono; [apply IH; [by right|by rewrite E]|]. intros tr r' w3 [E3 Hr]. split; [same_devices|done].
Qed.

Lemma Process_swp deviceID hb (w : W) :
  let k := (initialNamespace, deviceID) in
  decent_world w →
  swp answers (Process (mkNotification deviceID initialNamespace hb 0)) w (λ _ r w',
    steady (devices_of w !! k) (devices_of w' !! k) ∧ only k w w' ∧ (devices_of w !! k = None → r ≠ None)).
Proof.
  intros k [Hk Hdec]. set (n := mkNotification _ _ _ _). unfold Process. remember [1; 2; 3; 4]%Z as todo eqn:Htodo.
  assert (Hne : todo ≠ []) by (by subst todo).
  destruct (devices_of w !! k) as [d|] eqn:Hd.
  - pose proof (Hk _ _ Hd) as Hkd. rewrite <- Hkd in Hd. destruct (Hdec _ _ Hd) as [Hnd _].
    eapply swp_mono; [apply (attempts_swp todo None n d); [by left|done|done|done]|].
    intros tr r w' H. rewrite Hkd in H. split_and!; [|by eapply becomes_only|done]. destruct H as (d' & Hw & H).
    rewrite Hw, lookup_insert_eq. destruct r as [e|]; [destruct H as [->|[H _ _]]; [done|]|destruct H as [H _ _]];
      by destruct H.
  - eapply swp_mono; [apply (attempts_absent todo None n); [by left|done]|]. intros tr r w' [E Hr].
    split_and!; [by rewrite E, Hd|by apply unchanged_only|done].
Qed.

Lemma PostData_swp deviceID m (w : W) :
  decent_world w →
  swp answers (PostDataMessageForDevice initialNamespace deviceID m) w (λ tr r w',
    step_of deviceID (SendData m) w tr (Received r) w').
Proof.
  intros Hdec. unfold PostDataMessageForDevice.
  destruct (String.eqb _ _); [|destruct (String.eqb _ "registration") eqn:Hreg].
  - apply swp_bind, (swp_aside (UnmarshalHeartbeat _)); [done|]. intros [hb|e] w1 E1.
    2:{ apply swp_ret, step_unchanged; [done|]. by apply life_failure. }
    apply swp_bind. eapply swp_mono; [apply Process_swp; by eapply decent_same|].
    intros tr oe w2 (Hp & Ho & Hno). assert (Hstep : ∀ tr r,
      (devices_of w1 !! (initialNamespace, deviceID) = None → failure (Received r)) →
      step_of deviceID (SendData m) w ([Ev (S := api) (UnmarshalHeartbeat (models.Message_Content m)) (Ok hb)] ++ tr) (Received r) w2).
    { intros tr' r Hr. eapply step_from; [exact E1|]. split_and!; [|by apply steady_finalizers|done].
      rewrite (steady_phase _ _ Hp). destruct (devices_of w1 !! _) as [d|]; [|by apply life_failure, Hr].
      apply life_message. unfold phase_of. by repeat case_match. }
    destruct oe as [e|]; apply swp_ret, Hstep; [by destruct (IsNotFound e)|]. intros Hn. by destruct (Hno Hn).
  - apply swp_bind, (swp_aside (UnmarshalRegistrationInfo _)); [done|]. intros [info|e] w1 E1.
    2:{ apply swp_ret, step_unchanged; [done|]. by apply life_failure. }
    eapply swp_mono; [apply register_swp|]. intros tr r w2 H. eapply step_from; [exact E1|].
    destruct (devices_of w1 !! (initialNamespace, deviceID)) as [d|] eqn:Hd.
    + apply step_unchanged; [done|]. rewrite Hd. apply life_message. unfold phase_of. by repeat case_match.
    + assert (Hmade : becomes (initialNamespace, deviceID) (bare initialNamespace deviceID) w1 w2 →
        life (refused_in tr) (SendData m) Absent (Received r) Alive → step_of deviceID (SendData m) w1 tr (Received r) w2).
      { intros Hb Hl. split_and!; [| |by eapply becomes_only]; destruct Hb as (d & Hw & [_ Hfin Hal _]);
          rewrite Hd, Hw, lookup_insert_eq; [|done].
        replace (phase_of (Some d)) with Alive; [done|]. unfold phase_of, has, HasFinalizer. by rewrite Hal, Hfin. }
      destruct r as [r| | |]; simpl in H; try (apply step_unchanged; [done|]; by apply life_failure).
      * apply Hmade; [eapply becomes_mono; [|exact H]; by intros d []|by apply life_registered].
      * destruct H as [E|Hb]; [apply step_unchanged; [done|]; by apply life_failure|].
        apply Hmade; [done|by apply life_half_registered].
  - apply swp_ret, step_unchanged; [done|]. by apply life_failure.
Qed.

Lemma visits_swp deviceID v (w : W) :
  decent_world w → swp answers (answer_visit deviceID v) w (λ tr a w', step_of deviceID v w tr a w').
Proof.
  intros Hdec. destruct v as [| |m|m]; apply swp_bind.
  - eapply swp_mono; [by apply GetControl_swp|]. intros tr r w1 H. by apply swp_ret, step_then.
  - eapply swp_mono; [by apply GetData_swp|]. intros tr r w1 H. by apply swp_ret, step_then.
  - apply swp_ret, swp_ret, step_unchanged; [done|]. apply life_control.
  - eapply swp_mono; [by apply PostData_swp|]. intros tr r w1 H. by apply swp_ret, step_then.
Qed.

(** C8: Every request of a device is a step of the machine, with the answer the
    machine gives, started in any world whose devices are decent and with nobody
    else writing meanwhile. A request for control messages that does not fail
    tells a device to disconnect exactly when it is under deletion and has lost
    the workload finalizer, and then, unless the server refuses, the connection
    finalizer goes; a request for data takes the workload finalizer of a device
    under deletion away, unless the server refuses, and answers it by an empty
    configuration or a failure, and every other device by a configuration or a
    failure. Nothing else moves a finalizer in any phase: the other finalizers
    stay as they are, and a device vanishes only with the last one given up in
    one of these two ways. Only a registration makes a device, alive and with
    the two finalizers, and no request touches another device. *)
Theorem visits_follow_life deviceID v (w : W) :
  decent_world w → swp answers (answer_visit deviceID v) w (λ tr a w', step_of deviceID v w tr a w').
Proof. apply visits_swp. Qed.

(** ** Histories *)

(** What users do between two requests: they make devices, change them, and
    delete them, which only marks an object that has finalizers; the operator's
    two finalizers and the deployments of the status they leave alone. *)
Definition users_change (w w' : W) : Prop := decent_world w' ∧ ∀ k,
  match devices_of w !! k, devices_of w' !! k with
  | Some d, Some d' => has YggdrasilWorkloadFinalizer d' = has YggdrasilWorkloadFinalizer d ∧
      has YggdrasilConnectionFinalizer d' = has YggdrasilConnectionFinalizer d ∧
      (under_deletion d = true → under_deletion d' = true)
  | Some d, None => has YggdrasilWorkloadFinalizer d = false ∧ has YggdrasilConnectionFinalizer d = false
  | None, Some d' => under_deletion d' = false
  | None, None => True
  end.

(** Requests of devices, one after the other, with users in between. *)
Inductive history : W → list (string * visit * reply) → W → Prop :=
  | history_nil w : history w [] w
  | history_visit w deviceID v tr a w1 evs w2 :
      exec (answer_visit deviceID v) tr (Returned a) → evolves answers w tr w1 →
      history w1 evs w2 → history w ((deviceID, v, a) :: evs) w2
  | history_users w w1 evs w2 : users_change w w1 → history w1 evs w2 → history w evs w2.

Lemma answer_visit_behaves deviceID v :
  conduct (expected (λ _, True)) (proper initialNamespace (λ _, True)) (answer_visit deviceID v) (λ _, True).
Proof.
  destruct v; apply conduct_bind, (conduct_mono _ _ _ (λ _, True)); try done.
  - eapply behaves_GetControl.
  - by eapply behaves_GetData.
  - by eapply behaves_PostData.
Qed.

Lemma visit_step deviceID v tr a (w w' : W) :
  decent_world w → exec (answer_visit deviceID v) tr (Returned a) → evolves answers w tr w' →
  decent_world w' ∧ step_of deviceID v w tr a w'.
Proof.
  intros Hdec He Hev. split; [|by apply (visits_swp deviceID v w Hdec _ _ _ He)].
  eapply (conduct_evolves _ _ _ decent_world); [|apply answer_visit_behaves|done..].
  intros. eapply (proper_expected initialNamespace (λ _, True)); [done|done|by right|done..].
Qed.

(** A device under deletion is emptied, and told to disconnect, before it goes. *)
Definition emptied (deviceID : string) (e : string * visit * reply) : Prop :=
  ∃ a, e = (deviceID, FetchData, a) ∧ empties a.
Definition dismissed (deviceID : string) (e : string * visit * reply) : Prop :=
  ∃ a, e = (deviceID, FetchControl, a) ∧ disconnects a.

Lemma users_phase k (w w' : W) :
  users_change w w' →
  match phase_of (devices_of w !! k) with
  | Alive => phase_of (devices_of w' !! k) = Alive ∨ phase_of (devices_of w' !! k) = Leaving
  | (Leaving | Drained) as p => phase_of (devices_of w' !! k) = p
  | _ => True
  end.
Proof.
  intros [Hdec' H]. specialize (H k). destruct (devices_of w !! k) as [d|]; [|done]. unfold phase_of.
  destruct (devices_of w' !! k) as [d'|].
  - destruct H as (Hw & Hc & Hd). rewrite Hw, Hc.
    destruct (under_deletion d), (under_deletion d'); destruct (has YggdrasilWorkloadFinalizer d),
      (has YggdrasilConnectionFinalizer d); naive_solver.
  - destruct H as [-> ->]. by destruct (under_deletion d).
Qed.

Lemma visit_phase deviceID v (w w' : W) tr a :
  step_of deviceID v w tr a w' →
  match phase_of (devices_of w !! (initialNamespace, deviceID)),
        phase_of (devices_of w' !! (initialNamespace, deviceID)) with
  | Alive, p' => p' = Alive
  | Leaving, p' => p' = Leaving ∨ p' = Drained ∧ v = FetchData ∧ empties a
  | Drained, p' => p' = Drained ∨ v = FetchControl ∧ disconnects a
  | _, _ => True
  end.
Proof.
  intros [H _]. inversion H; subst; repeat match goal with H : ?p = phase_of _ |- _ => rewrite <- H end;
    repeat case_match; naive_solver.
Qed.

Lemma drained_dismissed deviceID (w : W) evs w' :
  history w evs w' → decent_world w →
  phase_of (devices_of w !! (initialNamespace, deviceID)) = Drained →
  phase_of (devices_of w' !! (initialNamespace, deviceID)) = Absent → Exists (dismissed deviceID) evs.
Proof.
  induction 1 as [w|w id v tr a w1 evs w2 He Hev _ IH|w w1 evs w2 Hu _ IH]; intros Hdec Hp Hend; [congruence|..].
  - destruct (visit_step _ _ _ _ _ _ Hdec He Hev) as [Hdec1 Hs].
    destruct (decide (id = deviceID)) as [->|Hne].
    + apply visit_phase in Hs. rewrite Hp in Hs. destruct Hs as [Hp1|[-> Ha]].
      * right. by apply IH.
      * left. by exists a.
    + right. apply IH; [done| |done]. destruct Hs as (_ & _ & Ho). rewrite Ho; [done|congruence].
  - apply (users_phase (initialNamespace, deviceID)) in Hu as Hp1. rewrite Hp in Hp1. apply IH; [apply Hu|done|done].
Qed.

Lemma leaving_emptied deviceID (w : W) evs w' :
  history w evs w' → decent_world w →
  (phase_of (devices_of w !! (initialNamespace, deviceID)) = Alive ∨
   phase_of (devices_of w !! (initialNamespace, deviceID)) = Leaving) →
  phase_of (devices_of w' !! (initialNamespace, deviceID)) = Absent →
  ∃ before e after, evs = before ++ e :: after ∧ emptied deviceID e ∧ Exists (dismissed deviceID) after.
Proof.
  induction 1 as [w|w id v tr a w1 evs w2 He Hev Hh IH|w w1 evs w2 Hu _ IH]; intros Hdec Hp Hend;
    [destruct Hp; congruence|..].
  - destruct (visit_step _ _ _ _ _ _ Hdec He Hev) as [Hdec1 Hs].
    assert (Hagain : phase_of (devices_of w1 !! (initialNamespace, deviceID)) = Alive ∨
        phase_of (devices_of w1 !! (initialNamespace, deviceID)) = Leaving →
      ∃ before e after, (id, v, a) :: evs = before ++ e :: after ∧ emptied deviceID e ∧ Exists (dismissed deviceID) after).
    { intros Hp1. destruct (IH Hdec1 Hp1 Hend) as (b & e & af & -> & ? & ?). by exists ((id, v, a) :: b), e, af. }
    destruct (decide (id = deviceID)) as [->|Hne].
    + apply visit_phase in Hs. destruct Hp as [Hp|Hp]; rewrite Hp in Hs; [by apply Hagain; left|].
      destruct Hs as [Hp1|(Hp1 & -> & Ha)]; [by apply Hagain; right|].
      exists [], (deviceID, FetchData, a), evs. split_and!; [done|by exists a|]. by eapply drained_dismissed.
    + apply Hagain. destruct Hs as (_ & _ & Ho). rewrite Ho; [done|congruence].
  - apply (users_phase (initialNamespace, deviceID)) in Hu as Hp1. apply IH; [apply Hu| |done].
    destruct Hp as [Hp|Hp]; rewrite Hp in Hp1; [done|by right].
Qed.

(** C2: No device vanishes unheard. Take any sequence of requests of any devices,
    each answered by its handler, with users who make, change and delete devices
    in between. If a device that a registration made is gone at the end, then a
    request of it for data was answered by an empty configuration (or by an
    error, since the finalizer goes before the answer is complete), and after
    that it was told to disconnect. *)
Theorem no_device_vanishes_unheard deviceID (w : W) evs w' :
  decent_world w → history w evs w' →
  phase_of (devices_of w !! (initialNamespace, deviceID)) = Alive →
  devices_of w' !! (initialNamespace, deviceID) = None →
  ∃ before e after, evs = before ++ e :: after ∧ emptied deviceID e ∧ Exists (dismissed deviceID) after.
Proof. intros Hdec Hh Hp Hend. eapply leaving_emptied; [done|done|by left|]. by rewrite Hend. Qed.
End refinement.
