(* ===== verification/System.v ===== *)
(** * The whole operator

    Everything that the operator does at run time is one of four activities: it
    answers an HTTP request, or reconciles a deployment, a device, or a device's
    labels. The system is a pool of such activities over the stored objects, with
    reads that may be answered from a cache, and with users who change devices
    and deployments in between. The queue of the controllers calls a reconciler
    whenever it likes
    (which calls it owes is in [Triggers]), so an activity may start at any time; goroutines of one
    reconciliation are part of its program. A panic of a request ends that
    request, and the end of the process loses every thread: both are losses of
    the pool. *)
From S2P Require Import Prelude Effects Interleave Rely Conduct K8s Labels Utils Models V1alpha1 Normalize Calls ApiServer Server Repositories Heartbeat Lookups Concurrent Mtls Yggdrasil DeviceSide Main Validation Rest Decency.
From S2P Require Import EdgeDeploymentController EdgeDeviceLabelsController EdgeDeviceController.
Import v1alpha1.

Section system.
Context {F : Formats} `{JM : JSON models.Message} `{JR : JSON models.MessageResponse}.
Context {AL : AllowListGenerator} {RA : RegistryAuthAPI} {CM : ConfigMapAPI} {TLS : CSRSigner}.
Context {LL : LookupLaws AL RA CM TLS} {U : UnicodeTables}.
Context (initialNamespace : string) (Concurrency : Z) (ObcAutoCreate : bool).

Inductive activity :=
  | AnswerRequest (router : Router) (s : served) (r : request)
  | ReconcileDeployment (req : Request)
  | ReconcileDevice (req : Request)
  | ReconcileLabels (req : Request).

Definition discard {A} (p : go A) : go unit := prog_bind (λ _, Ret tt) p.

Definition program_of (a : activity) : go unit :=
  match a with
  | AnswerRequest router s r => discard (serve initialNamespace router s r)
  | ReconcileDeployment req => discard (EdgeDeploymentController.Reconcile Concurrency req)
  | ReconcileDevice req => discard (EdgeDeviceController.Reconcile ObcAutoCreate req)
  | ReconcileLabels req => discard (EdgeDeviceLabelsController.Reconcile req)
  end.

Definition starts (p : go unit) : Prop := ∃ a, p = program_of a.

(** Reads of objects, which the client of the manager answers from a cache. *)
Definition is_cached (o : api_op) : bool :=
  match o with
  | GetEdgeDevice _ _ | ListEdgeDevices _ _ | GetEdgeDeployment _ _ | ListEdgeDeployments _ _
  | GetSecret _ _ | GetConfigMap _ _ | GetRoute _ _ | GetObjectBucketClaim _ _ => true
  | _ => false
  end.

Section world.
Context {W : Type} `{AS : ApiServer W} {ASL : ApiServerLaws W}.

(** Users create, change and delete devices as they like, but for three things:
    a device keeps its name, its deployments are status and not theirs to write,
    and whoever takes the connection finalizer away takes the workload finalizer
    away too. Deployments, and whatever else there is, are theirs. *)
Definition meddles (w w' : W) : Prop := ∀ k d', devices_of w' !! k = Some d' →
  key_of d' = k ∧ ordered d' ∧
  match devices_of w !! k with
  | Some d => device_deployments d' = device_deployments d
  | None => device_deployments d' = []
  end.

Inductive users : W * list W → W * list W → Prop :=
  | users_meddle w w' past : meddles w w' → users (w, past) (w', w :: past).

Abbreviation system_reachable w0 c := (reachable (recalls answers is_cached) starts users (w0, []) c).

(** *** Every activity behaves *)
Section activities.
Context (seen : EdgeDevice → Prop).
Abbreviation behaves p := (conduct (expected seen) (proper initialNamespace seen) p).

Lemma VerifyRequest_harmless peers ty opts chain_ : within harmless (VerifyRequest peers ty opts chain_).
Proof.
  assert (Hs : ∀ c, within harmless (signed_by c chain_)).
  { intros c. induction chain_ as [|ca cas IH]; simpl; [done|]. apply within_bind; [apply within_lift|].
    intros ca'. split; [done|]. intros [x|e]; [done|exact IH]. }
  unfold VerifyRequest. destruct peers as [|c cs]; [done|]. generalize (c :: cs) as ps. intros ps.
  destruct (_ =? _)%Z; induction ps as [|p ps IH]; simpl; [done| |done|].
  - apply within_bind; [apply Hs|]. by intros [].
  - destruct (String.eqb _ _); [done|]. split; [done|]. intros [x|e]; [exact IH|done].
Qed.

Lemma write_payload_harmless {P} `{JSON P} code (p : option P) : within harmless (write_payload code p).
Proof. unfold write_payload. destruct p as [p|]; [|done]. by destruct (Produce p). Qed.

Lemma behaves_respond {P T} (to : Responder P → option T) write (h : go (Responder P)) :
  (∀ t, within harmless (write t)) → behaves h (λ _, True) → behaves (respond to write h) (λ _, True).
Proof.
  intros Hw Hh. unfold respond. apply conduct_bind. eapply conduct_mono; [exact Hh|]. intros res _.
  destruct (to res); [by apply behaves_harmless|done].
Qed.

Lemma behaves_ServeHTTP e params r : behaves (ServeHTTP initialNamespace e params r) (λ _, True).
Proof.
  destruct e; simpl; unfold GetData_ServeHTTP, PostData_ServeHTTP, GetControl_ServeHTTP, PostControl_ServeHTTP;
    destruct (BindValidRequest _ _) as [err|p]; try done; apply behaves_respond;
    try (intros t; destruct t; (apply write_payload_harmless || done)).
  - by eapply behaves_GetData.
  - by eapply behaves_PostData.
  - apply behaves_GetControl.
Qed.

Lemma behaves_serve router s r : behaves (serve initialNamespace router s r) (λ _, True).
Proof.
  unfold serve. destruct (Lookup router _ _) as [[pattern params]|]; [|done].
  destruct (HandlerFor _ _) as [e|]; [|done].
  apply conduct_bind, (conduct_mono _ _ _ (λ _, True)); [|done].
  assert (behaves (x ← ServeHTTP initialNamespace e params r; Ret (Handled x)) (λ _, True)) as Hs.
  { apply conduct_bind. eapply conduct_mono; [apply behaves_ServeHTTP|done]. }
  unfold InnerMiddleware. destruct (peer_certificates (http r)) as [peers|]; [|exact Hs].
  apply conduct_bind. eapply conduct_mono; [apply behaves_harmless, VerifyRequest_harmless|]. by intros [] _.
Qed.

Lemma behaves_discard {A} (p : go A) : behaves p (λ _, True) → behaves (discard p) (λ _, True).
Proof. intros H. apply conduct_bind. eapply conduct_mono; [exact H|done]. Qed.

Lemma starts_behaves p : (0 < Concurrency < 2 ^ 63)%Z → starts p → behaves p (λ _, True).
Proof.
  intros HC [[router s r|req|req|req] ->]; apply behaves_discard.
  - apply behaves_serve.
  - by apply behaves_Reconcile_deployment.
  - apply behaves_Reconcile_device.
  - apply behaves_Reconcile_labels.
Qed.

End activities.

Lemma users_decent h h' : always decent_world h → users h h' → always decent_world h'.
Proof.
  intros [Hnow Hpast] Hu. destruct Hu as [w w' past Hm]; simpl in *. split; [|by constructor].
  split; intros k d' Hd'; destruct (Hm k d' Hd') as (Hk & Ho & Hdep); [done|]. split; [|done].
  unfold distinct, phases. unfold device_deployments in Hdep. destruct (devices_of w !! k) as [d|] eqn:E.
  - rewrite Hdep. by eapply Hnow.
  - rewrite Hdep. constructor.
Qed.

Lemma users_past (J : W → Prop) h h' : users h h' → always J h' → always J h.
Proof. intros [w w' past _] [_ H]. by apply Forall_cons in H. Qed.

(** The state and the threads of a reachable system; the threads know nothing
    but devices that were stored at some time. *)
Lemma system_invariant seen w0 c :
  (0 < Concurrency < 2 ^ 63)%Z → decent_world w0 → system_reachable w0 c →
  always (seen_world seen) (world c) →
  always decent_world (world c) ∧
  Forall (λ p, conduct (expected seen) (proper initialNamespace seen) p (λ _, True)) (threads c).
Proof.
  intros HC Hw Hc. refine (pool_invariant_if _ _ _ (expected seen) (proper initialNamespace seen)
    (always decent_world) (always (seen_world seen)) _ _ _ _ _ _ _ _ Hc).
  - intros p. by apply starts_behaves.
  - intros h o a h' Hh HJ Ho Hr. eapply (recalls_always answers is_cached _ _ decent_world (seen_world seen)); [|done..].
    intros w o' a' w' Hw1 Hs Hs' Ho' Ha. eapply proper_expected; try done.
    destruct Hs' as [Hs'|?]; [left; by destruct o'|by right].
  - apply users_decent.
  - intros h o a h'. apply recalls_past.
  - apply users_past.
  - by split; [|constructor].
Qed.

(** C3: No schedule breaks the devices. However the requests of devices, the
    reconciliations with their goroutines, their retries, crashes and restarts
    are interleaved, with reads answered from a cache that lags behind and with
    users at work, no stored device ever lists a deployment twice, none lacks
    the connection finalizer while it has the workload finalizer, and each is
    stored under its own name. *)
Theorem devices_stay_decent w0 c :
  (0 < Concurrency < 2 ^ 63)%Z → decent_world w0 → system_reachable w0 c → decent_world (world c).1.
Proof.
  intros HC Hw Hc. apply (system_invariant (λ _, True) w0 c HC Hw Hc). split; [done|]. by apply Forall_true.
Qed.

(** The device was stored at [k] at some time. *)
Definition stored_once (h : W * list W) (k : key) (d : EdgeDevice) : Prop :=
  ∃ w, w ∈ h.1 :: h.2 ∧ devices_of w !! k = Some d.

(** Finalizers a device had, or had but for the next one to go. *)
Definition accounted (h : W * list W) (k : key) (fs : list string) : Prop :=
  ∃ d0, stored_once h k d0 ∧ (fs = Finalizers (EdgeDevice_Meta d0) ∨ released d0 fs).

(** What one step of the operator may make of the device at [k]. *)
Definition tended (h : W * list W) (k : key) (o o' : option EdgeDevice) : Prop :=
  match o, o' with
  | None, None => True
  | None, Some d' => k.1 = initialNamespace ∧ under_deletion d' = false ∧ device_deployments d' = [] ∧
      Finalizers (EdgeDevice_Meta d') = [YggdrasilConnectionFinalizer; YggdrasilWorkloadFinalizer]
  | Some d, None => under_deletion d = true ∧ accounted h k []
  | Some d, Some d' => key_of d' = key_of d ∧
      DeletionTimestamp (EdgeDevice_Meta d') = DeletionTimestamp (EdgeDevice_Meta d) ∧
      (Finalizers (EdgeDevice_Meta d') = Finalizers (EdgeDevice_Meta d) ∨
       accounted h k (Finalizers (EdgeDevice_Meta d')))
  end.

Lemma tended_refl h k o : tended h k o o.
Proof. destruct o; simpl; auto. Qed.

Lemma tended_insert h (w w' : W) k0 d o :
  devices_of w !! k0 = o → devices_of w' = <[k0 := d]> (devices_of w) → tended h k0 o (Some d) →
  ∀ k, tended h k (devices_of w !! k) (devices_of w' !! k).
Proof.
  intros Ho -> Ht k. destruct (decide (k = k0)) as [->|Hk]; [by rewrite lookup_insert_eq, Ho|].
  rewrite lookup_insert_ne by done. apply tended_refl.
Qed.

(** A tidy patch accounts for the finalizers it leaves. *)
Lemma tidy_accounted h old new d0 d :
  always decent_world h → key_of new = key_of old → tidy (λ d, ∃ k, stored_once h k d) old new →
  patched_main old new d0 d →
  Finalizers (EdgeDevice_Meta d) = Finalizers (EdgeDevice_Meta d0) ∧ Finalizers (EdgeDevice_Meta old) = Finalizers (EdgeDevice_Meta new) ∨
  accounted h (key_of old) (Finalizers (EdgeDevice_Meta d)).
Proof.
  intros [Hnow Hpast] Hk Ht [_ _ _ _ Hf _]. rewrite Hf. unfold merge_field. case_decide as E; [by left|].
  destruct Ht as [?|(_ & d1 & (k & w & Hin & Hd1) & Hk1 & H)]; [done|]. right. exists d1. split; [|done].
  exists w. split; [done|]. rewrite <- Hk, <- Hk1.
  assert (decent_world w) as [Hkeyed _].
  { apply elem_of_cons in Hin as [->|Hin]; [done|]. rewrite Forall_forall in Hpast. by apply Hpast. }
  by rewrite (Hkeyed _ _ Hd1).
Qed.

Lemma proper_tended h (o : api_op) (a : api_ans o) w' :
  always decent_world h → proper initialNamespace (λ d, ∃ k, stored_once h k d) o → answers h.1 o a w' →
  ∀ k, tended h k (devices_of h.1 !! k) (devices_of w' !! k).
Proof.
  intros Hh Ho Ha. destruct (is_device_write o) eqn:E.
  2:{ apply reads_keep in Ha as ->; [|done]. intros k. apply tended_refl. }
  destruct o; try done.
  - apply store_device in Ha. destruct a as [a|e]; [|intros k; rewrite Ha; apply tended_refl].
    destruct Ha as (d & Hn & [Hk Hl Hr Hf Hdel Hst] & _ & Ew). destruct Ho as (id & now & ->).
    eapply tended_insert; [exact Hn|exact Ew|]. simpl. unfold under_deletion, device_deployments.
    rewrite Hdel, Hst, Hf. by split_and!.
  - apply patch_object in Ha. destruct a as [a|e]; [|intros k; rewrite Ha; apply tended_refl].
    destruct Ha as (d0 & d & Hd0 & Hp & _ & Ew), Ho as [Hk Ht].
    pose proof (main_deletion _ _ _ _ Hp) as Hdel. pose proof (tidy_accounted _ _ _ _ _ Hh Hk Ht Hp) as Hacc.
    destruct (leaves from new d) eqn:El.
    + intros k. rewrite Ew. destruct (decide (k = key_of from)) as [->|Hne].
      * rewrite lookup_delete_eq, Hd0. simpl. unfold leaves in El.
        apply andb_true_iff in El as [[El Hn]%andb_true_iff He]. apply bool_decide_eq_true in Hn, He.
        split; [unfold under_deletion; by rewrite <- Hdel|]. destruct Hacc as [[_ ?]|Hacc]; [done|]. by rewrite He in Hacc.
      * rewrite lookup_delete_ne by done. apply tended_refl.
    + eapply tended_insert; [exact Hd0|exact Ew|]. split_and!; [apply Hp|done|]. destruct Hacc as [[? _]|?]; auto.
  - apply patch_status in Ha. destruct a as [a|e]; [|intros k; rewrite Ha; apply tended_refl].
    destruct Ha as (d0 & d & Hd0 & Hp & _ & Ew). eapply tended_insert; [exact Hd0|exact Ew|].
    split_and!; [apply Hp..|left; apply Hp].
Qed.

(** C5: The operator spares the devices. No step of any of its threads, in any
    reachable state of the system, puts a device under deletion or takes one out
    of it, or changes its name. A step that changes the finalizers leaves those
    of an earlier version of the device as they were (the label controller sends
    back what it was answered) or takes one away: that of the workloads from a
    version that was under deletion, or that of the connection from one that was
    under deletion and had lost the other, and nobody else's; so a device that
    goes was under deletion and gave up its last finalizer in that way. The only
    devices the operator makes are those of registrations: alive, in its own
    namespace, with the two finalizers and no deployment. *)
Theorem operator_spares_devices w0 c p p' h' :
  (0 < Concurrency < 2 ^ 63)%Z → decent_world w0 → system_reachable w0 c →
  p ∈ threads c → thread_step (recalls answers is_cached) p (world c) p' h' →
  ∀ k, tended (world c) k (devices_of (world c).1 !! k) (devices_of h'.1 !! k).
Proof.
  intros HC Hw Hc Hp Hstep. set (seen := λ d, ∃ k, stored_once (world c) k d).
  destruct (system_invariant seen w0 c HC Hw Hc) as [Hd Ht].
  { split; [|apply Forall_forall; intros w Hin]; intros k d Hk; exists k; eexists; (split; [|exact Hk]);
      [left|by right]. }
  rewrite Forall_forall in Ht. specialize (Ht p Hp). unfold seen in Ht.
  destruct Hstep as [o k a h h' Ha|n k i h Hi]; [|intros k'; apply tended_refl]. destruct Ht as [Ho _].
  destruct Ha as [w past o a w' Ha|w past o a w1 w2 _ _ Ha]; simpl; [by eapply (proper_tended (w, past))|].
  intros k'. apply tended_refl.
Qed.
End world.
End system.

(** ** Runs against the concrete server *)

(** A thread that is run to its end without interruption. *)
Lemma reachable_run starts others w0 (p : go unit) ps qs c past :
  live server p c = true →
  reachable (recalls answers is_cached) starts others w0 (mkPool (ps ++ p :: qs) (c, past)) →
  ∃ past', reachable (recalls answers is_cached) starts others w0 (mkPool (ps ++ qs) (cluster_of p c, past')).
Proof.
  revert c past; induction p as [r|k|o k IH|n k IH]; intros c past Hl Hr.
  - exists past. eapply reachable_step; [exact Hr|apply step_lose].
  - exists past. eapply reachable_step; [exact Hr|apply step_lose].
  - unfold cluster_of. simpl in *. destruct (Server.serve o c) as [a c1] eqn:E.
    destruct (IH a c1 (c :: past)) as [past' H'].
    + by destruct (Server.serve o c).
    + eapply reachable_step; [exact Hr|]. apply step_run, thread_call, recalls_now. exact E.
    + exists past'. unfold cluster_of in H'. by destruct (run server (k a) c1) as [[??]?].
  - simpl in Hl. apply andb_true_iff in Hl as [Hn%Nat.ltb_lt Hl].
    destruct (IH (Nat.min 0 (pred n)) c past Hl) as [past' H']; [|by exists past'].
    eapply reachable_step; [exact Hr|]. apply step_run, thread_pick. lia.
Qed.

(** An activity that starts and is run to its end. *)
Lemma reachable_activity (starts : go unit → Prop) others w0 p ps c past :
  starts p → live server p c = true →
  reachable (recalls answers is_cached) starts others w0 (mkPool ps (c, past)) →
  ∃ past', reachable (recalls answers is_cached) starts others w0 (mkPool ps (cluster_of p c, past')).
Proof.
  intros Hs Hl Hr. apply (reachable_run starts others w0 p [] ps c past Hl).
  eapply reachable_step; [exact Hr|]. by apply step_start.
Qed.
