(* ===== verification/Workqueue.v ===== *)
(** * The queue of a controller and its workers

    [k8s.io/client-go/util/workqueue] and the workers of
    [sigs.k8s.io/controller-runtime/pkg/internal/controller], both vendored: what
    lies between a change of an object and the call of [Reconcile]. An item is
    queued once however often it is added; an item that is added while it is
    processed is queued again afterwards; a reconciliation that reports an error
    or asks for another one is repeated after a pause. A [stage] is one step of
    that machine; the length of pauses is left out, so a pause ends at any time.

    The theorems: the invariant that the comment on [Type] states, no two
    workers at the same item, and [followed_up]: once the controller is idle,
    each item has been reconciled, from the first read to a report of success,
    after it was last added. [can_settle]: being idle can always be reached. *)
From S2P Require Import Prelude K8s.

Section workqueue.
Context {K : Type} `{Countable K}.

(** ** [workqueue.Type] *)
Record workqueue := mkWorkqueue {
  queue : list K;
  dirty : gset K;
  processing : gset K;
  shuttingDown : bool;
}.
Definition newQueue : workqueue := mkWorkqueue [] ∅ ∅ false.

Definition Add (item : K) (q : workqueue) : workqueue :=
  if shuttingDown q then q
  else if bool_decide (item ∈ dirty q) then q
  else
    let dirty' := {[item]} ∪ dirty q in
    if bool_decide (item ∈ processing q) then mkWorkqueue (queue q) dirty' (processing q) (shuttingDown q)
    else mkWorkqueue (queue q ++ [item]) dirty' (processing q) (shuttingDown q).

Definition Len (q : workqueue) : nat := length (queue q).

(** The caller waits, or ends when the queue is shutting down, while there is
    nothing to return. *)
Definition Get (q : workqueue) : option (K * workqueue) :=
  match queue q with
  | [] => None
  | item :: rest => Some (item, mkWorkqueue rest (dirty q ∖ {[item]}) ({[item]} ∪ processing q) (shuttingDown q))
  end.

Definition Done (item : K) (q : workqueue) : workqueue :=
  let processing' := processing q ∖ {[item]} in
  mkWorkqueue (if bool_decide (item ∈ dirty q) then queue q ++ [item] else queue q)
    (dirty q) processing' (shuttingDown q).

Definition ShutDown (q : workqueue) : workqueue :=
  mkWorkqueue (queue q) (dirty q) (processing q) true.

(** ** The controller

    [waiting] are the entries of the delaying queue, of which there is one per
    item; [reconciling] the items whose [Reconcile] has not returned. *)
Record Controller := mkController {
  Queue : workqueue;
  waiting : gset K;
  reconciling : gset K;
}.
Definition new_controller : Controller := mkController newQueue ∅ ∅.
Definition on_queue (f : workqueue → workqueue) (c : Controller) : Controller :=
  mkController (f (Queue c)) (waiting c) (reconciling c).

Definition AddAfter (item : K) (duration : Z) (c : Controller) : Controller :=
  if shuttingDown (Queue c) then c
  else if (duration <=? 0)%Z then on_queue (Add item) c
  else mkController (Queue c) ({[item]} ∪ waiting c) (reconciling c).

(** How long the rate limiter lets an item wait. *)
Context (When : K → Z).
Definition AddRateLimited (item : K) (c : Controller) : Controller := AddAfter item (When item) c.

(** What a reconciler returns. *)
Abbreviation reply := (Result * option error)%type.

Definition reconcileHandler (req : K) (r : reply) (c : Controller) : Controller :=
  match r with
  | (_, Some _) => AddRateLimited req c
  | (result, None) =>
      if (0 <? RequeueAfter result)%Z then AddAfter req (RequeueAfter result) c
      else if Requeue result then AddRateLimited req c
      else c
  end.

(** ** Steps *)
Inductive stage :=
  | Asked (item : K)               (** an event of a watch is handled *)
  | Due (item : K)                 (** a pause is over *)
  | Started (item : K)             (** a worker takes an item and calls [Reconcile] *)
  | Replied (item : K) (r : reply) (** [Reconcile] returns *)
  | Finished (item : K)            (** the worker is done with the item *)
  | Stopped.                       (** the queue is shut down *)

(** The workers that are started. *)
Context (workers : nat).

Definition step (s : stage) (c : Controller) : option Controller :=
  match s with
  | Asked item => Some (on_queue (Add item) c)
  | Due item =>
      if bool_decide (item ∈ waiting c)
      then Some (mkController (Add item (Queue c)) (waiting c ∖ {[item]}) (reconciling c)) else None
  | Started item =>
      if Nat.ltb (size (processing (Queue c))) workers then
        match Get (Queue c) with
        | Some (item', q) =>
            if bool_decide (item = item') then Some (mkController q (waiting c) ({[item]} ∪ reconciling c)) else None
        | None => None
        end
      else None
  | Replied item r =>
      if bool_decide (item ∈ reconciling c)
      then Some (reconcileHandler item r (mkController (Queue c) (waiting c) (reconciling c ∖ {[item]}))) else None
  | Finished item =>
      if bool_decide (item ∈ (processing (Queue c) ∖ reconciling c)) then Some (on_queue (Done item) c) else None
  | Stopped => Some (on_queue ShutDown c)
  end.

Fixpoint run_stages (ss : list stage) (c : Controller) : option Controller :=
  match ss with [] => Some c | s :: ss => step s c ≫= run_stages ss end.

Definition reachable (c : Controller) : Prop := ∃ ss, run_stages ss new_controller = Some c.

(** Success, without a wish to be called again. *)
Definition final (r : reply) : bool :=
  match r with (result, None) => negb (Requeue result) && (RequeueAfter result <=? 0)%Z | _ => false end.

Definition idle (item : K) (c : Controller) : Prop :=
  (item ∉ dirty (Queue c)) ∧ (item ∉ waiting c) ∧ (item ∉ reconciling c).

(** The item is not taken up, nor a reconciliation of it ended. *)
Definition aside (item : K) (s : stage) : Prop :=
  match s with Started i | Replied i _ => i ≠ item | _ => True end.

(** ** The invariant *)
Record sound (q : workqueue) : Prop := {
  queue_once : NoDup (queue q);
  queue_dirty x : x ∈ queue q → x ∈ dirty q ∧ (x ∉ processing q);
  dirty_somewhere x : x ∈ dirty q → x ∈ queue q ∨ x ∈ processing q;
}.
Definition orderly (c : Controller) : Prop := sound (Queue c) ∧ reconciling c ⊆ processing (Queue c).

Lemma Add_sound x q : sound q → sound (Add x q).
Proof.
  intros [Hn Hq Hd]. unfold Add. destruct (shuttingDown q) eqn:E; [by split|]. case_bool_decide as Hx; [by split|].
  case_bool_decide as Hp; split; simpl.
  - done.
  - set_solver.
  - set_solver.
  - apply NoDup_app. split_and!; [done| |apply NoDup_singleton]. set_solver.
  - set_solver.
  - set_solver.
Qed.

Lemma Add_dirty x q : shuttingDown q = false → dirty (Add x q) = {[x]} ∪ dirty q.
Proof. intros E. unfold Add. rewrite E. repeat case_bool_decide; simpl; [set_solver|done..]. Qed.
Lemma Add_processing x q : processing (Add x q) = processing q.
Proof. unfold Add. destruct (shuttingDown q); [done|]. by repeat case_bool_decide. Qed.
Lemma Add_shuttingDown x q : shuttingDown (Add x q) = shuttingDown q.
Proof. unfold Add. destruct (shuttingDown q) eqn:E; [done|]. repeat case_bool_decide; done. Qed.
Lemma Add_grows x q : dirty q ⊆ dirty (Add x q).
Proof. unfold Add. destruct (shuttingDown q); [done|]. repeat case_bool_decide; simpl; set_solver. Qed.

Lemma Get_sound x q q' : sound q → Get q = Some (x, q') → sound q'.
Proof.
  intros [Hn Hq Hd]. unfold Get. destruct (queue q) as [|y l] eqn:E; [done|]. intros [= -> <-].
  apply NoDup_cons in Hn as [Hy Hn]. split; simpl; [done|..].
  - intros z Hz. destruct (Hq z) as [? ?]; [set_solver|]. assert (z ≠ x) by by intros ->. set_solver.
  - intros z [Hz Hne]%elem_of_difference. destruct (Hd z Hz) as [Hin|Hin]; [|set_solver].
    apply elem_of_cons in Hin as [-> |Hin]; [|by left]. by rewrite elem_of_singleton in Hne.
Qed.

Lemma Done_sound x q : x ∈ processing q → sound q → sound (Done x q).
Proof.
  intros Hx [Hn Hq Hd]. unfold Done. split; simpl.
  - case_bool_decide; [|done]. apply NoDup_app. split_and!; [done| |apply NoDup_singleton].
    intros y Hy ->%list_elem_of_singleton. by destruct (Hq x Hy).
  - intros y Hy. case_bool_decide as Hb.
    + apply elem_of_app in Hy as [Hy| ->%list_elem_of_singleton]; [|set_solver]. destruct (Hq y Hy). set_solver.
    + destruct (Hq y Hy). set_solver.
  - intros y Hy. destruct (decide (y = x)) as [->|Hne].
    + left. rewrite bool_decide_true by done. set_solver.
    + destruct (Hd y Hy) as [?|?]; [|set_solver]. left. case_bool_decide; set_solver.
Qed.

Lemma AddAfter_sound x d c : orderly c → orderly (AddAfter x d c).
Proof.
  intros [Hs Hr]. unfold AddAfter. destruct (shuttingDown _); [by split|]. destruct (d <=? 0)%Z; [|by split].
  split; simpl; [by apply Add_sound|]. by rewrite Add_processing.
Qed.
Lemma reconcileHandler_sound x r c : orderly c → orderly (reconcileHandler x r c).
Proof.
  intros Ho. destruct r as [res [e|]]; simpl; [by apply AddAfter_sound|].
  destruct (0 <? _)%Z; [by apply AddAfter_sound|]. destruct (Requeue res); [by apply AddAfter_sound|done].
Qed.

Lemma step_orderly s c c' : orderly c → step s c = Some c' → orderly c'.
Proof.
  intros [Hs Hr]. destruct s as [x|x|x|x r|x|]; simpl.
  - intros [= <-]. split; simpl; [by apply Add_sound|by rewrite Add_processing].
  - case_bool_decide; [|done]. intros [= <-]. split; simpl; [by apply Add_sound|by rewrite Add_processing].
  - destruct (Nat.ltb _ _); [|done]. destruct (Get (Queue c)) as [[y q]|] eqn:E; [|done].
    case_bool_decide as Hy; [|done]. subst y. intros [= <-]. split; simpl; [by eapply Get_sound|].
    unfold Get in E. destruct (queue (Queue c)); [done|]. injection E as -> <-. simpl. set_solver.
  - case_bool_decide; [|done]. intros [= <-]. apply reconcileHandler_sound. split; simpl; [done|set_solver].
  - case_bool_decide as Hx; [|done]. intros [= <-]. split; simpl; [apply Done_sound; set_solver|set_solver].
  - intros [= <-]. by split; [destruct Hs; split|].
Qed.

Lemma run_stages_app ss ss' c : run_stages (ss ++ ss') c = run_stages ss c ≫= run_stages ss'.
Proof. revert c. induction ss as [|s ss IH]; intros c; [done|]. simpl. destruct (step s c); [apply IH|done]. Qed.

Lemma run_orderly ss c c' : orderly c → run_stages ss c = Some c' → orderly c'.
Proof.
  revert c. induction ss as [|s ss IH]; simpl; intros c Ho Hr; [by simplify_eq|].
  destruct (step s c) as [c1|] eqn:E; [|done]. simpl in Hr. eapply IH; [|done]. by eapply step_orderly.
Qed.

Lemma reachable_orderly c : reachable c → orderly c.
Proof.
  intros [ss Hr]. eapply run_orderly; [|done]. split; simpl; [|done]. split; simpl; [constructor|set_solver..].
Qed.

(** ** Every item is followed up *)

(** Pauses and the handling of a reply only add. *)
Lemma AddAfter_keeps x d c :
  reconciling (AddAfter x d c) = reconciling c ∧ dirty (Queue c) ⊆ dirty (Queue (AddAfter x d c)) ∧
  waiting c ⊆ waiting (AddAfter x d c) ∧ shuttingDown (Queue (AddAfter x d c)) = shuttingDown (Queue c).
Proof.
  unfold AddAfter. destruct (shuttingDown (Queue c)) eqn:E; [done|]. destruct (d <=? 0)%Z; simpl; [|set_solver].
  split_and!; [done|apply Add_grows|done|by rewrite Add_shuttingDown].
Qed.

Lemma reconcileHandler_keeps x r c :
  reconciling (reconcileHandler x r c) = reconciling c ∧ dirty (Queue c) ⊆ dirty (Queue (reconcileHandler x r c)) ∧
  waiting c ⊆ waiting (reconcileHandler x r c) ∧ shuttingDown (Queue (reconcileHandler x r c)) = shuttingDown (Queue c).
Proof.
  destruct r as [res [e|]]; simpl; [apply AddAfter_keeps|]. destruct (0 <? _)%Z; [apply AddAfter_keeps|].
  destruct (Requeue res); [apply AddAfter_keeps|done].
Qed.

Lemma AddAfter_again x d c :
  shuttingDown (Queue c) = false → x ∈ dirty (Queue (AddAfter x d c)) ∨ x ∈ waiting (AddAfter x d c).
Proof.
  intros E. unfold AddAfter. rewrite E. destruct (d <=? 0)%Z; simpl; [left|right; set_solver].
  rewrite Add_dirty by done. set_solver.
Qed.

Lemma reconcileHandler_again x r c :
  shuttingDown (Queue c) = false →
  final r = true ∨ x ∈ dirty (Queue (reconcileHandler x r c)) ∨ x ∈ waiting (reconcileHandler x r c).
Proof.
  intros E. destruct r as [res [e|]]; simpl; [right; by apply AddAfter_again|].
  destruct (0 <? RequeueAfter res)%Z eqn:Ea; [right; by apply AddAfter_again|].
  destruct (Requeue res) eqn:Er; [right; by apply AddAfter_again|]. left. simpl.
  rewrite Z.ltb_ge in Ea. by apply Z.leb_le.
Qed.

Lemma step_shuttingDown s c c' :
  step s c = Some c' → shuttingDown (Queue c') = false → shuttingDown (Queue c) = false.
Proof.
  destruct s as [x|x|x|x r|x|]; simpl.
  - intros [= <-]. simpl. by rewrite Add_shuttingDown.
  - case_bool_decide; [|done]. intros [= <-]. simpl. by rewrite Add_shuttingDown.
  - destruct (Nat.ltb _ _); [|done]. unfold Get. destruct (queue (Queue c)); [done|].
    case_bool_decide; [|done]. by intros [= <-].
  - case_bool_decide; [|done]. intros [= <-].
    by rewrite (proj2 (proj2 (proj2 (reconcileHandler_keeps _ _ _)))).
  - case_bool_decide; [|done]. by intros [= <-].
  - by intros [= <-].
Qed.

Lemma run_shuttingDown ss c c' :
  run_stages ss c = Some c' → shuttingDown (Queue c') = false → shuttingDown (Queue c) = false.
Proof.
  revert c. induction ss as [|s ss IH]; simpl; intros c Hr Hsd; [by simplify_eq|].
  destruct (step s c) as [c1|] eqn:E; [|done]. eapply step_shuttingDown; [done|]. by apply (IH c1).
Qed.

(** What is known of an item that was asked for: it is still to do, being done, or
    done, successfully or to be repeated. *)
Inductive followed (item : K) (ss : list stage) (c : Controller) : Prop :=
  | to_do : item ∈ dirty (Queue c) → followed item ss c
  | doing l1 l2 : ss = l1 ++ Started item :: l2 → Forall (aside item) l2 → item ∈ reconciling c → followed item ss c
  | done_ l1 l2 r l3 :
      ss = l1 ++ Started item :: l2 ++ Replied item r :: l3 → Forall (aside item) l2 → Forall (aside item) l3 →
      item ∉ reconciling c → final r = true ∨ item ∈ waiting c → followed item ss c.

(** A step that is not about the item, and keeps what is known of it. *)
Lemma followed_aside item ss c s c' :
  followed item ss c → aside item s →
  dirty (Queue c) ∖ dirty (Queue c') ⊆ ∅ ∪ (dirty (Queue c) ∖ {[item]}) →
  (item ∈ reconciling c ↔ item ∈ reconciling c') →
  (item ∈ waiting c → item ∈ waiting c' ∨ item ∈ dirty (Queue c')) →
  followed item (ss ++ [s]) c'.
Proof.
  intros Hf Ha Hd Hr Hw. destruct Hf as [Hi|l1 l2 -> H2 Hi|l1 l2 r l3 -> H2 H3 Hi Hor].
  - apply to_do. destruct (decide (item ∈ dirty (Queue c'))); [done|set_solver].
  - eapply (doing _ _ _ l1 (l2 ++ [s])); [by rewrite <- app_assoc|by apply Forall_app; split; [|constructor]|by apply Hr].
  - assert (Forall (aside item) (l3 ++ [s])) by (apply Forall_app; split; [done|by constructor]).
    destruct Hor as [Hor|Hor%Hw]; [|destruct Hor as [Hor|Hor]; [|by apply to_do]].
    all: eapply (done_ _ _ _ l1 l2 r (l3 ++ [s])); [by rewrite <- !app_assoc; simpl; rewrite <- app_assoc|done|done|by rewrite <- Hr|auto].
Qed.

Lemma followed_step item ss c s c' :
  orderly c → followed item ss c → step s c = Some c' → shuttingDown (Queue c') = false → followed item (ss ++ [s]) c'.
Proof.
  intros Ho Hf Hs Hsd. pose proof (step_shuttingDown _ _ _ Hs Hsd) as Hsd0. destruct s as [x|x|x|x r|x|]; simpl in Hs.
  - injection Hs as <-. eapply followed_aside; simpl; [done|done| |done|by left].
    pose proof (Add_grows x (Queue c)). set_solver.
  - case_bool_decide as Hx; [|done]. injection Hs as <-. eapply followed_aside; simpl; [done|done| |done|].
    + pose proof (Add_grows x (Queue c)). set_solver.
    + intros Hw. destruct (decide (item = x)) as [->|]; [right; rewrite Add_dirty by done|left]; set_solver.
  - destruct (Nat.ltb _ _); [|done]. unfold Get in Hs. destruct (queue (Queue c)) as [|y l] eqn:E; [done|].
    case_bool_decide as Hy; [|done]. subst y. injection Hs as <-. destruct (decide (x = item)) as [->|Hne].
    + eapply (doing _ _ _ ss []); [done|constructor|]. simpl. set_solver.
    + eapply followed_aside; simpl; [done|done|set_solver|set_solver|by left].
  - case_bool_decide as Hx; [|done]. injection Hs as <-.
    set (c0 := mkController (Queue c) (waiting c) (reconciling c ∖ {[x]})) in *.
    destruct (reconcileHandler_keeps x r c0) as (Hr & Hd & Hw & _). destruct (decide (x = item)) as [->|Hne].
    + destruct (reconcileHandler_again item r c0 Hsd0) as [Hfin|[Hdirty|Hwait]]; [|by apply to_do|].
      * destruct Hf as [Hi|l1 l2 -> H2 Hi|]; [by apply to_do, Hd| |done].
        eapply (done_ _ _ _ l1 l2 r []); [by rewrite <- app_assoc|done|constructor| |by left]. rewrite Hr. simpl. set_solver.
      * destruct Hf as [Hi|l1 l2 -> H2 Hi|]; [by apply to_do, Hd| |done].
        eapply (done_ _ _ _ l1 l2 r []); [by rewrite <- app_assoc|done|constructor| |by right]. rewrite Hr. simpl. set_solver.
    + eapply followed_aside; [done|done|set_solver| |intros ?; left; by apply Hw]. rewrite Hr. simpl. set_solver.
  - case_bool_decide; [|done]. injection Hs as <-. eapply followed_aside; simpl; [done|done|set_solver|done|by left].
  - injection Hs as <-. eapply followed_aside; simpl; [done|done|set_solver|done|by left].
Qed.

Lemma followed_run item ss c ss' c' :
  orderly c → followed item ss c → run_stages ss' c = Some c' → shuttingDown (Queue c') = false →
  followed item (ss ++ ss') c'.
Proof.
  revert ss c. induction ss' as [|s ss' IH]; intros ss c Ho Hf Hr Hsd; simpl in Hr.
  - simplify_eq. by rewrite app_nil_r.
  - destruct (step s c) as [c1|] eqn:E; [|done]. simpl in Hr.
    assert (shuttingDown (Queue c1) = false) by by eapply run_shuttingDown.
    replace (ss ++ s :: ss') with ((ss ++ [s]) ++ ss') by by rewrite <- app_assoc.
    eapply IH; [by eapply step_orderly|by eapply followed_step|done|done].
Qed.

(** An item that was asked for, of which nothing is left to do, was reconciled since:
    from the call to a report of success. *)
Lemma followed_up item ss1 ss2 c :
  run_stages (ss1 ++ Asked item :: ss2) new_controller = Some c → shuttingDown (Queue c) = false → idle item c →
  ∃ l1 l2 r l3, ss2 = l1 ++ Started item :: l2 ++ Replied item r :: l3 ∧
    Forall (aside item) l2 ∧ Forall (aside item) l3 ∧ final r = true.
Proof.
  intros Hr Hsd (Hd & Hw & Hg). rewrite run_stages_app in Hr. destruct (run_stages ss1 new_controller) as [c1|] eqn:E1; [|done].
  simpl in Hr. set (c2 := on_queue (Add item) c1) in Hr.
  assert (orderly c1) as Ho by by apply reachable_orderly; exists ss1.
  assert (orderly c2) as Ho2 by by eapply (step_orderly (Asked item)).
  assert (shuttingDown (Queue c1) = false) as H1.
  { apply (step_shuttingDown (Asked item) c1 c2); [done|]. by eapply run_shuttingDown. }
  destruct (followed_run item [] c2 ss2 c) as [Hi|? ? _ _ Hi|l1 l2 r l3 E H2 H3 _ [Hf|Hi]]; [done| |done|done|done..| |done].
  { apply to_do. simpl. rewrite Add_dirty by done. set_solver. }
  by exists l1, l2, r, l3.
Qed.

(** No two workers are at the same item, and there are no more than were started. *)
Lemma started_alone item c c' :
  reachable c → step (Started item) c = Some c' → (item ∉ processing (Queue c)) ∧ size (processing (Queue c')) ≤ workers.
Proof.
  intros [[_ Hq _] _]%reachable_orderly. simpl. destruct (Nat.ltb_spec (size (processing (Queue c))) workers) as [Hlt|]; [|done].
  unfold Get. destruct (queue (Queue c)) as [|y l] eqn:E; [done|]. case_bool_decide as Hy; [|done]. subst y.
  intros [= <-]. simpl. destruct (Hq item) as [_ Hn]; [set_solver|]. split; [done|].
  rewrite size_union, size_singleton by set_solver. lia.
Qed.

(** ** Being idle can be reached *)

(** The steps that ask for nothing new, when every reconciliation succeeds. *)
Definition settling (s : stage) : Prop :=
  match s with Asked _ | Stopped => False | Replied _ r => final r = true | _ => True end.
Definition success : reply := (no_requeue, None).

(** What is left to do. *)
Definition work (c : Controller) : nat :=
  5 * size (waiting c) + 4 * size (dirty (Queue c)) + 2 * size (reconciling c) + size (processing (Queue c)).

Lemma size_without (x : K) (X : gset K) : x ∈ X → S (size (X ∖ {[x]})) = size X.
Proof.
  intros Hx. assert (X = {[x]} ∪ X ∖ {[x]}) as EX by (apply union_difference_L; set_solver).
  rewrite EX at 2. by rewrite (size_union {[x]} (X ∖ {[x]})), size_singleton by set_solver.
Qed.
Lemma size_with (x : K) (X : gset K) : size ({[x]} ∪ X) ≤ S (size X).
Proof. rewrite size_union_alt, size_singleton. assert (size (X ∖ {[x]}) ≤ size X) by (apply subseteq_size; set_solver). lia. Qed.

Lemma Add_work x q : size (dirty (Add x q)) ≤ S (size (dirty q)).
Proof. unfold Add. destruct (shuttingDown q); [lia|]. pose proof (size_with x (dirty q)). repeat case_bool_decide; simpl; lia. Qed.

(** As long as a worker is there and something is left, a step makes it less. *)
Lemma settles_further c :
  workers ≠ 0 → orderly c → work c ≠ 0 → ∃ s c', step s c = Some c' ∧ settling s ∧ work c' < work c.
Proof.
  intros Hn [[_ Hq Hd] Hr] Hw.
  destruct (set_choose_or_empty (waiting c)) as [[x Hx]|Ew%size_empty_iff].
  { exists (Due x). simpl. rewrite bool_decide_true by done. eexists. split_and!; [done..|]. unfold work. simpl.
    pose proof (size_without x _ Hx). pose proof (Add_work x (Queue c)). rewrite Add_processing. lia. }
  destruct (set_choose_or_empty (reconciling c)) as [[x Hx]|Er].
  { exists (Replied x success). simpl. rewrite bool_decide_true by done. eexists. split_and!; [done..|]. unfold work. simpl.
    pose proof (size_without x _ Hx). lia. }
  destruct (set_choose_or_empty (processing (Queue c))) as [[x Hx]|Ep].
  { exists (Finished x). simpl. rewrite bool_decide_true by (rewrite elem_of_difference; set_solver). eexists.
    split_and!; [done..|]. unfold work. simpl. pose proof (size_without x _ Hx). lia. }
  pose proof Er as Esr%size_empty_iff. pose proof Ep as Esp%size_empty_iff. unfold work in Hw.
  destruct (set_choose_or_empty (dirty (Queue c))) as [[x Hx]|Ed%size_empty_iff]; [|lia].
  assert (∃ y l, queue (Queue c) = y :: l) as (y & l & E).
  { destruct (queue (Queue c)) eqn:E; [|by eauto]. exfalso. destruct (Hd x Hx); set_solver. }
  exists (Started y). simpl. destruct (Nat.ltb_spec (size (processing (Queue c))) workers) as [_|Hge]; [|lia].
  unfold Get. rewrite E, bool_decide_true by done. eexists. split_and!; [done..|]. unfold work. simpl.
  destruct (Hq y) as [Hy _]; [rewrite E; constructor|]. pose proof (size_without y _ Hy).
  pose proof (size_with y (reconciling c)). pose proof (size_with y (processing (Queue c))). lia.
Qed.

Lemma can_settle c :
  workers ≠ 0 → orderly c → ∃ ss c', run_stages ss c = Some c' ∧ Forall settling ss ∧ ∀ item, idle item c'.
Proof.
  intros Hn. remember (work c) as n eqn:En. revert c En. induction (lt_wf n) as [n _ IH]. intros c -> Ho.
  destruct (decide (work c = 0)) as [Hz|Hz].
  - exists [], c. split_and!; [done|constructor|]. unfold work in Hz. intros item. unfold idle.
    assert (dirty (Queue c) ≡ ∅) by (apply size_empty_inv; lia). assert (waiting c ≡ ∅) by (apply size_empty_inv; lia).
    assert (reconciling c ≡ ∅) by (apply size_empty_inv; lia). set_solver.
  - destruct (settles_further c Hn Ho Hz) as (s & c1 & Hs & Hset & Hlt).
    destruct (IH (work c1) Hlt c1 eq_refl) as (ss & c' & Hrun & Hall & Hidle); [by eapply step_orderly|].
    exists (s :: ss), c'. split_and!; [|by constructor|done]. simpl. by rewrite Hs.
Qed.
End workqueue.
