(* ===== verification/Triggers.v ===== *)
(** * What makes a controller reconcile ([SetupWithManager])

    The three methods [SetupWithManager] of [controllers] say which objects a
    controller watches and which events of them it wants to see; the vendored
    builder and event source make a list of predicates of that, and the events
    that pass ask for the object they are about. Behind that is the queue
    ([Workqueue]). [changes_are_followed_up] puts these together with the
    reconcilers: a change that a controller wants to see is followed by a whole
    and successful reconciliation, and one that it does not want to see does not
    matter to it. *)
From S2P Require Import Prelude Effects K8s Labels Utils Models V1alpha1 Normalize Calls ApiServer Server Repositories Storage Concurrent Main Startup Rest Workqueue.
From S2P Require Import EdgeDeploymentController EdgeDeviceLabelsController EdgeDeviceController.
Import v1alpha1.

#[export] Instance Request_eq_dec : EqDecision Request.
Proof. solve_decision. Defined.
#[export] Instance Request_countable : Countable Request.
Proof.
  apply (inj_countable' (λ r, (req_Name r, req_Namespace r)) (λ p, mkRequest p.1 p.2)). by intros [].
Defined.

(** ** Objects and their events

    An object with its generation, a number of the API server. *)
Inductive kind := KindEdgeDevice | KindEdgeDeployment.
#[export] Instance kind_eq_dec : EqDecision kind.
Proof. solve_decision. Defined.

Inductive object :=
  | DeviceObject (d : EdgeDevice) (generation : Z)
  | DeploymentObject (d : EdgeDeployment) (generation : Z).

Definition kind_of (o : object) : kind :=
  match o with DeviceObject _ _ => KindEdgeDevice | DeploymentObject _ _ => KindEdgeDeployment end.
Definition meta_of (o : object) : ObjectMeta :=
  match o with DeviceObject d _ => EdgeDevice_Meta d | DeploymentObject d _ => EdgeDeployment_Meta d end.
Definition GetGeneration (o : object) : Z :=
  match o with DeviceObject _ g | DeploymentObject _ g => g end.
Definition GetLabels (o : object) : option labelmap := Labels (meta_of o).

Inductive watch_event :=
  | CreateEvent (o : object)
  | UpdateEvent (ObjectOld ObjectNew : object)
  | DeleteEvent (o : object).

(** A watch is for one kind, and an object never changes it. *)
Definition event_kind (e : watch_event) : kind :=
  match e with CreateEvent o | UpdateEvent o _ | DeleteEvent o => kind_of o end.

(** ** Predicates: what they embed lets everything pass that is not an update. *)
Inductive predicate := GenerationChangedPredicate | LabelChangedPredicate.

Definition GenerationChanged_Update (ObjectOld ObjectNew : object) : bool :=
  negb (GetGeneration ObjectNew =? GetGeneration ObjectOld)%Z.
Definition LabelChanged_Update (ObjectOld ObjectNew : object) : bool :=
  negb (bool_decide (GetLabels ObjectNew = GetLabels ObjectOld)).
Definition passes (p : predicate) (e : watch_event) : bool :=
  match e, p with
  | UpdateEvent ObjectOld ObjectNew, GenerationChangedPredicate => GenerationChanged_Update ObjectOld ObjectNew
  | UpdateEvent ObjectOld ObjectNew, LabelChangedPredicate => LabelChanged_Update ObjectOld ObjectNew
  | _, _ => true
  end.

(** ** The builder *)
Record Builder := mkBuilder {
  For_object : option kind;
  For_predicates : list predicate;
  globalPredicates : list predicate;
  Options_MaxConcurrentReconciles : Z;
}.
(** [For] is to be called once. *)
Definition NewControllerManagedBy : Builder := mkBuilder None [] [] 0.
Definition For (k : kind) (WithPredicates : list predicate) (b : Builder) : Builder :=
  mkBuilder (Some k) WithPredicates (globalPredicates b) (Options_MaxConcurrentReconciles b).
Definition WithEventFilter (p : predicate) (b : Builder) : Builder :=
  mkBuilder (For_object b) (For_predicates b) (globalPredicates b ++ [p]) (Options_MaxConcurrentReconciles b).
Definition WithOptions (MaxConcurrentReconciles : Z) (b : Builder) : Builder :=
  mkBuilder (For_object b) (For_predicates b) (globalPredicates b) MaxConcurrentReconciles.

Definition EdgeDeployment_SetupWithManager (MaxConcurrentReconciles : Z) : Builder :=
  WithOptions MaxConcurrentReconciles (For KindEdgeDeployment [] NewControllerManagedBy).
Definition EdgeDeviceLabels_SetupWithManager (MaxConcurrentReconciles : Z) : Builder :=
  WithOptions MaxConcurrentReconciles (For KindEdgeDevice [LabelChangedPredicate] NewControllerManagedBy).
Definition EdgeDevice_SetupWithManager (MaxConcurrentReconciles : Z) : Builder :=
  WithOptions MaxConcurrentReconciles
    (WithEventFilter GenerationChangedPredicate (For KindEdgeDevice [] NewControllerManagedBy)).

Definition builder_of (c : controller) : Builder :=
  match c with
  | EdgeDeviceReconciler _ n => EdgeDevice_SetupWithManager n
  | EdgeDeviceLabelsReconciler n => EdgeDeviceLabels_SetupWithManager n
  | EdgeDeploymentReconciler _ n => EdgeDeployment_SetupWithManager n
  end.

(** The predicates of the watch ([doWatch]), and the workers ([NewUnmanaged]). *)
Definition allPredicates (b : Builder) : list predicate := globalPredicates b ++ For_predicates b.
Definition workers (c : controller) : nat :=
  let n := Options_MaxConcurrentReconciles (builder_of c) in
  Z.to_nat (if (n <=? 0)%Z then 1 else n)%Z.

(** [EnqueueRequestForObject] *)
Definition request_for (o : object) : Request := mkRequest (Name (meta_of o)) (Namespace (meta_of o)).
Definition enqueue (e : watch_event) : list Request :=
  match e with
  | CreateEvent o | DeleteEvent o => [request_for o]
  | UpdateEvent ObjectOld ObjectNew => [request_for ObjectOld; request_for ObjectNew]
  end.

(** What an event adds to the queue of a controller ([OnAdd], [OnUpdate], [OnDelete]). *)
Definition asks (c : controller) (e : watch_event) : list Request :=
  if bool_decide (For_object (builder_of c) = Some (event_kind e)) && forallb (λ p, passes p e) (allPredicates (builder_of c))
  then enqueue e else [].

(** What a controller calls for a request. *)
Definition reconcile_of (c : controller) (req : Request) : go (K8s.Result * option error) :=
  match c with
  | EdgeDeviceReconciler auto _ => EdgeDeviceController.Reconcile auto req
  | EdgeDeviceLabelsReconciler _ => EdgeDeviceLabelsController.Reconcile req
  | EdgeDeploymentReconciler concurrency _ => EdgeDeploymentController.Reconcile concurrency req
  end.

(** A run of a controller in which the replies are those of its reconciler. *)
Definition replies_of (c : controller) (ss : list (stage (K := Request))) : Prop :=
  ∀ req r, Replied req r ∈ ss → ∃ tr, exec (reconcile_of c req) tr (Returned r).

(** ** Theorems *)

(** A reconciler that reports no error reports success, or asks to be called again. *)
Definition plain_reply (r : K8s.Result * option error) : Prop := is_Some r.2 ∨ r = (requeue, None) ∨ r = (no_requeue, None).

Lemma plain_final r : plain_reply r → final r = true → r = (no_requeue, None).
Proof. destruct r as [res [e|]]; [done|]. intros [[? [=]]|[[= ->]|[= ->]]]; done. Qed.

Ltac plain := intros; apply returns_ret; unfold plain_reply; (by left; eexists) || (by right; left) || (by right; right).

Lemma settle_plain n d ds ds' : returns plain_reply (settle n d ds ds').
Proof.
  unfold settle. destruct (DeletionTimestamp _).
  - destruct (HasFinalizer _ _); [|plain]. apply returns_bind. intros [e|]; plain.
  - apply returns_bind. intros [e|]; [plain|]. apply returns_bind. intros [e|]; plain.
Qed.

Lemma reconcile_devices_plain n d : returns plain_reply (reconcile_devices n d).
Proof.
  apply returns_bind. intros r. destruct (tolerate r); [|plain]. apply returns_bind. intros r'.
  destruct (tolerate r'); [apply settle_plain|plain].
Qed.

Lemma reconcile_of_plain c req : returns plain_reply (reconcile_of c req).
Proof.
  destruct c; simpl.
  - apply returns_bind. intros [d|e]; [|destruct (IsNotFound e); plain]. destruct (_ && _); [plain|].
    destruct (no_obc d); [|plain]. apply returns_bind. intros [o|e]; [|plain]. apply returns_bind. intros [e|]; plain.
  - apply returns_bind. intros [d|e]; [|destruct (IsNotFound e); plain].
    destruct (DeletionTimestamp _); [plain|]. apply returns_bind. intros [e|]; plain.
  - apply returns_bind. intros [d|e]; [|destruct (IsNotFound e); plain].
    destruct (DeletionTimestamp _); [apply reconcile_devices_plain|]. destruct (negb _).
    + apply returns_bind. intros [?|e]; plain.
    + apply returns_bind. intros [[] [e|]]; [plain|plain|plain|apply reconcile_devices_plain].
Qed.

(** The order that a reply gives about pauses is not followed if there is an error. *)
Lemma pause_is_ignored When req result err (c : Controller (K := Request)) :
  reconcileHandler When req (result, Some err) c = AddRateLimited When req c.
Proof. done. Qed.

(** A run begins with what was asked for; the rest starts reconciliations. *)
Lemma asked_prefix (reqs : list Request) (ss l1 : list stage) req rest :
  (Asked <$> reqs) ++ ss = l1 ++ Started req :: rest → ∃ l1', ss = l1' ++ Started req :: rest.
Proof.
  revert l1. induction reqs as [|r reqs IH]; intros l1 E; [by exists l1|]. destruct l1 as [|s l1]; [done|].
  injection E as _ E. by eapply IH.
Qed.

Lemma workers_positive c : workers c ≠ 0.
Proof. unfold workers. destruct (Z.leb_spec (Options_MaxConcurrentReconciles (builder_of c)) 0); lia. Qed.

Lemma selector_labels_of_labels (old new : EdgeDevice) :
  device_name old = device_name new → device_labels old = device_labels new →
  createSelectorLabelsMap old = createSelectorLabelsMap new ∧
  ∀ deployment, isDeploymentMatchDevice deployment old = isDeploymentMatchDevice deployment new.
Proof. intros Hn Hl. unfold createSelectorLabelsMap, isDeploymentMatchDevice. by rewrite Hn, Hl. Qed.

Lemma wants_obc_of_spec (old new : EdgeDevice) :
  EdgeDevice_Spec old = EdgeDevice_Spec new → ShouldCreateOBC old = ShouldCreateOBC new.
Proof. intros H. unfold ShouldCreateOBC, ShouldUseExternalConfig, getS3. by rewrite H. Qed.

(** C10: Changes are followed up. When a controller that [main] sets up has nothing
    left to do for an object, then after the last event of that object that it
    wanted to see there was a whole reconciliation of the object, from its first
    read to a report of success, whatever happened in between: however many
    events came at once or while it was being reconciled, however the workers
    took turns, and however often a reconciliation failed. No two workers
    reconcile the same object at the same time, and there are no more of them
    than configured. Having nothing left to do can always be reached, if
    reconciliations succeed. The deployment controller wants to see every event
    of a deployment, its own patches included, on which it relies. The other two
    see every device that appears; an update that the label controller is not
    shown leaves the labels that deployments are looked up by, and the
    deployments that match, as they were, and one that the device controller is
    not shown leaves the wish for a claim as it was, as the generation changes
    with the specification. *)
Theorem changes_are_followed_up When c ss1 e ss2 ctl :
  run_stages When (workers c) (ss1 ++ (Asked <$> asks c e) ++ ss2) new_controller = Some ctl →
  replies_of c (ss1 ++ ss2) → shuttingDown (Queue ctl) = false →
  (∀ req, req ∈ asks c e → idle req ctl →
     ∃ l1 l2 l3 tr, ss2 = l1 ++ Started req :: l2 ++ Replied req (no_requeue, None) :: l3 ∧
       Forall (aside req) l2 ∧ Forall (aside req) l3 ∧
       exec (reconcile_of c req) tr (Returned (no_requeue, None))) ∧
  (∀ req ctl', step When (workers c) (Started req) ctl = Some ctl' →
     (req ∉ processing (Queue ctl)) ∧ size (processing (Queue ctl')) ≤ workers c) ∧
  (∃ ss ctl', run_stages When (workers c) ss ctl = Some ctl' ∧ Forall settling ss ∧ ∀ req, idle req ctl') ∧
  (event_kind e = KindEdgeDeployment → ∀ concurrency n, asks (EdgeDeploymentReconciler concurrency n) e = enqueue e) ∧
  (∀ old g new g' auto n, device_name old = device_name new →
     (asks (EdgeDeviceLabelsReconciler n) (UpdateEvent (DeviceObject old g) (DeviceObject new g')) = [] →
        createSelectorLabelsMap old = createSelectorLabelsMap new ∧
        ∀ deployment, isDeploymentMatchDevice deployment old = isDeploymentMatchDevice deployment new) ∧
     (asks (EdgeDeviceReconciler auto n) (UpdateEvent (DeviceObject old g) (DeviceObject new g')) = [] →
        (g = g' → EdgeDevice_Spec old = EdgeDevice_Spec new) → ShouldCreateOBC old = ShouldCreateOBC new) ∧
     asks (EdgeDeviceLabelsReconciler n) (CreateEvent (DeviceObject new g)) = [request_for (DeviceObject new g)] ∧
     asks (EdgeDeviceReconciler auto n) (CreateEvent (DeviceObject new g)) = [request_for (DeviceObject new g)]).
Proof.
  intros Hrun Hreplies Hsd. assert (reachable When (workers c) ctl) as Hreach by by eexists.
  split_and!.
  - intros req (l & l' & E)%list_elem_of_split Hidle. rewrite E, fmap_app, fmap_cons, <- app_assoc in Hrun. simpl in Hrun.
    rewrite app_assoc in Hrun. destruct (followed_up When (workers c) req _ _ _ Hrun Hsd Hidle) as (l1 & l2 & r & l3 & E' & H2 & H3 & Hf).
    apply asked_prefix in E' as [l1' ->].
    destruct (Hreplies req r) as [tr Htr]; [set_solver|].
    assert (r = (no_requeue, None)) as ->.
    { apply plain_final; [|done]. pose proof (reconcile_of_plain c req) as Hp. unfold returns in Hp. rewrite wp_exec in Hp. by eapply Hp. }
    by exists l1', l2, l3, tr.
  - intros req ctl'. by apply started_alone.
  - apply can_settle; [apply workers_positive|]. by eapply reachable_orderly.
  - intros Hk concurrency n. unfold asks. simpl. by rewrite Hk.
  - intros old g new g' auto n Hname. split_and!; [| |done..].
    + unfold asks. simpl. unfold LabelChanged_Update. simpl. case_bool_decide as Hl; [|done]. intros _. by apply selector_labels_of_labels.
    + unfold asks. simpl. unfold GenerationChanged_Update. simpl. destruct (Z.eqb_spec g' g) as [->|]; [|done]. intros _ Hspec. by apply wants_obc_of_spec, Hspec.
Qed.

(** Two updates of the labels of a device, the second while the first is looked at,
    and a reconciliation that fails before one that finds the device gone. *)
Definition the_device (l : labelmap) : EdgeDevice := set_labels (Some l) (some_device "dev" "ns" ∅).
Definition relabelled : watch_event :=
  UpdateEvent (DeviceObject (the_device ∅) 1) (DeviceObject (the_device {["zone" := "a"]}) 1).
Definition the_request : Request := mkRequest "dev" "ns".
Definition busy : list stage :=
  [Started the_request; Asked the_request; Replied the_request (requeue, Some unsupported); Finished the_request;
   Started the_request; Due the_request; Replied the_request (no_requeue, None); Finished the_request;
   Started the_request; Replied the_request (no_requeue, None); Finished the_request].

Lemma changes_are_followed_up_witness :
  asks (EdgeDeviceLabelsReconciler 2) relabelled = [the_request; the_request] ∧
  asks (EdgeDeviceReconciler true 2) relabelled = [] ∧
  ∃ l1 l2 l3 tr, busy = l1 ++ Started the_request :: l2 ++ Replied the_request (no_requeue, None) :: l3 ∧
    Forall (aside the_request) l2 ∧ Forall (aside the_request) l3 ∧
    exec (EdgeDeviceLabelsController.Reconcile the_request) tr (Returned (no_requeue, None)).
Proof.
  split; [vm_compute; reflexivity|]. split; [vm_compute; reflexivity|].
  destruct (changes_are_followed_up (λ _, 1%Z) (EdgeDeviceLabelsReconciler 2) [] relabelled busy new_controller)
    as [H _].
  - vm_compute. reflexivity.
  - intros req r Hin. repeat (apply elem_of_cons in Hin as [Hin|Hin]; [try discriminate Hin|]); [..|by apply elem_of_nil in Hin].
    all: injection Hin as -> ->.
    + exists [Ev (S := api) (GetEdgeDevice "ns" "dev") (Err unsupported)]. apply exec_call. constructor.
    + exists [Ev (S := api) (GetEdgeDevice "ns" "dev") (Err not_found)]. apply exec_call. constructor.
    + exists [Ev (S := api) (GetEdgeDevice "ns" "dev") (Err not_found)]. apply exec_call. constructor.
  - reflexivity.
  - apply (H the_request); [|vm_compute; split_and!; set_solver].
    apply elem_of_cons. left. reflexivity.
Defined.
