(* ===== verification/Settling.v ===== *)
(** * A deployment settles in a few rounds

    A reconciliation of a deployment does one thing at a time: it sets the
    finalizer, or the labels of the selector, or deals with the devices. The first
    ends with a wish to be called again, the second with success, relying on the
    event of its own patch. This file follows a deployment through these rounds:
    three successful ones are enough, and as long as the deployment has not
    settled, another one is owed by the queue or by an event ([Triggers]). *)
From S2P Require Import Prelude Effects Rely K8s Labels Utils V1alpha1 Calls ApiServer Server Repositories Concurrent Startup Workqueue Triggers.
From S2P Require Import EdgeDeploymentController Convergence.
Import v1alpha1.

Definition deployment_key (d : EdgeDeployment) : key := (dep_namespace d, dep_name d).

(** [d] is stored after a patch from the stored version to [new]; a map without
    entries may be stored as none. *)
Record deployment_patched (new d : EdgeDeployment) : Prop := {
  dp_key : deployment_key d = deployment_key new;
  dp_labels : map_of (dep_labels d) = map_of (dep_labels new);
  dp_finalizers : Finalizers (EdgeDeployment_Meta d) = Finalizers (EdgeDeployment_Meta new);
  dp_deletion : DeletionTimestamp (EdgeDeployment_Meta d) = DeletionTimestamp (EdgeDeployment_Meta new);
  dp_spec : EdgeDeployment_Spec d = EdgeDeployment_Spec new;
}.

(** The API server's part in it, for deployments that are not being deleted. *)
Class DeploymentPatchLaws W `{ApiServer W} :=
  patch_deployment w old new r w' :
    answers w (PatchEdgeDeployment old new) r w' →
    deployments_of w !! deployment_key new = Some old → DeletionTimestamp (EdgeDeployment_Meta new) = None →
    match r with
    | Ok d => deployment_patched new d ∧ deployments_of w' = <[deployment_key new := d]> (deployments_of w)
    | Err _ => deployments_of w' = deployments_of w
    end.

#[export] Instance cluster_patches : DeploymentPatchLaws cluster.
Proof. intros c old new r c' Ha _ _. simpl in Ha. by injection Ha as <- <-. Qed.

(** ** Selectors that do not speak of a label *)
Definition speaks_of (s : LabelSelector) (label : string) : Prop :=
  label ∈ (map_to_list (MatchLabels s)).*1 ∨ label ∈ req_Key <$> MatchExpressions s.

Lemma req_matches_delete r (ls ls' : labelmap) label :
  lr_key r ≠ label → delete label ls = delete label ls' → req_matches r ls = req_matches r ls'.
Proof.
  intros Hne E. assert (ls !! lr_key r = ls' !! lr_key r) as El.
  { rewrite <- (lookup_delete_ne ls label), <- (lookup_delete_ne ls' label) by congruence. by rewrite E. }
  unfold req_matches. by rewrite El.
Qed.

Lemma requirement_key expr r : requirement_of expr = Ok r → lr_key r = req_Key expr.
Proof. unfold requirement_of. destruct (req_Operator expr); [by intros [-> _]%NewRequirement_ok..|done]. Qed.

Lemma forallb_ext_in {A} (f g : A → bool) (l : list A) : (∀ a, a ∈ l → f a = g a) → forallb f l = forallb g l.
Proof.
  induction l as [|a l IH]; intros H; [done|]. simpl. rewrite (H a) by left. f_equal. apply IH. intros b Hb. apply H. by right.
Qed.

Lemma Forall2_in_r {A B} (P : A → B → Prop) l k b : Forall2 P l k → b ∈ k → ∃ a, a ∈ l ∧ P a b.
Proof.
  induction 1 as [|a b' l k HP _ IH]; [by intros ?%elem_of_nil|]. intros [->|Hb]%elem_of_cons; [exists a; by split; [left|]|].
  destruct (IH Hb) as (a' & ? & ?). exists a'. by split; [right|].
Qed.

Lemma sel_matches_delete ps s (ls ls' : labelmap) label :
  LabelSelectorAsSelector (Some ps) = Ok s → ¬ speaks_of ps label → delete label ls = delete label ls' →
  sel_matches s ls = sel_matches s ls'.
Proof.
  intros Hs Hno E. simpl in Hs. destruct (all_ok _ (map_to_list _)) as [rs1|] eqn:E1; [|done].
  destruct (all_ok _ (MatchExpressions _)) as [rs2|] eqn:E2; [|done]. injection Hs as <-. simpl.
  apply all_ok_Forall2 in E1, E2. apply forallb_ext_in. intros r Hr. apply (req_matches_delete r ls ls' label); [|done].
  intros Hk. apply Hno. apply elem_of_app in Hr as [Hr|Hr].
  - left. destruct (Forall2_in_r _ _ _ _ E1 Hr) as ([k v] & Hin & [-> _]%NewRequirement_ok). simpl in Hk. subst k.
    apply list_elem_of_fmap. by exists (label, v).
  - right. destruct (Forall2_in_r _ _ _ _ E2 Hr) as (expr & Hin & Hx%requirement_key).
    apply list_elem_of_fmap. exists expr. split; [congruence|done].
Qed.

(** A deployment whose selector does not speak of its own workload label. *)
Definition silent (dep : EdgeDeployment) : Prop :=
  ∀ s, dep_selector dep = Some s → ¬ speaks_of s (WorkloadLabel (dep_name dep)).

Lemma silent_meant_for dep d d' :
  silent dep → key_of d' = key_of d → other_labels (dep_name dep) d' = other_labels (dep_name dep) d →
  meant_for dep d' = meant_for dep d.
Proof.
  intros Hs [= Hns Hn] Hl. unfold meant_for, device_namespace, device_name in *. rewrite Hns, Hn. f_equal.
  destruct (negb _); [done|]. destruct (dep_selector dep) as [ps|] eqn:E; [|done].
  destruct (LabelSelectorAsSelector (Some ps)) as [s|] eqn:Es; [|done].
  eapply sel_matches_delete; [done|by apply Hs|done].
Qed.

(** ** A deployment and its later versions *)
Record version (dep dep' : EdgeDeployment) : Prop := {
  v_key : deployment_key dep' = deployment_key dep;
  v_spec : EdgeDeployment_Spec dep' = EdgeDeployment_Spec dep;
  v_alive : DeletionTimestamp (EdgeDeployment_Meta dep') = None;
}.

Lemma version_trans dep1 dep2 dep3 : version dep1 dep2 → version dep2 dep3 → version dep1 dep3.
Proof. intros [] []. split; congruence. Qed.

Lemma version_silent dep dep' : version dep dep' → silent dep → silent dep'.
Proof.
  intros [[= _ Hn] Hs _] H s. unfold dep_selector. rewrite Hs. intros E. rewrite Hn. by apply H.
Qed.

(** How many rounds a phase is away from the devices. *)
Definition rank (p : phase) : nat := match p with SetFinalizer => 2 | SetLabels => 1 | Devices => 0 end.

Lemma selector_labels_ext dep dep' :
  EdgeDeployment_Spec dep' = EdgeDeployment_Spec dep → map_of (dep_labels dep') = map_of (dep_labels dep) →
  dep_labels (update_selector_labels dep') = dep_labels (update_selector_labels dep).
Proof.
  intros Hs Hl. rewrite !update_selector_labels_union, Hl. unfold selector_labels, dep_device, dep_selector. by rewrite Hs.
Qed.

Lemma patched_not_stale dep d : deployment_patched (update_selector_labels dep) d → stale d = false.
Proof.
  intros [_ Hl _ _ Hs]. destruct (UpdateSelectorLabels_settles dep) as [Hidem _]. unfold stale.
  assert (dep_labels (update_selector_labels d) = dep_labels (update_selector_labels dep)) as ->.
  { rewrite (selector_labels_ext (update_selector_labels dep) d Hs Hl). by rewrite Hidem. }
  rewrite update_selector_labels_union in *. simpl in *. destruct (dep_labels d) as [m|]; simpl in Hl.
  - by rewrite Hl, (bool_decide_eq_true_2 _ eq_refl), orb_true_r.
  - by rewrite <- Hl, (bool_decide_eq_true_2 _ (conj eq_refl eq_refl)).
Qed.

Lemma stale_changes dep d :
  EdgeDeployment_Spec d = EdgeDeployment_Spec dep → stale dep = true → stale d = false → dep_labels d ≠ dep_labels dep.
Proof.
  intros Hs H1 H2 E. assert (stale d = stale dep); [|congruence]. unfold stale.
  rewrite (selector_labels_ext dep d Hs) by by rewrite E. by rewrite E.
Qed.

(** ** One round *)
Section rounds.
Context {W : Type} `{AS : ApiServer W} {AL : ApiServerLaws W} {DL : DeploymentPatchLaws W}.
Context (Concurrency : Z) (HC : (0 < Concurrency < 2 ^ 63)%Z) (req : Request).
#[local] Abbreviation req_key := (req_Namespace req, req_Name req).

(** The deployment of the request is stored, and is alive. *)
Record alive (dep : EdgeDeployment) (w : W) : Prop := {
  alive_stored : deployments_of w !! req_key = Some dep;
  alive_key : deployment_key dep = req_key;
  alive_living : DeletionTimestamp (EdgeDeployment_Meta dep) = None;
  alive_keyed : well_keyed (devices_of w);
}.

Definition settled (dep : EdgeDeployment) (w : W) : Prop :=
  ∃ dep', alive dep' w ∧ version dep dep' ∧ phase_of dep' = Devices ∧ in_place dep' (devices_of w).

(** What a successful round that has not settled the deployment leads to. *)
Definition gets_on (dep : EdgeDeployment) (r : K8s.Result * option error) (w' : W) : Prop :=
  ∃ dep', alive dep' w' ∧ version dep dep' ∧ rank (phase_of dep') < rank (phase_of dep) ∧
    (r = (requeue, None) ∨ dep_labels dep' ≠ dep_labels dep).

Lemma in_place_after dep w w' :
  alive dep w → silent dep →
  G (dep_name dep) (belongs dep w) (concerned dep w) w w' →
  (∀ k, concerned dep w k → right_in (dep_name dep) (belongs dep w) k w') →
  in_place dep (devices_of w') ∧ well_keyed (devices_of w').
Proof.
  intros [_ _ Hlive Hkeyed] Hs HG Hr.
  assert (Hback : ∀ k d', devices_of w' !! k = Some d' → ∃ d, devices_of w !! k = Some d ∧
    allowed (dep_name dep) (belongs dep w k) (concerned dep w k) d d').
  { intros k d' Hd'. specialize (HG k). rewrite Hd' in HG. destruct (devices_of w !! k) as [d|]; [by eauto|done]. }
  split; intros k d' Hd'; destruct (Hback k d' Hd') as (d & Hd & Hal).
  2:{ rewrite (al_key _ _ _ _ _ Hal). by apply Hkeyed. }
  assert (meant_for dep d' = meant_for dep d) as Em by (apply silent_meant_for; [done|apply Hal..]).
  assert (Hright : concerned dep w k → entry_right (dep_name dep) (belongs dep w) k d' ∧ label_right (dep_name dep) (belongs dep w) k d').
  { intros (d2 & Hd2 & He & Hl)%Hr. rewrite Hd' in Hd2. by injection Hd2 as <-. }
  split.
  - rewrite Em. intros Hm. assert (belongs dep w k) as Hb by by split; [|exists d].
    destruct Hright as [[He _] [Hl _]]; [exists d; auto|]. by split; auto.
  - intros Hl'. destruct (meant_for dep d') eqn:Em'; [done|]. exfalso.
    assert (¬ belongs dep w k) as Hnb by (intros [_ (d2 & Hd2 & Hm2)]; simplify_eq; congruence).
    destruct (labelled dep d) eqn:El.
    + destruct Hright as [_ [_ Hno]]; [exists d; auto|]. specialize (Hno Hnb). unfold labelled in Hl'. unfold hasLabelForDeployment in Hno.
      apply andb_true_iff in Hl' as [_ Hl'%bool_decide_eq_true]. apply bool_decide_eq_false in Hno. apply Hno. rewrite Hl'. by eexists.
    + assert (d' = d) as ->; [|congruence]. apply (al_untouched _ _ _ _ _ Hal). intros (d2 & Hd2 & [?|?]); simplify_eq; congruence.
Qed.

(** Dealing with devices does not write to deployments. *)
Lemma steps_keep_deployments name w tr w' :
  evolves answers w tr w' → Forall (step_op name) (ev_op <$> tr) → deployments_of w' = deployments_of w.
Proof.
  induction 1 as [w|w o a w1 tr w2 Ha _ IH]; [done|]. intros [Ho Htr]%Forall_cons. rewrite (IH Htr).
  eapply deployments_keep; [done|]. by destruct o, Ho.
Qed.

Lemma one_round dep w :
  alive dep w → silent dep →
  swp answers (EdgeDeploymentController.Reconcile Concurrency req) w (λ _ r w',
    r.2 = None → (r = (no_requeue, None) ∧ alive dep w' ∧ phase_of dep = Devices ∧ in_place dep (devices_of w')) ∨ gets_on dep r w').
Proof.
  intros Ha Hs tr r w' He Hev Hok. pose proof Ha as [Hst Hk Hlive Hkeyed].
  destruct (proj1 (wp_exec _ _) (Reconcile_wp Concurrency HC req) _ _ He) as (r0 & tr' & -> & Hout).
  pose proof Hev as Hev0. apply evolves_cons_inv in Hev as (w1 & Hget & Hev).
  assert (Ed : deployments_of w1 = deployments_of w) by by eapply deployments_keep.
  assert (Ev_ : devices_of w1 = devices_of w) by by eapply reads_keep.
  apply get_deployment in Hget. destruct r0 as [dep0|e].
  2:{ destruct Hout as [_ [= ->]]. destruct (IsNotFound e) eqn:En; [|done]. by rewrite Hget in Hst. }
  rewrite Hst in Hget. injection Hget as <-. unfold phase_post in Hout.
  assert (Hpatch : ∀ new a, deployment_key new = req_key → DeletionTimestamp (EdgeDeployment_Meta new) = None →
    EdgeDeployment_Spec new = EdgeDeployment_Spec dep → tr' = [Ev (S := api) (PatchEdgeDeployment dep new) a] → error_of a = None →
    ∃ d, deployment_patched new d ∧ alive d w' ∧ version dep d).
  { intros new a Hnk Hnl Hns -> Hea. apply evolves_cons_inv in Hev as (w2 & Hp & Hev). inversion Hev; simplify_eq.
    assert (devices_of w' = devices_of w) as Edev by (rewrite <- Ev_; by eapply reads_keep).
    apply patch_deployment in Hp; [|by rewrite Hnk, Ed|done]. destruct a as [d|]; [|done]. destruct Hp as [Hp Hw2].
    exists d. pose proof Hp as [Hpk _ _ Hpd Hps]. split; [done|]. split; split; try congruence.
    - by rewrite Hw2, Hnk, lookup_insert_eq.
    - by rewrite Edev. }
  destruct (phase_of dep) eqn:Ep.
  - destruct Hout as (a & Htr & [= ->]). right.
    destruct (Hpatch (dep_set_finalizers [YggdrasilDeviceReferenceFinalizer] dep) a) as (d & [_ _ Hf _ _] & Hal & Hv); [done..|]. exists d. split_and!; [done..| |left; simpl in Hok; by rewrite Hok].
    assert (HasFinalizer (EdgeDeployment_Meta d) YggdrasilDeviceReferenceFinalizer = true) as Hfin.
    { unfold HasFinalizer. rewrite Hf. reflexivity. }
    rewrite Ep. unfold phase_of. rewrite (v_alive _ _ Hv), Hfin. simpl. destruct (stale d); simpl; lia.
  - destruct Hout as (a & Htr & [= ->]). right.
    destruct (Hpatch (update_selector_labels dep) a) as (d & Hp & Hal & Hv); [done..|].
    pose proof (patched_not_stale _ _ Hp) as Hns. pose proof Ep as Ep'. unfold phase_of in Ep'. rewrite Hlive in Ep'.
    destruct (HasFinalizer (EdgeDeployment_Meta dep) _) eqn:Hfin; [|done]. destruct (stale dep) eqn:Est; [|done].
    exists d. split_and!; [done..| |right; eapply stale_changes; [apply Hv|done..]].
    assert (HasFinalizer (EdgeDeployment_Meta d) YggdrasilDeviceReferenceFinalizer = true) as Hfd.
    { unfold HasFinalizer in *. by rewrite (dp_finalizers _ _ Hp). }
    rewrite Ep. unfold phase_of. rewrite (v_alive _ _ Hv), Hfd, Hns. simpl. lia.
  - left. destruct (Reconcile_swp Concurrency HC req dep w Hkeyed Hst Ep _ _ _ He Hev0) as [HG Hr].
    destruct r as [res [e|]]; [done|]. simpl in Hout. destruct Hout as (-> & l & m & _ & _ & Hops). rewrite Hlive in Hops.
    destruct Hops as (Hops & _). assert (HasFinalizer (EdgeDeployment_Meta dep) YggdrasilDeviceReferenceFinalizer = true) as Hfin.
    { unfold phase_of in Ep. rewrite Hlive in Ep. by destruct (HasFinalizer _ _). }
    destruct (in_place_after dep w w' Ha Hs HG (Hr eq_refl Hfin)) as [Hin Hkeyed'].
    split_and!; [done| |done|done]. split; [|done..|done].
    by rewrite (steps_keep_deployments _ _ _ _ Hev Hops), Ed.
Qed.

(** ** Several rounds, one after the other *)
Fixpoint rounds (n : nat) : go (list (K8s.Result * option error)) :=
  match n with
  | 0 => Ret []
  | S n =>
      r ← EdgeDeploymentController.Reconcile Concurrency req;
      rs ← rounds n;
      Ret (r :: rs)
  end.

Lemma rounds_settle n dep w :
  alive dep w → silent dep → rank (phase_of dep) < n →
  swp answers (rounds n) w (λ _ rs w', Forall (λ r, r.2 = None) rs → settled dep w').
Proof.
  revert dep w. induction n as [|n IH]; intros dep w Ha Hs Hn; [lia|]. cbn [rounds].
  apply swp_bind. eapply swp_mono; [by apply one_round|]. intros tr r w1 Hround. simpl in Hround.
  destruct r as [res [e|]].
  { apply swp_bind. intros tr2 rs w2 _ _. apply swp_ret. by intros [? _]%Forall_cons. }
  destruct (Hround eq_refl) as [(_ & Ha1 & Hp & Hin)|(dep' & Ha1 & Hv & Hlt & _)].
  - assert (settled dep w1) as Hset.
    { exists dep. split_and!; [done| |done|done]. split; [done..|]. apply Ha. }
    apply swp_bind. destruct n as [|n].
    + by apply swp_ret, swp_ret.
    + eapply swp_mono; [apply (IH dep w1); [done..|rewrite Hp; simpl; lia]|].
      intros tr2 rs w2 H2. apply swp_ret. by intros [_ ?]%Forall_cons; auto.
  - apply swp_bind. eapply swp_mono; [apply (IH dep' w1); [done|by eapply version_silent|lia]|].
    intros tr2 rs w2 H2. apply swp_ret. intros [_ Hrs]%Forall_cons. destruct (H2 Hrs) as (dep2 & Ha2 & Hv2 & Hp2 & Hin2).
    exists dep2. split_and!; [done|by eapply version_trans|done|done].
Qed.
End rounds.

(** C9: A deployment settles. Take a deployment that is not being deleted, at any
    point of its life, with a selector that does not speak of the workload label
    that the controller itself sets, in a world with the documented behaviour of
    the API server. Three successful reconciliations of it, with nothing else at
    work, lead to the desired state: it has the finalizer and the labels of its
    selector, it is on every device it is meant for, and no other device has its
    label; its specification is what it was. And these rounds come about: a
    round that succeeds has reached that state, or its reply has the queue call
    the reconciler again, or it has changed the labels of the deployment, an
    event that the controller asked to be shown. *)
Theorem deployments_settle {W} `{ApiServer W} `{!ApiServerLaws W} `{!DeploymentPatchLaws W} Concurrency req dep (w : W) n :
  (0 < Concurrency < 2 ^ 63)%Z → alive req dep w → silent dep → 3 ≤ n →
  swp answers (rounds Concurrency req n) w (λ _ rs w', Forall (λ r, r.2 = None) rs → settled req dep w') ∧
  swp answers (EdgeDeploymentController.Reconcile Concurrency req) w (λ _ r w', r.2 = None →
    settled req dep w' ∨ final r = false ∨
    ∃ dep', deployments_of w' !! (req_Namespace req, req_Name req) = Some dep' ∧ dep_labels dep' ≠ dep_labels dep ∧
      ∀ g g' workers, req ∈ asks (EdgeDeploymentReconciler Concurrency workers)
        (UpdateEvent (DeploymentObject dep g) (DeploymentObject dep' g'))).
Proof.
  intros HC Ha Hs Hn. split.
  - apply rounds_settle; [done..|]. destruct (phase_of dep); simpl; lia.
  - eapply swp_mono; [by apply one_round|]. intros tr r w' Hround Hok.
    destruct (Hround Hok) as [(_ & Ha1 & Hp & Hin)|(dep' & Ha1 & Hv & Hlt & [->|Hl])].
    + left. exists dep. split_and!; [done| |done|done]. split; [done..|]. apply Ha.
    + right. by left.
    + right. right. exists dep'. split_and!; [apply Ha1|done|]. intros g g' workers. unfold asks. simpl.
      apply elem_of_cons. left. unfold request_for. simpl. pose proof (alive_key _ _ _ Ha) as [= E1 E2].
      unfold dep_namespace, dep_name in *. destruct req. simpl in *. congruence.
Qed.

(** A new deployment for the devices of a zone; one that is elsewhere has its label. *)
Definition new_deployment : EdgeDeployment := some_deployment "d" "ns" ∅ [] (Some example_selector) "".
Definition before : cluster :=
  put_device (some_device "near" "ns" {["zone" := "a"]})
    (put_device (some_device "far" "ns" {[WorkloadLabel "d" := "true"]}) (put_deployment new_deployment empty_cluster)).
Definition new_request : Request := mkRequest "d" "ns".

Lemma deployments_settle_witness :
  outcome_of (rounds 4 new_request 3) before = Returned [(requeue, None); (no_requeue, None); (no_requeue, None)] ∧
  ((λ d, hasDeployment d "d") <$> devices (cluster_of (rounds 4 new_request 3) before) !! ("ns", "near")) = Some true ∧
  (map_of ∘ device_labels <$> devices (cluster_of (rounds 4 new_request 3) before) !! ("ns", "far")) = Some ∅ ∧
  settled new_request new_deployment (cluster_of (rounds 4 new_request 3) before).
Proof.
  split; [vm_compute; reflexivity|]. split; [vm_compute; reflexivity|]. split; [vm_compute; reflexivity|].
  destruct (deployments_settle 4 new_request new_deployment before 3) as [H _].
  - lia.
  - split; [vm_compute; reflexivity..|]. apply map_Forall_keyed. vm_compute. reflexivity.
  - intros s [= <-]. unfold speaks_of. apply (bool_decide_unpack _). vm_compute. exact I.
  - lia.
  - refine (run_swp (rounds 4 new_request 3) before _ [(requeue, None); (no_requeue, None); (no_requeue, None)] H _ _ _);
      [vm_compute; reflexivity..|]. repeat constructor.
Defined.
