(* ===== verification/Operator.v ===== *)
(** * The operator, assembled

    The implementations of [internal] behind the interfaces of the message
    handlers, the laws they keep, and the handlers at work against the
    in-memory environment. *)
From stdpp Require Import pretty.
From Stdlib Require Import SpecFloat.
From S2P Require Import Prelude Effects K8s Labels Utils X509 Models V1alpha1 Normalize Hardware Calls ApiServer Rely Server Repositories Heartbeat Lookups ConfigMaps Yggdrasil Registration DeviceSide CertUtils Mtls MtlsSpec Main Validation Contract EmbeddedSpec Schema Wire Decode Untyped Rest Binary Conforming Conduct Decency Goodbye System.
Import v1alpha1.

Lemma provider_SignCSR_quiet p csr cn expiration :
  within quiet (CASecretProvider.SignCSR p csr cn expiration).
Proof.
  unfold CASecretProvider.SignCSR. destruct (CASecretProvider.latestCA p); [|done].
  split; [done|]. intros [block|]; [|done].
  apply within_bind_ok; [apply wrap_quiet; by within_go|]. intros CSR.
  apply within_bind; [by within_go|]. intros serial. apply within_bind; [by within_go|]. intros nb.
  apply within_bind; [by within_go|]. intros parent.
  apply within_bind_ok; [apply wrap_quiet; by within_go|]. by within_go.
Qed.

(** The look-ups that the operator is started with change nothing. *)
#[export] Instance operator_lookups (conf : TLSConfig.t CASecretProvider.t) :
  LookupLaws allowListGenerator RegistryAuth configMap (tls_signer conf).
Proof.
  split.
  - intros. apply allowList_quiet.
  - intros. apply authFile_quiet.
  - intros. apply Fetch_quiet.
  - intros csr cn. simpl. unfold TLSConfig.SignCSR. destruct (TLSConfig.caProvider conf); [done|].
    apply within_bind; [by within_go|]. intros e. apply provider_SignCSR_quiet.
Qed.

(** A configuration with an authority. *)
Definition some_authority : CertificateGroup :=
  mkCertificateGroup (Some (some_certificate "ca" [])) (Some (some_certificate "ca" []))
    (Some (EcdsaKey "k")) "der" (Some "crt"%string) (Some "key"%string).
Definition some_conf : TLSConfig.t CASecretProvider.t :=
  TLSConfig.mk [CASecretProvider.mk "flotta" (Some some_authority)] [] true "flotta" 30.

#[local] Instance some_signer : CSRSigner := tls_signer some_conf.
#[local] Instance some_tables : UnicodeTables := latin1_tables.

Definition registration : models.Message :=
  models.mkMessage (models.CommandContent "" ∅) "registration" "m" 0 models.MessageTypeData 1.
Definition the_report : models.RegistrationInfo := models.mkRegistrationInfo "csr" (Some some_report).

(** A new device registers: it gets a certificate and appears in the cluster. *)
Lemma register_spec_witness :
  outcome_of (register "ns" "dev" registration the_report) empty_cluster =
    Returned (response registration (Some (models.mkRegistrationResponse "der"))) ∧
  (device_labels <$> devices (cluster_of (register "ns" "dev" registration the_report) empty_cluster)
     !! ("ns", "dev")) =
    Some (Some {["device.hostname" := "edge-1.example"; "device.cpu-architecture" := "x86_64";
                 "device.cpu-model" := "corei7"]}) ∧
  wp (register "ns" "dev" registration the_report) (λ tr out, ∃ r tr',
    tr = Ev (S := api) (GetEdgeDevice "ns" "dev") r :: tr' ∧
    (∀ d, r = Ok d → writes tr' = [] ∧ counted tr' = [])).
Proof.
  split; [vm_compute; reflexivity|]. split; [vm_compute; reflexivity|].
  eapply wp_mono; [apply (register_spec "ns" "dev" registration the_report)|].
  intros tr out (r & tr' & -> & H & _). exists r, tr'. split; [done|]. intros d Hd.
  by destruct (H d Hd) as (? & ? & _).
Defined.

(** The same device in the world of the server, and again. *)
Lemma register_converges_witness :
  let p := register "ns" "dev" registration the_report in
  (∃ d, devices (cluster_of p empty_cluster) !! ("ns", "dev") = Some d ∧
     enrolled "ns" "dev" (Some some_report) d) ∧
  devices (cluster_of p (put_device deployed empty_cluster)) = devices (put_device deployed empty_cluster).
Proof.
  intros p. split.
  - destruct (run_swp p empty_cluster _ (response registration (Some (models.mkRegistrationResponse "der")))
      (register_converges "ns" "dev" registration the_report empty_cluster)
      ltac:(vm_compute; reflexivity) ltac:(vm_compute; reflexivity)) as (d & Hw & H).
    exists d. split; [|exact H]. etrans; [exact (f_equal (lookup ("ns", "dev")%string) Hw)|apply lookup_insert_eq].
  - exact (run_swp p (put_device deployed empty_cluster) _ (response registration (Some (models.mkRegistrationResponse "der")))
      (register_converges "ns" "dev" registration the_report (put_device deployed empty_cluster))
      ltac:(vm_compute; reflexivity) ltac:(vm_compute; reflexivity)).
Defined.

Definition leaving (fs : list string) : EdgeDevice :=
  mkEdgeDevice (mkObjectMeta "dev" "ns" "1" None fs (Some 7%Z)) zero_spec zero_status.

(** The two finalizers go one after the other. *)
Lemma GetControl_disconnects_witness :
  trace_of (GetControlMessageForDevice "ns" "dev")
    (put_device (leaving [YggdrasilConnectionFinalizer]) empty_cluster) =
    [GetEdgeDevice "ns" "dev";
     PatchEdgeDevice (leaving [YggdrasilConnectionFinalizer]) (leaving []);
     IncCounter EdgeDeviceUnregistration; NewUUID; Now] ∧
  wp (GetControlMessageForDevice "ns" "dev") (λ tr out, ∃ r tr',
    tr = Ev (S := api) (GetEdgeDevice "ns" "dev") r :: tr' ∧
    (r = Ok (leaving [YggdrasilWorkloadFinalizer]) → out = Returned (OK None))).
Proof.
  split; [vm_compute; reflexivity|].
  eapply wp_mono; [apply (GetControl_disconnects "ns" "dev")|].
  intros tr out (r & tr' & -> & H). exists r, tr'. split; [done|]. intros Hr.
  apply (H _ Hr). right. reflexivity.
Defined.

Definition message_of {R} (o : outcome (Responder R)) : option R :=
  match o with Returned (OK m) => m | _ => None end.

(** A device with one deployment is sent one workload. *)
Lemma GetData_spec_witness :
  (match message_of (outcome_of (GetDataMessageForDevice "ns" "dev")
      (put_deployment (some_deployment "d" "ns" ∅ [] None "dev") (put_device deployed empty_cluster))) with
   | Some (models.mkMessage (models.ConfigurationContent dc) _ _ _ _ _) =>
       models.Workload_Name <$> models.DeviceConfigurationMessage_Workloads dc
   | _ => []
   end) = ["d"%string] ∧
  wp (GetDataMessageForDevice "ns" "dev") (λ tr out, ∃ r tr',
    tr = Ev (S := api) (GetEdgeDevice "ns" "dev") r :: tr' ∧
    (r = Ok deployed → writes tr' = [] ∧ counted tr' = [])).
Proof.
  split; [vm_compute; reflexivity|].
  eapply wp_mono; [apply (GetData_spec "ns" "dev")|].
  intros tr out (r & tr' & -> & H). exists r, tr'. split; [done|]. intros Hr.
  destruct (H _ Hr) as (Hw & Hc & _). split; [exact Hw|exact Hc].
Defined.

#[local] Instance any_date : Formats := λ _, true.

(** A device with a heartbeat of the given scope and one log collection. *)
Definition configured (scope : string) : EdgeDevice :=
  mkEdgeDevice (EdgeDevice_Meta deployed)
    (mkEdgeDeviceSpec None None
       (Some (mkHeartbeatConfiguration (Some (mkHardwareProfileConfiguration true scope)) 30))
       None None {["syslog" := Some (mkLogCollectionConfig "syslog" 12 None)]})
    (EdgeDevice_Status deployed).

(** What the receiver finds wrong with the configuration of a device. *)
Definition configuration_error (d : EdgeDevice) : option (outcome (option api_error)) :=
  match message_of (outcome_of (GetDataMessageForDevice "ns" "dev") (put_device d empty_cluster)) with
  | Some (models.mkMessage (models.ConfigurationContent dc) _ _ _ _ _) =>
      Some (outcome_of (DeviceConfigurationMessage_Validate dc) empty_cluster)
  | _ => None
  end.

(** The API server does not check the documented values of the scope, so a
    device can have another one; its configuration is then refused. *)
Example scope_is_not_checked :
  configuration_error (configured "everything") =
    Some (Returned (Some (CompositeError [CompositeError [CompositeError [CompositeError
      [Validation "scope" "body" EnumFailCode]]]]))).
Proof. vm_compute. reflexivity. Qed.

(** A format of dates that has all times on one day. *)
Definition some_date (t : Timestamp) : string := "1970-01-01T" +:+ pretty t.
Definition is_that_day (s : string) : bool := String.prefix "1970-01-01" s.
Definition no_documents (_ : string) : option json := None.

(** What the schema says of the configuration of a device. *)
Definition configuration_json_accepted (d : EdgeDevice) : option bool :=
  match message_of (outcome_of (GetDataMessageForDevice "ns" "dev") (put_device d empty_cluster)) with
  | Some (models.mkMessage (models.ConfigurationContent dc) _ _ _ _ _) =>
      Some (Schema.accepts definitions is_that_day (encode_DeviceConfigurationMessage (JArr []) dc)
        (SRef "device-configuration-message"))
  | _ => None
  end.

Lemma configuration_conforms_witness :
  configuration_error (configured "full") = Some (Returned None) ∧
  configuration_json_accepted (configured "full") = Some true ∧
  configuration_json_accepted (configured "everything") = Some false ∧
  wp (GetDataMessageForDevice "ns" "dev") (λ tr out, ∀ m, out = Returned (OK (Some m)) →
    (∀ d, Ev (S := api) (GetEdgeDevice "ns" "dev") (Ok d) ∈ tr → d = configured "full") →
    (∀ ns n dep, Ev (S := api) (GetEdgeDeployment ns n) (Ok dep) ∈ tr →
       dep = some_deployment "d" "ns" ∅ [] None "dev") →
    Schema.accepts definitions is_that_day (encode_Message some_date no_documents (JArr []) m) (SRef "message") = true ∧
    ∃ dc, models.Message_Content m = models.ConfigurationContent dc ∧
      wp (DeviceConfigurationMessage_Validate dc) (λ tr' out', tr' = [] ∧ out' = Returned None)).
Proof.
  split; [vm_compute; reflexivity|]. split; [vm_compute; reflexivity|]. split; [vm_compute; reflexivity|].
  assert (Hs : device_in_schema (configured "full")).
  { split.
    + intros hb hp [= <-] [= <-]. right. set_solver.
    + intros k v. simpl. rewrite lookup_singleton_Some. intros [_ [= <-]] [=]. }
  eapply wp_mono; [apply (configuration_conforms some_date is_that_day no_documents (JArr []) "ns" "dev"); vm_compute; reflexivity|].
  intros tr out H m Hm Hd Hdep.
  destruct (H m Hm) as (Hj & dc & Hc & _ & _ & Hv); [by intros d ->%Hd; apply Hs|]. split; [exact Hj|].
  exists dc. split; [done|]. apply Hv.
  - by intros d ->%Hd.
  - intros ns n dep ->%Hdep. intros c k e [=].
Defined.

(** A heartbeat with one event, and the same with a null one. *)
Definition some_event : models.EventInfo := models.mkEventInfo "m" "r" "info".
Definition heartbeat_of (events : list (option models.EventInfo)) : models.Heartbeat :=
  models.mkHeartbeat events None "up" None "1" [].


(** ** Messages on the wire *)

(** A report with a frequency of 2400.5 MHz and a disk of 2^60 bytes, and the message
    it is in. *)
Definition sent_hardware : models.HardwareInfo :=
  models.mkHardwareInfo None
    (Some (models.mkCPU "x86_64" 8 ["sse"] (S754_finite false 5278758976880640 (-41)) "corei7"))
    [Some (models.mkDisk false "" "" "" "" "" (Some (models.mkIoPerf 12)) false "" "sda" "" "" (2 ^ 60)%Z "" "" "")]
    [] "edge" [] None None.
Definition sent_heartbeat : models.Heartbeat :=
  models.mkHeartbeat [Some some_event] (Some sent_hardware) "up" None "1" [Some (models.mkWorkloadStatus 7 "w" "running")].
Definition sent_message : models.Message :=
  models.mkMessage (models.RawContent "heartbeat") "heartbeat" "m" 7%Z "data" 1%Z.

Definition the_document (j : json) (_ : string) : option json := Some j.
Definition the_time (_ : string) : result Timestamp := Ok 7%Z.

(** The in-memory environment with a library that reads that document. *)
Definition the_content : json := encode_Heartbeat some_date JNull sent_heartbeat.
Definition reading_server : env api cluster := {|
  answer := λ o c,
    match o return api_ans o * cluster with
    | UnmarshalHeartbeat t =>
        (content_read (the_document the_content) JNull (decode_Heartbeat the_time) zero_Heartbeat t, c)
    | UnmarshalRegistrationInfo t =>
        (content_read (the_document the_content) JNull decode_RegistrationInfo zero_RegistrationInfo t, c)
    | o => Server.serve o c
    end;
  choose := λ n c, (0, c) |}.
Definition arrived : models.Message :=
  models.mkMessage (models.RawContent "heartbeat") "heartbeat" "m" 7%Z "data" 1%Z.
Definition delivery := run reading_server (PostDataMessageForDevice "ns" "dev" arrived) (put_device deployed empty_cluster).

Lemma messages_arrive_witness :
  let sent := encode_Message some_date (the_document the_content) JNull sent_message in
  Heartbeat_UnmarshalBinary the_time (λ _, Ok the_content) (Some zero_Heartbeat) "a text" = Val (Some sent_heartbeat, None) ∧
  decode_Message the_time (λ _, "heartbeat"%string) true new_Message sent = Ok arrived ∧
  content_read (the_document the_content) JNull (decode_Heartbeat the_time) zero_Heartbeat (models.Message_Content arrived) =
    Ok sent_heartbeat ∧
  (∃ tr', delivery.1.1 = Ev (S := api) (UnmarshalHeartbeat (models.Message_Content arrived)) (Ok sent_heartbeat) :: tr' ∧
     exec (heartbeat_answer "ns" "dev" sent_heartbeat) tr' (Returned (OK None))).
Proof.
  intros sent. assert (He : empty_list JNull) by (left; reflexivity).
  assert (Hf : fits_Heartbeat the_time some_date 64 sent_heartbeat).
  { split.
    - intros hw [= <-]. split_and!; [intros c [= <-]; by split| |constructor|by intros m [=]].
      apply Forall_singleton. intros d [= <-]. split; [by intros p [= <-]|done].
    - repeat constructor. by intros w [= <-]. }
  destruct (messages_arrive some_date (the_document the_content) JNull the_time (λ _, "heartbeat"%string) (λ _, Ok "a text"%string)
    (λ _, Ok the_content) (λ _, Ok "a stream"%string) (λ _, Ok sent) "ns" He) as (Hall & Hhb & _).
  split.
  - apply (rt_Heartbeat _ _ _ _ _ _ _ Hall sent_heartbeat zero_Heartbeat "a text"%string Hf); [by intros b _|reflexivity].
  - destruct (Hhb true sent_message sent_heartbeat eq_refl eq_refl Hf) as (m' & [Hm Hgets] & Hc & Hpost).
    injection Hm as <-. split; [|split; [exact Hc|]].
    + apply (Hgets ltac:(by split) "a stream"%string eq_refl eq_refl).
    + apply (Hpost "dev"%string); [reflexivity| |].
      * assert (delivery.1.2 = Returned (OK None)) as <- by (vm_compute; reflexivity).
        apply (run_exec reading_server (PostDataMessageForDevice "ns" "dev" arrived)). vm_compute. reflexivity.
      * apply (run_answers reading_server). intros o w. destruct o; exact I || reflexivity.
Defined.

(** A heartbeat as another program may write it: an unknown name, and one twice. *)
Definition foreign_heartbeat : json := JObj [
  ("status", JStr "up"); ("colour", JStr "red"); ("status", JStr "degraded");
  ("workloads", JArr [JObj [("last_data_upload", JStr "1970-01-01T00:00:00Z"); ("status", JStr "running")]])]%string.

Lemma conforming_is_read_witness :
  Schema.accepts definitions is_that_day foreign_heartbeat (SRef "heartbeat") = true ∧
  ∃ hb, decode_Heartbeat the_time zero_Heartbeat foreign_heartbeat = Ok hb ∧ models.Heartbeat_Status hb = "degraded"%string ∧
    Heartbeat_Validate (F := registry some_date is_that_day) hb = None.
Proof.
  split; [reflexivity|].
  destruct (conforming_is_read the_time (λ _, ""%string) true some_date is_that_day is_that_day
    ltac:(intros s _; exists 7%Z; split; reflexivity) foreign_heartbeat) as (_ & H & _); [vm_compute; reflexivity|].
  destruct H as (hb & Hd & Hv & _); [reflexivity|]. exists hb. split; [exact Hd|]. split; [|exact Hv].
  vm_compute in Hd. injection Hd as <-. reflexivity.
Defined.

(** The schema looks at the case of names, the decoder does not: here is a status that
    is only wrong for the latter. *)
Example case_of_names :
  let j := JObj [("STATUS", JStr "everything")]%string in
  Schema.accepts definitions is_that_day j (SRef "heartbeat") = true ∧
  models.Heartbeat_Status <$> decode_Heartbeat the_time zero_Heartbeat j = Ok "everything"%string.
Proof. split; vm_compute; reflexivity. Qed.

(** ** A device talks to the operator *)

(** A JSON of messages that keeps their directive only. *)
Definition delivered (m : models.Message) : models.Message :=
  models.mkMessage (models.RawContent "{}") (models.Message_Directive m) "" zero_time "" 0.
Definition delivered_response (m : models.MessageResponse) : models.MessageResponse :=
  models.mkMessageResponse None (models.MessageResponse_Directive m) "".
#[local] Instance message_json : JSON models.Message :=
  {| Produce m := Ok (models.Message_Directive m);
     Decode t := Ok (models.mkMessage (models.RawContent "{}") t "" zero_time "" 0) |}.
#[local] Instance response_json : JSON models.MessageResponse :=
  {| Produce m := Ok (models.MessageResponse_Directive m);
     Decode t := Ok (models.mkMessageResponse None t "") |}.

(** A router for the paths of one device, and a transport without TLS to it. *)
Definition pattern_of (e : endpoint) : ClientOperation :=
  operation (remote_of "ns" delivered delivered_response e).
Definition routed (method path : string) : option (nat * endpoint) :=
  list_find (λ e, op_Method (pattern_of e) = method ∧ endpoint_path e "dev" = path)
    [DataIn; DataOut; ControlIn; ControlOut].
Definition some_router : Router :=
  mkRouter (λ method path,
      match routed method path with
      | Some (_, e) => Some (PathPattern (pattern_of e), [("device_id", "dev")])%string
      | None => None
      end) (λ _ _, []).
Definition some_transport (e : endpoint) : transport := λ op req,
  mkRestRequest (mkHttpRequest (endpoint_path e "dev") None) (endpoint_path e "dev") (op_Method op) (bool_decide (is_Some (BodyParam req)))
    (match BodyParam req with Some m => Consumed (delivered m) | None => ConsumedEOF end) [].
Definition device_calls (e : endpoint) (m : models.Message) :=
  submit "ns" some_router some_served (some_transport e) (remote_of "ns" delivered delivered_response e) "dev" m.

(** The device fetches its configuration; the message of the handler arrives. *)
Lemma remote_call_witness :
  outcome_of (device_calls DataIn zero_Message) (put_device deployed empty_cluster) =
    Returned (Result _ (GetDataMessageForDeviceOK
      (Some (models.mkMessage (models.RawContent "{}") "device" "" zero_time "" 0)))) ∧
  ∃ tr2 res, exec (GetDataMessageForDevice "ns" "dev") tr2 (Returned res) ∧
    ∃ o, to_GetData res = Some o ∧
    Result _ (GetDataMessageForDeviceOK (Some (models.mkMessage (models.RawContent "{}") "device" "" zero_time "" 0)))
      = GetData_seen delivered o.
Proof.
  split; [vm_compute; reflexivity|].
  destruct (remote_call "ns" delivered delivered_response None some_router some_served (some_transport DataIn)
    DataIn "dev" zero_Message (run server (device_calls DataIn zero_Message) (put_device deployed empty_cluster)).1.1
    (Result _ (GetDataMessageForDeviceOK (Some (models.mkMessage (models.RawContent "{}") "device" "" zero_time "" 0)))))
    as [(H & _)|(tr1 & tr2 & res & o & _ & _ & _ & He & Ho & Hs)].
  - intros p t [= <-]. reflexivity.
  - intros p t [= <-]. reflexivity.
  - split; [reflexivity|]. split; [reflexivity|]. split; [reflexivity|]. split; [reflexivity|].
    split; [intros m [=]|]. vm_compute. reflexivity.
  - split; [left; reflexivity|left; reflexivity].
  - exact (run_exec server (device_calls DataIn zero_Message) (put_device deployed empty_cluster) eq_refl).
  - destruct H. reflexivity.
  - exists tr2, res. split; [exact He|]. exists o. split; [exact Ho|exact Hs].
Defined.

Definition a_request (peers : option (list Certificate)) : request :=
  mkRestRequest (mkHttpRequest (endpoint_path DataOut "dev") peers) (endpoint_path DataOut "dev") "POST" true
    (Consumed (models.mkMessage (models.RawContent "{}") "unknown" "" zero_time "rumour" 0)) [].

(** A message of an unknown type is turned away at the door. *)
Lemma serve_spec_witness :
  outcome_of (serve "ns" some_router some_served (a_request None)) empty_cluster =
    Returned (mkHttpResponse 422 (ErrorDocument 422)) ∧
  writes (run server (serve "ns" some_router some_served (a_request None)) empty_cluster).1.1 = [].
Proof.
  split; [vm_compute; reflexivity|].
  destruct (serve_spec "ns" some_router some_served (a_request None)
    (run server (serve "ns" some_router some_served (a_request None)) empty_cluster).1.1
    (mkHttpResponse 422 (ErrorDocument 422))
    (run_exec server (serve "ns" some_router some_served (a_request None)) empty_cluster eq_refl))
    as [[H _]|(pattern & params & e & tr1 & tr2 & Hl & Hh & _ & _ & _ & Hhan)]; [exact H|].
  exfalso. vm_compute in Hl. injection Hl as <- <-. vm_compute in Hh. injection Hh as <-.
  destruct Hhan as (m & (_ & Hm & [_ Hty]) & _). injection Hm as <-.
  destruct Hty as [Hty|Hty]; [discriminate|]. repeat (apply elem_of_cons in Hty as [Hty|Hty]; [discriminate|]).
  by apply elem_of_nil in Hty.
Defined.

Lemma invalid_message_refused_witness :
  ∃ resp, PostData_ServeHTTP "ns" [("device_id", "dev")]%string (a_request None) = Ret resp ∧
    PostData_ReadResponse resp = APIError _ 422.
Proof.
  destruct (invalid_message_refused "ns" [("device_id", "dev")]%string (a_request None))
    as (resp & H1 & _ & _ & H2).
  - reflexivity.
  - intros m (_ & Hm & [_ Hty]). injection Hm as <-.
    destruct Hty as [Hty|Hty]; [discriminate|]. repeat (apply elem_of_cons in Hty as [Hty|Hty]; [discriminate|]).
    by apply elem_of_nil in Hty.
  - exists resp. split; [exact H1|exact H2].
Defined.

(** ** The life of a device *)

Definition request_of (e : endpoint) (method : string) (body : option models.Message) : request :=
  mkRestRequest (mkHttpRequest (endpoint_path e "dev") None) (endpoint_path e "dev") method (bool_decide (is_Some body))
    (match body with Some m => Consumed m | None => ConsumedEOF end) [].
Definition requesting (e : endpoint) (method : string) (body : option models.Message) : go unit :=
  program_of "ns" 5 false (AnswerRequest some_router some_served (request_of e method body)).

(** It registers, a user deletes it, it fetches its empty configuration, and is
    told to disconnect. *)
Definition enrolling : go unit := requesting DataOut "POST"
  (Some (models.mkMessage (models.RawContent "{}") "registration" "" zero_time "data" 0)).
Definition enrolled_cluster : cluster := cluster_of enrolling empty_cluster.
Definition deleted_cluster : cluster :=
  put_device (leaving [YggdrasilConnectionFinalizer; YggdrasilWorkloadFinalizer]) enrolled_cluster.
Definition drained_cluster : cluster := cluster_of (requesting DataIn "GET" None) deleted_cluster.
Definition gone_cluster : cluster := cluster_of (requesting ControlIn "GET" None) drained_cluster.

Abbreviation operator_reachable := (reachable (recalls answers is_cached) (starts "ns" 5 false) users (empty_cluster, [])).

Lemma requesting_starts e method body : starts "ns" 5 false (requesting e method body).
Proof. by eexists. Qed.

Lemma empty_decent : decent_world empty_cluster.
Proof. split; intros k d H; exfalso; exact (lookup_empty_Some k d H). Qed.

Lemma drained_reachable : ∃ past, operator_reachable (mkPool [] (drained_cluster, past)).
Proof.
  destruct (reachable_activity (starts "ns" 5 false) users (empty_cluster, []) enrolling [] empty_cluster [])
    as [past0 H0]; [apply requesting_starts|vm_compute; reflexivity|constructor|].
  fold enrolled_cluster in H0.
  assert (operator_reachable (mkPool [] (deleted_cluster, enrolled_cluster :: past0))) as H1.
  { eapply reachable_step; [exact H0|]. apply step_others, users_meddle.
    assert (Hdev : ∃ d, devices enrolled_cluster = {[("ns", "dev")%string := d]} ∧ device_deployments d = []).
    { eexists. split; vm_compute; reflexivity. }
    destruct Hdev as (d & Hdev & Hnone). intros k d' Hk. change (devices_of deleted_cluster) with
      (<[("ns", "dev")%string := leaving [YggdrasilConnectionFinalizer; YggdrasilWorkloadFinalizer]]> (devices enrolled_cluster)) in Hk.
    change (devices_of enrolled_cluster) with (devices enrolled_cluster). rewrite Hdev in *.
    rewrite insert_singleton_eq in Hk. apply lookup_singleton_Some in Hk as [<- <-].
    rewrite lookup_singleton_eq. split_and!; [reflexivity|by intros _|done]. }
  destruct (reachable_activity _ users (empty_cluster, []) (requesting DataIn "GET" None) [] deleted_cluster _
    (requesting_starts _ _ _) ltac:(vm_compute; reflexivity) H1) as [past2 H2]. by exists past2.
Qed.

Lemma devices_stay_decent_witness :
  (devices enrolled_cluster !! ("ns", "dev")%string ≠ None) ∧
  ((λ d, Finalizers (EdgeDevice_Meta d)) <$> devices drained_cluster !! ("ns", "dev")%string) =
    Some [YggdrasilConnectionFinalizer] ∧
  devices gone_cluster !! ("ns", "dev")%string = None ∧ decent_world gone_cluster.
Proof.
  split; [vm_compute; discriminate|]. split; [vm_compute; reflexivity|]. split; [vm_compute; reflexivity|].
  destruct drained_reachable as [past H].
  destruct (reachable_activity _ users (empty_cluster, []) (requesting ControlIn "GET" None) [] drained_cluster _
    (requesting_starts _ _ _) ltac:(vm_compute; reflexivity) H) as [past2 H2].
  refine (devices_stay_decent "ns" 5 false empty_cluster _ _ empty_decent H2). lia.
Defined.

(** The last request of that life, after its read, and what its next call does. *)
Definition next (p : go unit) (c : cluster) : go unit * cluster :=
  match p with Call o k => let '(a, c') := Server.serve o c in (k a, c') | _ => (p, c) end.
Lemma next_step p c past :
  (if p is Call _ _ then True else False) →
  thread_step (recalls answers is_cached) p (c, past) (next p c).1 ((next p c).2, c :: past).
Proof.
  destruct p as [|? |o k|]; try done. intros _. unfold next. destruct (Server.serve o c) as [a c'] eqn:E. simpl.
  by apply thread_call, recalls_now.
Qed.
Definition last_words : go unit := (next (requesting ControlIn "GET" None) drained_cluster).1.

Lemma operator_spares_devices_witness :
  let c' := (next last_words drained_cluster).2 in
  devices c' !! ("ns", "dev")%string = None ∧
  ∃ past, tended "ns" (drained_cluster, past) ("ns", "dev")%string
    (devices drained_cluster !! ("ns", "dev")%string) (devices c' !! ("ns", "dev")%string).
Proof.
  intros c'. split; [vm_compute; reflexivity|]. destruct drained_reachable as [past H]. exists (drained_cluster :: past).
  assert (operator_reachable (mkPool [requesting ControlIn "GET" None] (drained_cluster, past))) as H1
    by (eapply reachable_step; [exact H|apply step_start, requesting_starts]).
  assert (operator_reachable (mkPool [last_words] (drained_cluster, drained_cluster :: past))) as H2.
  { eapply reachable_step; [exact H1|]. apply (step_run _ _ _ []).
    exact (next_step (requesting ControlIn "GET" None) drained_cluster past I). }
  refine (operator_spares_devices "ns" 5 false empty_cluster _ last_words (next last_words drained_cluster).1
    (c', drained_cluster :: drained_cluster :: past) _ empty_decent H2 _ _ _).
  - lia.
  - left.
  - exact (next_step last_words drained_cluster (drained_cluster :: past) I).
Defined.

(** ** Histories *)
Lemma decent_check (c : cluster) :
  bool_decide (map_Forall (λ k d, key_of d = k ∧ NoDup (phases (EdgeDevice_Status d)).*1 ∧
    implb (has YggdrasilWorkloadFinalizer d) (has YggdrasilConnectionFinalizer d) = true) (devices c)) = true →
  decent_world c.
Proof.
  intros H%bool_decide_eq_true. split; [intros k d Hd; by apply (H k d)|].
  intros k d Hd. destruct (H k d Hd) as (_ & Hnd & Ho). split; [exact Hnd|].
  unfold ordered. by destruct (has YggdrasilWorkloadFinalizer d), (has YggdrasilConnectionFinalizer d).
Qed.

Definition say_goodbye (v : visit) (c : cluster) : cluster := cluster_of (answer_visit "ns" "dev" v) c.
Definition reply_to (v : visit) (c : cluster) : reply :=
  match outcome_of (answer_visit "ns" "dev" v) c with Returned a => a | Crashed _ => Sent BadRequest end.

Lemma visits_follow_life_witness :
  phase_of (devices (say_goodbye FetchData deleted_cluster) !! ("ns", "dev")%string) = Drained ∧
  step_of "ns" "dev" FetchData deleted_cluster (run server (answer_visit "ns" "dev" FetchData) deleted_cluster).1.1
    (reply_to FetchData deleted_cluster) (say_goodbye FetchData deleted_cluster).
Proof.
  split; [vm_compute; reflexivity|].
  refine (run_swp (answer_visit "ns" "dev" FetchData) deleted_cluster _ (reply_to FetchData deleted_cluster)
    (visits_follow_life "ns" "dev" FetchData deleted_cluster (decent_check _ _)) _ _); vm_compute; reflexivity.
Defined.

Lemma history_run v c evs w :
  live server (answer_visit "ns" "dev" v) c = true → is_returned (outcome_of (answer_visit "ns" "dev" v) c) = true →
  history "ns" (say_goodbye v c) evs w → history "ns" c (("dev"%string, v, reply_to v c) :: evs) w.
Proof.
  intros Hl Hr Hh. eapply history_visit; [|apply (run_evolves (answer_visit "ns" "dev" v) c)|exact Hh]. unfold reply_to, outcome_of in *.
  pose proof (run_exec server (answer_visit "ns" "dev" v) c Hl) as He. by destruct (run _ _ _).1.2.
Qed.

Lemma no_device_vanishes_unheard_witness :
  let c2 := say_goodbye FetchData deleted_cluster in
  let evs := [("dev", FetchData, reply_to FetchData deleted_cluster); ("dev", FetchControl, reply_to FetchControl c2)]%string in
  devices (say_goodbye FetchControl c2) !! ("ns", "dev")%string = None ∧
  ∃ before e after, evs = before ++ e :: after ∧ emptied "dev" e ∧ Exists (dismissed "dev") after.
Proof.
  intros c2 evs. split; [vm_compute; reflexivity|].
  refine (no_device_vanishes_unheard "ns" "dev" enrolled_cluster evs (say_goodbye FetchControl c2) (decent_check _ _) _ _ _).
  - vm_compute. reflexivity.
  - eapply (history_users _ _ deleted_cluster).
    + split; [apply decent_check; vm_compute; reflexivity|].
      assert (Hdev : ∃ d, devices enrolled_cluster = {[("ns", "dev")%string := d]} ∧
        has YggdrasilWorkloadFinalizer d = true ∧ has YggdrasilConnectionFinalizer d = true).
      { eexists. split_and!; vm_compute; reflexivity. }
      destruct Hdev as (d & Hdev & Hw & Hc). intros k. change (devices_of deleted_cluster) with
        (<[("ns", "dev")%string := leaving [YggdrasilConnectionFinalizer; YggdrasilWorkloadFinalizer]]> (devices enrolled_cluster)).
      change (devices_of enrolled_cluster) with (devices enrolled_cluster). rewrite Hdev, insert_singleton_eq.
      destruct (decide (k = ("ns", "dev")%string)) as [->|Hk].
      * rewrite !lookup_singleton_eq, Hw, Hc. by split_and!.
      * by rewrite !lookup_singleton_ne.
    + apply history_run; [vm_compute; reflexivity..|]. apply history_run; [vm_compute; reflexivity..|]. constructor.
  - vm_compute. reflexivity.
  - vm_compute. reflexivity.
Defined.

(** ** The API object *)
From S2P Require Import ManagementApi.
Definition some_api (config : ApiConfig) :=
  HandlerAPI (Document := unit) (Registry := unit) (Consumer := unit) (Producer := unit) (λ _, tt)
    (λ _ _ _ _ _, Ret (mkHttpResponse 404 NoBody)) (λ _ _ _ _ _, Ret (mkHttpResponse 404 NoBody))
    (λ _, Ret (mkHttpResponse 501 NoBody)) tt tt tt tt tt tt (Ok tt) config.
Definition some_config : ApiConfig (Authenticator := unit) := mkApiConfig (yggdrasil_api "ns") None None None None.

(** The cached handler for the configuration answers like the operation. *)
Lemma HandlerAPI_serves_witness :
  match some_api some_config with
  | Ok (_, api) => Validate api = None ∧
      match HandlerFor "get" "/data/{device_id}/in" api with
      | Some op => same_executions (op [("device_id", "dev")]%string (request_of DataIn "GET" None))
          (ServeHTTP "ns" DataIn [("device_id", "dev")]%string (request_of DataIn "GET" None))
      | None => False
      end
  | Err _ => False
  end.
Proof.
  pose proof (HandlerAPI_serves (Document := unit) (Registry := unit) (Consumer := unit) (Producer := unit) (λ _, tt)
    (λ _ _ _ _ _, Ret (mkHttpResponse 404 NoBody)) (λ _ _ _ _ _, Ret (mkHttpResponse 404 NoBody))
    (λ _, Ret (mkHttpResponse 501 NoBody)) tt tt tt tt tt tt (Ok tt) "ns" some_config eq_refl) as H.
  fold (some_api some_config) in H. destruct (some_api some_config) as [[h api]|e]; [|discriminate H].
  destruct H as (Hv & _ & _ & H). split; [exact Hv|]. specialize (H "get" "/data/{device_id}/in")%string.
  change (Rest.HandlerFor "get" "/data/{device_id}/in") with (Some DataIn) in H.
  destruct (HandlerFor "get" "/data/{device_id}/in" api) as [op|]; [exact (H _ _)|exact H].
Defined.

(** A fresh object with the handlers of the stubs. *)
Definition fresh_api : FlottaManagementAPI (Authenticator := unit) :=
  NewFlottaManagementAPI (Document := unit) (Context_ := unit) (Registry := unit) (Consumer := unit) (Producer := unit)
    (λ _, Ret (mkHttpResponse 501 NoBody)) tt tt tt tt tt tt None.
Definition teapot : Builder := λ _ _ _, Ret (mkHttpResponse 418 NoBody).

Lemma AddMiddlewareFor_spec_witness :
  AddMiddlewareFor (λ _, tt) "get" "/data/{device_id}/in" teapot fresh_api = NilDeref ∧
  match AddMiddlewareFor (λ _, tt) "GET" "/data/{device_id}/in" teapot fresh_api with
  | Val o => HandlerFor "get" "/data/{device_id}/in" o = Some (teapot (λ _ _, Ret (mkHttpResponse 0 NoBody)))
  | NilDeref => False
  end.
Proof.
  split.
  - refine (proj2 (proj2 (AddMiddlewareFor_spec (λ _, tt) "get" "/data/{device_id}/in" teapot fresh_api)) _ _).
    + by eexists.
    + vm_compute. reflexivity.
  - destruct (AddMiddlewareFor_spec (λ _, tt) "GET" "/data/{device_id}/in" teapot fresh_api) as (_ & H & _).
    destruct H as (o & -> & H); [by eexists|reflexivity|]. rewrite H. reflexivity.
Defined.

(** ** The server of the devices *)
From S2P Require Import Startup DeviceServer.

Lemma some_router_handled : routes_handled some_router.
Proof.
  intros method path pattern params. simpl.
  destruct (routed method path) as [[i e]|] eqn:E; [|done]. intros [= <- <-].
  apply list_find_Some in E as (_ & [<- _] & _). unfold pattern_of. rewrite HandlerFor_operation. by eexists.
Qed.

Definition some_server (synced : bool) : go (served * listening) :=
  serve_devices (Document := unit) (Context_ := unit) (Registry := unit) (Consumer := unit) (Producer := unit)
    (Authenticator := unit) some_router "{}" "<html>" "<html>" (λ _, tt) (λ _, Ret (mkHttpResponse 501 NoBody))
    tt tt tt tt tt tt (Ok tt) synced (λ _, ErrorString "several") "flotta" no_config.

(** Without its caches the process ends; and what is served is the server of [Rest]. *)
Lemma serve_devices_spec_witness :
  outcome_of (some_server false) empty_cluster = Crashed (Exit 1) ∧
  wp (some_server true) (λ _ out, match out with
    | Crashed c => c = Exit 1
    | Returned (s, l) => prepared no_config s ∧
        match root_handler l with
        | Some h => same_executions (h [] (request_of DataIn "GET" None))
            (serve (TLS := tls_signer (mtlsConfig s)) "default" some_router s (request_of DataIn "GET" None))
        | None => False
        end
    end).
Proof.
  split; [vm_compute; reflexivity|].
  eapply wp_mono; [refine (serve_devices_spec (Document := unit) (Context_ := unit) (Registry := unit) (Consumer := unit)
    (Producer := unit) (Authenticator := unit) some_router "{}" "<html>" "<html>" (λ _, tt)
    (λ _, Ret (mkHttpResponse 501 NoBody)) tt tt tt tt tt tt (Ok tt) true (λ _, ErrorString "several") "flotta"
    no_config some_router_handled)|].
  intros tr [[s l]|c] [_ H]; [|exact H]. destruct H as (_ & Hp & _ & H). split; [exact Hp|].
  destruct (root_handler l) as [h|]; [apply H; reflexivity|discriminate H].
Defined.

(** The documents of the API are in front of the middleware: a client without any
    certificate is answered. *)
Example documents_are_public :
  let r := mkRestRequest (mkHttpRequest "/swagger.json" (Some [])) "/swagger.json" "GET" false ConsumedEOF [] in
  match outcome_of (some_server true) empty_cluster with
  | Returned (_, mkListening _ _ _ (Some h)) => outcome_of (h [] r) empty_cluster = Returned (mkHttpResponse 200 (Json "{}"))
  | _ => False
  end.
Proof. vm_compute. reflexivity. Qed.

(** ** The client *)
From S2P Require Import Client.

Definition some_round_tripper : round_tripper unit unit := λ op req,
  resp ← serve "ns" some_router some_served
           (some_transport (sub_endpoint op) (operation_of (sub_endpoint op)) req.1);
  Ret (Ok resp).
Definition fetch_data : go (answered GetDataMessageForDeviceResponder) :=
  Client_GetDataMessageForDevice (New (AuthInfoWriter := unit) some_round_tripper None) None
    (Some (WithDeviceID "dev" NewClientParams)).
Definition fetched : answered GetDataMessageForDeviceResponder :=
  Result _ (GetDataMessageForDeviceOK (Some (models.mkMessage (models.RawContent "{}") "device" "" zero_time "" 0))).

(** The method fetches the configuration that the handler answered. *)
Lemma client_remote_call_witness :
  outcome_of fetch_data (put_device deployed empty_cluster) = Returned fetched ∧
  ∃ tr2 res, exec (GetDataMessageForDevice "ns" "dev") tr2 (Returned res) ∧
    ∃ o, to_GetData res = Some o ∧ fetched = GetData_seen delivered o.
Proof.
  split; [vm_compute; reflexivity|].
  destruct (client_remote_call (AuthInfoWriter := unit) "ns" delivered delivered_response None some_router some_served (some_transport DataIn)
    (λ op req, resp ← serve "ns" some_router some_served (some_transport DataIn (operation_of (sub_endpoint op)) req.1);
               Ret (Ok resp)) None DataIn None
    (WithDeviceID "dev" NewClientParams : ClientParams unit unit) zero_Message
    (run server fetch_data (put_device deployed empty_cluster)).1.1 (Returned fetched))
    as [(c & [=] & _)|(ans & [= <-] & [(H & _)|(tr1 & tr2 & res & o & _ & _ & _ & He & Ho & Hs)])].
  - intros p t [= <-]. reflexivity.
  - intros p t [= <-]. reflexivity.
  - split; [reflexivity|]. split; [reflexivity|]. split; [reflexivity|]. split; [reflexivity|].
    split; [intros m [=]|]. vm_compute. reflexivity.
  - split; [left; reflexivity|left; reflexivity].
  - intros op req. reflexivity.
  - intros [=].
  - exact (run_exec server fetch_data (put_device deployed empty_cluster) eq_refl).
  - destruct H. reflexivity.
  - exists tr2, res. split; [exact He|]. exists o. split; [exact Ho|exact Hs].
Defined.

(** A client without an address of its own. *)
Example default_client (send : Runtime (RoundTripper := unit) → round_tripper unit unit) :
  FlottaManagement_Transport (FlottaManagement_New tt send (mkClientConfig (AuthInfoWriter := unit) None None None)) =
    mkRuntime "localhost" "/api/flotta-management/v1" ["http"; "https"]%string tt.
Proof. reflexivity. Qed.
